(* ===== verification/_CoqProject ===== *)
-Q . S2P
Prelude.v
OMap.v
Text.v
ByteStream.v
StreamReassembler.v
Reassembly.v
WrappingIntegers.v
Buffer.v
Parser.v
InternetChecksum.v
TCPHeader.v
TCPSegment.v
IPv4Header.v
IPv4Datagram.v
EthernetHeader.v
EthernetFrame.v
ARPMessage.v
PacketText.v
TCPReceiver.v
TCPConfig.v
TCPSender.v
Sending.v
Transfer.v
Completion.v
Ordered.v
TCPState.v
TCPConnection.v
Endpoint.v
Typing.v
Dialog.v
Session.v
Benchmark.v
BenchmarkRun.v
NetworkInterface.v
Resolution.v
Router.v
Forwarding.v
NetworkSimulator.v
Simulation.v
Adapters.v
Transmission.v
FileDescriptor.v
Address.v
Socket.v
EventLoop.v
SpongeSocket.v
Delivery.v
SocketOwner.v
StreamCopy.v
CopyProgress.v
CommandLine.v
Tcpdump.v
Bouncer.v
Lab7.v
Lab7Delivery.v
Programs.v
Doctests.v
