(* ===== verification/Prelude.v ===== *)
(** * Sponge: a verification library for the CS144 TCP/IP stack

    The program is a user-space network stack in C++ (src/libsponge).  A byte
    stream written by one application is cut into TCP segments, put into IPv4
    datagrams and Ethernet frames, forwarded by routers, and put together again on
    the other side.  This library models the stack function by function and proves
    what makes its parts correct.

    ** Parts of the program and files of the library

    Every file models one component, from the class of the same name; a file of
    proofs follows where they are long.  The list goes from the bottom up.

    - [Prelude]: results with exceptions ([res] and its [let*]), record updates,
      machine integers, byte strings, the hint databases [sponge] and [len] and the
      tactics the other files use.  [OMap]: ordered maps, [std::map] as a sorted
      association list.
    - [ByteStream] (byte_stream): the bounded stream between two users, with the
      abstract FIFO [Spec] it refines.
    - [StreamReassembler] (stream_reassembler): [push_substring] with its loops.
      [Reassembly]: runs of it ([reach]), the abstraction relation to the set of
      received indices, and the longest-prefix theorem.
    - [WrappingIntegers] (wrapping_integers): 32-bit sequence numbers.
    - [Buffer], [Parser], [InternetChecksum] (util/buffer, util/parser, util/util):
      what the packet formats are built from.
    - [TCPHeader], [TCPSegment], [IPv4Header], [IPv4Datagram], [EthernetHeader],
      [EthernetFrame], [ARPMessage] (tcp_helpers): the packet formats.
    - [TCPReceiver] (tcp_receiver): on top of the reassembler.
    - [TCPConfig], [TCPSender] (tcp_config, tcp_sender): the sending side with
      its timer and the zero-window probe.  [Sending]: runs of it ([srun]), its
      invariant [sender_ok], and the theorems.  [Transfer]: a sender and a receiver
      over a network that loses, repeats and reorders.  [Completion]: once the network
      behaves, such a transfer ends.  [Ordered]: transfers whose acknowledgments keep
      their order.
    - [TCPState], [TCPConnection] (tcp_state, tcp_connection): the state summaries and
      the endpoint that joins sender and receiver.  [Endpoint]: its theorems.
    - [NetworkInterface] (network_interface): IPv4 over Ethernet with ARP.
      [Resolution]: timed runs with their history ([irun]) and the theorems.
    - [Router] (router): queueing interfaces and longest-prefix match.
      [Forwarding]: the step relation [forwards] that [route] refines.
    - [Adapters] (tcp_over_ip, fd_adapter, lossy_fd_adapter, tuntap_adapter): segments
      to and from devices, behind the interface [FdAdapter], the template parameter
      of the C++ code.  [Transmission]: what one side writes the other reads.
    - [FileDescriptor], [EventLoop], [SpongeSocket] (util/file_descriptor, util/eventloop,
      tcp_helpers/tcp_sponge_socket): the loop that drives a connection between a
      device and its owner.  [Delivery]: the theorems about it.  [SocketOwner]: what the
      thread of the owner does, from construction to destruction, and the sockets
      [CS144TCPSocket] and [FullStackSocket].
    - [Address], [Socket] (util/address, util/socket, util/tun): raw socket addresses,
      sockets and TUN/TAP devices over system calls.
    - [Text] (util/util): numbers as text and the hex dump.  [PacketText]: packets as
      text, from the [to_string] and [summary] functions.
    - The programs under src/apps: [NetworkSimulator] (network_simulator), with
      [Simulation] for its theorem; [StreamCopy] (bidirectional_stream_copy);
      [CommandLine] (the options of tcp_ipv4, tcp_udp, tcp_ip_ethernet, tcp_native and
      udp_tcpdump); [Tcpdump] (udp_tcpdump, tun); [Bouncer] (bouncer, webget);
      [Lab7] (lab7).  [CopyProgress] and [Lab7Delivery] hold the theorems about the
      stream copy as a loop that ends and about the two sides of lab 7.
      [Benchmark] (tcp_benchmark): two connections joined in memory.  [Programs]: the
      main functions, as sequences of calls into the library.
    - [Typing]: the fields of a connection and of its segments keep the widths of
      their C++ types.  [Dialog]: two whole connections over a network that loses,
      repeats and reorders, simulated by a pair of transfers; the simulation is proved
      against the interface [Network], which [Transfer] implements and, for networks
      that keep the order of acknowledgments, [Ordered].  [Session]: two whole
      connections over such a network.  [BenchmarkRun]: the loop of tcp_benchmark as
      such a session.
    - [Doctests] (src/doctests): the code samples of the documentation.

    ** Conventions of the model

    A class is a [Record] with the source's field names, a method a function that
    takes the object first and returns the changed one.  A method that can throw
    returns [res]; the object after an exception is not modelled.  Unsigned
    integers are [Z] with the wrap-around written out ([u8] to [u64]) wherever an
    operation can overflow.  A queue is a list with its front first, a [std::map]
    whose order matters an [OMap] list, the maps of [NetworkInterface] are [gmap]s.
    Debugging output is left out.  Randomness (the initial sequence number, the loss
    of packets), time and what devices return are arguments.

    Loops that are not structural have fuel and throw [NoFuel] when it runs out;
    the termination theorems show that it does not: [push_substring_total] for the
    reassembler (fuel: the stored bytes and substrings), [fill_window_fills] and
    [segment_received_returns] for sender and connection (fuel: the buffered bytes,
    the queued segments), [route_forwards] for the router (fuel: the queued
    datagrams), and [unwrap_closest] for the search of [unwrap] (four candidates).

    ** What the theorems show

    - Reassembly: whatever the order, overlap and repetition of substrings, the
      output is the longest received prefix, and nothing is lost or invented; each
      call ends.  The receiver acknowledges exactly that prefix.
    - Sending: every segment carries the written bytes at its sequence number, the
      window is respected and filled, acknowledgments remove exactly what they
      cover, the timer retransmits the oldest segment with exponential backoff.
    - The endpoint acknowledges everything it takes, a reset is final, the states are
      those of the TCP specification, and lingering ends after ten timeouts.
    - Formats: parsing inverts serialization, for integers, segments, datagrams,
      frames and ARP messages, with checksums that verify.
    - ARP: the cache holds exactly what was learned in the last 30 seconds, and
      requests are at least 5 seconds apart.
    - Routing is longest-prefix match with the TTL decremented, and [route] empties
      every queue.
    - Devices: segments cross TUN and Ethernet unchanged, and only segments of the
      connection get through.
    - The loop: a ready rule is served or reported as busy, [write] writes
      everything, and no byte is lost or repeated between owner and connection.
    - Compositions: a sender and a receiver over a network that loses, repeats and
      reorders ([transfer_delivers]), which delivers the whole stream once what is sent
      arrives ([transfer_completes]); when acknowledgments keep their order, with no
      conditions on the segments and the states ([ordered_refines_transfer],
      [ordered_completes]); two whole connections over a network of the first kind
      ([dialog_delivers]) and of the second ([session_delivers]), of which tcp_benchmark
      is a run ([benchmark_in_order]); hosts and a router with their ARP exchanges
      ([routed_traffic_succeeds]); the stream copy between a terminal and a socket,
      which loses nothing as long as the side
      it writes to stays ([copy_complete]) and returns ([copy_returns]); a segment
      from one host of lab 7 to the other over two routers ([lab7_delivers]).
    - Programs: options are read as written, captured segments are shown as they were
      sent, the bouncer is a relay, the hex dump is the one drawn line by line.
    - Defects: each theorem about one shows the code doing it on a concrete run or
      for all inputs of a kind ([eviction_size_underflow], [eof_after_truncation],
      [eof_lost_on_duplicate], [second_fin_sent], [window_truncated],
      [bad_version_stops_router], [bad_headers_accepted], [short_doff_accepted],
      [short_frame_accepted], [second_datagram_lost], [request_releases_nothing],
      [udp_ports_unchecked], [time_not_counted], [poll_error_swallowed],
      [stale_ack_truncates_stream], [stale_window_starves], [short_header_overread], [truncated_capture_throws],
      [incorrect_checksum_hides_header], [loss_option_prefix], [newest_ack_misjudged],
      [stray_resets_accepted]).  Theorems on runs exclude these
      inputs by hypotheses that name them, such as [second_fin_risk] and [fits].

    ** Not modelled

    The kernel: system calls, poll, the clock, name resolution and libpcap are
    parameters with their documented behaviour as hypotheses where a theorem needs it.
    The interleaving of the two threads of a socket in memory: what the owner does is
    seen by the thread of the connection as the state of the socket pair and the flag
    [_abort].  The seeding of the random generator.
*)

From stdpp Require Import base list numbers decidable option.
From Stdlib Require Import ZArith Lia Strings.Byte Sorting.Sorted.

Declare Scope sponge_scope.
Delimit Scope sponge_scope with sponge.
Open Scope sponge_scope.
#[local] Open Scope Z_scope.

(** ** Results of fallible code *)

(** The C++ exceptions the code throws.  Two are not exceptions:
    [UndefinedBehaviour] marks a call whose precondition fails (the front of an
    empty queue), and [NoFuel] a loop of the model that used up its fuel; the
    termination theorems show that it is never the result. *)
Inductive exn :=
| out_of_range
| runtime_error
| unix_error
| tagged_error
| bad_optional_access
| invalid_argument
| length_error
| UndefinedBehaviour
| NoFuel.

Inductive res (A : Type) : Type :=
| Ok (a : A)
| Throw (e : exn).
Arguments Ok {A} a.
Arguments Throw {A} e.

Definition res_bind {A B : Type} (c : res A) (k : A -> res B) : res B :=
  match c with
  | Ok a => k a
  | Throw e => Throw e
  end.

(** The value of [c], or [d] when it throws. *)
Definition res_or {A : Type} (c : res A) (d : A) : A := match c with Ok a => a | Throw _ => d end.

Notation "'let*' x ':=' c 'in' k" := (res_bind c (fun x => k))
  (at level 10, x pattern, c at level 200, k at level 200) : sponge_scope.

(** ** Record updates *)

(** [r <| f := v |>] is [r] with the field [f] replaced by [v].  A record type
    declares its eta expansion once; the setter of a field is derived from it. *)
Class RecordEta (R : Type) := record_eta : R -> R.
Class FieldSetter {R E : Type} (proj : R -> E) := field_update : (E -> E) -> R -> R.

Ltac derive_field_setter :=
  lazymatch goal with
  | |- @FieldSetter ?R ?E ?proj =>
      let e := constr:(@record_eta R _) in
      let eta := lazymatch e with @record_eta _ ?i => eval unfold i in i end in
      exact (fun (up : E -> E) (r : R) =>
        ltac:(let b := eval cbv beta in (eta r) in
              let p := eval pattern (proj r) in b in
              lazymatch p with
              | ?g _ => let b' := eval cbv beta in (g (up (proj r))) in exact b'
              end))
  end.
#[export] Hint Extern 1 (FieldSetter _) => derive_field_setter : typeclass_instances.

Notation "r <| f := v |>" := (field_update (proj := f) (fun _ => v) r)
  (at level 12, f constr at level 10, v at level 200, left associativity,
   format "r  <|  f  :=  v  |>") : sponge_scope.

Ltac sponge_simpl := cbv beta iota delta [field_update] in *; simpl in *.

(** ** Machine integers *)

(** Unsigned integers of the code are [Z]; an operation that can overflow wraps
    explicitly.  [size_t], [uint64_t] and [unsigned long] are 64 bits wide,
    [unsigned int] and [uint32_t] 32. *)
Definition u8 (z : Z) : Z := z mod 256.
Definition u16 (z : Z) : Z := z mod 65536.
Definition u32 (z : Z) : Z := z mod 4294967296.
Definition u64 (z : Z) : Z := z mod 18446744073709551616.
Definition UINT64_MAX : Z := 18446744073709551615.

(** ** Byte strings *)

Abbreviation bytes := (list byte).

(** [s.size()] *)
Definition len {A : Type} (l : list A) : Z := Z.of_nat (length l).

#[global] Instance byte_eq_dec : EqDecision byte.
Proof. exact Byte.byte_eq_dec. Defined.

Definition byte_val (b : byte) : Z := Z.of_N (Byte.to_N b).
Definition byte_of_Z (z : Z) : byte :=
  match Byte.of_N (Z.to_N (z mod 256)) with
  | Some b => b
  | None => x00
  end.

(** [std::string::substr(0, n)]: position 0 is never out of range. *)
Definition prefix_str (s : bytes) (n : Z) : bytes := take (Z.to_nat n) s.

(** [std::string::substr(pos)] *)
Definition substr_from (s : bytes) (pos : Z) : res bytes :=
  if len s <? pos then Throw out_of_range else Ok (drop (Z.to_nat pos) s).

(** The bytes of [s] in positions [i, i + n). *)
Definition slice (s : bytes) (i n : Z) : bytes := take (Z.to_nat n) (drop (Z.to_nat i) s).

(** ** Lemmas on integers *)

Create HintDb sponge.
Create Rewrite HintDb len.

Lemma u8_range z : 0 <= u8 z < 256.
Proof. unfold u8. apply Z.mod_pos_bound. lia. Qed.

Lemma u16_range z : 0 <= u16 z < 65536.
Proof. unfold u16. apply Z.mod_pos_bound. lia. Qed.

Lemma u32_range z : 0 <= u32 z < 4294967296.
Proof. unfold u32. apply Z.mod_pos_bound. lia. Qed.

Lemma u64_range z : 0 <= u64 z < 18446744073709551616.
Proof. unfold u64. apply Z.mod_pos_bound. lia. Qed.

Lemma u8_small z : 0 <= z < 256 -> u8 z = z.
Proof. apply Z.mod_small. Qed.

Lemma u16_small z : 0 <= z < 65536 -> u16 z = z.
Proof. apply Z.mod_small. Qed.

Lemma u32_small z : 0 <= z < 4294967296 -> u32 z = z.
Proof. apply Z.mod_small. Qed.

Lemma u64_small z : 0 <= z < 18446744073709551616 -> u64 z = z.
Proof. apply Z.mod_small. Qed.

#[export] Hint Resolve u8_range u16_range u32_range u64_range : sponge.

(** Removes the wrap-around of every 64-bit operation whose result provably fits. *)
Ltac u64_simpl :=
  repeat match goal with
  | |- context [u64 ?z] => rewrite (u64_small z) by lia
  | H : context [u64 ?z] |- _ => rewrite (u64_small z) in H by lia
  end.

(** ** Lemmas on byte strings *)

Lemma len_nonneg {A} (l : list A) : 0 <= len l.
Proof. unfold len. lia. Qed.

Lemma len_nil {A} : len (@nil A) = 0.
Proof. reflexivity. Qed.

Lemma len_cons {A} (x : A) l : len (x :: l) = 1 + len l.
Proof. unfold len. simpl. lia. Qed.

Lemma len_app {A} (l1 l2 : list A) : len (l1 ++ l2) = len l1 + len l2.
Proof. unfold len. rewrite length_app. lia. Qed.

Lemma len_take {A} (n : nat) (l : list A) : len (take n l) = Z.min (Z.of_nat n) (len l).
Proof. unfold len. rewrite length_take. lia. Qed.

Lemma len_drop {A} (n : nat) (l : list A) : len (drop n l) = Z.max 0 (len l - Z.of_nat n).
Proof. unfold len. rewrite length_drop. lia. Qed.

Lemma len_zero_nil {A} (l : list A) : len l = 0 -> l = [].
Proof. destruct l; [done|]. rewrite len_cons. pose proof (len_nonneg l). lia. Qed.

Lemma len_lt_length {A} (l1 l2 : list A) : len l1 < len l2 -> (length l1 < length l2)%nat.
Proof. unfold len. lia. Qed.

Lemma len_prefix_str s n : 0 <= n -> len (prefix_str s n) = Z.min n (len s).
Proof. intros. unfold prefix_str. rewrite len_take. lia. Qed.

Lemma prefix_str_all s n : len s <= n -> prefix_str s n = s.
Proof. intros. unfold prefix_str. apply take_ge. unfold len in *. lia. Qed.

#[export] Hint Rewrite @len_nil @len_cons @len_app @len_take @len_drop : len.
#[export] Hint Resolve len_nonneg : sponge.

Lemma substr_from_ok s pos :
  0 <= pos <= len s -> substr_from s pos = Ok (drop (Z.to_nat pos) s).
Proof. intros. unfold substr_from. destruct (Z.ltb_spec (len s) pos); [lia|done]. Qed.

Lemma len_slice s i n :
  0 <= i -> 0 <= n -> i + n <= len s -> len (slice s i n) = n.
Proof. intros. unfold slice. rewrite len_take, len_drop. lia. Qed.

Lemma slice_drop s i n k :
  0 <= i -> 0 <= k <= n -> drop (Z.to_nat k) (slice s i n) = slice s (i + k) (n - k).
Proof.
  intros. unfold slice. rewrite skipn_firstn_comm, drop_drop.
  f_equal; [lia|]. f_equal. lia.
Qed.

Lemma slice_take s i n k :
  0 <= k <= n -> take (Z.to_nat k) (slice s i n) = slice s i k.
Proof. intros. unfold slice. rewrite take_take. f_equal. lia. Qed.

Lemma slice_app s i n :
  0 <= i -> 0 <= n -> take (Z.to_nat i) s ++ slice s i n = take (Z.to_nat (i + n)) s.
Proof.
  intros. unfold slice. rewrite take_take_drop. f_equal. lia.
Qed.

(** ** Lemmas on bytes *)

Lemma byte_val_range b : 0 <= byte_val b < 256.
Proof. unfold byte_val. pose proof (Byte.to_N_bounded b). lia. Qed.

Lemma byte_of_Z_val b : byte_of_Z (byte_val b) = b.
Proof.
  unfold byte_of_Z. pose proof (byte_val_range b).
  rewrite Z.mod_small by lia. unfold byte_val. rewrite N2Z.id, Byte.of_to_N. done.
Qed.

Lemma byte_val_of_Z z : byte_val (byte_of_Z z) = z mod 256.
Proof.
  unfold byte_of_Z. pose proof (Z.mod_pos_bound z 256 ltac:(lia)) as Hb.
  destruct (Byte.of_N (Z.to_N (z mod 256))) as [b|] eqn:E.
  - unfold byte_val. apply Byte.to_of_N in E. rewrite E. lia.
  - apply Byte.of_N_None_iff in E. lia.
Qed.

#[export] Hint Resolve byte_val_range : sponge.

(** ** Lemmas on results *)

Lemma Ok_inj {A} (x y : A) : Ok x = Ok y -> x = y.
Proof. by intros [= ->]. Qed.

Lemma res_bind_ok {A B} (c : res A) (k : A -> res B) b :
  res_bind c k = Ok b <-> exists a, c = Ok a /\ k a = Ok b.
Proof. destruct c; simpl; split; [eauto| |done|]; by intros (?&[=]&?); subst. Qed.

(** Splits the boolean tests of the code into their arithmetic meaning. *)
Ltac case_bool :=
  match goal with
  | |- context [if ?a <? ?b then _ else _] => destruct (Z.ltb_spec a b)
  | |- context [if ?a <=? ?b then _ else _] => destruct (Z.leb_spec a b)
  | |- context [if ?a =? ?b then _ else _] => destruct (Z.eqb_spec a b)
  | |- context [if ?b then _ else _] => destruct b eqn:?
  end.
