(* ===== verification/OMap.v ===== *)
(** * Ordered maps

    [std::map] with integer keys, as the reassembler and the sender use it: the
    list of the bindings in iteration order.  [before] is the comparator of the
    map ([std::less] or [std::greater]).  The lemmas relate insertion and removal
    to lookup, to the order of iteration and to the total size of the values. *)

From stdpp Require Import base list numbers.
From Stdlib Require Import ZArith Lia Sorting.Sorted.
From S2P Require Import Prelude.
#[local] Open Scope Z_scope.

Class Comparator (before : Z -> Z -> bool) : Prop := {
  before_irrefl k : before k k = false;
  before_trans k1 k2 k3 : before k1 k2 = true -> before k2 k3 = true -> before k1 k3 = true;
  before_total k1 k2 : k1 <> k2 -> before k1 k2 = false -> before k2 k1 = true;
}.

(** [m.find(k)] *)
Fixpoint find {V : Type} (k : Z) (m : list (Z * V)) : option V :=
  match m with
  | [] => None
  | (k', v) :: m' => if k =? k' then Some v else find k m'
  end.

(** [m[k] = v] *)
Fixpoint assign {V : Type} (before : Z -> Z -> bool) (k : Z) (v : V) (m : list (Z * V))
    : list (Z * V) :=
  match m with
  | [] => [(k, v)]
  | (k', v') :: m' =>
      if k =? k' then (k, v) :: m'
      else if before k k' then (k, v) :: m
      else (k', v') :: assign before k v m'
  end.

(** [m.erase(k)] *)
Fixpoint erase {V : Type} (k : Z) (m : list (Z * V)) : list (Z * V) :=
  match m with
  | [] => []
  | (k', v') :: m' => if k =? k' then m' else (k', v') :: erase k m'
  end.

(** The keys come in the comparator's order, each once. *)
Definition key_before {V : Type} (before : Z -> Z -> bool) (a b : Z * V) : Prop :=
  before a.1 b.1 = true.
Abbreviation ordered before := (StronglySorted (key_before before)).

(** The sum of [f] over the values. *)
Fixpoint total {V : Type} (f : V -> Z) (m : list (Z * V)) : Z :=
  match m with
  | [] => 0
  | (_, v) :: m' => f v + total f m'
  end.

#[export] Instance less_comparator : Comparator Z.ltb.
Proof. split; intros *; rewrite ?Z.ltb_lt, ?Z.ltb_ge; lia. Qed.

#[export] Instance greater_comparator : Comparator Z.gtb.
Proof. split; intros *; rewrite ?Z.gtb_ltb, ?Z.ltb_lt, ?Z.ltb_ge; lia. Qed.

Section with_comparator.
Context {V : Type} (before : Z -> Z -> bool) `{!Comparator before}.
Implicit Types (m : list (Z * V)) (k : Z) (v : V).

Lemma find_In k v m : find k m = Some v -> In (k, v) m.
Proof.
  induction m as [|[k' v'] m IH]; simpl; [done|].
  destruct (Z.eqb_spec k k'); naive_solver.
Qed.

Lemma find_None k m : find k m = None <-> (forall v, ~ In (k, v) m).
Proof.
  induction m as [|[k' v'] m IH]; simpl; [naive_solver|].
  destruct (Z.eqb_spec k k') as [->|Hne]; [naive_solver|].
  rewrite IH. split; [intros H v [[= ? ?]|?]; naive_solver|naive_solver].
Qed.

Lemma before_ne k1 k2 : before k1 k2 = true -> k1 <> k2.
Proof. intros H ->. by rewrite before_irrefl in H. Qed.

Lemma ordered_inv k v m :
  ordered before ((k, v) :: m) ->
  ordered before m /\ (forall k' v', In (k', v') m -> before k k' = true).
Proof.
  intros H. apply StronglySorted_inv in H as [Hs Hf]. split; [done|].
  intros k' v' Hin. rewrite List.Forall_forall in Hf. by apply (Hf (k', v')).
Qed.

Lemma ordered_cons k v m :
  ordered before m -> (forall k' v', In (k', v') m -> before k k' = true) ->
  ordered before ((k, v) :: m).
Proof.
  intros Hs Hf. constructor; [done|]. apply List.Forall_forall.
  intros [k' v'] Hin. by apply (Hf k' v').
Qed.

Lemma In_find k v m : ordered before m -> In (k, v) m -> find k m = Some v.
Proof.
  induction m as [|[k' v'] m IH]; simpl; [done|].
  intros [Hs Hf]%ordered_inv [[= -> ->]|Hin]; [by rewrite Z.eqb_refl|].
  pose proof (before_ne _ _ (Hf _ _ Hin)).
  destruct (Z.eqb_spec k k'); [congruence|auto].
Qed.

Lemma In_assign k v m p :
  In p (assign before k v m) -> p = (k, v) \/ In p m.
Proof.
  induction m as [|[k' v'] m IH]; simpl; [naive_solver|].
  destruct (k =? k'); [naive_solver|].
  destruct (before k k'); naive_solver.
Qed.

Lemma In_assign_inv k v m k' v' :
  In (k', v') (assign before k v m) -> ordered before m ->
  (k' = k /\ v' = v) \/ (k' <> k /\ In (k', v') m).
Proof.
  induction m as [|[k1 v1] m IH]; simpl; [naive_solver|].
  intros Hin [Hs Hf]%ordered_inv.
  destruct (Z.eqb_spec k k1) as [->|Hne]; [|destruct (before k k1) eqn:Hb]; simpl in Hin.
  - destruct Hin as [[= -> ->]|Hin]; [by left|]. right.
    pose proof (before_ne _ _ (Hf _ _ Hin)). split; [congruence|auto].
  - destruct Hin as [[= -> ->]|[[= -> ->]|Hin]]; [by left|right; split; [congruence|auto]|].
    right. pose proof (before_ne _ _ (before_trans _ _ _ Hb (Hf _ _ Hin))).
    split; [congruence|auto].
  - destruct Hin as [[= -> ->]|Hin]; [right; split; [congruence|auto]|].
    destruct (IH Hin Hs) as [?|[??]]; [by left|right; auto].
Qed.

Lemma In_assign_eq k v m : In (k, v) (assign before k v m).
Proof.
  induction m as [|[k' v'] m IH]; simpl; [by left|].
  destruct (k =? k'); [by left|]. destruct (before k k'); [by left|by right].
Qed.

Lemma In_assign_ne k v m k' v' :
  k' <> k -> In (k', v') m -> In (k', v') (assign before k v m).
Proof.
  intros Hne. induction m as [|[k1 v1] m IH]; simpl; [done|].
  destruct (Z.eqb_spec k k1) as [->|]; [|destruct (before k k1)]; simpl; naive_solver.
Qed.

Lemma ordered_assign k v m : ordered before m -> ordered before (assign before k v m).
Proof.
  induction m as [|[k' v'] m IH]; simpl.
  { intros _. by apply ordered_cons; [constructor|]. }
  intros [Hs Hf]%ordered_inv.
  destruct (Z.eqb_spec k k') as [->|Hne]; [by apply ordered_cons|].
  destruct (before k k') eqn:Hb.
  - apply ordered_cons; [by apply ordered_cons|].
    intros k1 v1 [[= <- <-]|Hin]; [done|]. eapply before_trans; eauto.
  - apply ordered_cons; [auto|]. intros k1 v1 [[= -> ->]|Hin]%In_assign; [|eauto].
    by apply before_total.
Qed.

Lemma In_erase k m p : In p (erase k m) -> In p m.
Proof.
  induction m as [|[k' v'] m IH]; simpl; [done|].
  destruct (k =? k'); simpl; naive_solver.
Qed.

Lemma In_erase_ne k m k' v' : k' <> k -> In (k', v') m -> In (k', v') (erase k m).
Proof.
  intros Hne. induction m as [|[k1 v1] m IH]; simpl; [done|].
  destruct (Z.eqb_spec k k1) as [->|]; simpl; naive_solver.
Qed.

Lemma In_erase_inv k m k' v' :
  ordered before m -> In (k', v') (erase k m) -> k' <> k /\ In (k', v') m.
Proof.
  induction m as [|[k1 v1] m IH]; simpl; [done|].
  intros [Hs Hf]%ordered_inv Hin.
  destruct (Z.eqb_spec k k1) as [->|Hne].
  - pose proof (before_ne _ _ (Hf _ _ Hin)). split; [congruence|auto].
  - destruct Hin as [[= -> ->]|Hin]; [split; [congruence|auto]|]. naive_solver.
Qed.

Lemma ordered_erase k m : ordered before m -> ordered before (erase k m).
Proof.
  induction m as [|[k' v'] m IH]; simpl; [done|].
  intros [Hs Hf]%ordered_inv. destruct (k =? k'); [done|].
  apply ordered_cons; [auto|]. intros k1 v1 Hin%In_erase. eauto.
Qed.

Lemma length_erase k v m : find k m = Some v -> S (length (erase k m)) = length m.
Proof.
  induction m as [|[k' v'] m IH]; simpl; [done|].
  destruct (k =? k'); [done|]. intros H. simpl. f_equal. auto.
Qed.

Lemma find_before_head k m k' v' :
  ordered before ((k', v') :: m) -> before k k' = true -> find k m = None.
Proof.
  intros [Hs Hf]%ordered_inv Hb. apply find_None. intros v Hin.
  pose proof (before_trans _ _ _ Hb (Hf _ _ Hin)) as H. by rewrite before_irrefl in H.
Qed.

Lemma total_assign f k v m :
  ordered before m ->
  total f (assign before k v m) = total f m + f v - from_option f 0 (find k m).
Proof.
  induction m as [|[k' v'] m IH]; simpl; [lia|]. intros Ho.
  destruct (Z.eqb_spec k k') as [->|Hne]; [simpl; lia|].
  destruct (before k k') eqn:Hb; simpl.
  - rewrite (find_before_head _ _ _ _ Ho Hb). simpl. lia.
  - apply ordered_inv in Ho as [Hs _]. rewrite IH by done. lia.
Qed.

Lemma total_erase f k v m : find k m = Some v -> total f (erase k m) = total f m - f v.
Proof.
  induction m as [|[k' v'] m IH]; simpl; [done|].
  destruct (k =? k'); [intros [= ->]; lia|]. intros H. simpl. rewrite IH by done. lia.
Qed.
End with_comparator.

Lemma total_nonneg {V} (f : V -> Z) (m : list (Z * V)) :
  (forall v, 0 <= f v) -> 0 <= total f m.
Proof. intros Hf. induction m as [|[k v] m IH]; simpl; [lia|]. specialize (Hf v). lia. Qed.

#[export] Hint Resolve ordered_assign ordered_erase In_assign_eq In_assign_ne In_erase_ne : sponge.
