(* ===== verification/Text.v ===== *)
(** * Text

    What the printing functions use of C++ streams: string literals, numbers in
    base 10 and 16 ([std::to_string], [hex]), padding ([setw], [setfill]) and
    [boolalpha]; the dotted form of IPv4 addresses; and [hexdump] of
    libsponge/util/util.cc, with the lines it is meant to print. *)

From Stdlib Require Import Strings.String.
From stdpp Require Import base list numbers.
From Stdlib Require Import ZArith Lia Strings.Byte.
From S2P Require Import Prelude.
#[local] Open Scope Z_scope.

(** ** Literals and numbers *)

Definition txt (s : String.string) : bytes := String.list_byte_of_string s.
Arguments txt s%_string.

(** Digits above 9 are lower-case letters. *)
Definition digit (d : Z) : byte := byte_of_Z (if d <? 10 then 48 + d else 87 + d).

(** The digits of [n], most significant first, before those in [acc]. *)
Fixpoint digits (base : Z) (fuel : nat) (n : Z) (acc : bytes) : bytes :=
  match fuel with
  | O => acc
  | S fuel' =>
      let acc := digit (n mod base) :: acc in
      if n <? base then acc else digits base fuel' (n / base) acc
  end.

(** A number below 2^64 has at most 64 digits in any base. *)
Definition number (base n : Z) : bytes := digits base 64 n [].

(** [timestamp_ms()], from the readings of the steady clock in nanoseconds *)
Definition timestamp_ms (program_start now : Z) : Z := u64 (Z.quot (now - program_start) 1000000).

(** [what()] of a [tagged_error] *)
Definition tagged_what (attempt system_what : bytes) : bytes := attempt ++ txt ": " ++ system_what.

Definition to_string (n : Z) : bytes := number 10 n.
Definition hex (n : Z) : bytes := number 16 n.

Definition pad (fill : byte) (width : nat) (s : bytes) : bytes := repeat fill (width - length s) ++ s.
Definition boolalpha (b : bool) : bytes := if b then txt "true" else txt "false".

(** [inet_ntoa] of an address in host byte order *)
Definition dotted (a : Z) : bytes :=
  to_string (Z.shiftr a 24) ++ txt "." ++ to_string (Z.land (Z.shiftr a 16) 255) ++ txt "." ++
  to_string (Z.land (Z.shiftr a 8) 255) ++ txt "." ++ to_string (Z.land a 255).

(** ** Reading numbers back *)

Definition digit_value (c : byte) : option Z :=
  let v := byte_val c in
  if (48 <=? v) && (v <=? 57) then Some (v - 48)
  else if (97 <=? v) && (v <=? 102) then Some (v - 87)
  else if (65 <=? v) && (v <=? 70) then Some (v - 55)
  else None.

(** The longest prefix of digits, as [strtol] and [stoi] read it. *)
Fixpoint read_digits (base acc : Z) (s : bytes) : Z * bytes :=
  match s with
  | c :: s' =>
      match digit_value c with
      | Some d => if d <? base then read_digits base (acc * base + d) s' else (acc, s)
      | None => (acc, s)
      end
  | [] => (acc, [])
  end.

(** The characters of [isspace] *)
Definition isspace (c : byte) : bool :=
  let v := byte_val c in (v =? 32) || ((9 <=? v) && (v <=? 13)).

Fixpoint skip_spaces (s : bytes) : bytes :=
  match s with
  | c :: s' => if isspace c then skip_spaces s' else s
  | [] => []
  end.

Definition read_sign (s : bytes) : bool * bytes :=
  match s with
  | c :: s' => if byte_val c =? 45 then (true, s') else if byte_val c =? 43 then (false, s') else (false, s)
  | [] => (false, [])
  end.

(** [0x] before a hexadecimal digit *)
Definition hex_prefix (s : bytes) : bool :=
  match s with
  | z :: x :: d :: _ =>
      (byte_val z =? 48) && ((byte_val x =? 120) || (byte_val x =? 88)) &&
      match digit_value d with Some _ => true | None => false end
  | _ => false
  end.

(** The base that [strtol] uses when it is given base 0, and the digits *)
Definition detect_base (s : bytes) : Z * bytes :=
  if hex_prefix s then (16, drop 2 s)
  else match s with
       | z :: _ => if byte_val z =? 48 then (8, s) else (10, s)
       | [] => (10, [])
       end.

Definition LONG_MAX : Z := 9223372036854775807.
Definition LONG_MIN : Z := -9223372036854775808.

(** [strtol(s, end, base)] for base 0 or 10: the value, clamped to the range of
    [long], and the text that is left, which is [s] itself when there is no number. *)
Definition strtol (base : Z) (s : bytes) : Z * bytes :=
  let (neg, t) := read_sign (skip_spaces s) in
  let (b, t) := if base =? 0 then detect_base t else (base, t) in
  let (v, rest) := read_digits b 0 t in
  if (length rest =? length t)%nat then (0, s)
  else (Z.max LONG_MIN (Z.min LONG_MAX (if neg then - v else v)), rest).

(** [stoi(s)] *)
Definition stoi (s : bytes) : res Z :=
  let (v, rest) := strtol 10 s in
  if (length rest =? length s)%nat then Throw invalid_argument
  else if (v <? -2147483648) || (2147483647 <? v) then Throw out_of_range
  else Ok v.

Lemma digit_value_digit d : 0 <= d < 16 -> digit_value (digit d) = Some d.
Proof.
  intros H. assert (d = 0 \/ d = 1 \/ d = 2 \/ d = 3 \/ d = 4 \/ d = 5 \/ d = 6 \/ d = 7 \/ d = 8 \/ d = 9 \/ d = 10 \/
    d = 11 \/ d = 12 \/ d = 13 \/ d = 14 \/ d = 15) as K by lia.
  repeat destruct K as [-> | K]; subst; reflexivity.
Qed.

(** What stops the reading: no digit of the base. *)
Definition no_digit (base : Z) (s : bytes) : Prop :=
  match s with
  | c :: _ => match digit_value c with Some d => base <= d | None => True end
  | [] => True
  end.

Lemma read_digits_stop base acc s : no_digit base s -> read_digits base acc s = (acc, s).
Proof.
  destruct s as [|c s]; [done|]. unfold no_digit. cbn [read_digits].
  destruct (digit_value c); [|done]. intros H. by rewrite (proj2 (Z.ltb_ge _ _)).
Qed.

(** [acc] is read behind the digits of [n]. *)
Lemma read_digits_digits base fuel n acc a s :
  2 <= base <= 16 -> 0 <= n < base ^ Z.of_nat fuel ->
  exists k, read_digits base a (digits base fuel n acc ++ s) = read_digits base (a * base ^ k + n) (acc ++ s) /\ 0 <= k.
Proof.
  intros Hb. revert n acc. induction fuel as [|fuel IH]; intros n acc Hn.
  { exists 0. change (Z.of_nat 0) with 0 in Hn. rewrite Z.pow_0_r in *. cbn [digits]. split; [f_equal; lia|lia]. }
  cbn [digits]. pose proof (Z.mod_pos_bound n base ltac:(lia)) as Hm.
  assert (Hread : forall x, read_digits base x ((digit (n mod base) :: acc) ++ s) =
    read_digits base (x * base + n mod base) (acc ++ s)).
  { intros x. cbn [app read_digits]. rewrite digit_value_digit by lia. by rewrite (proj2 (Z.ltb_lt _ _)) by lia. }
  destruct (Z.ltb_spec n base) as [Hlt|Hge].
  - exists 1. rewrite Hread, Z.pow_1_r, (Z.mod_small n) by lia. split; [done|lia].
  - rewrite Nat2Z.inj_succ, Z.pow_succ_r in Hn by lia.
    pose proof (Z.div_mod n base ltac:(lia)) as Hd.
    destruct (IH (n / base) (digit (n mod base) :: acc)) as (k & Hk & Hk0).
    { split; [apply Z.div_pos; lia|]. apply Z.div_lt_upper_bound; lia. }
    exists (k + 1). rewrite Hk, Hread, Z.pow_add_r, Z.pow_1_r by lia. split; [f_equal; lia|lia].
Qed.

Lemma number_read base n s :
  2 <= base <= 16 -> 0 <= n < 18446744073709551616 -> no_digit base s ->
  read_digits base 0 (number base n ++ s) = (n, s).
Proof.
  intros Hb Hn Hs. unfold number.
  destruct (read_digits_digits base 64 n [] 0 s Hb) as (k & -> & _); [|by apply read_digits_stop].
  split; [lia|]. apply (Z.lt_le_trans _ (2 ^ 64)); [lia|]. by apply Z.pow_le_mono_l; lia.
Qed.

Lemma digits_head base fuel n acc :
  2 <= base -> exists d rest, digits base (S fuel) n acc = digit d :: rest /\ 0 <= d < base.
Proof.
  intros Hb. revert n acc. induction fuel as [|fuel IH]; intros n acc; cbn [digits]; pose proof (Z.mod_pos_bound n base).
  - destruct (n <? base); do 2 eexists; (split; [done|lia]).
  - destruct (n <? base); [do 2 eexists; split; [done|lia]|]. apply IH.
Qed.

Lemma strtol_number n :
  0 <= n < LONG_MAX -> strtol 10 (number 10 n) = (n, []) /\ number 10 n <> [].
Proof.
  intros Hn. unfold LONG_MAX in Hn. pose proof (number_read 10 n [] ltac:(lia) ltac:(lia) I) as Hr. rewrite app_nil_r in Hr.
  destruct (digits_head 10 63 n [] ltac:(lia)) as (d & rest & Hd & Hd0). fold (number 10 n) in Hd.
  assert (Hv : 48 <= byte_val (digit d) <= 57).
  { assert (d = 0 \/ d = 1 \/ d = 2 \/ d = 3 \/ d = 4 \/ d = 5 \/ d = 6 \/ d = 7 \/ d = 8 \/ d = 9) as K by lia.
    repeat destruct K as [-> | K]; subst; vm_compute; split; congruence. }
  split; [|by rewrite Hd]. unfold strtol.
  assert (Hs : skip_spaces (number 10 n) = number 10 n).
  { rewrite Hd. cbn [skip_spaces]. unfold isspace. replace (_ || _) with false; [done|].
    symmetry. apply orb_false_iff. rewrite andb_false_iff, Z.eqb_neq, !Z.leb_gt. lia. }
  assert (Hg : read_sign (number 10 n) = (false, number 10 n)).
  { rewrite Hd. cbn [read_sign]. by rewrite !(proj2 (Z.eqb_neq _ _)) by lia. }
  rewrite Hs, Hg. change (10 =? 0) with false. cbv iota. rewrite Hr, Hd. cbn [length Nat.eqb].
  f_equal. unfold LONG_MAX, LONG_MIN. lia.
Qed.

Lemma digits_head_pos base fuel n acc :
  2 <= base -> 0 < n < base ^ Z.of_nat fuel -> exists d rest, digits base fuel n acc = digit d :: rest /\ 0 < d < base.
Proof.
  intros Hb. revert n acc. induction fuel as [|fuel IH]; intros n acc Hn.
  { change (Z.of_nat 0) with 0 in Hn. rewrite Z.pow_0_r in Hn. lia. }
  cbn [digits]. destruct (Z.ltb_spec n base).
  - exists n, acc. rewrite Z.mod_small by lia. split; [done|lia].
  - apply IH. rewrite Nat2Z.inj_succ, Z.pow_succ_r in Hn by lia.
    split; [apply Z.div_str_pos; lia|apply Z.div_lt_upper_bound; lia].
Qed.

Lemma digit_byte d : 0 <= d < 10 -> byte_val (digit d) = 48 + d.
Proof.
  intros Hd. assert (d = 0 \/ d = 1 \/ d = 2 \/ d = 3 \/ d = 4 \/ d = 5 \/ d = 6 \/ d = 7 \/ d = 8 \/ d = 9) as K by lia.
  repeat destruct K as [-> | K]; subst; reflexivity.
Qed.

(** With base 0, [strtol] reads decimal numbers as such: they do not begin with 0. *)
Lemma strtol_auto n : 0 <= n < LONG_MAX -> strtol 0 (to_string n) = (n, []).
Proof.
  intros Hn. destruct (Z.eq_dec n 0) as [->|Hz]; [reflexivity|]. destruct (strtol_number n Hn) as [Hs _].
  assert (Hp : exists d rest, number 10 n = digit d :: rest /\ 0 < d < 10).
  { apply digits_head_pos; [lia|]. unfold LONG_MAX in Hn. split; [lia|]. apply (Z.lt_le_trans _ (2 ^ 64)); [lia|]. by apply Z.pow_le_mono_l. }
  destruct Hp as (d & rest & Hd & Hd0). unfold strtol, to_string in *.
  assert (Hg : forall s, s = number 10 n -> skip_spaces s = s /\ read_sign s = (false, s) /\ detect_base s = (10, s)).
  { intros s ->. rewrite Hd. pose proof (digit_byte d ltac:(lia)) as Hv. split_and!.
    - cbn [skip_spaces]. unfold isspace. rewrite Hv. replace (_ || _) with false; [done|].
      symmetry. apply orb_false_iff. rewrite andb_false_iff, Z.eqb_neq, !Z.leb_gt. lia.
    - cbn [read_sign]. by rewrite Hv, !(proj2 (Z.eqb_neq _ _)) by lia.
    - unfold detect_base. replace (hex_prefix (digit d :: rest)) with false; [by rewrite Hv, (proj2 (Z.eqb_neq _ _)) by lia|].
      symmetry. unfold hex_prefix. destruct rest as [|x [|y rest]]; [done|done|]. by rewrite Hv, (proj2 (Z.eqb_neq _ _)) by lia. }
  destruct (Hg _ eq_refl) as (E1 & E2 & E3). rewrite E1, E2 in *. cbn [Z.eqb] in *. by rewrite E3.
Qed.

(** [stoi] reads what [to_string] wrote. *)
Lemma stoi_to_string n : 0 <= n < 2147483648 -> stoi (to_string n) = Ok n.
Proof.
  intros Hn. destruct (strtol_number n) as [Hs Hne]; [unfold LONG_MAX; lia|]. unfold stoi, to_string. rewrite Hs.
  destruct (number 10 n); [done|]. cbn [length Nat.eqb].
  by rewrite (proj2 (Z.ltb_ge n _)), (proj2 (Z.ltb_ge _ n)) by lia.
Qed.

(** The number of a dotted address. *)
Definition read_dotted (s : bytes) : option Z :=
  let '(a, s) := read_digits 10 0 s in
  match s with
  | x2e :: s =>
      let '(b, s) := read_digits 10 0 s in
      match s with
      | x2e :: s =>
          let '(c, s) := read_digits 10 0 s in
          match s with
          | x2e :: s =>
              let '(d, s) := read_digits 10 0 s in
              match s with [] => Some (((a * 256 + b) * 256 + c) * 256 + d) | _ => None end
          | _ => None
          end
      | _ => None
      end
  | _ => None
  end.

Lemma land255_range x : 0 <= Z.land x 255 < 256.
Proof. change 255 with (Z.ones 8). rewrite Z.land_ones by lia. by apply Z.mod_pos_bound. Qed.

Lemma quad_sum a :
  0 <= a -> ((Z.shiftr a 24 * 256 + Z.land (Z.shiftr a 16) 255) * 256 + Z.land (Z.shiftr a 8) 255) * 256 + Z.land a 255 = a.
Proof.
  intros Ha. change 255 with (Z.ones 8). rewrite !Z.land_ones, !Z.shiftr_div_pow2 by lia.
  change (2 ^ 24) with (256 * (256 * 256)). change (2 ^ 16) with (256 * 256). change (2 ^ 8) with 256.
  rewrite <- !Z.div_div by lia.
  pose proof (Z.div_mod a 256 ltac:(lia)). pose proof (Z.div_mod (a / 256) 256 ltac:(lia)).
  pose proof (Z.div_mod (a / 256 / 256) 256 ltac:(lia)). lia.
Qed.

(** The dotted text of an address determines it. *)
Theorem dotted_roundtrip a : 0 <= a < 4294967296 -> read_dotted (dotted a) = Some a.
Proof.
  intros Ha. pose proof (land255_range (Z.shiftr a 16)). pose proof (land255_range (Z.shiftr a 8)). pose proof (land255_range a).
  assert (0 <= Z.shiftr a 24 < 256).
  { rewrite Z.shiftr_div_pow2 by lia. split; [apply Z.div_pos; lia|apply Z.div_lt_upper_bound; lia]. }
  unfold dotted, to_string. change (txt ".") with [x2e]. unfold read_dotted.
  rewrite number_read by (done || lia). cbn [app]. rewrite number_read by (done || lia). cbn [app].
  rewrite number_read by (done || lia). cbn [app]. rewrite <- (app_nil_r (number 10 (Z.land a 255))).
  rewrite number_read by (done || lia). f_equal. apply quad_sum. lia.
Qed.

Lemma dotted_roundtrip_witness : dotted 3232235777 = txt "192.168.1.1" /\ read_dotted (txt "192.168.1.1") = Some 3232235777.
Proof. split; [vm_compute; reflexivity|]. apply (dotted_roundtrip 3232235777). lia. Defined.

(** ** hexdump *)

(** A [stringstream] and its put position. *)
Record ostream := mkStream { content : bytes; put_pos : nat }.

(** [stringstream(s)] and [str(s)] put from the beginning. *)
Definition stream_of (s : bytes) : ostream := mkStream s 0.
Definition put (o : ostream) (c : byte) : ostream :=
  mkStream (take (put_pos o) (content o) ++ c :: drop (S (put_pos o)) (content o)) (S (put_pos o)).

Definition isprint (c : byte) : bool := (32 <=? byte_val c) && (byte_val c <=? 126).
Definition shown (c : byte) : byte := if isprint c then c else x2e.

Record dump := mkDump { cout : bytes; printed : Z; pchars : ostream }.

(** One iteration; [printed] does not overflow for less than 2^31 bytes. *)
Definition dump_byte (indent_string : bytes) (d : dump) (c : byte) : dump :=
  let d :=
    if Z.land (printed d) 15 =? 0 then
      let d := if negb (printed d =? 0)
               then mkDump (cout d ++ txt "    " ++ content (pchars d) ++ [x0a]) (printed d) (stream_of [x20])
               else d in
      mkDump (cout d ++ indent_string ++ pad x30 8 (hex (printed d)) ++ txt ":    ") (printed d) (pchars d)
    else if Z.land (printed d) 1 =? 0 then mkDump (cout d ++ [x20]) (printed d) (pchars d)
    else d in
  mkDump (cout d ++ pad x30 2 (hex (byte_val c))) (printed d + 1) (put (pchars d) (shown c)).

Definition hexdump (data : bytes) (indent : nat) : bytes :=
  let d := fold_left (dump_byte (repeat x20 indent)) data (mkDump [] 0 (stream_of [x20])) in
  let print_rem := Z.rem (16 - Z.land (printed d) 15) 16 in
  cout d ++ repeat x20 (Z.to_nat (2 * print_rem + print_rem / 2 + 4)) ++ content (pchars d) ++ [x0a; x0a].

(** What is printed of one line: the offset, the bytes in pairs, the characters. *)
Fixpoint cells (j : nat) (l : bytes) : bytes :=
  match l with
  | [] => []
  | c :: l' => (if negb (Nat.eqb j 0) && Nat.even j then [x20] else []) ++ pad x30 2 (hex (byte_val c)) ++ cells (S j) l'
  end.

Definition dump_head (indent_string : bytes) (offset : Z) (l : bytes) : bytes :=
  indent_string ++ pad x30 8 (hex offset) ++ txt ":    " ++ cells 0 l.

Definition dump_gap (l : bytes) : nat := let r := (16 - length l)%nat in (2 * r + r / 2 + 4)%nat.

Definition dump_line (indent_string : bytes) (offset : Z) (l : bytes) : bytes :=
  dump_head indent_string offset l ++ repeat x20 (dump_gap l) ++ map shown l ++ [x0a].

Fixpoint dump_lines (fuel : nat) (indent_string : bytes) (offset : Z) (data : bytes) : bytes :=
  match fuel with
  | O => []
  | S fuel' =>
      match data with
      | [] => []
      | _ => dump_line indent_string offset (take 16 data) ++ dump_lines fuel' indent_string (offset + 16) (drop 16 data)
      end
  end.

(** The lines of 16 bytes and an empty one. *)
Definition hexdump_spec (data : bytes) (indent : nat) : bytes :=
  dump_lines (S (length data)) (repeat x20 indent) 0 data ++ [x0a].

Lemma put_end l c : put (mkStream l (length l)) c = mkStream (l ++ [c]) (length (l ++ [c])).
Proof.
  unfold put. cbn [put_pos content]. rewrite take_ge, drop_ge by lia. f_equal. rewrite length_app. simpl. lia.
Qed.

Lemma land15 n : Z.land n 15 = n mod 16.
Proof. change 15 with (Z.ones 4). by rewrite Z.land_ones. Qed.
Lemma land1 n : Z.land n 1 = n mod 2.
Proof. change 1 with (Z.ones 1) at 1. by rewrite Z.land_ones. Qed.

Lemma mod_line offset j : offset mod 16 = 0 -> 0 <= j < 16 -> (offset + j) mod 16 = j /\ (offset + j) mod 2 = j mod 2.
Proof.
  intros H Hj. apply Z.mod_divide in H as [k ->]; [|lia].
  split; [rewrite Z.add_comm, Z.mod_add, Z.mod_small by lia; lia|].
  replace (k * 16 + j) with (j + (k * 8) * 2) by lia. by apply Z.mod_add.
Qed.

(** The rest of a line. *)
Lemma dump_rest ind l : forall out offset (j : nat) seen,
  offset mod 16 = 0 -> (1 <= j)%nat -> (j + length l <= 16)%nat -> length seen = j ->
  fold_left (dump_byte ind) l (mkDump out (offset + Z.of_nat j) (mkStream seen j)) =
    mkDump (out ++ cells j l) (offset + Z.of_nat (j + length l)) (mkStream (seen ++ map shown l) (j + length l)).
Proof.
  induction l as [|c l IH]; intros out offset j seen Ho Hj Hl Hs; cbn [fold_left cells map length] in *.
  { by rewrite !app_nil_r, Nat.add_0_r. }
  destruct (mod_line offset (Z.of_nat j) Ho ltac:(lia)) as [M16 M2].
  unfold dump_byte at 2. cbn [printed cout pchars]. rewrite land15, land1, M16, M2.
  rewrite (proj2 (Z.eqb_neq (Z.of_nat j) 0)), (proj2 (Nat.eqb_neq j 0)) by lia. cbn [negb andb].
  replace (Z.of_nat j mod 2 =? 0) with (Nat.even j).
  2: { apply eq_true_iff_eq. rewrite Nat.even_spec, Z.eqb_eq. split.
       - intros [k ->]. by rewrite Nat2Z.inj_mul, Z.mul_comm, Z.mod_mul.
       - intros H. apply Z.mod_divide in H as [k Hk]; [|lia]. exists (Z.to_nat k). lia. }
  subst j. specialize (fun out => IH out offset (S (length seen)) (seen ++ [shown c]) Ho ltac:(lia) ltac:(lia)).
  destruct (Nat.even (length seen)); cbn [printed cout pchars]; rewrite put_end, length_app, Nat.add_comm; cbn [length Nat.add];
    replace (offset + Z.of_nat (length seen) + 1) with (offset + Z.of_nat (S (length seen))) by lia;
    rewrite IH by (rewrite length_app; simpl; lia); f_equal; try lia; try (by rewrite <- !app_assoc);
    f_equal; try lia; by rewrite <- app_assoc.
Qed.

(** The end of the line before. *)
Definition flush (offset : Z) (o : ostream) : bytes := if offset =? 0 then [] else txt "    " ++ content o ++ [x0a].

Lemma dump_whole_line ind l out offset pc :
  l <> [] -> (length l <= 16)%nat -> 0 <= offset -> offset mod 16 = 0 -> (offset = 0 -> pc = stream_of [x20]) ->
  fold_left (dump_byte ind) l (mkDump out offset pc) =
    mkDump (out ++ flush offset pc ++ dump_head ind offset l) (offset + Z.of_nat (length l))
      (mkStream (map shown l) (length l)).
Proof.
  intros Hne Hl H0 Hm Hpc. destruct l as [|c l]; [done|]. cbn [fold_left length] in *.
  unfold dump_byte at 2. cbn [printed cout pchars]. rewrite land15, Hm. cbn [Z.eqb].
  pose proof (dump_rest ind l) as R. unfold flush, dump_head. cbn [cells Nat.eqb negb andb].
  destruct (Z.eqb_spec offset 0) as [E|E]; cbn [negb printed cout pchars].
  - rewrite (Hpc E). change (put (stream_of [x20]) (shown c)) with (mkStream [shown c] 1).
    specialize (R (((out ++ ind ++ pad x30 8 (hex offset) ++ txt ":    ") ++ pad x30 2 (hex (byte_val c)))) offset 1%nat [shown c]
      Hm ltac:(lia) ltac:(lia) eq_refl).
    change (Z.of_nat 1) with 1 in R. rewrite R. f_equal. by rewrite <- !app_assoc.
  - change (put (stream_of [x20]) (shown c)) with (mkStream [shown c] 1).
    specialize (R ((((out ++ txt "    " ++ content pc ++ [x0a]) ++ ind ++ pad x30 8 (hex offset) ++ txt ":    ") ++
      pad x30 2 (hex (byte_val c)))) offset 1%nat [shown c] Hm ltac:(lia) ltac:(lia) eq_refl).
    change (Z.of_nat 1) with 1 in R. rewrite R. f_equal. by rewrite <- !app_assoc.
Qed.

(** The end of the output, after the loop. *)
Definition dump_end (d : dump) : bytes :=
  let print_rem := Z.rem (16 - Z.land (printed d) 15) 16 in
  cout d ++ repeat x20 (Z.to_nat (2 * print_rem + print_rem / 2 + 4)) ++ content (pchars d) ++ [x0a; x0a].

Lemma dump_gap_rem offset (l : bytes) :
  offset mod 16 = 0 -> (1 <= length l <= 16)%nat ->
  let r := Z.rem (16 - Z.land (offset + Z.of_nat (length l)) 15) 16 in Z.to_nat (2 * r + r / 2 + 4) = dump_gap l.
Proof.
  intros Ho Hl r. assert (Hr : r = Z.of_nat (16 - length l)).
  { unfold r. rewrite land15. destruct (Nat.eq_dec (length l) 16) as [E|E].
    - rewrite E. change (Z.of_nat 16) with (1 * 16). by rewrite Z.mod_add, Ho by lia.
    - rewrite (proj1 (mod_line offset (Z.of_nat (length l)) Ho ltac:(lia))). rewrite Z.rem_small; lia. }
  unfold dump_gap. rewrite Hr. set (k := (16 - length l)%nat). rewrite <- (Nat2Z.id (2 * k + k / 2 + 4)).
  f_equal. rewrite !Nat2Z.inj_add, Nat2Z.inj_div, Nat2Z.inj_mul. done.
Qed.

Lemma dump_end_lines ind fuel : forall data out offset pc,
  data <> [] -> (length data < fuel)%nat -> 0 <= offset -> offset mod 16 = 0 -> (offset = 0 -> pc = stream_of [x20]) ->
  dump_end (fold_left (dump_byte ind) data (mkDump out offset pc)) =
    out ++ flush offset pc ++ dump_lines fuel ind offset data ++ [x0a].
Proof.
  induction fuel as [|fuel IH]; intros data out offset pc Hne Hl H0 Hm Hpc; [lia|].
  assert (Hline : take 16 data <> [] /\ (1 <= length (take 16 data) <= 16)%nat).
  { destruct data as [|c data]; [done|]. split; [done|]. rewrite length_take. cbn [length]. lia. }
  destruct Hline as [Hne' Hlen]. rewrite <- (take_drop 16 data) at 1. rewrite fold_left_app.
  rewrite (dump_whole_line ind (take 16 data) out offset pc) by (done || lia).
  cbn [dump_lines]. destruct data as [|c0 data0]; [done|]. set (data := c0 :: data0) in *.
  destruct (drop 16 data) as [|c rest] eqn:E.
  - cbn [fold_left]. unfold dump_end. cbn [printed cout pchars content].
    rewrite (dump_gap_rem offset (take 16 data) Hm Hlen). unfold dump_line.
    destruct fuel; cbn [dump_lines]; by rewrite app_nil_r, <- !app_assoc.
  - assert (16 < length data)%nat as Hgt.
    { assert (length (drop 16 data) <> 0%nat) by (by rewrite E). rewrite length_drop in *. lia. }
    assert (length (take 16 data) = 16%nat) as H16 by (rewrite length_take; lia).
    rewrite <- E. rewrite H16 in *. rewrite IH.
    + unfold flush at 2. rewrite (proj2 (Z.eqb_neq (offset + Z.of_nat 16) 0)) by lia. cbn [content].
      unfold dump_line, dump_gap. rewrite H16. change (repeat x20 (2 * (16 - 16) + (16 - 16) / 2 + 4)) with (txt "    ").
      change (Z.of_nat 16) with 16. by rewrite <- !app_assoc.
    + by rewrite E.
    + rewrite length_drop. lia.
    + lia.
    + change (Z.of_nat 16) with (1 * 16). by rewrite Z.mod_add.
    + lia.
Qed.

(** [hexdump] prints lines of 16 bytes, each with its offset in hexadecimal,
    the bytes in pairs and, aligned, the printable characters, and then an empty
    line: the loop with its counters computes the definition line by line.  (The
    blank that [pchars] starts with is overwritten by the first character.) *)
Theorem hexdump_lines data indent : data <> [] -> hexdump data indent = hexdump_spec data indent.
Proof.
  intros Hne.
  exact (dump_end_lines (repeat x20 indent) (S (length data)) data [] 0 (stream_of [x20]) Hne ltac:(lia) ltac:(lia) eq_refl ltac:(done)).
Qed.

Definition dumped : bytes := txt "Internet, ARP & TCP!".

Lemma hexdump_lines_witness :
  dumped <> [] /\ hexdump dumped 2 =
    txt "  00000000:    496e 7465 726e 6574 2c20 4152 5020 2620    Internet, ARP & " ++ [x0a] ++
    txt "  00000010:    5443 5021                                  TCP!" ++ [x0a; x0a].
Proof.
  split; [discriminate|]. rewrite (hexdump_lines dumped 2 ltac:(discriminate)). vm_compute. reflexivity.
Defined.
