(* ===== verification/ByteStream.v ===== *)
(** * ByteStream

    The flow-controlled in-memory byte stream (libsponge/byte_stream.{hh,cc}): its
    state, every operation, and the refinement of a bounded FIFO whose state is
    the list of all bytes ever accepted and the number of bytes already read. *)

From stdpp Require Import base list numbers.
From Stdlib Require Import ZArith Lia Strings.Byte.
From S2P Require Import Prelude.
#[local] Open Scope Z_scope.

(** ** State *)

Record ByteStream := mkByteStream {
  _capacity : Z;
  _written : Z;
  _read : Z;
  _buffer : bytes;
  _input_end : bool;
  _error : bool;
}.

#[export] Instance ByteStream_eta : RecordEta ByteStream := fun r =>
  mkByteStream (_capacity r) (_written r) (_read r) (_buffer r) (_input_end r) (_error r).

(** ** Operations *)

(** The constructor. *)
Definition new (capacity : Z) : ByteStream :=
  {| _capacity := capacity; _written := 0; _read := 0; _buffer := [];
     _input_end := false; _error := false |}.

Definition remaining_capacity (b : ByteStream) : Z := u64 (_capacity b - len (_buffer b)).

(** [write] returns the new stream and the number of bytes accepted. *)
Definition write (b : ByteStream) (data : bytes) : ByteStream * Z :=
  let size_written := Z.min (remaining_capacity b) (len data) in
  (b <| _buffer := _buffer b ++ prefix_str data size_written |>
     <| _written := u64 (_written b + size_written) |>,
   size_written).

Definition peek_output (b : ByteStream) (n : Z) : bytes :=
  prefix_str (_buffer b) (Z.min n (len (_buffer b))).

(** [substr(len_read, size - len_read)]: [len_read] is at most the size. *)
Definition pop_output (b : ByteStream) (n : Z) : ByteStream :=
  let len_read := Z.min n (len (_buffer b)) in
  b <| _buffer := slice (_buffer b) len_read (len (_buffer b) - len_read) |>
    <| _read := u64 (_read b + len_read) |>.

Definition read (b : ByteStream) (n : Z) : ByteStream * bytes :=
  let res := peek_output b n in
  (pop_output b n, res).

Definition end_input (b : ByteStream) : ByteStream := b <| _input_end := true |>.
Definition set_error (b : ByteStream) : ByteStream := b <| _error := true |>.
Definition input_ended (b : ByteStream) : bool := _input_end b.
Definition error (b : ByteStream) : bool := _error b.
Definition buffer_size (b : ByteStream) : Z := len (_buffer b).
Definition buffer_empty (b : ByteStream) : bool := len (_buffer b) =? 0.
Definition eof (b : ByteStream) : bool := if input_ended b && buffer_empty b then true else false.
Definition bytes_written (b : ByteStream) : Z := _written b.
Definition bytes_read (b : ByteStream) : Z := _read b.

(** ** Abstract specification: a bounded FIFO *)

Module Spec.
Record fifo := mkFifo {
  cap : Z;            (* capacity *)
  sent : bytes;       (* every byte accepted so far, oldest first *)
  taken : Z;          (* how many of them were read *)
  closed : bool;
}.

Definition room (q : fifo) : Z := cap q - (len (sent q) - taken q).
Definition pending (q : fifo) : bytes := drop (Z.to_nat (taken q)) (sent q).
Definition push (q : fifo) (data : bytes) : fifo :=
  mkFifo (cap q) (sent q ++ prefix_str data (room q)) (taken q) (closed q).
Definition pop (q : fifo) (n : Z) : fifo :=
  mkFifo (cap q) (sent q) (Z.min (taken q + n) (len (sent q))) (closed q).
Definition close (q : fifo) : fifo := mkFifo (cap q) (sent q) (taken q) true.
Definition at_end (q : fifo) : bool := closed q && (taken q =? len (sent q)).
End Spec.

(** [refines q b]: the stream [b] stands for the abstract FIFO [q].  The counters
    are the abstract ones modulo [2^64]. *)
Record refines (q : Spec.fifo) (b : ByteStream) : Prop := {
  ref_cap : _capacity b = Spec.cap q;
  ref_cap_range : 0 <= Spec.cap q < 18446744073709551616;
  ref_taken : 0 <= Spec.taken q <= len (Spec.sent q);
  ref_buffer : _buffer b = Spec.pending q;
  ref_room : len (Spec.sent q) - Spec.taken q <= Spec.cap q;
  ref_written : _written b = u64 (len (Spec.sent q));
  ref_read : _read b = u64 (Spec.taken q);
  ref_closed : _input_end b = Spec.closed q;
}.

(** ** Lemmas *)

Lemma refines_new capacity :
  0 <= capacity < 18446744073709551616 ->
  refines (Spec.mkFifo capacity [] 0 false) (new capacity).
Proof. intros. split; simpl; try reflexivity; unfold len; simpl; lia. Qed.

Lemma refines_buffer_len q b :
  refines q b -> len (_buffer b) = len (Spec.sent q) - Spec.taken q.
Proof.
  intros R. destruct R. rewrite ref_buffer0. unfold Spec.pending.
  rewrite len_drop. lia.
Qed.

Lemma refines_remaining q b : refines q b -> remaining_capacity b = Spec.room q.
Proof.
  intros R. unfold remaining_capacity, Spec.room. rewrite (refines_buffer_len q b R).
  destruct R. rewrite ref_cap0. rewrite u64_small; lia.
Qed.

Lemma u64_add_l a b : u64 (u64 a + b) = u64 (a + b).
Proof. unfold u64. apply Zplus_mod_idemp_l. Qed.

Lemma refines_write q b data :
  refines q b ->
  refines (Spec.push q data) (write b data).1 /\
  (write b data).2 = Z.min (Spec.room q) (len data).
Proof.
  intros R. pose proof (refines_remaining _ _ R) as Hroom.
  pose proof (len_nonneg data). unfold write. rewrite Hroom.
  assert (0 <= Spec.room q) by (destruct R; unfold Spec.room; lia).
  assert (Hpre : prefix_str data (Z.min (Spec.room q) (len data)) = prefix_str data (Spec.room q)).
  { unfold prefix_str, len. destruct (Z.le_gt_cases (Spec.room q) (Z.of_nat (length data))).
    - f_equal. lia.
    - rewrite !take_ge; [done|lia|lia]. }
  pose proof (len_prefix_str data (Spec.room q) ltac:(lia)) as Hlen.
  destruct R. split; [|done].
  split; simpl; rewrite ?Hpre, ?len_app, ?Hlen; try done; try lia.
  - unfold Spec.pending. simpl. rewrite ref_buffer0. unfold Spec.pending.
    rewrite drop_app_le; [done|]. unfold len in *. lia.
  - unfold Spec.room in *. lia.
  - rewrite ref_written0, u64_add_l. f_equal.
Qed.

Lemma refines_pop q b n :
  0 <= n -> refines q b -> refines (Spec.pop q n) (pop_output b n).
Proof.
  intros Hn R. pose proof (refines_buffer_len _ _ R) as Hlen. destruct R.
  set (m := Z.min n (len (_buffer b))).
  assert (Hm : Z.min (Spec.taken q + n) (len (Spec.sent q)) = Spec.taken q + m) by lia.
  split; simpl; fold m; rewrite ?Hm; try done; try lia.
  - unfold Spec.pending. simpl. rewrite Hm.
    unfold slice. rewrite take_ge.
    + rewrite ref_buffer0. unfold Spec.pending. rewrite drop_drop. f_equal. lia.
    + rewrite length_drop. unfold len. lia.
  - rewrite ref_read0, u64_add_l. done.
Qed.

Lemma refines_peek q b n :
  0 <= n -> refines q b -> peek_output b n = take (Z.to_nat n) (Spec.pending q).
Proof.
  intros Hn R. unfold peek_output, prefix_str. rewrite <- (ref_buffer _ _ R).
  unfold len. destruct (Z.le_gt_cases n (Z.of_nat (length (_buffer b)))).
  - f_equal. lia.
  - rewrite !take_ge; [done|lia|lia].
Qed.

Lemma refines_end_input q b : refines q b -> refines (Spec.close q) (end_input b).
Proof. intros []. split; done. Qed.

Lemma refines_set_error q b : refines q b -> refines q (set_error b).
Proof. intros []. split; done. Qed.

Lemma refines_eof q b : refines q b -> eof b = Spec.at_end q.
Proof.
  intros R. pose proof (refines_buffer_len _ _ R). destruct R.
  unfold eof, input_ended, buffer_empty, Spec.at_end. rewrite ref_closed0.
  destruct (Spec.closed q); simpl; [|done].
  destruct (Z.eqb_spec (len (_buffer b)) 0), (Z.eqb_spec (Spec.taken q) (len (Spec.sent q)));
    done || lia.
Qed.

#[export] Hint Resolve refines_new refines_end_input refines_set_error : sponge.

(** ** Properties *)

(** The writer's and the reader's operations, and a run of them. *)
Inductive op :=
| OpWrite (data : bytes)
| OpPop (n : Z)
| OpEnd
| OpError.

Definition exec_op (b : ByteStream) (o : op) : ByteStream :=
  match o with
  | OpWrite data => (write b data).1
  | OpPop n => pop_output b n
  | OpEnd => end_input b
  | OpError => set_error b
  end.

Definition spec_op (q : Spec.fifo) (o : op) : Spec.fifo :=
  match o with
  | OpWrite data => Spec.push q data
  | OpPop n => Spec.pop q n
  | OpEnd => Spec.close q
  | OpError => q
  end.

Definition op_ok (o : op) : Prop := match o with OpPop n => 0 <= n | _ => True end.

Lemma refines_op q b o : op_ok o -> refines q b -> refines (spec_op q o) (exec_op b o).
Proof.
  destruct o; simpl; intros; auto using refines_pop, refines_end_input, refines_set_error.
  by apply refines_write.
Qed.

Lemma refines_ops os q b :
  Forall op_ok os -> refines q b -> refines (fold_left spec_op os q) (fold_left exec_op os b).
Proof.
  intros Hos. revert q b. induction Hos; intros q b R; simpl; [done|].
  apply IHHos. by apply refines_op.
Qed.

Lemma spec_ops_cap os q : Spec.cap (fold_left spec_op os q) = Spec.cap q.
Proof. revert q. induction os as [|o os IH]; intros q; simpl; [done|]. rewrite IH. by destruct o. Qed.

(** C33: every run of writes, reads, end-of-input and error signals on a new stream
    behaves as the bounded FIFO: the stream hands out exactly the accepted bytes,
    in order and each once; it accepts as many bytes as there is room for; its
    accounting of written, read, buffered and free bytes is the FIFO's; and
    end-of-file is reported exactly when the input was closed and all was read. *)
Theorem bytestream_refines_fifo capacity os :
  0 <= capacity < 18446744073709551616 ->
  Forall op_ok os ->
  let b := fold_left exec_op os (new capacity) in
  let q := fold_left spec_op os (Spec.mkFifo capacity [] 0 false) in
  (forall n, 0 <= n -> peek_output b n = take (Z.to_nat n) (Spec.pending q)) /\
  (forall data, (write b data).2 = Z.min (Spec.room q) (len data)) /\
  0 <= remaining_capacity b <= capacity /\
  remaining_capacity b = Spec.room q /\
  buffer_size b = len (Spec.pending q) /\
  bytes_written b = u64 (len (Spec.sent q)) /\
  bytes_read b = u64 (Spec.taken q) /\
  eof b = Spec.at_end q.
Proof.
  intros Hc Hos b q.
  assert (R : refines q b) by (apply refines_ops; [done|by apply refines_new]).
  assert (Hcap : Spec.cap q = capacity) by apply spec_ops_cap.
  pose proof (refines_remaining _ _ R) as Hrem. pose proof (refines_buffer_len _ _ R) as Hbuf.
  repeat split.
  - intros. by apply refines_peek.
  - intros. by apply refines_write.
  - rewrite Hrem. destruct R. unfold Spec.room. lia.
  - rewrite Hrem. destruct R. unfold Spec.room. lia.
  - done.
  - unfold buffer_size. by rewrite (ref_buffer _ _ R).
  - by destruct R.
  - by destruct R.
  - by apply refines_eof.
Qed.

Lemma bytestream_refines_fifo_witness :
  let os := [OpWrite [x61; x62; x63]; OpPop 1; OpWrite [x64; x65]; OpEnd; OpPop 5] in
  let b := fold_left exec_op os (new 4) in
  bytes_read b = 5 /\ eof b = true.
Proof.
  intros os b.
  destruct (bytestream_refines_fifo 4 os ltac:(lia)
              ltac:(repeat constructor; simpl; lia)) as (_ & _ & _ & _ & _ & _ & Hr & He).
  split; [exact Hr|exact He].
Defined.
