(* ===== verification/StreamReassembler.v ===== *)
(** * StreamReassembler: the model

    The reassembler of out-of-order substrings
    (libsponge/stream_reassembler.{hh,cc}): its state and [push_substring], split
    into the phases of the function body: removing what was already written,
    removing what is already stored, making room, storing, and writing out the
    bytes that became contiguous.  [_substrs] is a [std::map] ordered by
    [std::greater], so iteration starts at the greatest index. *)

From stdpp Require Import base list numbers.
From Stdlib Require Import ZArith Lia Strings.Byte.
From S2P Require Import Prelude.
From S2P Require Import OMap.
From S2P Require Import ByteStream.
#[local] Open Scope Z_scope.

Record Segment := mkSegment {
  eof : bool;
  data : bytes;
  index : Z;
}.

#[export] Instance Segment_eta : RecordEta Segment := fun r =>
  mkSegment (eof r) (data r) (index r).

Record StreamReassembler := mkStreamReassembler {
  _output : ByteStream;
  _capacity : Z;
  _substrs : list (Z * Segment);
  _substrs_size : Z;
}.

#[export] Instance StreamReassembler_eta : RecordEta StreamReassembler := fun r =>
  mkStreamReassembler (_output r) (_capacity r) (_substrs r) (_substrs_size r).

Definition new (capacity : Z) : StreamReassembler :=
  {| _output := ByteStream.new capacity; _capacity := capacity;
     _substrs := []; _substrs_size := 0 |}.

Definition empty_size (r : StreamReassembler) : Z :=
  if u64 (_substrs_size r + ByteStream.buffer_size (_output r)) <=? _capacity r
  then u64 (_capacity r - _substrs_size r - ByteStream.buffer_size (_output r))
  else 0.

Definition unassembled_bytes (r : StreamReassembler) : Z := _substrs_size r.
Definition empty (r : StreamReassembler) : bool := match _substrs r with [] => true | _ => false end.

(** The result of the loop that removes the stored bytes from the new data: the
    function returns, or goes on with the data left, its first index and its
    [eof] flag, and the part behind the stored substring when the data was
    broken in two. *)
Inductive dedup_result :=
| DedupReturn
| DedupRest (data_no_dup : bytes) (index_begin : Z) (eof_no_dup : bool) (breakdown : option Segment).

(** One iteration per stored substring. *)
Fixpoint dedup (substrs : list (Z * Segment)) (eof0 : bool)
    (data_no_dup : bytes) (index_begin index_end : Z) (eof_no_dup : bool) : res dedup_result :=
  match substrs with
  | [] => Ok (DedupRest data_no_dup index_begin eof_no_dup None)
  | (_, seg) :: rest =>
      if (len data_no_dup =? 0) && negb eof0 then Ok DedupReturn
      else if (len data_no_dup =? 0) && eof0
      then Ok (DedupRest data_no_dup index_begin eof_no_dup None)
      else
        let curr_begin := index seg in
        let curr_end := u64 (len (data seg) + curr_begin - 1) in
        if (index_end <? curr_begin) || (curr_end <? index_begin)
        then dedup rest eof0 data_no_dup index_begin index_end eof_no_dup
        else if (curr_begin <=? index_begin) && (index_end <=? curr_end)
        then Ok DedupReturn
        else if (curr_begin <=? index_begin) && (curr_end <? index_end)
        then
          let* data' := substr_from data_no_dup (u64 (curr_end - index_begin + 1)) in
          dedup rest eof0 data' (u64 (curr_end + 1)) index_end eof_no_dup
        else if (index_begin <? curr_begin) && (index_end <=? curr_end)
        then
          let index_end' := u64 (curr_begin - 1) in
          let data' := prefix_str data_no_dup (u64 (index_end' - index_begin + 1)) in
          dedup rest eof0 data' index_begin index_end' false
        else
          let* tail := substr_from data_no_dup (u64 (curr_end - index_begin + 1)) in
          Ok (DedupRest (prefix_str data_no_dup (u64 (curr_begin - index_begin))) index_begin false
                (Some (mkSegment eof_no_dup tail (u64 (curr_end + 1)))))
  end.

(** [_substrs.begin()->second] replaced: the head of the map. *)
Definition set_first (f : Segment -> Segment) (m : list (Z * Segment)) : list (Z * Segment) :=
  match m with
  | [] => []
  | (k, seg) :: m' => (k, f seg) :: m'
  end.

(** The [while] loop that drops the stored substrings of greatest index until the
    new data fits; each iteration drops a substring or shortens one. *)
Fixpoint evict_loop (fuel : nat) (r : StreamReassembler) (data_no_dup : bytes) (index_begin : Z)
    : res (StreamReassembler * bytes) :=
  if empty_size r <? len data_no_dup then
    match fuel with
    | O => Throw NoFuel
    | S fuel' =>
        match _substrs r with
        | [] => Ok (r, prefix_str data_no_dup (empty_size r))
        | (_, last) :: _ =>
            let max_index := index last in
            if max_index <? index_begin then Ok (r, prefix_str data_no_dup (empty_size r))
            else if len data_no_dup <? u64 (len (data last) + empty_size r) then
              let n := u64 (len (data last) + empty_size r - len data_no_dup) in
              evict_loop fuel'
                (r <| _substrs := set_first (fun s => s <| data := prefix_str (data s) n |>) (_substrs r) |>
                   <| _substrs_size := u64 (_substrs_size r - len data_no_dup) |>)
                data_no_dup index_begin
            else
              evict_loop fuel'
                (r <| _substrs := tail (_substrs r) |>
                   <| _substrs_size := u64 (_substrs_size r - len (data last)) |>)
                data_no_dup index_begin
        end
    end
  else Ok (r, data_no_dup).

(** Bounds the iterations of [evict_loop]: one per stored substring and stored byte. *)
Definition evict_fuel (m : list (Z * Segment)) : nat :=
  Z.to_nat (OMap.total (fun s => 1 + len (data s)) m).

(** The body of [if (data_no_dup.size() > empty_size())]; [None] is [return]. *)
Definition make_room (r : StreamReassembler) (data_no_dup : bytes) (index_begin : Z)
    : res (option (StreamReassembler * bytes)) :=
  if empty_size r <? len data_no_dup then
    match _substrs r with
    | [] => Ok (Some (r, prefix_str data_no_dup (empty_size r)))
    | (_, last) :: _ =>
        let max_index := index last in
        if max_index <? index_begin then Ok None
        else if len data_no_dup <? u64 (len (data last) + empty_size r) then
          let n := u64 (len (data last) + empty_size r - len data_no_dup) in
          Ok (Some
            (r <| _substrs := set_first
                    (fun s => (s <| data := prefix_str (data s) n |>) <| eof := false |>) (_substrs r) |>
               <| _substrs_size := u64 (_substrs_size r - len data_no_dup) |>,
             data_no_dup))
        else
          let r' := r <| _substrs := tail (_substrs r) |>
                      <| _substrs_size := u64 (_substrs_size r - len (data last)) |> in
          let* rd := evict_loop (S (evict_fuel (_substrs r'))) r' data_no_dup index_begin in
          Ok (Some rd)
    end
  else Ok (Some (r, data_no_dup)).

(** The loop that writes the substrings that became contiguous to the output. *)
Fixpoint write_loop (fuel : nat) (r : StreamReassembler) : res StreamReassembler :=
  let written := ByteStream.bytes_written (_output r) in
  match OMap.find written (_substrs r) with
  | None => Ok r
  | Some seg =>
      let size_write := ByteStream.remaining_capacity (_output r) in
      if size_write =? 0 then Ok r
      else
        match fuel with
        | O => Throw NoFuel
        | S fuel' =>
            let substrs := OMap.erase written (_substrs r) in
            if len (data seg) <=? size_write then
              let out := (ByteStream.write (_output r) (data seg)).1 in
              let out := if eof seg then ByteStream.end_input out else out in
              write_loop fuel'
                (r <| _output := out |> <| _substrs := substrs |>
                   <| _substrs_size := u64 (_substrs_size r - len (data seg)) |>)
            else
              let out := (ByteStream.write (_output r) (prefix_str (data seg) size_write)).1 in
              let* rest := substr_from (data seg) size_write in
              let seg' := (seg <| index := u64 (index seg + size_write) |>) <| data := rest |> in
              write_loop fuel'
                (r <| _output := out |>
                   <| _substrs := OMap.assign Z.gtb (index seg') seg' substrs |>
                   <| _substrs_size := u64 (_substrs_size r - size_write) |>)
        end
  end.

Definition store (r : StreamReassembler) (eof_no_dup : bool) (data_no_dup : bytes) (index_begin : Z)
    : StreamReassembler :=
  r <| _substrs := OMap.assign Z.gtb index_begin (mkSegment eof_no_dup data_no_dup index_begin) (_substrs r) |>
    <| _substrs_size := u64 (_substrs_size r + len data_no_dup) |>.

(** What was already written is removed from the data; [None] is [return]. *)
Definition trim_written (out : ByteStream) (data0 : bytes) (index0 : Z) : res (option (bytes * Z)) :=
  if index0 <? ByteStream.bytes_written out then
    let start_index := u64 (ByteStream.bytes_written out - index0) in
    if len data0 <=? start_index then Ok None
    else
      let* d := substr_from data0 start_index in
      Ok (Some (d, ByteStream.bytes_written out))
  else Ok (Some (data0, index0)).

Fixpoint push_substring_fuel (fuel : nat) (r : StreamReassembler) (data0 : bytes) (index0 : Z) (eof0 : bool)
    : res StreamReassembler :=
  match fuel with
  | O => Throw NoFuel
  | S fuel' =>
      if u64 (ByteStream.bytes_written (_output r) + ByteStream.remaining_capacity (_output r)) <=? index0
      then Ok r
      else
        let* trimmed := trim_written (_output r) data0 index0 in
        match trimmed with
        | None => Ok r
        | Some (data1, index1) =>
            let index_end := u64 (index1 + len data1 - 1) in
            let* dd := dedup (_substrs r) eof0 data1 index1 index_end eof0 in
            match dd with
            | DedupReturn => Ok r
            | DedupRest data_no_dup index_begin eof_no_dup (Some brk) =>
                let* r1 := push_substring_fuel fuel' r data_no_dup index_begin eof_no_dup in
                push_substring_fuel fuel' r1 (data brk) (index brk) (eof brk)
            | DedupRest data_no_dup index_begin eof_no_dup None =>
                let* room := make_room r data_no_dup index_begin in
                match room with
                | None => Ok r
                | Some (r1, data2) =>
                    let r2 := store r1 eof_no_dup data2 index_begin in
                    write_loop (S (length (_substrs r2))) r2
                end
            end
        end
  end.

(** Each recursive call is on strictly shorter data. *)
Definition push_substring (r : StreamReassembler) (data0 : bytes) (index0 : Z) (eof0 : bool)
    : res StreamReassembler :=
  push_substring_fuel (S (length data0)) r data0 index0 eof0.

(** The owner of the reassembler reads from the output stream it exposes. *)
Definition stream_out (r : StreamReassembler) : ByteStream := _output r.
Definition pop_output (r : StreamReassembler) (n : Z) : StreamReassembler :=
  r <| _output := ByteStream.pop_output (_output r) n |>.

(** ** Termination and absence of exceptions, in every state *)

Definition u64_range_val (z : Z) : Prop := 0 <= z < 18446744073709551616.

(** The numbers of the state fit their types. *)
Record in_range (r : StreamReassembler) : Prop := {
  ir_written : u64_range_val (ByteStream._written (_output r));
  ir_index : Forall (fun p => u64_range_val (index p.2)) (_substrs r);
}.

Lemma empty_size_range r : 0 <= empty_size r.
Proof. unfold empty_size. case_bool; [apply u64_range|lia]. Qed.

Lemma evict_fuel_cons k sg m :
  evict_fuel ((k, sg) :: m) = (S (length (data sg)) + evict_fuel m)%nat.
Proof.
  unfold evict_fuel. simpl.
  assert (0 <= OMap.total (fun s => 1 + len (data s)) m)
    by (apply OMap.total_nonneg; intros v; pose proof (len_nonneg (data v)); lia).
  unfold len in *. lia.
Qed.

(** Shortening keeps less than what the substring held. *)
Lemma shorten_len (d : bytes) room n :
  0 <= room < n -> n < u64 (len d + room) ->
  len (prefix_str d (u64 (len d + room - n))) < len d.
Proof.
  intros Hr Hn. pose proof (len_nonneg d).
  assert (u64 (len d + room - n) = u64 (len d + room) - n) as ->.
  { rewrite <- (u64_small (u64 (len d + room) - n)) by (pose proof (u64_range (len d + room)); lia).
    unfold u64. by rewrite Zminus_mod_idemp_l. }
  assert (u64 (len d + room) <= len d + room) by (apply Z.mod_le; lia).
  rewrite len_prefix_str by lia. lia.
Qed.

Lemma len_prefix_le (d : bytes) n : len (prefix_str d n) <= len d.
Proof. unfold prefix_str. rewrite len_take. lia. Qed.

Lemma in_range_substrs r m n :
  in_range r -> Forall (fun p => u64_range_val (index p.2)) m ->
  in_range (r <| _substrs := m |> <| _substrs_size := n |>).
Proof. intros [] ?. by split. Qed.

Lemma evict_loop_ok fuel : forall r d b,
  (evict_fuel (_substrs r) < fuel)%nat -> in_range r ->
  exists r' d', evict_loop fuel r d b = Ok (r', d') /\ in_range r' /\ len d' <= len d.
Proof.
  induction fuel as [|fuel IH]; intros r d b Hf Hr; [lia|]. cbn [evict_loop].
  pose proof (empty_size_range r). pose proof (len_prefix_le d (empty_size r)).
  destruct (Z.ltb_spec (empty_size r) (len d)); [|exists r, d; split_and!; done || lia].
  pose proof (ir_index _ Hr) as Hi.
  destruct (_substrs r) as [|[k sg] m] eqn:E; [eauto 6|]. rewrite evict_fuel_cons in Hf.
  apply Forall_cons_1 in Hi as [Hsg Hm].
  destruct (index sg <? b); [eauto 6|].
  destruct (Z.ltb_spec (len d) (u64 (len (data sg) + empty_size r))) as [Hlt|];
    apply IH; try (by apply in_range_substrs; [|constructor]); simpl; try lia.
  - pose proof (shorten_len (data sg) (empty_size r) (len d) ltac:(lia) Hlt) as Hsh.
    apply len_lt_length in Hsh. rewrite evict_fuel_cons. simpl. lia.
  - by apply in_range_substrs.
Qed.

Lemma make_room_ok r d b :
  in_range r ->
  make_room r d b = Ok None \/
  exists r' d', make_room r d b = Ok (Some (r', d')) /\ in_range r' /\ len d' <= len d.
Proof.
  intros Hr. unfold make_room. pose proof (len_prefix_le d (empty_size r)).
  destruct (empty_size r <? len d); [|right; exists r, d; split_and!; done || lia].
  pose proof (ir_index _ Hr) as Hi.
  destruct (_substrs r) as [|[k sg] m] eqn:E; [right; eauto 6|]. apply Forall_cons_1 in Hi as [Hsg Hm].
  destruct (index sg <? b); [by left|right]. case_bool.
  - eexists _, d. split; [done|]. split; [|lia]. apply in_range_substrs; [done|].
    simpl. by constructor.
  - set (r1 := r <| _substrs := m |> <| _substrs_size := u64 (_substrs_size r - len (data sg)) |>).
    destruct (evict_loop_ok (S (evict_fuel m)) r1 d b) as (r' & d' & Hok & Hr' & Hd').
    + simpl. lia.
    + by apply in_range_substrs.
    + exists r', d'. split; [|done].
      transitivity (let* rd := evict_loop (S (evict_fuel m)) r1 d b in Ok (Some rd));
        [reflexivity|by rewrite Hok].
Qed.

Lemma remaining_after_write b d :
  len d = remaining_capacity b -> remaining_capacity (ByteStream.write b d).1 = 0.
Proof.
  intros Hd. unfold ByteStream.write. simpl. rewrite <- Hd, Z.min_id, prefix_str_all by lia.
  unfold remaining_capacity in *. simpl. rewrite len_app, Hd.
  rewrite Z.sub_add_distr. unfold u64. rewrite Zminus_mod_idemp_r, Z.sub_diag. done.
Qed.

Lemma in_range_write r b d m n :
  in_range r -> ByteStream._written b = u64 d -> Forall (fun p => u64_range_val (index p.2)) m ->
  in_range (r <| _output := b |> <| _substrs := m |> <| _substrs_size := n |>).
Proof. intros [] Hb ?. split; simpl; [|done]. rewrite Hb. apply u64_range. Qed.

Lemma Forall_erase (P : Z * Segment -> Prop) k m : Forall P m -> Forall P (OMap.erase k m).
Proof.
  rewrite !List.Forall_forall. intros H p Hin. apply H. by eapply OMap.In_erase.
Qed.

Lemma Forall_assign (P : Z * Segment -> Prop) k v m :
  P (k, v) -> Forall P m -> Forall P (OMap.assign Z.gtb k v m).
Proof.
  rewrite !List.Forall_forall. intros Hv H p [->|?]%OMap.In_assign; auto.
Qed.

(** A full output stops the loop, whatever the fuel. *)
Lemma write_loop_full fuel r :
  remaining_capacity (_output r) = 0 -> write_loop fuel r = Ok r.
Proof. intros H. destruct fuel; cbn [write_loop]; rewrite H; by destruct (OMap.find _ _). Qed.

Lemma write_loop_ok fuel : forall r,
  (length (_substrs r) < fuel)%nat -> in_range r ->
  exists r', write_loop fuel r = Ok r' /\ in_range r'.
Proof.
  induction fuel as [|fuel IH]; intros r Hf Hr; [lia|]. cbn [write_loop].
  destruct (OMap.find _ _) as [sg|] eqn:Hfind; [|by eauto].
  pose proof (OMap.length_erase _ _ _ Hfind). pose proof (ir_index _ Hr) as Hi.
  destruct (Z.eqb_spec (remaining_capacity (_output r)) 0); [by eauto|].
  pose proof (u64_range (ByteStream._capacity (_output r) - len (_buffer (_output r)))) as Hrem.
  fold (remaining_capacity (_output r)) in Hrem.
  destruct (Z.leb_spec (len (data sg)) (remaining_capacity (_output r))).
  - apply IH; [simpl; lia|].
    eapply in_range_write; [done| |by apply Forall_erase]. by destruct (eof sg).
  - rewrite substr_from_ok by lia. cbn [res_bind]. rewrite write_loop_full.
    + eexists. split; [done|]. eapply in_range_write; [done|done|].
      apply Forall_assign; [apply u64_range|by apply Forall_erase].
    + apply remaining_after_write. rewrite len_prefix_str by lia. lia.
Qed.

(** What is left of the data is never longer, and both parts of broken data are
    shorter than the data. *)
Definition dedup_bound (n : Z) (b : Z) (o : dedup_result) : Prop :=
  match o with
  | DedupReturn => True
  | DedupRest d b' _ None => u64_range_val b' /\ b' + len d <= b + n /\ len d <= n
  | DedupRest d b' _ (Some brk) =>
      u64_range_val b' /\ u64_range_val (index brk) /\ len d < n /\ len (data brk) < n /\
      b' + len d <= b + n /\ index brk + len (data brk) <= b + n
  end.

Lemma dedup_bound_mono n b n1 b1 o :
  n1 <= n -> b1 + n1 <= b + n -> dedup_bound n1 b1 o -> dedup_bound n b o.
Proof. destruct o as [|d b' e [brk|]]; simpl; intuition lia. Qed.

Lemma dedup_ok m eof0 : forall d b e,
  Forall (fun p => u64_range_val (index p.2)) m ->
  0 <= b -> b + len d < 18446744073709551616 ->
  exists o, dedup m eof0 d b (u64 (b + len d - 1)) e = Ok o /\ dedup_bound (len d) b o.
Proof.
  induction m as [|[k sg] m IH]; intros d b e Hm Hb Hd; cbn [dedup].
  { eexists. split; [done|]. simpl. unfold u64_range_val. pose proof (len_nonneg d). lia. }
  apply Forall_cons_1 in Hm as [Hsg Hm]. simpl in Hsg. unfold u64_range_val in Hsg.
  pose proof (len_nonneg d). destruct (Z.eqb_spec (len d) 0); simpl.
  { destruct eof0; simpl; eexists; (split; [done|]); simpl; unfold u64_range_val; lia. }
  rewrite (u64_small (b + len d - 1)) by lia.
  pose proof (u64_range (len (data sg) + index sg - 1)).
  set (c := u64 (len (data sg) + index sg - 1)) in *. specialize (IH) with (1 := Hm).
  destruct ((b + len d - 1 <? index sg) || (c <? b)) eqn:Hskip.
  { rewrite <- (u64_small (b + len d - 1)) by lia. by apply IH. }
  apply orb_false_iff in Hskip as [?%Z.ltb_ge ?%Z.ltb_ge].
  destruct (Z.leb_spec (index sg) b), (Z.leb_spec (b + len d - 1) c); simpl.
  - eexists. split; [done|]. done.
  - rewrite (proj2 (Z.ltb_lt _ _)) by lia. u64_simpl. rewrite substr_from_ok by lia. cbn [res_bind].
    pose proof (len_drop (Z.to_nat (c - b + 1)) d) as Hl. rewrite Z.max_r in Hl by lia.
    set (d1 := drop (Z.to_nat (c - b + 1)) d) in *.
    replace (b + len d - 1) with (u64 (c + 1 + len d1 - 1)) by (rewrite u64_small; lia).
    edestruct (IH d1) as (o & -> & Ho); [| |exists o; split; [done|]]; try lia.
    eapply dedup_bound_mono; [| |done]; lia.
  - rewrite (proj2 (Z.ltb_lt _ _)) by lia. simpl. u64_simpl.
    pose proof (len_prefix_str d (index sg - 1 - b + 1) ltac:(lia)) as Hl. rewrite Z.min_l in Hl by lia.
    set (d1 := prefix_str d (index sg - 1 - b + 1)) in *.
    replace (index sg - 1) with (u64 (b + len d1 - 1)) by (rewrite u64_small; lia).
    edestruct (IH d1) as (o & -> & Ho); [| |exists o; split; [done|]]; try lia.
    eapply dedup_bound_mono; [| |done]; lia.
  - rewrite (proj2 (Z.ltb_lt b (index sg))) by lia. simpl. u64_simpl.
    rewrite substr_from_ok by lia. cbn [res_bind]. eexists. split; [done|]. simpl.
    pose proof (len_drop (Z.to_nat (c - b + 1)) d) as Hl. rewrite Z.max_r in Hl by lia.
    rewrite len_prefix_str, Hl by lia. unfold u64_range_val. lia.
Qed.

Lemma trim_written_ok b d i :
  u64_range_val (ByteStream._written b) -> 0 <= i -> i + len d < 18446744073709551616 ->
  trim_written b d i = Ok None \/
  exists d1 i1, trim_written b d i = Ok (Some (d1, i1)) /\ 0 <= i1 /\ len d1 <= len d /\
    i1 + len d1 <= i + len d.
Proof.
  unfold u64_range_val. intros Hw Hi Hd. unfold trim_written, ByteStream.bytes_written.
  destruct (Z.ltb_spec i (ByteStream._written b)); [|right; exists d, i; split_and!; done || lia].
  rewrite u64_small by lia. destruct (Z.leb_spec (len d) (ByteStream._written b - i)); [by left|right].
  rewrite substr_from_ok by lia. cbn [res_bind]. eexists _, _. split; [done|].
  rewrite len_drop. lia.
Qed.

Lemma push_substring_fuel_ok fuel : forall r d i e,
  (length d < fuel)%nat -> in_range r -> 0 <= i -> i + len d < 18446744073709551616 ->
  exists r', push_substring_fuel fuel r d i e = Ok r' /\ in_range r'.
Proof.
  induction fuel as [|fuel IH]; intros r d i e Hf Hr Hi Hd; [lia|]. cbn [push_substring_fuel].
  case_bool; [by eauto|].
  destruct (trim_written_ok (_output r) d i (ir_written _ Hr) Hi Hd) as [->|(d1 & i1 & -> & ? & ? & ?)];
    cbn [res_bind]; [by eauto|].
  destruct (dedup_ok (_substrs r) e d1 i1 e (ir_index _ Hr)) as (o & -> & Ho); [lia|lia|]. cbn [res_bind].
  destruct o as [|d2 b2 e2 [brk|]]; simpl in Ho; [by eauto| |].
  - destruct Ho as ([? ?] & [? ?] & ? & ? & ? & ?).
    destruct (IH r d2 b2 e2) as (r1 & -> & Hr1); [unfold len in *; lia|done|done|lia|]. cbn [res_bind].
    apply IH; [unfold len in *; lia|done|done|lia].
  - destruct (make_room_ok r d2 b2 Hr) as [->|(r1 & d3 & -> & Hr1 & ?)]; cbn [res_bind]; [by eauto|].
    apply write_loop_ok; [lia|]. apply in_range_substrs; [done|].
    apply Forall_assign; [apply Ho|apply Hr1].
Qed.

(** ** Properties *)

(** C34: [push_substring] terminates and never throws, in every state of the
    reassembler whose numbers fit their types, for every substring of the 64-bit
    index space: the recursion on broken data, the eviction loop and the loop that
    writes to the output all end, every [substr] is in range, and the numbers of
    the new state fit their types again. *)
Theorem push_substring_total r d i e :
  in_range r -> 0 <= i -> i + len d < 18446744073709551616 ->
  exists r', push_substring r d i e = Ok r' /\ in_range r'.
Proof. intros. apply push_substring_fuel_ok; [lia|done..]. Qed.

Lemma push_substring_total_witness :
  exists r', push_substring (new 8) [x61; x62; x63] 4 false = Ok r' /\ in_range r'.
Proof.
  apply (push_substring_total (new 8) [x61; x62; x63] 4 false).
  - split; [vm_compute; split; congruence|constructor].
  - lia.
  - unfold len. simpl. lia.
Defined.

Definition push_all (r : StreamReassembler) (l : list (bytes * Z * bool)) : res StreamReassembler :=
  fold_left (fun acc '(d, i, e) => let* r := acc in push_substring r d i e) l (Ok r).

(** When the new data has to evict a part of the substring of greatest index
    while some room is left, the counter of stored bytes is reduced by too much:
    with capacity 8, six bytes at index 4 and then four at index 0 leave nothing
    stored, yet [unassembled_bytes] reports 2^64 - 2. *)
Theorem eviction_size_underflow :
  exists r, push_all (new 8)
      [([x65; x66; x67; x68; x69; x6a], 4, false); ([x61; x62; x63; x64], 0, false)] = Ok r /\
    empty r = true /\ unassembled_bytes r = UINT64_MAX - 1.
Proof. eexists. split; [vm_compute; reflexivity|]. split; reflexivity. Qed.

(** A last substring that does not fit keeps its end-of-stream mark when it is
    cut: with capacity 2, [abc] marked [eof] ends the output after [ab]. *)
Theorem eof_after_truncation :
  exists r, push_substring (new 2) [x61; x62; x63] 0 true = Ok r /\
    ByteStream._buffer (stream_out r) = [x61; x62] /\ ByteStream.input_ended (stream_out r) = true.
Proof. eexists. split; [vm_compute; reflexivity|]. split; reflexivity. Qed.

(** A retransmission of bytes already received that now carries the end of the
    stream is dropped with its mark: the output never ends. *)
Theorem eof_lost_on_duplicate :
  exists r, push_all (new 8) [([x61; x62; x63], 0, false); ([x61; x62; x63], 0, true)] = Ok r /\
    ByteStream.bytes_written (stream_out r) = 3 /\ empty r = true /\
    ByteStream.input_ended (stream_out r) = false.
Proof. eexists. split; [vm_compute; reflexivity|]. split_and!; reflexivity. Qed.
