(* ===== verification/Reassembly.v ===== *)
(** * Correctness of the reassembler

    What [StreamReassembler.push_substring] promises, for every stream [s] and
    every sequence of substrings of [s] that stay inside the window: after each
    call the output holds exactly the longest received prefix of [s], the bytes
    still stored are exactly the other received ones, counted once, and the end of
    input is signalled exactly when all of [s] and its end were received. *)

From stdpp Require Import base list numbers.
From Stdlib Require Import ZArith Lia Strings.Byte Sorting.Sorted.
From S2P Require Import Prelude.
From S2P Require Import OMap.
From S2P Require Import ByteStream.
From S2P Require Import StreamReassembler.
#[local] Open Scope Z_scope.

Abbreviation seg_len := (fun sg : Segment => len (data sg)).

(** A stream and how its end is marked: when [attached], by every non-empty
    substring that reaches it, otherwise only by empty ones behind the last byte. *)
Record source := Source { text :> bytes; attached : bool }.

(** ** Stored substrings *)

(** A stored substring holds the bytes of [s] at its index, and is marked [eof]
    only when it reaches the end of [s], as the source marks it (an empty one may
    be unmarked there). *)
Record seg_ok (s : source) (sg : Segment) : Prop := {
  seg_data : data sg = [] \/
    (data sg = slice s (index sg) (len (data sg)) /\ index sg + len (data sg) <= len s);
  seg_eof : eof sg = true -> index sg + len (data sg) = len s;
  seg_last : data sg <> [] -> index sg + len (data sg) = len s -> eof sg = attached s;
}.

(** The map in iteration order: keys strictly decreasing, the substrings disjoint
    and inside [lo, hi). *)
Fixpoint substrs_wf (s : source) (lo hi : Z) (m : list (Z * Segment)) : Prop :=
  match m with
  | [] => True
  | (k, sg) :: m' =>
      index sg = k /\ lo <= k < hi /\ k + len (data sg) <= hi /\ seg_ok s sg /\ substrs_wf s lo k m'
  end.

Definition covered (m : list (Z * Segment)) (i : Z) : Prop :=
  exists k sg, In (k, sg) m /\ k <= i < k + len (data sg).

Definition has_eof (m : list (Z * Segment)) : Prop :=
  exists k sg, In (k, sg) m /\ eof sg = true.

(** No stored byte, and no stored key, lies in [b, b + n), but for an empty
    substring at [b] itself. *)
Definition clear_of (b n : Z) (m : list (Z * Segment)) : Prop :=
  forall k sg, In (k, sg) m ->
    (k = b /\ data sg = []) \/ (k < b /\ k + len (data sg) <= b) \/ (b < k /\ b + n <= k).

(** [piece s b n e]: the non-empty range [b, b + n) of [s], with the [eof] mark
    that a range of [s] carries. *)
Record piece (s : source) (b n : Z) (e : bool) : Prop := {
  piece_pos : 0 < n;
  piece_begin : 0 <= b;
  piece_end : b + n <= len s;
  piece_eof : e = true <-> attached s = true /\ b + n = len s;
}.

(** ** The invariant *)

(** [q] is the abstract output stream: [Spec.sent q] are the bytes of [s] written so
    far, and the window ends at [Spec.taken q + Spec.cap q]. *)
Definition window_end (q : Spec.fifo) : Z := Spec.taken q + Spec.cap q.

Record inv (s : source) (q : Spec.fifo) (r : StreamReassembler) : Prop := {
  inv_out : ByteStream.refines q (_output r);
  inv_cap : _capacity r = Spec.cap q;
  inv_sent : Spec.sent q = take (length (Spec.sent q)) s;
  inv_wf : substrs_wf s (len (Spec.sent q)) (window_end q) (_substrs r);
  inv_size : _substrs_size r = OMap.total seg_len (_substrs r);
  inv_closed : Spec.closed q = true -> len (Spec.sent q) = len s;
  inv_last : attached s = true -> 0 < len s -> len (Spec.sent q) = len s -> Spec.closed q = true;
  inv_bound : len s + Spec.cap q < 18446744073709551616;
}.

(** Nothing stored could be written out. *)
Definition settled (q : Spec.fifo) (r : StreamReassembler) : Prop :=
  forall k sg, In (k, sg) (_substrs r) -> len (Spec.sent q) < k.

(** The indices received so far, and whether the end of [s] was. *)
Definition received (q : Spec.fifo) (r : StreamReassembler) (i : Z) : Prop :=
  0 <= i < len (Spec.sent q) \/ covered (_substrs r) i.

Definition end_received (q : Spec.fifo) (r : StreamReassembler) : Prop :=
  Spec.closed q = true \/ has_eof (_substrs r).

(** A substring of [s] that stays inside the window.  A call with no bytes (a pure
    acknowledgment) may be anywhere. *)
Record valid_push (s : source) (q : Spec.fifo) (d : bytes) (i : Z) (e : bool) : Prop := {
  push_index : 0 <= i;
  push_data : d = [] \/ (d = slice s i (len d) /\ i + len d <= len s /\ i + len d <= window_end q);
  push_eof : e = true -> i + len d = len s;
  push_last : d <> [] -> i + len d = len s -> e = attached s;
}.

(** What a call does. *)
Record pushed (q : Spec.fifo) (r : StreamReassembler) (d : bytes) (i : Z) (e : bool)
    (q' : Spec.fifo) (r' : StreamReassembler) : Prop := {
  pushed_cap : Spec.cap q' = Spec.cap q;
  pushed_taken : Spec.taken q' = Spec.taken q;
  pushed_received : forall j, received q' r' j <-> received q r j \/ i <= j < i + len d;
  pushed_end : end_received q' r' <-> end_received q r \/ (e = true /\ i < window_end q);
}.

(** ** Lemmas on the stored substrings *)

Lemma substrs_wf_ordered s lo hi m : substrs_wf s lo hi m -> OMap.ordered Z.gtb m.
Proof.
  revert hi. induction m as [|[k sg] m IH]; intros hi; simpl; [constructor|].
  intros (_ & _ & _ & _ & Hm). apply OMap.ordered_cons; [by eapply IH|].
  clear IH. intros k' sg'. rewrite Z.gtb_ltb, Z.ltb_lt.
  revert k Hm. induction m as [|[k1 sg1] m IH]; intros k; simpl; [done|].
  intros (_ & ? & _ & _ & Hm) [[= -> ->]|Hin]; [lia|]. specialize (IH _ Hm Hin). lia.
Qed.

Lemma substrs_wf_In s lo hi m k sg :
  substrs_wf s lo hi m -> In (k, sg) m ->
  index sg = k /\ lo <= k < hi /\ k + len (data sg) <= hi /\ seg_ok s sg.
Proof.
  revert hi. induction m as [|[k' sg'] m IH]; intros hi; simpl; [done|].
  intros (? & ? & ? & ? & Hm) [[= -> ->]|Hin]; [done|].
  destruct (IH _ Hm Hin) as (? & ? & ? & ?). split_and!; try done; lia.
Qed.

Lemma substrs_wf_hi s lo hi hi' m : hi <= hi' -> substrs_wf s lo hi m -> substrs_wf s lo hi' m.
Proof. destruct m as [|[k sg] m]; simpl; intuition lia. Qed.

Lemma substrs_wf_lo s lo lo' hi m :
  (forall k sg, In (k, sg) m -> lo' <= k) -> substrs_wf s lo hi m -> substrs_wf s lo' hi m.
Proof.
  revert hi. induction m as [|[k sg] m IH]; intros hi Hlo; simpl; [done|].
  intros (? & ? & ? & ? & ?). assert (lo' <= k) by (eapply Hlo; by left).
  split_and!; try done; try lia. apply IH; [|done]. intros. eapply Hlo. by right.
Qed.

Lemma substrs_wf_total s lo hi m :
  lo <= hi -> substrs_wf s lo hi m -> OMap.total seg_len m <= hi - lo.
Proof.
  revert hi. induction m as [|[k sg] m IH]; intros hi Hle; simpl; [lia|].
  intros (_ & ? & ? & _ & Hm). specialize (IH k ltac:(lia) Hm). lia.
Qed.

Lemma seg_len_nonneg m : 0 <= OMap.total seg_len m.
Proof. apply OMap.total_nonneg. intros. apply len_nonneg. Qed.

(** Storing a range that is clear of the others keeps the map well formed. *)
Lemma substrs_wf_assign s lo hi m b sg :
  substrs_wf s lo hi m -> index sg = b -> lo <= b < hi -> b + len (data sg) <= hi ->
  seg_ok s sg -> clear_of b (len (data sg)) m ->
  substrs_wf s lo hi (OMap.assign Z.gtb b sg m).
Proof.
  intros Hwf Hi Hb Hn Hok. revert hi Hwf Hb Hn.
  induction m as [|[k sg'] m IH]; intros hi Hwf Hb Hn Hclr; simpl.
  { split_and!; done || lia. }
  destruct Hwf as (Hk & Hlo & Hhi & Hsg & Hm).
  pose proof (Hclr k sg' ltac:(by left)) as Hc.
  destruct (Z.eqb_spec b k) as [->|Hne].
  - simpl. split_and!; done || lia.
  - rewrite Z.gtb_ltb. destruct (Z.ltb_spec k b); simpl.
    + split_and!; done || lia.
    + split_and!; try done; try lia. apply IH; try done; try lia.
      intros k1 sg1 Hin. apply Hclr. by right.
Qed.

(** Removing the substring at the lower end moves that end. *)
Lemma substrs_wf_erase s lo hi m sg :
  substrs_wf s lo hi m -> OMap.find lo m = Some sg ->
  substrs_wf s (lo + len (data sg)) hi (OMap.erase lo m).
Proof.
  revert hi. induction m as [|[k sg'] m IH]; intros hi; simpl; [done|].
  intros (? & ? & ? & ? & Hm).
  destruct (Z.eqb_spec lo k) as [->|Hne].
  - intros [= ->]. destruct m as [|[k1 sg1] m]; [done|]. simpl in Hm. lia.
  - intros Hf. pose proof (substrs_wf_In _ _ _ _ _ _ Hm (OMap.find_In _ _ _ Hf)) as (? & ? & ? & ?).
    simpl. split_and!; try done; try lia. by apply IH.
Qed.

Lemma covered_cons k sg m i :
  covered ((k, sg) :: m) i <-> k <= i < k + len (data sg) \/ covered m i.
Proof.
  unfold covered. simpl. split.
  - intros (k' & sg' & [[= <- <-]|Hin] & Hi); [by left|right; eauto].
  - intros [Hi|(k' & sg' & Hin & Hi)]; eauto 6.
Qed.

Lemma covered_assign m b sg i :
  OMap.ordered Z.gtb m -> (forall sg', In (b, sg') m -> data sg' = []) ->
  covered (OMap.assign Z.gtb b sg m) i <-> b <= i < b + len (data sg) \/ covered m i.
Proof.
  intros Ho Hb. split.
  - intros (k & sg' & Hin & Hi).
    destruct (OMap.In_assign_inv _ _ _ _ _ _ Hin Ho) as [[-> ->]|[Hne Hin']]; [by left|].
    right. by exists k, sg'.
  - intros [Hi|(k & sg' & Hin & Hi)].
    + exists b, sg. split; [apply OMap.In_assign_eq|done].
    + destruct (Z.eq_dec k b) as [->|Hne].
      * rewrite (Hb _ Hin), len_nil in Hi. lia.
      * exists k, sg'. split; [by apply OMap.In_assign_ne|done].
Qed.

Lemma covered_erase m b sg i :
  OMap.ordered Z.gtb m -> OMap.find b m = Some sg ->
  covered m i <-> b <= i < b + len (data sg) \/ covered (OMap.erase b m) i.
Proof.
  intros Ho Hf. split.
  - intros (k & sg' & Hin & Hi). destruct (Z.eq_dec k b) as [->|Hne].
    + apply (OMap.In_find Z.gtb) in Hin; [|done]. left. by simplify_eq.
    + right. exists k, sg'. split; [by apply OMap.In_erase_ne|done].
  - intros [Hi|(k & sg' & Hin & Hi)].
    + exists b, sg. split; [by apply OMap.find_In|done].
    + exists k, sg'. split; [by eapply OMap.In_erase|done].
Qed.

Lemma has_eof_assign m b sg :
  OMap.ordered Z.gtb m -> (forall sg', In (b, sg') m -> eof sg' = true -> eof sg = true) ->
  has_eof (OMap.assign Z.gtb b sg m) <-> eof sg = true \/ has_eof m.
Proof.
  intros Ho Hb. split.
  - intros (k & sg' & Hin & He).
    destruct (OMap.In_assign_inv _ _ _ _ _ _ Hin Ho) as [[-> ->]|[Hne Hin']]; [by left|].
    right. by exists k, sg'.
  - intros [He|(k & sg' & Hin & He)].
    + exists b, sg. split; [apply OMap.In_assign_eq|done].
    + destruct (Z.eq_dec k b) as [->|Hne].
      * exists b, sg. split; [apply OMap.In_assign_eq|eauto].
      * exists k, sg'. split; [by apply OMap.In_assign_ne|done].
Qed.

Lemma has_eof_erase m b sg :
  OMap.ordered Z.gtb m -> OMap.find b m = Some sg ->
  has_eof m <-> eof sg = true \/ has_eof (OMap.erase b m).
Proof.
  intros Ho Hf. split.
  - intros (k & sg' & Hin & He). destruct (Z.eq_dec k b) as [->|Hne].
    + apply (OMap.In_find Z.gtb) in Hin; [|done]. left. by simplify_eq.
    + right. exists k, sg'. split; [by apply OMap.In_erase_ne|done].
  - intros [He|(k & sg' & Hin & He)].
    + exists b, sg. split; [by apply OMap.find_In|done].
    + exists k, sg'. split; [by eapply OMap.In_erase|done].
Qed.

(** ** Removing the bytes that are already stored *)

Record piece_of (s : source) (b n : Z) (d : bytes) (b' n' : Z) (e' : bool) : Prop := {
  po_data : d = slice s b' n';
  po_piece : piece s b' n' e';
  po_begin : b <= b';
  po_end : b' + n' <= b + n;
}.

(** What [dedup] leaves of the range [b, b + n) with mark [e]. *)
Definition dedup_post (s : source) (m : list (Z * Segment)) (b n : Z) (e : bool) (o : dedup_result) : Prop :=
  match o with
  | DedupReturn => (forall i, b <= i < b + n -> covered m i) /\ (e = true -> has_eof m)
  | DedupRest d b' e' None =>
      exists n', piece_of s b n d b' n' e' /\ clear_of b' n' m /\
        (forall i, b <= i < b + n -> b' <= i < b' + n' \/ covered m i) /\
        (e = true -> e' = true \/ has_eof m)
  | DedupRest d b' e' (Some brk) =>
      exists n' n2, piece_of s b n d b' n' e' /\ piece_of s b n (data brk) (index brk) n2 (eof brk) /\
        n' < n /\ n2 < n /\
        (forall i, b <= i < b + n ->
          b' <= i < b' + n' \/ index brk <= i < index brk + n2 \/ covered m i) /\
        (e = true -> eof brk = true \/ has_eof m)
  end.

Lemma has_eof_cons k sg m : has_eof ((k, sg) :: m) <-> eof sg = true \/ has_eof m.
Proof.
  unfold has_eof. simpl. split.
  - intros (k' & sg' & [[= <- <-]|Hin] & Hi); [by left|right; eauto].
  - intros [Hi|(k' & sg' & Hin & Hi)]; eauto 6.
Qed.

Lemma piece_of_widen s b n b1 n1 d b' n' e' :
  b <= b1 -> b1 + n1 <= b + n -> piece_of s b1 n1 d b' n' e' -> piece_of s b n d b' n' e'.
Proof. intros ? ? []. split; try done; lia. Qed.

(** The rest of the loop on a sub-range of which the visited substring is clear. *)
Lemma dedup_post_cons s m k sg b n e b1 n1 e1 o :
  b <= b1 -> b1 + n1 <= b + n -> n1 <= n ->
  (forall i, b <= i < b + n -> b1 <= i < b1 + n1 \/ k <= i < k + len (data sg)) ->
  (e = true -> e1 = true \/ eof sg = true) ->
  clear_of b1 n1 [(k, sg)] ->
  dedup_post s m b1 n1 e1 o -> dedup_post s ((k, sg) :: m) b n e o.
Proof.
  intros Hb Hn Hn1 Hcov He Hclr. destruct o as [|d b' e' [brk|]]; simpl.
  - intros [Hc Hf]. split.
    + intros i Hi. rewrite covered_cons. destruct (Hcov i Hi); [right; by apply Hc|by left].
    + intros Het. rewrite has_eof_cons. destruct (He Het); [right; by apply Hf|by left].
  - intros (n' & n2 & P1 & P2 & ? & ? & Hc & Hf). exists n', n2.
    split_and!; eauto using piece_of_widen; try lia.
    + intros i Hi. rewrite covered_cons. destruct (Hcov i Hi) as [Hi1|]; [|by eauto].
      destruct (Hc i Hi1) as [|[|]]; eauto.
    + intros Het. rewrite has_eof_cons. destruct (He Het) as [H1|]; [|by eauto].
      destruct (Hf H1); eauto.
  - intros (n' & P & Hclr' & Hc & Hf). exists n'.
    pose proof (piece_pos _ _ _ _ (po_piece _ _ _ _ _ _ _ P)).
    split_and!; eauto using piece_of_widen.
    + intros k1 sg1 [[= <- <-]|Hin]; [|by eapply Hclr'].
      specialize (Hclr k sg ltac:(by left)). destruct P.
      destruct Hclr as [[-> Hnil]|[?|?]]; [|lia|lia].
      destruct (Z.eq_dec b1 b') as [->|]; [by left|]. rewrite Hnil, len_nil. lia.
    + intros i Hi. rewrite covered_cons. destruct (Hcov i Hi) as [Hi1|]; [|by eauto].
      destruct (Hc i Hi1); eauto.
    + intros Het. rewrite has_eof_cons. destruct (He Het) as [H1|]; [|by eauto].
      destruct (Hf H1); eauto.
Qed.

Lemma slice_len_pos s b n e : piece s b n e -> len (slice s b n) = n.
Proof. intros []. by apply len_slice; lia. Qed.

(** A stored range that reaches the end of [s] carries the mark. *)
Lemma overlap_eof s sg i :
  seg_ok s sg -> index sg <= i < index sg + len (data sg) -> i + 1 = len s ->
  attached s = true -> eof sg = true.
Proof.
  intros [Hd _ Hl] Hi Hs <-. assert (data sg <> []) as Hne.
  { intros E. rewrite E, len_nil in Hi. lia. }
  apply Hl; [done|]. destruct Hd as [|[_ ?]]; [done|lia].
Qed.

(** The cases of the loop body at the stored substring [sg]; [Hrest] is what the
    rest of the loop does. *)
Section DedupCases.

Context (s : source) (m : list (Z * Segment)) (k : Z) (sg : Segment) (eof0 : bool).
Context (Hk : index sg = k) (Hk0 : 0 < k) (Hk1 : k + len (data sg) < 18446744073709551616).
Context (Hs : len s < 18446744073709551616) (Hsg : seg_ok s sg).
Context (Hrest : forall b n e, piece s b n e ->
  exists o, dedup m eof0 (slice s b n) b (b + n - 1) e = Ok o /\ dedup_post s m b n e o).

Notation goal b n e :=
  (exists o, dedup ((k, sg) :: m) eof0 (slice s b n) b (b + n - 1) e = Ok o /\ dedup_post s ((k, sg) :: m) b n e o).

(** The tests of the loop body, on a range that is not empty. *)
Ltac dedup_case P :=
  pose proof (slice_len_pos _ _ _ _ P) as Hlen; pose proof (len_nonneg (data sg)) as Hsl;
  destruct P as [Pp Pb Pe Pf]; simpl; rewrite Hlen, Hk;
  rewrite (proj2 (Z.eqb_neq _ 0)) by lia; simpl; u64_simpl.

Lemma dedup_apart b n e :
  piece s b n e -> b + n - 1 < k \/ len (data sg) + k - 1 < b -> goal b n e.
Proof.
  intros P Ha. pose proof P as P'. dedup_case P'.
  rewrite (proj2 (orb_true_iff _ _)) by (rewrite !Z.ltb_lt; lia).
  destruct (Hrest b n e P) as (o & Ho & Hpost). exists o. split; [done|].
  apply (dedup_post_cons _ _ _ _ _ _ _ b n e); eauto; try lia.
  intros k1 sg1 [[= <- <-]|[]]. destruct (Z.eq_dec k b) as [->|]; [|lia].
  left. split; [done|]. apply len_zero_nil. lia.
Qed.

(** The stored substring has all of it. *)
Lemma dedup_inside b n e :
  piece s b n e -> k <= b -> b + n - 1 <= len (data sg) + k - 1 -> goal b n e.
Proof.
  intros P H1 H2. dedup_case P.
  rewrite (proj2 (orb_false_iff _ _)) by (rewrite !Z.ltb_ge; lia).
  rewrite !(proj2 (Z.leb_le _ _)) by lia. simpl.
  eexists. split; [done|]. split; [intros i Hi; apply covered_cons; lia|].
  intros He. apply has_eof_cons. left. destruct (proj1 Pf He).
  apply (overlap_eof s sg (b + n - 1)); try done; lia.
Qed.

(** It has a prefix. *)
Lemma dedup_prefix b n e :
  piece s b n e -> k <= b -> b <= len (data sg) + k - 1 < b + n - 1 -> goal b n e.
Proof.
  intros P H1 H2. dedup_case P.
  rewrite (proj2 (orb_false_iff _ _)) by (rewrite !Z.ltb_ge; lia).
  rewrite (proj2 (Z.leb_le k b)), (proj2 (Z.leb_gt _ (len (data sg) + k - 1))), (proj2 (Z.ltb_lt _ _)) by lia.
  simpl. u64_simpl. rewrite substr_from_ok by (rewrite Hlen; lia). simpl.
  set (x := len (data sg) + k - b). rewrite slice_drop by lia.
  replace (b + (len (data sg) + k - 1 - b + 1)) with (b + x) by lia.
  replace (n - (len (data sg) + k - 1 - b + 1)) with (n - x) by lia.
  replace (len (data sg) + k - 1 + 1) with (b + x) by lia.
  replace (b + n - 1) with (b + x + (n - x) - 1) by lia.
  destruct (Hrest (b + x) (n - x) e) as (o & Ho & Hpost); [split; lia || (rewrite Pf; intuition lia)|].
  exists o. split; [done|].
  apply (dedup_post_cons _ _ _ _ _ _ _ (b + x) (n - x) e); eauto; try lia.
  intros k1 sg1 [[= <- <-]|[]]. lia.
Qed.

(** It has a suffix. *)
Lemma dedup_suffix b n e :
  piece s b n e -> b < k <= b + n - 1 -> b + n - 1 <= len (data sg) + k - 1 -> goal b n e.
Proof.
  intros P H1 H2. dedup_case P.
  rewrite (proj2 (orb_false_iff _ _)) by (rewrite !Z.ltb_ge; lia).
  rewrite (proj2 (Z.leb_gt k b)), (proj2 (Z.ltb_lt b k)), (proj2 (Z.leb_le _ _)) by lia. simpl. u64_simpl.
  unfold prefix_str. rewrite slice_take by lia.
  replace (k - 1 - b + 1) with (k - b) by lia.
  replace (k - 1) with (b + (k - b) - 1) by lia.
  destruct (Hrest b (k - b) false) as (o & Ho & Hpost); [split; lia|].
  exists o. split; [done|].
  apply (dedup_post_cons _ _ _ _ _ _ _ b (k - b) false); eauto; try lia.
  - intros He. right. destruct (proj1 Pf He). apply (overlap_eof s sg (b + n - 1)); try done; lia.
  - intros k1 sg1 [[= <- <-]|[]]. lia.
Qed.

(** It has the middle: the data is broken in two. *)
Lemma dedup_middle b n e :
  piece s b n e -> b < k -> b <= len (data sg) + k - 1 < b + n - 1 -> goal b n e.
Proof.
  intros P H1 H2. dedup_case P.
  rewrite (proj2 (orb_false_iff _ _)) by (rewrite !Z.ltb_ge; lia).
  rewrite (proj2 (Z.leb_gt k b)), (proj2 (Z.ltb_lt b k)), (proj2 (Z.leb_gt _ _)) by lia. simpl.
  u64_simpl. rewrite substr_from_ok by (rewrite Hlen; lia). simpl.
  eexists. split; [done|]. exists (k - b), (b + n - (len (data sg) + k)). simpl.
  unfold prefix_str. rewrite slice_take, slice_drop by lia. split_and!; try lia.
  - split; [done| |lia|lia]. split; [lia|lia|lia|split; [done|lia]].
  - split; [f_equal; lia| |lia|lia]. split; [lia|lia|lia|rewrite Pf; intuition lia].
  - intros i Hi. rewrite covered_cons. lia.
  - eauto.
Qed.

End DedupCases.

Lemma dedup_spec s lo hi m eof0 :
  substrs_wf s lo hi m -> 0 < lo -> hi < 18446744073709551616 -> len s < 18446744073709551616 ->
  forall b n e, piece s b n e ->
  exists o, dedup m eof0 (slice s b n) b (b + n - 1) e = Ok o /\ dedup_post s m b n e o.
Proof.
  intros Hwf Hlo Hhi Hs. revert hi Hhi Hwf.
  induction m as [|[k sg] m IH]; intros hi Hhi Hwf b n e P.
  { eexists. split; [done|]. exists n. split_and!; [|by intros ?? []|by eauto|by eauto].
    split; [done|done|destruct P; lia|destruct P; lia]. }
  destruct Hwf as (Hk & Hk1 & Hk2 & Hsg & Hm). specialize (IH k ltac:(lia) Hm).
  pose proof (piece_pos _ _ _ _ P).
  destruct (Z.lt_ge_cases (b + n - 1) k); [apply dedup_apart; auto; lia|].
  destruct (Z.lt_ge_cases (len (data sg) + k - 1) b); [apply dedup_apart; auto; lia|].
  destruct (Z.le_gt_cases k b), (Z.le_gt_cases (b + n - 1) (len (data sg) + k - 1));
    [apply dedup_inside|apply dedup_prefix|apply dedup_suffix|apply dedup_middle]; auto; lia.
Qed.

(** ** Writing out what became contiguous *)

Lemma sent_bound s q r : inv s q r -> len (Spec.sent q) <= len s.
Proof. intros I. rewrite (inv_sent _ _ _ I), len_take. lia. Qed.

Lemma sent_nonneg (q : Spec.fifo) : 0 <= len (Spec.sent q).
Proof. apply len_nonneg. Qed.

Lemma window_end_bound s q r : inv s q r -> window_end q < 18446744073709551616.
Proof.
  intros I. pose proof (sent_bound _ _ _ I). pose proof (inv_bound _ _ _ I).
  pose proof (ref_taken _ _ (inv_out _ _ _ I)). unfold window_end. lia.
Qed.

Lemma inv_written s q r : inv s q r -> ByteStream.bytes_written (_output r) = len (Spec.sent q).
Proof.
  intros I. unfold ByteStream.bytes_written. rewrite (ref_written _ _ (inv_out _ _ _ I)).
  pose proof (sent_bound _ _ _ I). pose proof (inv_bound _ _ _ I). pose proof (sent_nonneg q).
  pose proof (ref_cap_range _ _ (inv_out _ _ _ I)). apply u64_small. lia.
Qed.

Lemma inv_remaining s q r :
  inv s q r ->
  ByteStream.remaining_capacity (_output r) = window_end q - len (Spec.sent q).
Proof.
  intros I. rewrite (ByteStream.refines_remaining _ _ (inv_out _ _ _ I)).
  unfold Spec.room, window_end. lia.
Qed.

(** The abstract output after writing all of a stored substring. *)
Definition write_seg (q : Spec.fifo) (sg : Segment) : Spec.fifo :=
  let q' := Spec.push q (data sg) in
  if eof sg then Spec.close q' else q'.

Lemma write_seg_sent q sg :
  len (data sg) <= Spec.room q -> Spec.sent (write_seg q sg) = Spec.sent q ++ data sg.
Proof. intros H. unfold write_seg. destruct (eof sg); simpl; by rewrite prefix_str_all. Qed.

Lemma write_seg_same q sg :
  Spec.cap (write_seg q sg) = Spec.cap q /\ Spec.taken (write_seg q sg) = Spec.taken q /\
  Spec.closed (write_seg q sg) = Spec.closed q || eof sg.
Proof. unfold write_seg. destruct (eof sg); simpl; rewrite ?orb_true_r, ?orb_false_r; auto. Qed.

Lemma write_seg_refines q b sg :
  refines q b ->
  refines (write_seg q sg)
    (let out := (ByteStream.write b (data sg)).1 in
     if eof sg then ByteStream.end_input out else out).
Proof.
  intros R. pose proof (proj1 (ByteStream.refines_write q b (data sg) R)).
  unfold write_seg. destruct (eof sg); [by apply ByteStream.refines_end_input|done].
Qed.

Definition write_step (r : StreamReassembler) (sg : Segment) : StreamReassembler :=
  let out := (ByteStream.write (_output r) (data sg)).1 in
  mkStreamReassembler (if eof sg then ByteStream.end_input out else out) (_capacity r)
    (OMap.erase (ByteStream.bytes_written (_output r)) (_substrs r))
    (u64 (_substrs_size r - len (data sg))).

Lemma write_step_inv s q r sg :
  inv s q r -> OMap.find (len (Spec.sent q)) (_substrs r) = Some sg ->
  inv s (write_seg q sg) (write_step r sg).
Proof.
  intros I Hf. pose proof (inv_wf _ _ _ I) as Hwf. pose proof (sent_nonneg q).
  pose proof (substrs_wf_In _ _ _ _ _ _ Hwf (OMap.find_In _ _ _ Hf)) as (Hi & Hk & Hl & [Sd Se Sl]).
  pose proof (write_seg_same q sg) as (Hcap & Htk & Hcl).
  assert (Hsent := write_seg_sent q sg ltac:(unfold Spec.room, window_end in *; lia)).
  pose proof (OMap.total_erase seg_len _ _ _ Hf) as Htot. cbv beta in Htot.
  pose proof (seg_len_nonneg (OMap.erase (len (Spec.sent q)) (_substrs r))).
  pose proof (substrs_wf_total s (len (Spec.sent q)) (window_end q) (_substrs r) ltac:(lia) Hwf).
  pose proof (len_nonneg (data sg)).
  pose proof (window_end_bound _ _ _ I). unfold write_step. rewrite (inv_written _ _ _ I).
  split; simpl; rewrite ?Hcap, ?Hcl, ?Hsent.
  - by apply write_seg_refines, I.
  - apply I.
  - destruct Sd as [E|[E Hle]]; [rewrite E, app_nil_r; apply I|].
    rewrite (inv_sent _ _ _ I) at 1. rewrite E at 1. rewrite Hi.
    replace (length (Spec.sent q)) with (Z.to_nat (len (Spec.sent q))) at 1 by (unfold len; lia).
    rewrite slice_app by lia. f_equal. rewrite length_app. unfold len in *. lia.
  - rewrite len_app. replace (window_end (write_seg q sg)) with (window_end q)
      by (unfold window_end; congruence). by apply substrs_wf_erase.
  - rewrite (inv_size _ _ _ I), Htot. apply u64_small. lia.
  - rewrite len_app. intros [Hc|He]%orb_true_iff; [|apply Se in He; lia].
    pose proof (inv_closed _ _ _ I Hc). destruct Sd as [->|[_ ?]]; [rewrite len_nil|]; lia.
  - rewrite len_app. intros Ha Hs Hend. apply orb_true_iff.
    destruct (decide (data sg = [])) as [E|Hne]; [|right; rewrite <- Ha; apply Sl; [done|lia]].
    left. apply (inv_last _ _ _ I); [done|done|]. rewrite E, len_nil in Hend. lia.
  - apply I.
Qed.

Lemma write_step_same s q r sg :
  inv s q r -> OMap.find (len (Spec.sent q)) (_substrs r) = Some sg ->
  (forall i, received (write_seg q sg) (write_step r sg) i <-> received q r i) /\
  (end_received (write_seg q sg) (write_step r sg) <-> end_received q r).
Proof.
  intros I Hf. pose proof (inv_wf _ _ _ I) as Hwf. pose proof (substrs_wf_ordered _ _ _ _ Hwf) as Ho.
  pose proof (substrs_wf_In _ _ _ _ _ _ Hwf (OMap.find_In _ _ _ Hf)) as (Hi & Hk & Hl & _).
  pose proof (write_seg_same q sg) as (_ & _ & Hcl). pose proof (sent_nonneg q).
  assert (Hsent := write_seg_sent q sg ltac:(unfold Spec.room, window_end in *; lia)).
  unfold received, end_received, write_step. simpl. rewrite (inv_written _ _ _ I). split.
  - intros i. rewrite Hsent, len_app, (covered_erase _ _ _ i Ho Hf).
    pose proof (len_nonneg (data sg)). split.
    + intros [?|?]; [|by auto].
      destruct (Z.lt_ge_cases i (len (Spec.sent q))); [left|right; left]; lia.
    + intros [?|[?|?]]; [left; lia|left; lia|by right].
  - rewrite Hcl, orb_true_iff, (has_eof_erase _ _ _ Ho Hf). tauto.
Qed.

Lemma write_loop_none fuel r :
  OMap.find (ByteStream.bytes_written (_output r)) (_substrs r) = None -> write_loop fuel r = Ok r.
Proof. intros Hf. destruct fuel; cbn [write_loop]; by rewrite Hf. Qed.

Lemma write_loop_all fuel r sg :
  OMap.find (ByteStream.bytes_written (_output r)) (_substrs r) = Some sg ->
  ByteStream.remaining_capacity (_output r) <> 0 ->
  len (data sg) <= ByteStream.remaining_capacity (_output r) ->
  write_loop (S fuel) r = write_loop fuel (write_step r sg).
Proof.
  intros Hf Hr Hl. cbn [write_loop]. rewrite Hf.
  rewrite (proj2 (Z.eqb_neq _ 0)) by done. by rewrite (proj2 (Z.leb_le _ _)) by done.
Qed.

Lemma settled_none s q r :
  inv s q r -> OMap.find (len (Spec.sent q)) (_substrs r) = None -> settled q r.
Proof.
  intros I Hf k sg Hin.
  pose proof (substrs_wf_In _ _ _ _ _ _ (inv_wf _ _ _ I) Hin) as (_ & ? & _).
  destruct (Z.eq_dec k (len (Spec.sent q))) as [->|]; [|lia].
  destruct (proj1 (OMap.find_None _ _) Hf _ Hin).
Qed.

Lemma write_loop_spec s fuel : forall q r,
  inv s q r -> (length (_substrs r) <= fuel)%nat ->
  exists q' r', write_loop fuel r = Ok r' /\ inv s q' r' /\ settled q' r' /\
    Spec.cap q' = Spec.cap q /\ Spec.taken q' = Spec.taken q /\
    (forall i, received q' r' i <-> received q r i) /\ (end_received q' r' <-> end_received q r).
Proof.
  induction fuel as [|fuel IH]; intros q r I Hfuel;
    destruct (OMap.find (len (Spec.sent q)) (_substrs r)) as [sg|] eqn:Hf;
    try (exists q, r; rewrite write_loop_none by (by rewrite (inv_written _ _ _ I));
         split_and!; try done; by eapply settled_none).
  { destruct (_substrs r); [done|simpl in Hfuel; lia]. }
  pose proof (substrs_wf_In _ _ _ _ _ _ (inv_wf _ _ _ I) (OMap.find_In _ _ _ Hf)) as (_ & ? & ? & _).
  pose proof (inv_remaining _ _ _ I) as Hrem.
  rewrite (write_loop_all _ _ sg) by (rewrite ?(inv_written _ _ _ I), ?Hrem; done || lia).
  pose proof (write_seg_same q sg) as (Hc & Ht & _).
  destruct (write_step_same s q r sg I Hf) as [Hrec Hend].
  destruct (IH (write_seg q sg) (write_step r sg)) as (q' & r' & Hok & I' & Hset & ? & ? & Hr & He).
  - by apply write_step_inv.
  - unfold write_step. simpl. rewrite (inv_written _ _ _ I).
    pose proof (OMap.length_erase _ _ _ Hf). lia.
  - exists q', r'.
    split_and!; try done; try congruence; [intros i; by rewrite Hr, Hrec|by rewrite He, Hend].
Qed.

(** ** Storing a range that is clear of the others *)

(** The window bounds what can be stored, so nothing has to be evicted. *)
Lemma make_room_fits s q r e d b :
  inv s q r -> len (Spec.sent q) <= window_end q ->
  substrs_wf s (len (Spec.sent q)) (window_end q) (_substrs (store r e d b)) ->
  (forall sg', In (b, sg') (_substrs r) -> data sg' = []) ->
  make_room r d b = Ok (Some (r, d)) /\
  u64 (_substrs_size r + len d) = OMap.total seg_len (_substrs (store r e d b)).
Proof.
  intros I Hle Hwf Hb. pose proof (substrs_wf_ordered _ _ _ _ (inv_wf _ _ _ I)) as Ho.
  pose proof (substrs_wf_total _ _ _ _ Hle Hwf) as Ht.
  pose proof (OMap.total_assign Z.gtb seg_len b (mkSegment e d b) _ Ho) as Ha.
  assert (Hz : from_option seg_len 0 (OMap.find b (_substrs r)) = 0).
  { destruct (OMap.find b (_substrs r)) as [sg'|] eqn:Hf; [|done]. simpl.
    rewrite (Hb sg'); [done|]. by apply OMap.find_In. }
  rewrite Hz in Ha. simpl in Ha, Ht. rewrite Ha in Ht. rewrite <- (inv_size _ _ _ I) in Ha, Ht.
  pose proof (ByteStream.refines_buffer_len _ _ (inv_out _ _ _ I)) as Hbuf.
  pose proof (window_end_bound _ _ _ I). pose proof (sent_nonneg q). pose proof (len_nonneg d).
  pose proof (seg_len_nonneg (_substrs r)) as Hnn. rewrite <- (inv_size _ _ _ I) in Hnn.
  pose proof (inv_out _ _ _ I) as []. unfold window_end in *.
  split.
  - unfold make_room, empty_size, ByteStream.buffer_size. rewrite Hbuf, (inv_cap _ _ _ I).
    u64_simpl. rewrite (proj2 (Z.leb_le _ _)) by lia. by rewrite (proj2 (Z.ltb_ge _ _)) by lia.
  - unfold store. simpl. rewrite Ha. rewrite u64_small; lia.
Qed.

Lemma clear_of_same b n m sg' : clear_of b n m -> In (b, sg') m -> data sg' = [].
Proof. intros Hc Hin. destruct (Hc _ _ Hin) as [[_ ?]|[?|?]]; [done|lia|lia]. Qed.

Lemma store_inv s q r e d b :
  inv s q r -> len (Spec.sent q) <= b < window_end q -> b + len d <= window_end q ->
  seg_ok s (mkSegment e d b) -> clear_of b (len d) (_substrs r) ->
  inv s q (store r e d b) /\ make_room r d b = Ok (Some (r, d)).
Proof.
  intros I Hb Hn Hok Hclr.
  assert (Hwf : substrs_wf s (len (Spec.sent q)) (window_end q) (_substrs (store r e d b)))
    by (apply substrs_wf_assign; [apply I|done..]).
  destruct (make_room_fits s q r e d b I ltac:(lia) Hwf) as [Hroom Hsize].
  { intros. by eapply clear_of_same. }
  split; [|done]. destruct I. by split.
Qed.

(** The last phase of the function: making room, storing and writing out. *)
Definition store_phase (r : StreamReassembler) (e : bool) (d : bytes) (b : Z) : res StreamReassembler :=
  let* room := make_room r d b in
  match room with
  | None => Ok r
  | Some (r1, d1) =>
      let r2 := store r1 e d1 b in
      write_loop (S (length (_substrs r2))) r2
  end.

Lemma store_phase_spec s q r e d b :
  inv s q r -> len (Spec.sent q) <= b < window_end q -> b + len d <= window_end q ->
  seg_ok s (mkSegment e d b) -> clear_of b (len d) (_substrs r) ->
  (forall sg', In (b, sg') (_substrs r) -> eof sg' = true -> e = true) ->
  exists q' r', store_phase r e d b = Ok r' /\ inv s q' r' /\ settled q' r' /\ pushed q r d b e q' r'.
Proof.
  intros I Hb Hn Hok Hclr He. destruct (store_inv s q r e d b I Hb Hn Hok Hclr) as [I1 Hroom].
  pose proof (substrs_wf_ordered _ _ _ _ (inv_wf _ _ _ I)) as Ho.
  destruct (write_loop_spec s (S (length (_substrs (store r e d b)))) q (store r e d b) I1
              ltac:(lia)) as (q' & r' & Hw & I' & Hs & Hc & Ht & Hr & Hf).
  exists q', r'. split_and!; [|done|done|].
  { unfold store_phase. rewrite Hroom. exact Hw. }
  split; [done|done| |].
  - intros j. rewrite Hr. unfold received. simpl.
    rewrite covered_assign by (done || by intros; eapply clear_of_same). simpl. tauto.
  - rewrite Hf. unfold end_received. simpl. rewrite has_eof_assign by done. simpl.
    intuition lia.
Qed.

(** ** The whole function *)

Lemma push_phases fuel r d i e :
  push_substring_fuel (S fuel) r d i e =
  if u64 (ByteStream.bytes_written (_output r) + ByteStream.remaining_capacity (_output r)) <=? i
  then Ok r
  else
    let* trimmed := trim_written (_output r) d i in
    match trimmed with
    | None => Ok r
    | Some (d1, i1) =>
        let* dd := dedup (_substrs r) e d1 i1 (u64 (i1 + len d1 - 1)) e in
        match dd with
        | DedupReturn => Ok r
        | DedupRest d2 b e2 (Some brk) =>
            let* r1 := push_substring_fuel fuel r d2 b e2 in
            push_substring_fuel fuel r1 (data brk) (index brk) (eof brk)
        | DedupRest d2 b e2 None => store_phase r e2 d2 b
        end
    end.
Proof. reflexivity. Qed.

Lemma pushed_nothing q r d i e :
  (forall j, i <= j < i + len d -> received q r j) ->
  (e = true -> i < window_end q -> end_received q r) ->
  pushed q r d i e q r.
Proof. intros Hd He. split; [done|done|firstorder|firstorder]. Qed.

Lemma window_test s q r :
  inv s q r ->
  u64 (ByteStream.bytes_written (_output r) + ByteStream.remaining_capacity (_output r)) = window_end q.
Proof.
  intros I. rewrite (inv_written _ _ _ I), (inv_remaining _ _ _ I).
  pose proof (window_end_bound _ _ _ I). pose proof (inv_out _ _ _ I) as [].
  rewrite u64_small; unfold window_end in *; lia.
Qed.

(** Substrings of no bytes: nothing to compare, kept only to remember the end. *)
Lemma dedup_empty r e i i' :
  dedup (_substrs r) e [] i i' e =
  if negb e && negb (empty r) then Ok DedupReturn else Ok (DedupRest [] i e None).
Proof. unfold empty. by destruct (_substrs r) as [|[k sg] m], e. Qed.

Lemma clear_of_end s lo hi m : substrs_wf s lo hi m -> clear_of (len s) 0 m.
Proof.
  intros Hwf k sg Hin. pose proof (substrs_wf_In _ _ _ _ _ _ Hwf Hin) as (<- & _ & _ & [Hd _ _]).
  pose proof (len_nonneg (data sg)).
  destruct (Z.eq_dec (len (data sg)) 0) as [E|]; destruct (Z.eq_dec (index sg) (len s));
    destruct Hd as [Hd|[_ Hle]]; rewrite ?Hd, ?len_nil in *; auto using len_zero_nil; lia.
Qed.

Lemma trim_written_low s q r d i :
  inv s q r -> 0 <= i -> i < len (Spec.sent q) -> i + len d <= len (Spec.sent q) ->
  trim_written (_output r) d i = Ok None.
Proof.
  intros I Hi Hlt Hd. unfold trim_written. rewrite (inv_written _ _ _ I).
  rewrite (proj2 (Z.ltb_lt _ _)) by done.
  pose proof (sent_bound _ _ _ I). pose proof (inv_bound _ _ _ I).
  pose proof (ref_cap_range _ _ (inv_out _ _ _ I)).
  rewrite u64_small by lia. by rewrite (proj2 (Z.leb_le _ _)) by lia.
Qed.

Lemma trim_written_high s q r d i :
  inv s q r -> len (Spec.sent q) <= i -> trim_written (_output r) d i = Ok (Some (d, i)).
Proof.
  intros I Hle. unfold trim_written. rewrite (inv_written _ _ _ I).
  by rewrite (proj2 (Z.ltb_ge _ _)) by done.
Qed.

Lemma push_empty_spec s fuel q r i e :
  inv s q r -> settled q r -> valid_push s q [] i e ->
  exists q' r', push_substring_fuel (S fuel) r [] i e = Ok r' /\ inv s q' r' /\ settled q' r' /\
    pushed q r [] i e q' r'.
Proof.
  intros I Hs [Hi _ He _]. rewrite push_phases, (window_test _ _ _ I).
  pose proof (sent_bound _ _ _ I) as Hsb. rewrite len_nil, Z.add_0_r in He.
  pose proof (pushed_nothing q r [] i e) as Hno. rewrite len_nil, Z.add_0_r in Hno.
  destruct (Z.leb_spec (window_end q) i).
  { exists q, r. split_and!; try done. apply Hno; intros; lia. }
  destruct (Z.lt_ge_cases i (len (Spec.sent q))) as [Hlt|Hge].
  { rewrite (trim_written_low s q) by (rewrite ?len_nil; done || lia).
    exists q, r. split_and!; try done. apply Hno; [lia|]. intros He1. specialize (He He1). lia. }
  rewrite (trim_written_high s q) by done. cbn [res_bind]. rewrite dedup_empty.
  destruct (negb e && negb (empty r)) eqn:Hret; cbn [res_bind].
  { exists q, r. split_and!; try done. apply Hno; [lia|]. by destruct e. }
  assert (Hcase : _substrs r = [] \/ (e = true /\ i = len s)).
  { unfold empty in Hret. destruct e; [right; auto|left]. by destruct (_substrs r). }
  apply store_phase_spec; try done; rewrite ?len_nil; try lia.
  - split; simpl; [by left| |done]. intros E. rewrite (He E). apply Z.add_0_r.
  - destruct Hcase as [->|[-> ->]]; [by intros ?? []|]. eapply clear_of_end, I.
  - destruct Hcase as [->|[-> _]]; [by intros ? []|done].
Qed.

Lemma valid_piece s q d i e : valid_push s q d i e -> d <> [] -> piece s i (len d) e.
Proof.
  intros [Hi Hd He Hl] Hne. destruct Hd as [|(_ & Hs & _)]; [done|].
  pose proof (len_nonneg d). assert (len d <> 0) by (intros ?%len_zero_nil; done).
  split; try done; try lia. split.
  - intros E. specialize (He E). by rewrite <- (Hl Hne He).
  - intros [Ha Hend]. by rewrite (Hl Hne Hend).
Qed.

(** What the removal of the written bytes leaves of a non-empty range. *)
Lemma trim_written_spec s q r b n e :
  inv s q r -> piece s b n e ->
  (trim_written (_output r) (slice s b n) b = Ok None /\ b + n <= len (Spec.sent q)) \/
  exists b1 n1, trim_written (_output r) (slice s b n) b = Ok (Some (slice s b1 n1, b1)) /\
    piece s b1 n1 e /\ len (Spec.sent q) <= b1 /\ b <= b1 /\ b1 + n1 = b + n /\
    (forall j, b <= j < b1 -> j < len (Spec.sent q)).
Proof.
  intros I P. pose proof (slice_len_pos _ _ _ _ P) as Hlen. destruct P as [Pp Pb Pe Pf].
  destruct (Z.lt_ge_cases b (len (Spec.sent q))) as [Hlt|Hge].
  2: { right. exists b, n. rewrite (trim_written_high s q) by done. split_and!; try done; lia. }
  destruct (Z.le_gt_cases (b + n) (len (Spec.sent q))) as [Hle|Hgt].
  { left. split; [|done]. by apply (trim_written_low s q); rewrite ?Hlen. }
  right. exists (len (Spec.sent q)), (b + n - len (Spec.sent q)).
  pose proof (sent_bound _ _ _ I). pose proof (inv_bound _ _ _ I).
  pose proof (ref_cap_range _ _ (inv_out _ _ _ I)).
  unfold trim_written. rewrite (inv_written _ _ _ I), (proj2 (Z.ltb_lt _ _)) by done.
  rewrite u64_small by lia. rewrite Hlen, (proj2 (Z.leb_gt _ _)) by lia.
  rewrite substr_from_ok by (rewrite Hlen; lia). cbn [res_bind]. rewrite slice_drop by lia.
  split_and!; try lia.
  - do 3 f_equal. f_equal; lia.
  - split; try lia. rewrite Pf. intuition lia.
Qed.

Lemma pushed_trans q r q1 r1 q2 r2 d1 b1 e1 d2 b2 e2 d i e :
  pushed q r d1 b1 e1 q1 r1 -> pushed q1 r1 d2 b2 e2 q2 r2 ->
  i <= b1 -> b1 + len d1 <= i + len d -> i <= b2 -> b2 + len d2 <= i + len d ->
  b1 < window_end q -> b2 < window_end q -> i < window_end q ->
  (forall j, i <= j < i + len d ->
     b1 <= j < b1 + len d1 \/ b2 <= j < b2 + len d2 \/ received q r j) ->
  (e1 = true -> e = true) -> (e2 = true -> e = true) ->
  (e = true -> e1 = true \/ e2 = true \/ end_received q r) ->
  pushed q r d i e q2 r2.
Proof.
  intros P1 P2 ? ? ? ? ? ? ? Hcov He1 He2 He. destruct P1 as [C1 T1 R1 E1], P2 as [C2 T2 R2 E2].
  assert (Hw : window_end q1 = window_end q) by (unfold window_end; congruence).
  split; [congruence|congruence| |].
  - intros j. rewrite R2, R1. split; [intros [[?|?]|?]; [by left|right; lia|right; lia]|].
    intros [?|Hj]; [by auto|]. destruct (Hcov j Hj) as [?|[?|?]]; auto.
  - rewrite E2, E1, Hw. split; [intros [[?|[??]]|[??]]; auto|]. intros [?|[Het _]]; [by auto|].
    destruct (He Het) as [?|[?|?]]; auto.
Qed.

Lemma pushed_one q r q1 r1 d1 b1 e1 d i e :
  pushed q r d1 b1 e1 q1 r1 ->
  i <= b1 -> b1 + len d1 <= i + len d -> b1 < window_end q -> i < window_end q ->
  (forall j, i <= j < i + len d -> b1 <= j < b1 + len d1 \/ received q r j) ->
  (e1 = true -> e = true) -> (e = true -> e1 = true \/ end_received q r) ->
  pushed q r d i e q1 r1.
Proof.
  intros P ? ? ? ? Hcov He1 He. destruct P as [C T R E]. split; [done|done| |].
  - intros j. rewrite R. split; [intros [?|?]; [by left|right; lia]|].
    intros [?|Hj]; [by auto|]. destruct (Hcov j Hj); auto.
  - rewrite E. split; [intros [?|[??]]; auto|]. intros [?|[Het _]]; [by auto|].
    destruct (He Het); auto.
Qed.

Lemma piece_mark s b n e : piece s b n e -> b + n = len s -> e = attached s.
Proof. intros [_ _ _ Pf] E. apply eq_true_iff_eq. rewrite Pf. tauto. Qed.

Lemma piece_push (s : source) q d b n e :
  d = slice s b n -> piece s b n e -> b + n <= window_end q ->
  valid_push s q d b e /\ d <> [] /\ len d = n.
Proof.
  intros -> P Hw. pose proof (slice_len_pos _ _ _ _ P) as Hlen. pose proof P as [Pp Pb Pe Pf].
  split_and!; [split; rewrite ?Hlen; try done; [right; auto|by intros [_ ?]%Pf|by intros _; apply piece_mark]| |done].
  intros E. rewrite E, len_nil in Hlen. lia.
Qed.

Lemma received_covered q r i : covered (_substrs r) i -> received q r i.
Proof. by right. Qed.

Lemma end_received_substrs q r : has_eof (_substrs r) -> end_received q r.
Proof. by right. Qed.

#[local] Hint Resolve received_covered end_received_substrs : sponge.

Lemma settled_wf s q r :
  inv s q r -> settled q r ->
  substrs_wf s (len (Spec.sent q) + 1) (window_end q) (_substrs r).
Proof.
  intros I Hs. eapply substrs_wf_lo; [|apply I]. intros k sg Hin. specialize (Hs _ _ Hin). lia.
Qed.

(** The specification of a call, for the whole function. *)
Definition push_ok (s : source) (fuel : nat) : Prop := forall q r d i e,
  inv s q r -> settled q r -> valid_push s q d i e -> (length d < fuel)%nat ->
  exists q' r', push_substring_fuel fuel r d i e = Ok r' /\ inv s q' r' /\ settled q' r' /\
    pushed q r d i e q' r'.

(** The rest of the function, after the written bytes were removed. *)
Lemma push_dedup_spec s fuel q r b n e eof0 :
  push_ok s fuel -> inv s q r -> settled q r -> piece s b n e ->
  len (Spec.sent q) <= b -> b + n <= window_end q -> n <= Z.of_nat fuel ->
  exists q' r',
    (let* dd := dedup (_substrs r) eof0 (slice s b n) b (b + n - 1) e in
     match dd with
     | DedupReturn => Ok r
     | DedupRest d2 b2 e2 (Some brk) =>
         let* r1 := push_substring_fuel fuel r d2 b2 e2 in
         push_substring_fuel fuel r1 (data brk) (index brk) (eof brk)
     | DedupRest d2 b2 e2 None => store_phase r e2 d2 b2
     end) = Ok r' /\ inv s q' r' /\ settled q' r' /\ pushed q r (slice s b n) b e q' r'.
Proof.
  intros IH I Hs P Hb Hw Hfuel. pose proof (slice_len_pos _ _ _ _ P) as Hlen.
  pose proof (window_end_bound _ _ _ I). pose proof (inv_bound _ _ _ I).
  pose proof (ref_cap_range _ _ (inv_out _ _ _ I)). pose proof (sent_nonneg q).
  destruct (dedup_spec s _ _ _ eof0 (settled_wf _ _ _ I Hs) ltac:(lia) ltac:(lia) ltac:(lia) b n e P)
    as (o & -> & Hpost). cbn [res_bind].
  pose proof P as [Pp Pb Pe Pf].
  destruct o as [|d2 b2 e2 [brk|]]; cbn [dedup_post] in Hpost.
  - destruct Hpost as [Hc He]. exists q, r. split_and!; try done.
    apply pushed_nothing; rewrite ?Hlen; eauto with sponge.
  - destruct Hpost as (n' & n2 & [Hd1 P1 ? ?] & [Hd2 P2 ? ?] & ? & ? & Hc & He).
    destruct (piece_push s q _ _ _ _ Hd1 P1 ltac:(lia)) as (V1 & _ & L1).
    destruct (IH q r d2 b2 e2 I Hs V1) as (q1 & r1 & -> & I1 & S1 & Pu1);
      [unfold len in *; lia|]. cbn [res_bind].
    assert (Hw1 : window_end q1 = window_end q) by (destruct Pu1; unfold window_end; congruence).
    destruct (piece_push s q1 _ _ _ _ Hd2 P2 ltac:(lia)) as (V2 & _ & L2).
    destruct (IH q1 r1 _ _ _ I1 S1 V2) as (q2 & r2 & -> & I2 & S2 & Pu2);
      [unfold len in *; lia|].
    exists q2, r2. split_and!; try done. destruct P1 as [Pp1 _ _ Pf1], P2 as [Pp2 _ _ Pf2].
    eapply (pushed_trans _ _ _ _ _ _ _ _ _ _ _ _ (slice s b n) b e Pu1 Pu2); rewrite ?Hlen, ?L1, ?L2; try lia.
    + intros j Hj. destruct (Hc j Hj) as [?|[?|?]]; eauto with sponge.
    + intros [? ?]%Pf1. apply Pf. split; [done|lia].
    + intros [? ?]%Pf2. apply Pf. split; [done|lia].
    + intros Het. destruct (He Het); eauto with sponge.
  - destruct Hpost as (n' & [Hd1 P1 ? ?] & Hclr & Hc & He).
    destruct (piece_push s q _ _ _ _ Hd1 P1 ltac:(lia)) as (V1 & Hne & L1).
    pose proof P1 as [Pp1 Pb1 Pe1 Pf1].
    destruct (store_phase_spec s q r e2 d2 b2) as (q1 & r1 & -> & I1 & S1 & Pu1); rewrite ?L1; try done; try lia.
    + split; simpl; rewrite ?L1; [right; split; [done|lia]|by intros [_ ?]%Pf1|by intros _; apply piece_mark].
    + intros sg' Hin He'.
      pose proof (substrs_wf_In _ _ _ _ _ _ (inv_wf _ _ _ I) Hin) as (Hix & _ & _ & Hok).
      apply (seg_eof _ _ Hok) in He'. rewrite (clear_of_same _ _ _ _ Hclr Hin) in He'.
      change (len []) with 0 in He'. lia.
    + exists q1, r1. split_and!; try done.
      apply (pushed_one _ _ _ _ _ _ _ _ _ _ Pu1); rewrite ?Hlen, ?L1; try lia.
      * intros j Hj. destruct (Hc j Hj); eauto with sponge.
      * intros [? ?]%Pf1. apply Pf. split; [done|lia].
      * intros Het. destruct (He Het); eauto with sponge.
Qed.

Lemma push_fuel_spec s fuel : push_ok s fuel.
Proof.
  induction fuel as [|fuel IH]; intros q r d i e I Hs V Hfuel; [lia|].
  destruct (decide (d = [])) as [->|Hne]; [by apply push_empty_spec|].
  pose proof (valid_piece _ _ _ _ _ V Hne) as P. pose proof V as [Hi [|(Hd & Hls & Hw)] _ _]; [done|].
  rewrite push_phases, (window_test _ _ _ I). pose proof P as [Pp _ _ Pf].
  rewrite (proj2 (Z.leb_gt _ _)) by lia. remember (len d) as n eqn:Hn. subst d.
  destruct (trim_written_spec s q r i n e I P) as [[-> Hle]|(b1 & n1 & -> & P1 & Hb1 & ? & ? & Hlow)];
    cbn [res_bind].
  - exists q, r. split_and!; try done. pose proof (sent_bound _ _ _ I).
    apply pushed_nothing; rewrite ?(slice_len_pos _ _ _ _ P).
    + intros j Hj. left. lia.
    + intros [Ha He]%Pf _. left. apply (inv_last _ _ _ I); [done|lia..].
  - pose proof (slice_len_pos _ _ _ _ P1) as L1. rewrite L1. destruct P1 as [Pp1 Pb1 Pe1 Pf1].
    pose proof (window_end_bound _ _ _ I). rewrite u64_small by lia.
    destruct (push_dedup_spec s fuel q r b1 n1 e e IH I Hs ltac:(by split) Hb1 ltac:(lia))
      as (q' & r' & Hok & I' & S' & Pu); [unfold len in *; lia|].
    exists q', r'. split_and!; try done.
    apply (pushed_one _ _ _ _ _ _ _ _ _ _ Pu); rewrite ?L1, ?(slice_len_pos _ _ _ _ P); try lia; [|by auto|by auto].
    intros j Hj. destruct (Z.lt_ge_cases j b1); [right; left; split; [lia|apply Hlow; lia]|left; lia].
Qed.

Lemma push_substring_spec s q r d i e :
  inv s q r -> settled q r -> valid_push s q d i e ->
  exists q' r', push_substring r d i e = Ok r' /\ inv s q' r' /\ settled q' r' /\
    pushed q r d i e q' r'.
Proof. intros. apply push_fuel_spec; try done; lia. Qed.

(** ** Reading from the output *)

Lemma pop_spec s q r n :
  inv s q r -> settled q r -> 0 <= n ->
  inv s (Spec.pop q n) (pop_output r n) /\ settled (Spec.pop q n) (pop_output r n) /\
  (forall j, received (Spec.pop q n) (pop_output r n) j <-> received q r j) /\
  (end_received (Spec.pop q n) (pop_output r n) <-> end_received q r).
Proof.
  intros I Hs Hn. pose proof (ref_taken _ _ (inv_out _ _ _ I)).
  split_and!; [|exact Hs|done|done]. destruct I. split; simpl; try done.
  - by apply ByteStream.refines_pop.
  - apply (substrs_wf_hi _ _ (window_end q)); [|done]. unfold window_end. simpl. lia.
Qed.

(** ** Runs of the reassembler *)

Inductive event :=
| Push (d : bytes) (i : Z) (e : bool)
| Pop (n : Z).

(** First index behind the window. *)
Definition window (r : StreamReassembler) : Z :=
  ByteStream.bytes_read (_output r) + _capacity r.

(** The calls a receiver of the stream [s] makes: substrings of [s] inside the
    window, marked [eof] exactly at the end of [s]; calls without bytes anywhere. *)
Record valid_sub (s : source) (r : StreamReassembler) (d : bytes) (i : Z) (e : bool) : Prop := {
  vs_index : 0 <= i;
  vs_data : d = [] \/ (d = slice s i (len d) /\ i + len d <= len s /\ i + len d <= window r);
  vs_eof : e = true -> i + len d = len s;
  vs_last : d <> [] -> i + len d = len s -> e = attached s;
}.

(** [reach s cap evs fin r]: the events [evs] on a new reassembler lead to [r];
    [fin] tells whether the end of [s] was received inside the window.  Whatever
    starts behind the window is ignored and is no event. *)
Inductive reach (s : source) (cap : Z) : list event -> bool -> StreamReassembler -> Prop :=
| reach_new :
    0 <= cap -> len s + cap < 18446744073709551616 -> reach s cap [] false (new cap)
| reach_push evs fin r d i e r' :
    reach s cap evs fin r -> valid_sub s r d i e -> push_substring r d i e = Ok r' ->
    reach s cap (evs ++ [Push d i e]) (fin || (e && (i <? window r))) r'
| reach_beyond evs fin r d i e r' :
    reach s cap evs fin r -> window r <= i -> push_substring r d i e = Ok r' -> reach s cap evs fin r'
| reach_pop evs fin r n :
    reach s cap evs fin r -> 0 <= n -> reach s cap (evs ++ [Pop n]) fin (pop_output r n).

(** Index [j] was pushed by one of the events. *)
Definition event_covers (j : Z) (ev : event) : Prop :=
  match ev with Push d i _ => i <= j < i + len d | Pop _ => False end.
Definition was_pushed (evs : list event) (j : Z) : Prop := Exists (event_covers j) evs.

Lemma was_pushed_snoc evs ev j : was_pushed (evs ++ [ev]) j <-> was_pushed evs j \/ event_covers j ev.
Proof.
  unfold was_pushed. rewrite Exists_app, Exists_cons, Exists_nil. tauto.
Qed.

Record abstracts (s : source) (cap : Z) (evs : list event) (fin : bool)
    (q : Spec.fifo) (r : StreamReassembler) : Prop := {
  ab_inv : inv s q r;
  ab_settled : settled q r;
  ab_cap : Spec.cap q = cap;
  ab_received : forall j, received q r j <-> was_pushed evs j;
  ab_end : end_received q r <-> fin = true;
}.

Lemma window_abs s q r : inv s q r -> window r = window_end q.
Proof.
  intros I. unfold window, window_end, ByteStream.bytes_read. rewrite (inv_cap _ _ _ I).
  pose proof (sent_bound _ _ _ I). pose proof (inv_bound _ _ _ I). pose proof (inv_out _ _ _ I) as [].
  rewrite ref_read, u64_small; lia.
Qed.

Lemma valid_sub_push s q r d i e : inv s q r -> valid_sub s r d i e -> valid_push s q d i e.
Proof. intros I []. rewrite (window_abs _ _ _ I) in *. by split. Qed.

Lemma new_abstracts (s : source) cap :
  0 <= cap -> len s + cap < 18446744073709551616 ->
  abstracts s cap [] false (Spec.mkFifo cap [] 0 false) (new cap).
Proof.
  intros Hc Hs. pose proof (len_nonneg s). split; try done.
  - split; simpl; try done; [apply ByteStream.refines_new; lia|].
    intros _ ? E. change (len []) with 0 in E. lia.
  - by intros ? ? [].
  - intros j. unfold received. simpl. change (len []) with 0.
    split; [intros [?|(? & ? & [] & _)]; lia|by intros ?%Exists_nil].
  - unfold end_received. simpl. split; [intros [?|(? & ? & [] & _)]; done|done].
Qed.

Lemma push_abstracts s cap evs fin q r d i e :
  abstracts s cap evs fin q r -> valid_sub s r d i e ->
  exists q' r', push_substring r d i e = Ok r' /\
    abstracts s cap (evs ++ [Push d i e]) (fin || (e && (i <? window r))) q' r' /\ Spec.taken q' = Spec.taken q.
Proof.
  intros [I Hs Hc Hr He] V.
  destruct (push_substring_spec s q r d i e I Hs (valid_sub_push _ _ _ _ _ _ I V))
    as (q' & r' & Hok & I' & Hs' & [Pc Pt Pr Pe]).
  exists q', r'. split; [done|]. split; [|done]. split; [done|done|congruence| |].
  - intros j. rewrite Pr, Hr, was_pushed_snoc. done.
  - rewrite Pe, He, orb_true_iff, andb_true_iff, Z.ltb_lt, (window_abs _ _ _ I). done.
Qed.

Lemma push_beyond s q r d i e : inv s q r -> window r <= i -> push_substring r d i e = Ok r.
Proof.
  intros I Hi. unfold push_substring. rewrite push_phases, (window_test _ _ _ I), <- (window_abs _ _ _ I).
  by rewrite (proj2 (Z.leb_le _ _)).
Qed.

Lemma pop_abstracts s cap evs fin q r n :
  abstracts s cap evs fin q r -> 0 <= n ->
  abstracts s cap (evs ++ [Pop n]) fin (Spec.pop q n) (pop_output r n).
Proof.
  intros [I Hs Hc Hr He] Hn. destruct (pop_spec s q r n I Hs Hn) as (I' & Hs' & Hr' & He').
  split; [done|done|done| |by rewrite He'].
  intros j. rewrite Hr', Hr, was_pushed_snoc. simpl. tauto.
Qed.

Lemma reach_abstracts s cap evs fin r :
  reach s cap evs fin r -> exists q, abstracts s cap evs fin q r.
Proof.
  induction 1 as [|evs fin r d i e r' _ [q A] V Hok|evs fin r d i e r' _ [q A] Hi Hok|evs fin r n _ [q A] Hn].
  - eexists. by apply new_abstracts.
  - destruct (push_abstracts _ _ _ _ _ _ _ _ _ A V) as (q' & r1 & Hok' & A' & _).
    rewrite Hok in Hok'. injection Hok' as <-. eauto.
  - rewrite (push_beyond _ _ _ _ _ _ (ab_inv _ _ _ _ _ _ A) Hi) in Hok. injection Hok as <-. eauto.
  - eexists. by apply pop_abstracts.
Qed.

(** ** Counting the stored bytes *)

(** How many of the [n] indices from [i] on satisfy [P]. *)
Fixpoint count_from (P : Z -> bool) (i : Z) (n : nat) : Z :=
  match n with
  | O => 0
  | S n' => (if P i then 1 else 0) + count_from P (i + 1) n'
  end.

Definition event_covers_b (j : Z) (ev : event) : bool :=
  match ev with Push d i _ => (i <=? j) && (j <? i + len d) | Pop _ => false end.
Definition was_pushed_b (evs : list event) (j : Z) : bool := existsb (event_covers_b j) evs.

Lemma was_pushed_b_spec evs j : was_pushed_b evs j = true <-> was_pushed evs j.
Proof.
  unfold was_pushed_b, was_pushed. rewrite existsb_exists, List.Exists_exists.
  split; intros (ev & Hin & Hc); exists ev; (split; [done|]); destruct ev; simpl in *; try done;
    [apply andb_true_iff in Hc as [?%Z.leb_le ?%Z.ltb_lt]; lia|].
  apply andb_true_iff. rewrite Z.leb_le, Z.ltb_lt. lia.
Qed.

Lemma count_from_app P i n1 n2 :
  count_from P i (n1 + n2) = count_from P i n1 + count_from P (i + Z.of_nat n1) n2.
Proof.
  revert i. induction n1 as [|n1 IH]; intros i; cbn [count_from Nat.add].
  - by rewrite Z.add_0_r.
  - rewrite IH. replace (i + 1 + Z.of_nat n1) with (i + Z.of_nat (S n1)) by lia. lia.
Qed.

Lemma count_from_all P i n :
  (forall j, i <= j < i + Z.of_nat n -> P j = true) -> count_from P i n = Z.of_nat n.
Proof.
  revert i. induction n as [|n IH]; intros i H; cbn [count_from]; [done|].
  rewrite (H i) by lia. rewrite IH; [lia|]. intros. apply H. lia.
Qed.

Lemma count_from_none P i n :
  (forall j, i <= j < i + Z.of_nat n -> P j = false) -> count_from P i n = 0.
Proof.
  revert i. induction n as [|n IH]; intros i H; cbn [count_from]; [done|].
  rewrite (H i) by lia. rewrite IH; [lia|]. intros. apply H. lia.
Qed.

Lemma count_substrs s lo hi m P :
  substrs_wf s lo hi m -> lo <= hi ->
  (forall j, lo <= j < hi -> P j = true <-> covered m j) ->
  count_from P lo (Z.to_nat (hi - lo)) = OMap.total seg_len m.
Proof.
  revert hi. induction m as [|[k sg] m IH]; intros hi Hwf Hle HP; simpl.
  { apply count_from_none. intros j Hj. apply not_true_iff_false.
    rewrite HP by lia. by intros (? & ? & [] & _). }
  destruct Hwf as (_ & Hk & Hl & _ & Hm). pose proof (len_nonneg (data sg)).
  replace (Z.to_nat (hi - lo)) with
    (Z.to_nat (k - lo) + (Z.to_nat (len (data sg)) + Z.to_nat (hi - (k + len (data sg)))))%nat by lia.
  rewrite !count_from_app, (IH k Hm) by (lia || intros j Hj; rewrite HP, covered_cons by lia; intuition lia).
  rewrite count_from_all, count_from_none; [lia| |].
  - intros j Hj. apply not_true_iff_false. rewrite HP, covered_cons by lia.
    intros [?|(k' & sg' & Hin & ?)]; [lia|].
    pose proof (substrs_wf_In _ _ _ _ _ _ Hm Hin). lia.
  - intros j Hj. apply HP; [lia|]. apply covered_cons. lia.
Qed.

(** ** Properties *)

Lemma abs_written s cap evs fin q r :
  abstracts s cap evs fin q r ->
  ByteStream.bytes_written (stream_out r) = len (Spec.sent q).
Proof. intros []. by eapply inv_written. Qed.

Lemma abs_read s cap evs fin q r :
  abstracts s cap evs fin q r -> ByteStream.bytes_read (stream_out r) = Spec.taken q.
Proof.
  intros [I]. pose proof (window_abs _ _ _ I) as Hw. unfold window, window_end in Hw.
  rewrite (inv_cap _ _ _ I) in Hw. unfold stream_out. lia.
Qed.

Lemma abs_buffer s cap evs fin q r :
  abstracts s cap evs fin q r ->
  ByteStream._buffer (stream_out r) = slice s (Spec.taken q) (len (Spec.sent q) - Spec.taken q).
Proof.
  intros [I]. unfold stream_out. rewrite (ref_buffer _ _ (inv_out _ _ _ I)).
  unfold Spec.pending. rewrite (inv_sent _ _ _ I) at 1. unfold slice.
  rewrite skipn_firstn_comm. f_equal. pose proof (ref_taken _ _ (inv_out _ _ _ I)). unfold len in *. lia.
Qed.

Lemma abs_not_received s cap evs fin q r :
  abstracts s cap evs fin q r -> ~ received q r (len (Spec.sent q)).
Proof.
  intros [I Hs] [?|(k & sg & Hin & ?)]; [lia|]. specialize (Hs _ _ Hin). lia.
Qed.

Lemma abs_ended s cap evs fin q r :
  abstracts s cap evs fin q r ->
  ByteStream.input_ended (stream_out r) = true <-> fin = true /\ len (Spec.sent q) = len s.
Proof.
  intros [I Hs _ _ He]. unfold ByteStream.input_ended, stream_out.
  rewrite (ref_closed _ _ (inv_out _ _ _ I)), <- He. unfold end_received. split.
  - intros Hc. split; [by left|by apply (inv_closed _ _ _ I)].
  - intros [[?|(k & sg & Hin & Heof)] Hl]; [done|].
    pose proof (substrs_wf_In _ _ _ _ _ _ (inv_wf _ _ _ I) Hin) as (Hk & _ & _ & Hok).
    apply (seg_eof _ _ Hok) in Heof. specialize (Hs _ _ Hin). pose proof (len_nonneg (data sg)). lia.
Qed.

(** C1: after any run of in-window calls and reads, the output stream holds exactly
    the longest prefix of [s] whose bytes were all received: every index below
    [bytes_written] was pushed, the next one was not, the unread bytes are those of
    [s], and the input has ended exactly when all of [s] and its end were received. *)
Theorem reassembler_longest_prefix s cap evs fin r :
  reach s cap evs fin r ->
  let w := ByteStream.bytes_written (stream_out r) in
  let rd := ByteStream.bytes_read (stream_out r) in
  (forall j, 0 <= j < w -> was_pushed evs j) /\ ~ was_pushed evs w /\
  ByteStream._buffer (stream_out r) = slice s rd (w - rd) /\ w <= len s /\
  (ByteStream.input_ended (stream_out r) = true <-> fin = true /\ w = len s).
Proof.
  intros Hreach w rd. destruct (reach_abstracts _ _ _ _ _ Hreach) as [q A].
  unfold w, rd. rewrite (abs_written _ _ _ _ _ _ A), (abs_read _ _ _ _ _ _ A).
  split_and!.
  - intros j Hj. apply (ab_received _ _ _ _ _ _ A). by left.
  - rewrite <- (ab_received _ _ _ _ _ _ A). by eapply abs_not_received.
  - by eapply abs_buffer.
  - eapply sent_bound, A.
  - by eapply abs_ended.
Qed.

(** An in-window call on a reachable reassembler returns: no exception is
    thrown and every loop ends. *)
Theorem reassembler_push_returns s cap evs fin r d i e :
  reach s cap evs fin r -> valid_sub s r d i e ->
  exists r', push_substring r d i e = Ok r'.
Proof.
  intros Hreach V. destruct (reach_abstracts _ _ _ _ _ Hreach) as [q A].
  destruct (push_abstracts _ _ _ _ _ _ _ _ _ A V) as (q' & r' & Hok & _). eauto.
Qed.

(** C35: after any run of in-window calls, [unassembled_bytes] is the number of
    distinct indices received behind the bytes already written, however often each
    was pushed, and these bytes fit beside the unread ones within the capacity. *)
Theorem reassembler_unassembled_count s cap evs fin r :
  reach s cap evs fin r ->
  let w := ByteStream.bytes_written (stream_out r) in
  unassembled_bytes r = count_from (was_pushed_b evs) w (Z.to_nat (window r - w)) /\
  unassembled_bytes r + ByteStream.buffer_size (stream_out r) <= cap.
Proof.
  intros Hreach w. destruct (reach_abstracts _ _ _ _ _ Hreach) as [q A].
  pose proof (ab_inv _ _ _ _ _ _ A) as I. unfold w. rewrite (abs_written _ _ _ _ _ _ A).
  rewrite (window_abs _ _ _ I). unfold unassembled_bytes. rewrite (inv_size _ _ _ I).
  pose proof (inv_out _ _ _ I) as Ro. pose proof (ByteStream.refines_buffer_len _ _ Ro) as Hb.
  assert (Hle : len (Spec.sent q) <= window_end q) by (destruct Ro; unfold window_end; lia).
  pose proof (substrs_wf_total _ _ _ _ Hle (inv_wf _ _ _ I)). pose proof (ab_cap _ _ _ _ _ _ A).
  split; [|unfold ByteStream.buffer_size, stream_out; rewrite Hb; unfold window_end in *; lia].
  symmetry. eapply count_substrs; [apply I|done|]. intros j Hj.
  rewrite was_pushed_b_spec, <- (ab_received _ _ _ _ _ _ A). unfold received.
  split; [intros [?|?]; [lia|done]|by right].
Qed.

(** A run on the stream [abcdef]: out of order, overlapping, with a hole. *)
Definition abcdef : bytes := [x61; x62; x63; x64; x65; x66].

Definition do_event (r : StreamReassembler) (ev : event) : StreamReassembler :=
  match ev with
  | Push d i e => match push_substring r d i e with Ok r' => r' | Throw _ => r end
  | Pop n => pop_output r n
  end.

Definition abcdef_marked : source := Source abcdef true.
Definition demo_events : list event :=
  [Push [x63; x64] 2 false; Push [x62; x63; x64; x65] 1 false; Push [x61] 0 false; Pop 2;
   Push [x66] 5 true].
Definition demo_state : StreamReassembler := fold_left do_event demo_events (new 6).

Lemma reach_push_eq s cap evs fin fin' r d i e r' :
  reach s cap evs fin r -> valid_sub s r d i e -> push_substring r d i e = Ok r' ->
  fin' = fin || (e && (i <? window r)) ->
  reach s cap (evs ++ [Push d i e]) fin' r'.
Proof. intros ? ? ? ->. by apply reach_push. Qed.

Ltac solve_valid_sub :=
  split; [lia|right; split_and!; vm_compute; congruence|vm_compute; congruence|vm_compute; congruence].
Ltac solve_reach_push n :=
  refine (reach_push_eq abcdef_marked 6 (take n demo_events) false _
            (fold_left do_event (take n demo_events) (new 6)) _ _ _ _ _ _ _ _);
  [|solve_valid_sub|vm_compute; reflexivity|vm_compute; reflexivity].

Lemma demo_reach : reach abcdef_marked 6 demo_events true demo_state.
Proof.
  solve_reach_push 4%nat.
  refine (reach_pop abcdef_marked 6 (take 3 demo_events) false
            (fold_left do_event (take 3 demo_events) (new 6)) 2 _ ltac:(lia)).
  solve_reach_push 2%nat. solve_reach_push 1%nat. solve_reach_push 0%nat.
  apply reach_new; vm_compute; congruence.
Qed.

Lemma reassembler_longest_prefix_witness :
  let r := demo_state in
  ByteStream._buffer (stream_out r) = slice abcdef 2 4 /\ ~ was_pushed demo_events 6.
Proof.
  destruct (reassembler_longest_prefix abcdef_marked 6 demo_events true demo_state demo_reach)
    as (_ & Hn & Hb & _ & _).
  split; [exact Hb|exact Hn].
Defined.

Lemma reassembler_push_returns_witness :
  exists r', push_substring demo_state [x65; x66] 4 true = Ok r'.
Proof.
  apply (reassembler_push_returns abcdef_marked 6 demo_events true demo_state [x65; x66] 4 true demo_reach).
  solve_valid_sub.
Defined.

Lemma reassembler_unassembled_count_witness :
  unassembled_bytes demo_state = 0 /\ unassembled_bytes demo_state + 4 <= 6.
Proof.
  destruct (reassembler_unassembled_count abcdef_marked 6 demo_events true demo_state demo_reach) as [Hc Hs].
  split; [exact Hc|exact Hs].
Defined.
