(* ===== verification/WrappingIntegers.v ===== *)
(** * WrappingInt32

    32-bit sequence numbers relative to an initial sequence number, and the
    conversions from and to 64-bit absolute ones
    (libsponge/wrapping_integers.{hh,cc}). *)

From stdpp Require Import base list numbers.
From Stdlib Require Import ZArith Lia.
From S2P Require Import Prelude.
#[local] Open Scope Z_scope.

(** A [WrappingInt32] is its raw 32-bit value. *)
Record WrappingInt32 := mkWrappingInt32 { raw_value : Z }.

Definition wi_ok (a : WrappingInt32) : Prop := 0 <= raw_value a < 4294967296.

#[export] Instance WrappingInt32_eq_dec : EqDecision WrappingInt32.
Proof. solve_decision. Defined.

(** The conversion of a [uint32_t] to [int32_t]. *)
Definition to_int32 (z : Z) : Z :=
  let z := u32 z in if z <? 2147483648 then z else z - 4294967296.

(** [operator-(WrappingInt32, WrappingInt32)] *)
Definition wi_diff (a b : WrappingInt32) : Z := to_int32 (u32 (raw_value a - raw_value b)).
(** [operator==] and [operator!=] *)
Definition wi_eqb (a b : WrappingInt32) : bool := raw_value a =? raw_value b.
Definition wi_neqb (a b : WrappingInt32) : bool := negb (wi_eqb a b).
(** [operator+(WrappingInt32, uint32_t)] *)
Definition wi_add (a : WrappingInt32) (b : Z) : WrappingInt32 := mkWrappingInt32 (u32 (raw_value a + b)).
(** [operator-(WrappingInt32, uint32_t)] *)
Definition wi_sub (a : WrappingInt32) (b : Z) : WrappingInt32 := wi_add a (u32 (- b)).

(** [isn + n]: the 64-bit [n] is converted to [uint32_t]. *)
Definition wrap (n : Z) (isn : WrappingInt32) : WrappingInt32 := wi_add isn (u32 n).

(** The [for] loop of [unwrap]: [base] is the offset of the candidates.  [None] is
    an exhausted fuel, [Some] the value returned; the bound [k < UINT64_MAX] makes
    the code return 0 behind the loop. *)
Fixpoint unwrap_loop (fuel : nat) (base checkpoint k min_diff : Z) : option Z :=
  if k <? UINT64_MAX then
    match fuel with
    | O => None
    | S fuel' =>
        let curr_val := u64 (u64 (k * 4294967296) + base) in
        let diff := if checkpoint <? curr_val then u64 (curr_val - checkpoint)
                    else u64 (checkpoint - curr_val) in
        if diff <? min_diff then unwrap_loop fuel' base checkpoint (u64 (k + 1)) diff
        else Some (u64 (curr_val - 4294967296))
    end
  else Some 0.

(** At most four candidates are tried. *)
Definition unwrap_fuel : nat := 4.

Definition unwrap_opt (fuel : nat) (n isn : WrappingInt32) (checkpoint : Z) : option Z :=
  let init_k := if 0 <? checkpoint / 4294967296 then checkpoint / 4294967296 - 1 else 0 in
  let base := if raw_value isn <=? raw_value n then raw_value n - raw_value isn
              else 4294967296 + raw_value n - raw_value isn in
  unwrap_loop fuel base checkpoint init_k UINT64_MAX.

Definition unwrap (n isn : WrappingInt32) (checkpoint : Z) : Z :=
  match unwrap_opt unwrap_fuel n isn checkpoint with
  | Some v => v
  | None => 0
  end.

(** ** Lemmas *)

(** The candidate number [k]: the absolute sequence number [k] periods on. *)
Definition candidate (base k : Z) : Z := k * 4294967296 + base.

(** Nearer to the checkpoint than any other candidate. *)
Definition nearest (base checkpoint v : Z) : Prop :=
  exists k, 0 <= k < 4294967296 /\ v = candidate base k /\
    (Z.abs (v - checkpoint) <= 2147483648 \/ (k = 0 /\ checkpoint <= v) \/
     (k = 4294967295 /\ v <= checkpoint)).

(** One iteration of the loop at a candidate that fits 64 bits. *)
Lemma unwrap_loop_step fuel base c k min_diff :
  0 <= base < 4294967296 -> 0 <= c < 18446744073709551616 -> 0 <= k < 4294967296 ->
  unwrap_loop (S fuel) base c k min_diff =
  if Z.abs (candidate base k - c) <? min_diff
  then unwrap_loop fuel base c (k + 1) (Z.abs (candidate base k - c))
  else Some (u64 (candidate base k - 4294967296)).
Proof.
  intros Hb Hc Hk. cbn [unwrap_loop]. unfold UINT64_MAX, candidate.
  rewrite (proj2 (Z.ltb_lt k _)) by lia. u64_simpl.
  replace (if c <? k * 4294967296 + base then u64 (k * 4294967296 + base - c)
           else u64 (c - (k * 4294967296 + base))) with (Z.abs (k * 4294967296 + base - c)).
  - done.
  - case_bool; rewrite u64_small; lia.
Qed.

(** One iteration at the first candidate beyond 64 bits, which wraps around. *)
Lemma unwrap_loop_top fuel base c min_diff :
  0 <= base < 4294967296 -> 18446744065119617024 <= c < 18446744073709551616 ->
  0 <= min_diff <= 8589934592 ->
  unwrap_loop (S fuel) base c 4294967296 min_diff = Some (candidate base 4294967295).
Proof.
  intros Hb Hc Hm. cbn [unwrap_loop]. unfold UINT64_MAX, candidate.
  rewrite (proj2 (Z.ltb_lt 4294967296 _)) by lia.
  change (u64 (4294967296 * 4294967296)) with 0. rewrite Z.add_0_l, (u64_small base) by lia.
  rewrite (proj2 (Z.ltb_ge c base)) by lia. rewrite u64_small by lia.
  rewrite (proj2 (Z.ltb_ge _ min_diff)) by lia. f_equal. unfold u64.
  rewrite <- (Z_mod_plus_full (base - 4294967296) 1). rewrite Z.mod_small; lia.
Qed.

(** The iteration at the candidate that is no improvement. *)
Lemma unwrap_loop_stop fuel base c k min_diff :
  0 <= base < 4294967296 -> 0 <= c < 18446744073709551616 -> 1 <= k <= 4294967296 ->
  (k = 4294967296 -> 18446744065119617024 <= c) -> 0 <= min_diff <= 8589934592 ->
  min_diff <= Z.abs (candidate base k - c) ->
  unwrap_loop (S fuel) base c k min_diff = Some (candidate base (k - 1)).
Proof.
  intros Hb Hc Hk Hkc Hm Hd. destruct (Z.eq_dec k 4294967296) as [->|Hne].
  - apply unwrap_loop_top; lia.
  - rewrite unwrap_loop_step by lia. rewrite (proj2 (Z.ltb_ge _ _)) by lia.
    f_equal. unfold candidate. rewrite u64_small; lia.
Qed.

Ltac unwrap_next := rewrite unwrap_loop_step by (unfold candidate in *; lia);
  rewrite (proj2 (Z.ltb_lt _ _)) by (unfold candidate, UINT64_MAX in *; lia).
Ltac unwrap_done k0 := rewrite unwrap_loop_stop by (unfold candidate in *; lia);
  eexists; split; [reflexivity|]; exists k0;
  split_and!; [lia|lia|unfold candidate in *; f_equal; lia|unfold candidate in *; lia].

Lemma unwrap_loop_nearest fuel base c :
  0 <= base < 4294967296 -> 0 <= c < 18446744073709551616 -> (4 <= fuel)%nat ->
  let init_k := if 0 <? c / 4294967296 then c / 4294967296 - 1 else 0 in
  exists v, unwrap_loop fuel base c init_k UINT64_MAX = Some v /\ nearest base c v.
Proof.
  intros Hb Hc Hf. do 4 (destruct fuel as [|fuel]; [lia|]). clear Hf.
  pose proof (Z.div_mod c 4294967296 ltac:(lia)) as Hdm.
  pose proof (Z.mod_pos_bound c 4294967296 ltac:(lia)) as Hr.
  set (K := c / 4294967296) in *. set (m := c mod 4294967296) in *.
  assert (0 <= K < 4294967296) by lia.
  destruct (Z.ltb_spec 0 K); cbv zeta.
  - (* candidates K - 1, K, K + 1 *)
    unwrap_next. replace (K - 1 + 1) with K by lia.
    destruct (Z.le_gt_cases (Z.abs (candidate base (K - 1) - c)) (Z.abs (candidate base K - c))).
    { unwrap_done (K - 1). }
    unwrap_next.
    destruct (Z.le_gt_cases (Z.abs (candidate base K - c)) (Z.abs (candidate base (K + 1) - c))).
    { unwrap_done K. }
    destruct (Z.eq_dec K 4294967295) as [HK|].
    { rewrite HK in *. change (4294967295 + 1) with 4294967296.
      rewrite unwrap_loop_top by (unfold candidate in *; lia).
      eexists. split; [reflexivity|]. exists 4294967295. unfold candidate in *. split_and!; lia. }
    unwrap_next. unwrap_done (K + 1).
  - (* candidates 0 and 1 *)
    unwrap_next. change (0 + 1) with 1.
    destruct (Z.le_gt_cases (Z.abs (candidate base 0 - c)) (Z.abs (candidate base 1 - c))).
    { unwrap_done 0. }
    unwrap_next. unwrap_done 1.
Qed.

Lemma u32_u32 z : u32 (u32 z) = u32 z.
Proof. unfold u32. apply Zmod_mod. Qed.

Lemma u32_add_r a b : u32 (a + u32 b) = u32 (a + b).
Proof. unfold u32. apply Zplus_mod_idemp_r. Qed.

Lemma u32_add_l a b : u32 (u32 a + b) = u32 (a + b).
Proof. unfold u32. apply Zplus_mod_idemp_l. Qed.

Lemma wrap_raw n isn : raw_value (wrap n isn) = u32 (raw_value isn + n).
Proof. unfold wrap, wi_add. simpl. apply u32_add_r. Qed.

Lemma wrap_ok n isn : wi_ok (wrap n isn).
Proof. unfold wi_ok. rewrite wrap_raw. apply u32_range. Qed.

Definition unwrap_base (n isn : WrappingInt32) : Z := u32 (raw_value n - raw_value isn).

Lemma wrap_iff n isn v :
  wi_ok n -> wi_ok isn -> wrap v isn = n <-> exists k, v = candidate (unwrap_base n isn) k.
Proof.
  unfold wi_ok, candidate, unwrap_base, u32. intros Hn Hi. split.
  - intros <-. rewrite wrap_raw. unfold u32.
    exists (v / 4294967296).
    rewrite Zminus_mod_idemp_l. replace (raw_value isn + v - raw_value isn) with v by lia.
    rewrite Z.mul_comm. apply Z.div_mod. lia.
  - intros [k ->]. destruct n as [n]. unfold wrap, wi_add, u32. simpl in *. f_equal.
    rewrite Zplus_mod_idemp_r, Z.add_comm, <- Z.add_assoc, Z.add_comm, Z_mod_plus_full.
    rewrite Zplus_mod_idemp_l. replace (n - raw_value isn + raw_value isn) with n by lia.
    apply Z.mod_small. lia.
Qed.

Lemma unwrap_opt_nearest fuel n isn c :
  wi_ok n -> wi_ok isn -> 0 <= c < 18446744073709551616 -> (4 <= fuel)%nat ->
  exists v, unwrap_opt fuel n isn c = Some v /\ nearest (unwrap_base n isn) c v.
Proof.
  intros Hn Hi Hc Hf. unfold unwrap_opt, unwrap_base.
  assert (Hb : (if raw_value isn <=? raw_value n then raw_value n - raw_value isn
                else 4294967296 + raw_value n - raw_value isn) = u32 (raw_value n - raw_value isn)).
  { unfold wi_ok in *. case_bool; [by rewrite u32_small by lia|].
    unfold u32. rewrite <- (Z_mod_plus_full _ 1), Z.mod_small; lia. }
  rewrite Hb. apply unwrap_loop_nearest; [apply u32_range|done|done].
Qed.

Lemma unwrap_nearest n isn c :
  wi_ok n -> wi_ok isn -> 0 <= c < 18446744073709551616 ->
  nearest (unwrap_base n isn) c (unwrap n isn c).
Proof.
  intros Hn Hi Hc. unfold unwrap.
  destruct (unwrap_opt_nearest unwrap_fuel n isn c Hn Hi Hc ltac:(unfold unwrap_fuel; lia)) as (v & -> & Hv).
  done.
Qed.

Lemma unwrap_wrap n isn c :
  wi_ok isn -> 0 <= n < 18446744073709551616 -> 0 <= c < 18446744073709551616 ->
  Z.abs (n - c) < 2147483648 -> unwrap (wrap n isn) isn c = n.
Proof.
  intros Hi Hn Hc Hd.
  destruct (unwrap_nearest (wrap n isn) isn c (wrap_ok n isn) Hi Hc) as (k & Hk & -> & Hnear).
  destruct (proj1 (wrap_iff (wrap n isn) isn n (wrap_ok n isn) Hi) eq_refl) as [k' Hk'].
  pose proof (u32_range (raw_value (wrap n isn) - raw_value isn)) as Hb.
  fold (unwrap_base (wrap n isn) isn) in Hb. unfold candidate in *.
  assert (k = k') by lia. lia.
Qed.

#[export] Hint Resolve wrap_ok : sponge.

(** ** Properties *)

(** C12: [unwrap n isn checkpoint] is the 64-bit absolute sequence number that wraps
    to [n] and is closest to the checkpoint, for every sequence number and every
    checkpoint up to 2^64, including those within a period of both ends; and more
    iterations of its loop than the four allowed would not change it. *)
Theorem unwrap_closest n isn checkpoint :
  wi_ok n -> wi_ok isn -> 0 <= checkpoint < 18446744073709551616 ->
  let v := unwrap n isn checkpoint in
  0 <= v < 18446744073709551616 /\ wrap v isn = n /\
  (forall v', 0 <= v' < 18446744073709551616 -> wrap v' isn = n ->
     Z.abs (v - checkpoint) <= Z.abs (v' - checkpoint)) /\
  (forall fuel, (4 <= fuel)%nat -> exists w, unwrap_opt fuel n isn checkpoint = Some w /\
     nearest (unwrap_base n isn) checkpoint w).
Proof.
  intros Hn Hi Hc v. destruct (unwrap_nearest n isn checkpoint Hn Hi Hc) as (k & Hk & Hv & Hnear).
  fold v in Hv, Hnear. pose proof (u32_range (raw_value n - raw_value isn)) as Hb.
  fold (unwrap_base n isn) in Hb. split_and!; try (unfold candidate in *; lia).
  - apply wrap_iff; eauto.
  - intros v' Hv' Hw. apply wrap_iff in Hw as [k' ->]; [|done..]. unfold candidate in *.
    assert (k = k' \/ k < k' \/ k' < k) by lia. lia.
  - intros. by apply unwrap_opt_nearest.
Qed.

Lemma unwrap_closest_witness :
  wrap (unwrap (mkWrappingInt32 17) (mkWrappingInt32 4294967295) 12884901890) (mkWrappingInt32 4294967295)
  = mkWrappingInt32 17.
Proof.
  destruct (unwrap_closest (mkWrappingInt32 17) (mkWrappingInt32 4294967295) 12884901890) as (_ & Hw & _);
    unfold wi_ok; simpl; try lia. exact Hw.
Defined.

(** [wrap] and [unwrap] are inverse for every absolute sequence number less than
    2^31 away from the checkpoint. *)
Theorem wrap_unwrap_roundtrip n isn checkpoint :
  wi_ok isn -> 0 <= n < 18446744073709551616 -> 0 <= checkpoint < 18446744073709551616 ->
  Z.abs (n - checkpoint) < 2147483648 -> unwrap (wrap n isn) isn checkpoint = n.
Proof. apply unwrap_wrap. Qed.

Lemma wrap_unwrap_roundtrip_witness :
  unwrap (wrap 4294967297 (mkWrappingInt32 4000000000)) (mkWrappingInt32 4000000000) 4294967290 = 4294967297.
Proof. apply (wrap_unwrap_roundtrip 4294967297); unfold wi_ok; simpl; lia. Defined.

(** [operator-] of two sequence numbers is the signed number of increments from
    [b] to [a], negative exactly when the decrements needed are not more than the
    increments, and it undoes [operator+]. *)
Theorem wi_diff_spec a b :
  wi_ok a -> wi_ok b ->
  let inc := u32 (raw_value a - raw_value b) in
  wi_add b (u32 (wi_diff a b)) = a /\ -2147483648 <= wi_diff a b < 2147483648 /\
  (wi_diff a b < 0 <-> 4294967296 - inc <= inc).
Proof.
  intros Ha Hb inc. pose proof (u32_range (raw_value a - raw_value b)) as Hi. fold inc in Hi.
  unfold wi_diff, to_int32. fold inc. rewrite (u32_small inc) by done. split_and!.
  - destruct a as [a]. unfold wi_add. f_equal. rewrite u32_add_r. simpl in *.
    assert (Hd : u32 (raw_value b + inc) = a).
    { unfold inc. rewrite u32_add_r. replace (raw_value b + (a - raw_value b)) with a by lia.
      by apply u32_small. }
    case_bool; [done|]. rewrite <- Hd. unfold u32.
    replace (raw_value b + inc) with (raw_value b + (inc - 4294967296) + 1 * 4294967296) by lia.
    by rewrite Z_mod_plus_full.
  - case_bool; lia.
  - case_bool; lia.
  - case_bool; lia.
Qed.

Lemma wi_diff_spec_witness : wi_diff (mkWrappingInt32 1) (mkWrappingInt32 4294967295) = 2 /\
  wi_add (mkWrappingInt32 4294967295) (u32 (wi_diff (mkWrappingInt32 1) (mkWrappingInt32 4294967295)))
  = mkWrappingInt32 1.
Proof.
  destruct (wi_diff_spec (mkWrappingInt32 1) (mkWrappingInt32 4294967295)) as (H & _ & _);
    unfold wi_ok; simpl; try lia.
  split; [reflexivity|exact H].
Defined.
