(* ===== verification/Buffer.v ===== *)
(** * Buffer, BufferList and BufferViewList

    Reference-counted read-only strings that can drop bytes from the front, and
    lists of them (libsponge/util/buffer.{hh,cc}).  The shared storage is never
    modified, so sharing it is the same as copying it. *)

From stdpp Require Import base list numbers.
From Stdlib Require Import ZArith Lia Strings.Byte.
From S2P Require Import Prelude.
#[local] Open Scope Z_scope.

(** ** Buffer *)

Record Buffer := mkBuffer {
  _storage : option bytes;
  _starting_offset : Z;
}.

(** The default constructor and the one that takes a string. *)
Definition empty_buffer : Buffer := mkBuffer None 0.
Definition of_string (s : bytes) : Buffer := mkBuffer (Some s) 0.

Definition str (b : Buffer) : bytes :=
  match _storage b with
  | None => []
  | Some s => drop (Z.to_nat (_starting_offset b)) s
  end.

Definition size (b : Buffer) : Z := len (str b).
Definition copy (b : Buffer) : bytes := str b.

Definition at_ (b : Buffer) (n : Z) : res Z :=
  if (0 <=? n) && (n <? size b)
  then match str b !! Z.to_nat n with Some c => Ok (byte_val c) | None => Throw out_of_range end
  else Throw out_of_range.

Definition remove_prefix (b : Buffer) (n : Z) : res Buffer :=
  if size b <? n then Throw out_of_range
  else
    let off := u64 (_starting_offset b + n) in
    match _storage b with
    | Some s => if off =? len s then Ok (mkBuffer None off) else Ok (mkBuffer (Some s) off)
    | None => Ok (mkBuffer None off)
    end.

(** ** BufferList *)

Definition BufferList : Type := list Buffer.

Definition append (bl other : BufferList) : BufferList := bl ++ other.

(** [operator Buffer()] *)
Definition to_buffer (bl : BufferList) : res Buffer :=
  match bl with
  | [] => Ok empty_buffer
  | [b] => Ok b
  | _ => Throw runtime_error
  end.

Definition concatenate (bl : BufferList) : bytes := concat (map str bl).

Definition list_size (bl : BufferList) : Z := fold_left (fun ret b => u64 (ret + size b)) bl 0.

Fixpoint list_remove_prefix (bl : BufferList) (n : Z) : res BufferList :=
  if 0 <? n then
    match bl with
    | [] => Throw out_of_range
    | b :: rest =>
        if n <? size b then
          let* b' := remove_prefix b n in
          Ok (b' :: rest)
        else list_remove_prefix rest (n - size b)
    end
  else Ok bl.

(** ** BufferViewList *)

(** A view is the bytes it shows. *)
Definition views_of_buffers (bl : BufferList) : list bytes := map str bl.
Definition view_of_string (s : bytes) : list bytes := [s].

Fixpoint view_remove_prefix (vs : list bytes) (n : Z) : res (list bytes) :=
  if 0 <? n then
    match vs with
    | [] => Throw out_of_range
    | v :: rest =>
        if n <? len v then Ok (drop (Z.to_nat n) v :: rest)
        else view_remove_prefix rest (n - len v)
    end
  else Ok vs.

Definition view_size (vs : list bytes) : Z := fold_left (fun ret v => u64 (ret + len v)) vs 0.
Definition as_iovecs (vs : list bytes) : list (bytes * Z) := map (fun v => (v, len v)) vs.

(** ** Invariant *)

Definition buf_wf (b : Buffer) : Prop :=
  match _storage b with
  | Some s => 0 <= _starting_offset b <= len s /\ len s < 18446744073709551616
  | None => True
  end.

(** ** Lemmas *)

Lemma of_string_str s : str (of_string s) = s.
Proof. done. Qed.

Lemma of_string_wf s : len s < 18446744073709551616 -> buf_wf (of_string s).
Proof. intros. unfold buf_wf. simpl. pose proof (len_nonneg s). lia. Qed.

Lemma at_ok b i c : str b !! i = Some c -> at_ b (Z.of_nat i) = Ok (byte_val c).
Proof.
  intros H. unfold at_, size. pose proof (lookup_lt_Some _ _ _ H). unfold len.
  rewrite (proj2 (Z.leb_le _ _)), (proj2 (Z.ltb_lt _ _)) by lia. simpl. by rewrite Nat2Z.id, H.
Qed.

Lemma remove_prefix_ok b n :
  buf_wf b -> 0 <= n <= size b ->
  exists b', remove_prefix b n = Ok b' /\ str b' = drop (Z.to_nat n) (str b) /\ buf_wf b'.
Proof.
  intros Hwf Hn. unfold remove_prefix. rewrite (proj2 (Z.ltb_ge _ _)) by lia.
  unfold size, str, buf_wf in *. destruct b as [[s|] off]; simpl in *.
  - rewrite len_drop in Hn. rewrite u64_small by lia.
    destruct (Z.eqb_spec (off + n) (len s)); eexists; split; try done; simpl.
    + split; [|done]. rewrite drop_drop, drop_ge; [done|]. unfold len in *. lia.
    + rewrite drop_drop. split; [f_equal; lia|lia].
  - eexists. split; [done|]. simpl. by rewrite drop_nil.
Qed.

Lemma remove_prefix_error b n : size b < n -> remove_prefix b n = Throw out_of_range.
Proof. intros H. unfold remove_prefix. by rewrite (proj2 (Z.ltb_lt _ _)). Qed.

Lemma concatenate_cons b bl : concatenate (b :: bl) = str b ++ concatenate bl.
Proof. done. Qed.

Lemma concatenate_one b : concatenate [b] = str b.
Proof. unfold concatenate. simpl. by rewrite app_nil_r. Qed.

Lemma concatenate_append bl1 bl2 : concatenate (append bl1 bl2) = concatenate bl1 ++ concatenate bl2.
Proof. unfold concatenate, append. by rewrite map_app, concat_app. Qed.

Lemma list_size_fold bl acc :
  0 <= acc -> acc + len (concatenate bl) < 18446744073709551616 ->
  fold_left (fun ret b => u64 (ret + size b)) bl acc = acc + len (concatenate bl).
Proof.
  revert acc. induction bl as [|b bl IH]; intros acc Hacc Hb; simpl.
  - unfold concatenate. simpl. change (len []) with 0. lia.
  - rewrite concatenate_cons, len_app in *. unfold size.
    pose proof (len_nonneg (str b)). pose proof (len_nonneg (concatenate bl)).
    rewrite u64_small by lia. rewrite IH by lia. lia.
Qed.

Lemma list_size_ok bl :
  len (concatenate bl) < 18446744073709551616 -> list_size bl = len (concatenate bl).
Proof. intros. unfold list_size. rewrite list_size_fold; lia. Qed.

Lemma remove_none (bl : BufferList) n :
  Forall buf_wf bl -> n = 0 ->
  (n <= len (concatenate bl) ->
    exists bl', Ok bl = Ok bl' /\ Forall buf_wf bl' /\
      concatenate bl' = drop (Z.to_nat n) (concatenate bl)) /\
  (len (concatenate bl) < n -> Ok bl = Throw out_of_range).
Proof. intros ? ->. pose proof (len_nonneg (concatenate bl)). split; [eauto|lia]. Qed.

#[export] Hint Resolve of_string_wf : sponge.

(** ** Properties *)

(** Dropping [n] bytes of a list of buffers drops the first [n] bytes of its
    contents, whatever the boundaries between the buffers, and throws
    [out_of_range] exactly when there are fewer than [n]. *)
Theorem bufferlist_remove_prefix_spec bl n :
  Forall buf_wf bl -> 0 <= n ->
  (n <= len (concatenate bl) ->
    exists bl', list_remove_prefix bl n = Ok bl' /\ Forall buf_wf bl' /\
      concatenate bl' = drop (Z.to_nat n) (concatenate bl)) /\
  (len (concatenate bl) < n -> list_remove_prefix bl n = Throw out_of_range).
Proof.
  intros Hwf. revert n. induction Hwf as [|b bl Hb Hbl IH]; intros n Hn; cbn [list_remove_prefix];
    (destruct (Z.ltb_spec 0 n); [|by apply remove_none; [constructor|lia]]).
  - split; [|done]. unfold concatenate. simpl. change (len []) with 0. lia.
  - rewrite concatenate_cons, len_app. unfold size. destruct (Z.ltb_spec n (len (str b))).
    + split; [|pose proof (len_nonneg (concatenate bl)); lia]. intros _.
      destruct (remove_prefix_ok b n Hb) as (b' & -> & Hs & Hb'); [unfold size; lia|]. simpl.
      eexists. split; [done|]. split; [by constructor|].
      rewrite concatenate_cons, Hs, drop_app_le; [done|]. unfold len in *. lia.
    + destruct (IH (n - len (str b)) ltac:(lia)) as [Hok Herr].
      split; [|intros; apply Herr; lia]. intros ?.
      destruct Hok as (bl' & -> & Hbl' & Hc); [lia|]. eexists. split; [done|]. split; [done|].
      rewrite Hc, drop_app_ge by (unfold len in *; lia). f_equal. unfold len in *. lia.
Qed.

Lemma bufferlist_remove_prefix_spec_witness :
  exists bl', list_remove_prefix [of_string [x61; x62]; of_string [x63; x64]] 3 = Ok bl' /\
    concatenate bl' = [x64].
Proof.
  destruct (bufferlist_remove_prefix_spec [of_string [x61; x62]; of_string [x63; x64]] 3) as [Hok _].
  - repeat constructor; vm_compute; congruence.
  - lia.
  - destruct Hok as (bl' & Hr & _ & Hc); [vm_compute; congruence|]. exists bl'. split; [exact Hr|exact Hc].
Defined.
