(* ===== verification/Parser.v ===== *)
(** * NetParser and NetUnparser

    Integers in network byte order (libsponge/util/parser.{hh,cc}).  A parser
    keeps what is left of a buffer and a sticky error; the methods return the
    parser they leave behind. *)

From stdpp Require Import base list numbers.
From Stdlib Require Import ZArith Lia Strings.Byte.
From S2P Require Import Prelude.
From S2P Require Import Buffer.
#[local] Open Scope Z_scope.

Inductive ParseResult :=
| NoError
| BadChecksum
| PacketTooShort
| WrongIPVersion
| HeaderTooShort
| TruncatedPacket
| Unsupported.

#[global] Instance ParseResult_eq_dec : EqDecision ParseResult.
Proof. solve_decision. Defined.

(** [static_cast<size_t>(r)] *)
Definition index_of (r : ParseResult) : nat :=
  match r with
  | NoError => 0
  | BadChecksum => 1
  | PacketTooShort => 2
  | WrongIPVersion => 3
  | HeaderTooShort => 4
  | TruncatedPacket => 5
  | Unsupported => 6
  end.

(** The names are the ones of the array [_names]; reading it past its end, which
    is undefined behaviour in the code, is [None]. *)
Definition _names : list ParseResult :=
  [NoError; BadChecksum; PacketTooShort; WrongIPVersion; HeaderTooShort; TruncatedPacket].
Definition as_string (r : ParseResult) : option ParseResult := _names !! index_of r.

(** ** NetParser *)

Record NetParser := mkParser {
  _buffer : Buffer;
  _error : ParseResult;
}.
#[global] Instance NetParser_eta : RecordEta NetParser := fun p => mkParser (_buffer p) (_error p).

Definition parser_of (b : Buffer) : NetParser := mkParser b NoError.
Definition get_error (p : NetParser) : ParseResult := _error p.
Definition set_error (p : NetParser) (r : ParseResult) : NetParser := p <| _error := r |>.
Definition error (p : NetParser) : bool := bool_decide (get_error p <> NoError).

Definition _check_size (p : NetParser) (sz : Z) : NetParser :=
  if Buffer.size (_buffer p) <? sz then set_error p PacketTooShort else p.

(** The loop of [_parse_int<T>]; [w] is the number of values of [T]. *)
Fixpoint parse_loop (w : Z) (b : Buffer) (i todo : nat) (ret : Z) : res Z :=
  match todo with
  | O => Ok ret
  | S todo' =>
      let ret := Z.shiftl ret 8 mod w in
      let* c := Buffer.at_ b (Z.of_nat i) in
      parse_loop w b (S i) todo' ((ret + c) mod w)
  end.

Definition _parse_int (size : nat) (p : NetParser) : res (Z * NetParser) :=
  let p := _check_size p (Z.of_nat size) in
  if error p then Ok (0, p)
  else
    let* ret := parse_loop (256 ^ Z.of_nat size) (_buffer p) 0 size 0 in
    let* b := Buffer.remove_prefix (_buffer p) (Z.of_nat size) in
    Ok (ret, p <| _buffer := b |>).

Definition parse_u32 (p : NetParser) : res (Z * NetParser) := _parse_int 4 p.
Definition parse_u16 (p : NetParser) : res (Z * NetParser) := _parse_int 2 p.
Definition parse_u8 (p : NetParser) : res (Z * NetParser) := _parse_int 1 p.

Definition remove_prefix (p : NetParser) (n : Z) : res NetParser :=
  let p := _check_size p n in
  if error p then Ok p
  else
    let* b := Buffer.remove_prefix (_buffer p) n in
    Ok (p <| _buffer := b |>).

(** ** NetUnparser *)

(** The loop pushes the byte [size - i - 1] for [i = 0, 1, ...]; the recursion is
    on the number of bytes left. *)
Fixpoint _unparse_int (left : nat) (s : bytes) (val : Z) : bytes :=
  match left with
  | O => s
  | S left' =>
      let the_byte := Z.land (Z.shiftr val (Z.of_nat left' * 8)) 255 in
      _unparse_int left' (s ++ [byte_of_Z the_byte]) val
  end.

Definition unparse_u32 (s : bytes) (val : Z) : bytes := _unparse_int 4 s val.
Definition unparse_u16 (s : bytes) (val : Z) : bytes := _unparse_int 2 s val.
Definition unparse_u8 (s : bytes) (val : Z) : bytes := _unparse_int 1 s val.

(** ** Specification: big-endian numbers *)

Definition be_acc (acc : Z) (bs : bytes) : Z := fold_left (fun a c => a * 256 + byte_val c) bs acc.
Definition be_val (bs : bytes) : Z := be_acc 0 bs.

Fixpoint be_bytes (n : nat) (v : Z) : bytes :=
  match n with
  | O => []
  | S m => byte_of_Z (v / 256 ^ Z.of_nat m) :: be_bytes m v
  end.

(** [p] has not failed and [bs] is what it has left to parse. *)
Definition parses (p : NetParser) (bs : bytes) : Prop :=
  _error p = NoError /\ buf_wf (_buffer p) /\ str (_buffer p) = bs.

(** ** Lemmas: big-endian numbers *)

Lemma be_acc_app acc bs bs' : be_acc acc (bs ++ bs') = be_acc (be_acc acc bs) bs'.
Proof. unfold be_acc. by rewrite fold_left_app. Qed.

Lemma be_acc_cons acc c bs : be_acc acc (c :: bs) = be_acc (acc * 256 + byte_val c) bs.
Proof. done. Qed.

Lemma pow_len_cons (c : byte) bs : 256 ^ len (c :: bs) = 256 * 256 ^ len bs.
Proof. rewrite len_cons, Z.pow_add_r by (try lia; apply len_nonneg). done. Qed.

Lemma be_acc_split acc bs : be_acc acc bs = acc * 256 ^ len bs + be_val bs.
Proof.
  unfold be_val. revert acc. induction bs as [|c bs IH]; intros acc.
  - unfold be_acc. simpl. change (len []) with 0. lia.
  - rewrite !be_acc_cons, pow_len_cons, (IH (acc * 256 + _)), (IH (0 * 256 + _)). lia.
Qed.

Lemma be_val_cons c bs : be_val (c :: bs) = byte_val c * 256 ^ len bs + be_val bs.
Proof. unfold be_val at 1. by rewrite be_acc_cons, be_acc_split. Qed.

Lemma be_val_range bs : 0 <= be_val bs < 256 ^ len bs.
Proof.
  induction bs as [|c bs IH]; [by vm_compute|]. rewrite be_val_cons, pow_len_cons.
  pose proof (byte_val_range c). nia.
Qed.

Lemma be_bytes_length n v : length (be_bytes n v) = n.
Proof. induction n; simpl; auto. Qed.

Lemma len_be_bytes n v : len (be_bytes n v) = Z.of_nat n.
Proof. unfold len. by rewrite be_bytes_length. Qed.

Lemma be_val_be_bytes n v : be_val (be_bytes n v) = v mod 256 ^ Z.of_nat n.
Proof.
  induction n as [|n IH]; [by rewrite Z.mod_1_r|].
  cbn [be_bytes]. rewrite be_val_cons, len_be_bytes, IH, byte_val_of_Z.
  rewrite Nat2Z.inj_succ, Z.pow_succ_r, (Z.mul_comm 256) by lia.
  rewrite Z.rem_mul_r by lia. lia.
Qed.

Lemma be_bytes_be_val bs : be_bytes (length bs) (be_val bs) = bs.
Proof.
  assert (H : forall k, be_bytes (length bs) (k * 256 ^ len bs + be_val bs) = bs).
  { induction bs as [|c bs IH]; intros k; [done|]. cbn [be_bytes length].
    rewrite be_val_cons, pow_len_cons. f_equal.
    - fold (len bs). pose proof (be_val_range bs).
      replace (_ / _) with (k * 256 + byte_val c).
      + pose proof (byte_val_range c). rewrite <- (byte_of_Z_val c) at 2. unfold byte_of_Z.
        rewrite Z.add_comm, Z_mod_plus_full. done.
      + apply Z.div_unique with (be_val bs); [lia|]. fold (len bs). nia.
    - replace (_ + _) with ((k * 256 + byte_val c) * 256 ^ len bs + be_val bs) by nia. apply IH. }
  specialize (H 0). by rewrite Z.mul_0_l, Z.add_0_l in H.
Qed.

Lemma _unparse_int_be n s v : _unparse_int n s v = s ++ be_bytes n v.
Proof.
  revert s. induction n as [|n IH]; intros s; simpl; [by rewrite app_nil_r|].
  rewrite IH, <- app_assoc. simpl. do 2 f_equal.
  rewrite (Z.land_ones _ 8), Z.shiftr_div_pow2, Z.mul_comm, Z.pow_mul_r by lia.
  unfold byte_of_Z. by rewrite (Z.mod_mod _ 256) by lia.
Qed.

(** ** Lemmas: parsing *)

Lemma parses_of_string s : len s < 18446744073709551616 -> parses (parser_of (of_string s)) s.
Proof. intros. split; [done|]. split; [by apply of_string_wf|done]. Qed.

Lemma parses_error p bs : parses p bs -> error p = false.
Proof. intros (He & _). unfold error, get_error. rewrite He. done. Qed.

Lemma _check_size_ok p n : n <= Buffer.size (_buffer p) -> _check_size p n = p.
Proof. intros. unfold _check_size. by rewrite (proj2 (Z.ltb_ge _ _)). Qed.

Lemma parse_loop_ok w b (pre bs rest : bytes) acc :
  str b = pre ++ bs ++ rest -> 0 <= acc -> (acc + 1) * 256 ^ len bs <= w ->
  parse_loop w b (length pre) (length bs) acc = Ok (be_acc acc bs).
Proof.
  revert pre acc. induction bs as [|c bs IH]; intros pre acc Hs Ha Hw; [done|].
  cbn [length parse_loop]. pose proof (byte_val_range c).
  rewrite pow_len_cons in Hw.
  assert (0 < 256 ^ len bs) by (apply Z.pow_pos_nonneg; [lia|apply len_nonneg]).
  rewrite (at_ok _ _ c) by (rewrite Hs; apply list_lookup_middle; done). cbn [res_bind].
  rewrite Z.shiftl_mul_pow2 by lia. rewrite (Z.mod_small (acc * 2 ^ 8)), Z.mod_small by nia.
  replace (S (length pre)) with (length (pre ++ [c])) by (rewrite length_app; simpl; lia).
  rewrite IH; [done| |lia|nia]. by rewrite Hs, <- app_assoc.
Qed.

Lemma _parse_int_ok n p (bs rest : bytes) :
  parses p (bs ++ rest) -> length bs = n ->
  exists p', _parse_int n p = Ok (be_val bs, p') /\ parses p' rest.
Proof.
  intros Hp Hn. pose proof Hp as (He & Hwf & Hs). unfold _parse_int.
  assert (Hsz : Z.of_nat n <= Buffer.size (_buffer p)).
  { unfold Buffer.size. rewrite Hs, len_app. pose proof (len_nonneg rest). unfold len. lia. }
  rewrite _check_size_ok, (parses_error _ _ Hp) by done. subst n.
  rewrite (parse_loop_ok _ _ [] bs rest 0) by (done || lia || (unfold len; lia)). cbn [res_bind].
  destruct (remove_prefix_ok (_buffer p) (Z.of_nat (length bs)) Hwf) as (b & -> & Hb & Hbwf); [lia|].
  eexists. split; [done|]. unfold parses. sponge_simpl. rewrite Hb, Hs, Nat2Z.id, drop_app_length. done.
Qed.

Lemma _parse_int_short n p bs :
  parses p bs -> (length bs < n)%nat -> _parse_int n p = Ok (0, set_error p PacketTooShort).
Proof.
  intros (He & _ & Hs) Hn. unfold _parse_int, _check_size.
  rewrite (proj2 (Z.ltb_lt _ _)) by (unfold Buffer.size; rewrite Hs; unfold len; lia). done.
Qed.

Lemma remove_prefix_ok' p n (bs rest : bytes) :
  parses p (bs ++ rest) -> len bs = n ->
  exists p', remove_prefix p n = Ok p' /\ parses p' rest.
Proof.
  intros Hp <-. pose proof Hp as (He & Hwf & Hs). unfold remove_prefix.
  assert (Hsz : len bs <= Buffer.size (_buffer p)).
  { unfold Buffer.size. rewrite Hs, len_app. pose proof (len_nonneg rest). lia. }
  rewrite _check_size_ok, (parses_error _ _ Hp) by done.
  destruct (Buffer.remove_prefix_ok (_buffer p) (len bs) Hwf) as (b & -> & Hb & Hbwf);
    [pose proof (len_nonneg bs); lia|].
  eexists. split; [done|]. unfold parses. sponge_simpl. rewrite Hb, Hs. unfold len. rewrite Nat2Z.id, drop_app_length. done.
Qed.

(** One parsing step over bytes that were written by the unparser. *)
Lemma parse_unparsed n p v rest :
  parses p (be_bytes n v ++ rest) -> 0 <= v < 256 ^ Z.of_nat n ->
  exists p', _parse_int n p = Ok (v, p') /\ parses p' rest.
Proof.
  intros Hp Hv. destruct (_parse_int_ok n p _ _ Hp) as (p' & -> & Hp'); [apply be_bytes_length|].
  exists p'. by rewrite be_val_be_bytes, Z.mod_small.
Qed.

(** Parsing never throws, whatever is left in the buffer. *)
Lemma _parse_int_total n p :
  buf_wf (_buffer p) ->
  exists v q, _parse_int n p = Ok (v, q) /\ buf_wf (_buffer q) /\ 0 <= v < 256 ^ Z.of_nat n.
Proof.
  intros Hwf. destruct (Z.ltb_spec (Buffer.size (_buffer p)) (Z.of_nat n)) as [Hs|Hs].
  - unfold _parse_int, _check_size. rewrite (proj2 (Z.ltb_lt _ _)) by done. do 2 eexists. split; [done|].
    split; [done|]. split; [lia|]. by apply Z.pow_pos_nonneg; lia.
  - destruct (error p) eqn:He.
    { unfold _parse_int. rewrite _check_size_ok, He by done. do 2 eexists. split; [done|].
      split; [done|]. split; [lia|]. by apply Z.pow_pos_nonneg; lia. }
    destruct (_parse_int_ok n p (take n (str (_buffer p))) (drop n (str (_buffer p)))) as (q & Hq & Hq').
    { rewrite take_drop. split; [|done]. unfold error, get_error in He. by apply bool_decide_eq_false, dec_stable in He. }
    { rewrite length_take. unfold Buffer.size, len in Hs. lia. }
    do 2 eexists. split; [exact Hq|]. split; [apply Hq'|].
    pose proof (be_val_range (take n (str (_buffer p)))) as Hr. rewrite len_take in Hr.
    unfold Buffer.size in Hs. by rewrite Z.min_l in Hr by lia.
Qed.

Lemma remove_prefix_total p n :
  buf_wf (_buffer p) -> 0 <= n -> exists q, remove_prefix p n = Ok q /\ buf_wf (_buffer q).
Proof.
  intros Hwf Hn. unfold remove_prefix, _check_size. case_bool; [by eexists|].
  case_bool; [by eexists|].
  destruct (Buffer.remove_prefix_ok (_buffer p) n Hwf) as (b & -> & _ & Hb); [lia|]. by eexists.
Qed.

(** Runs the next integer of a parser whose input starts with an unparsed one. *)
Ltac parse_step :=
  lazymatch goal with
  | H : parses ?p (be_bytes ?n ?v ++ ?rest) |- context [_parse_int ?n ?p] =>
      let q := fresh "p" in let Hq := fresh "Hp" in let E := fresh "E" in
      destruct (parse_unparsed n p v rest H) as (q & E & Hq);
        [try done; try lia | rewrite E; clear E H; cbn [res_bind] ]
  end.

(** Runs the next integer of a parser on an arbitrary input. *)
Ltac parse_total :=
  lazymatch goal with
  | H : buf_wf (_buffer ?p) |- context [_parse_int ?n ?p] =>
      let v := fresh "v" in let q := fresh "p" in let Hq := fresh "Hp" in let Hv := fresh "Hv" in
      destruct (_parse_int_total n p H) as (v & q & -> & Hq & Hv); cbn [res_bind]
  end.

(** ** Properties *)

(** An integer of [n] bytes written by [NetUnparser] is read back by
    [NetParser], which is left with exactly the bytes that followed it, and the
    [n] bytes that [NetParser] reads are the ones [NetUnparser] writes for the
    value it returns. *)
Theorem parse_unparse_int n s v rest p (bs : bytes) :
  len (s ++ rest) + Z.of_nat n < 18446744073709551616 -> 0 <= v < 256 ^ Z.of_nat n ->
  parses p (bs ++ rest) -> length bs = n ->
  (exists q, _parse_int n (parser_of (of_string (_unparse_int n [] v ++ rest))) = Ok (v, q) /\ parses q rest) /\
  (exists x q, _parse_int n p = Ok (x, q) /\ _unparse_int n s x = s ++ bs).
Proof.
  intros Hl Hv Hp Hbs. split.
  - apply parse_unparsed; [|done]. rewrite _unparse_int_be. apply parses_of_string.
    rewrite !len_app, len_be_bytes in *. change (len []) with 0. pose proof (len_nonneg s). lia.
  - destruct (_parse_int_ok n p _ _ Hp Hbs) as (q & Hq & _). exists (be_val bs), q. split; [done|].
    rewrite _unparse_int_be, <- Hbs. by rewrite be_bytes_be_val.
Qed.

Lemma parse_unparse_int_witness :
  exists q, _parse_int 2 (parser_of (of_string (_unparse_int 2 [] 258 ++ [x07]))) = Ok (258, q) /\ parses q [x07].
Proof.
  refine (proj1 (parse_unparse_int 2 [] 258 [x07] (parser_of (of_string [x01; x02; x07])) [x01; x02] _ _ _ _)).
  - reflexivity.
  - vm_compute. split; congruence.
  - vm_compute. repeat split; congruence.
  - reflexivity.
Defined.

(** Parsing never throws: with fewer than [n] bytes left, or after an earlier
    error, the result is 0, the error is recorded and nothing is consumed. *)
Theorem parse_int_total n p :
  buf_wf (_buffer p) ->
  exists v q, _parse_int n p = Ok (v, q) /\
    (error q = true -> v = 0 /\ _buffer q = _buffer p) /\
    (error p = true -> error q = true) /\
    (Buffer.size (_buffer p) < Z.of_nat n -> _error q = PacketTooShort).
Proof.
  intros Hwf. destruct (Z.ltb_spec (Buffer.size (_buffer p)) (Z.of_nat n)) as [Hs|Hs].
  - unfold _parse_int, _check_size. rewrite (proj2 (Z.ltb_lt _ _)) by done. by do 2 eexists.
  - destruct (error p) eqn:He.
    { unfold _parse_int. rewrite _check_size_ok, He by done. do 2 eexists. split; [done|]. split; [done|]. split; [done|lia]. }
    assert (Hp : parses p (take n (str (_buffer p)) ++ drop n (str (_buffer p)))).
    { rewrite take_drop. split; [|done]. unfold error, get_error in He. by apply bool_decide_eq_false, dec_stable in He. }
    destruct (_parse_int_ok n p _ _ Hp) as (q & Hq & Hq').
    { rewrite length_take. unfold Buffer.size, len in Hs. lia. }
    do 2 eexists. split; [exact Hq|]. rewrite (parses_error _ _ Hq'). split; [done|]. split; [done|lia].
Qed.

Lemma parse_int_total_witness :
  exists v q, _parse_int 4 (parser_of (of_string [x01; x02])) = Ok (v, q) /\ _error q = PacketTooShort.
Proof.
  destruct (parse_int_total 4 (parser_of (of_string [x01; x02]))) as (v & q & H & _ & _ & Hs).
  - vm_compute. repeat split; congruence.
  - exists v, q. split; [exact H|]. apply Hs. reflexivity.
Defined.
