(* ===== verification/InternetChecksum.v ===== *)
(** * The Internet checksum

    [InternetChecksum] of libsponge/util/util.{hh,cc}: a 32-bit accumulator of
    16-bit words, folded to its one's complement.  The hex dump, the clock, the
    random generator and the system-call wrapper of the same file are I/O and are
    not modelled. *)

From stdpp Require Import base list numbers.
From Stdlib Require Import ZArith Lia Strings.Byte.
From S2P Require Import Prelude.
From S2P Require Import Parser.
#[local] Open Scope Z_scope.

Record InternetChecksum := mkChecksum {
  _sum : Z;
  _parity : bool;
}.

(** The constructor; [initial_sum] is a [uint32_t]. *)
Definition checksum_init (initial_sum : Z) : InternetChecksum := mkChecksum initial_sum false.

(** The body of the loop of [add]. *)
Definition add_byte (c : InternetChecksum) (b : byte) : InternetChecksum :=
  let val := if _parity c then byte_val b else u16 (Z.shiftl (byte_val b) 8) in
  mkChecksum (u32 (_sum c + val)) (negb (_parity c)).

Definition add (c : InternetChecksum) (data : bytes) : InternetChecksum := fold_left add_byte data c.

(** [while (ret > 0xffff) ret = (ret >> 16) + (ret & 0xffff)]; a 32-bit number
    needs at most two rounds. *)
Fixpoint fold_carries (fuel : nat) (ret : Z) : Z :=
  match fuel with
  | O => ret
  | S fuel' =>
      if 65535 <? ret then fold_carries fuel' (u32 (Z.shiftr ret 16 + Z.land ret 65535)) else ret
  end.

Definition value (c : InternetChecksum) : Z := u16 (Z.lnot (fold_carries 2 (_sum c))).

(** ** Specification: one's-complement sums *)

(** The sum of the 16-bit words of [bs], padded with a zero byte, that starts in
    the middle of a word when [odd]. *)
Fixpoint word_sum (odd : bool) (bs : bytes) : Z :=
  match bs with
  | [] => 0
  | b :: bs' => (if odd then byte_val b else 256 * byte_val b) + word_sum (negb odd) bs'
  end.

(** The one's-complement value of a sum: its residue modulo [2^16 - 1], where
    only the empty sum is 0. *)
Definition ones_complement (x : Z) : Z := if x =? 0 then 0 else 1 + (x - 1) mod 65535.

(** ** Lemmas *)

Lemma add_app c bs bs' : add c (bs ++ bs') = add (add c bs) bs'.
Proof. unfold add. by rewrite fold_left_app. Qed.

Lemma word_sum_range odd bs : 0 <= word_sum odd bs <= 65280 * len bs.
Proof.
  revert odd. induction bs as [|b bs IH]; intros odd; cbn [word_sum].
  - change (len []) with 0. lia.
  - specialize (IH (negb odd)). pose proof (byte_val_range b). rewrite len_cons. destruct odd; lia.
Qed.

Lemma word_sum_app odd bs bs' :
  word_sum odd (bs ++ bs') = word_sum odd bs + word_sum (xorb odd (Nat.odd (length bs))) bs'.
Proof.
  revert odd. induction bs as [|b bs IH]; intros odd; cbn [word_sum app length].
  - by rewrite xorb_false_r.
  - rewrite IH, Nat.odd_succ, <- Nat.negb_odd. destruct odd, (Nat.odd (length bs)); simpl; lia.
Qed.

Lemma add_spec c bs :
  0 <= _sum c -> _sum c + word_sum (_parity c) bs < 4294967296 ->
  add c bs = mkChecksum (_sum c + word_sum (_parity c) bs) (xorb (_parity c) (Nat.odd (length bs))).
Proof.
  unfold add. revert c. induction bs as [|b bs IH]; intros [s par] H0 H1; cbn [fold_left word_sum length] in *.
  - rewrite xorb_false_r. simpl. f_equal. lia.
  - rewrite Nat.odd_succ, <- Nat.negb_odd.
    pose proof (byte_val_range b). pose proof (word_sum_range (negb par) bs).
    assert (Hv : add_byte (mkChecksum s par) b =
      mkChecksum (s + (if par then byte_val b else 256 * byte_val b)) (negb par)).
    { unfold add_byte. simpl in *. rewrite Z.shiftl_mul_pow2 by lia. rewrite (u16_small (_ * _)) by lia.
      destruct par; rewrite u32_small by lia; f_equal; lia. }
    simpl in *. rewrite Hv, IH; simpl; [|destruct par; lia|destruct par; simpl in *; lia].
    f_equal; [lia|].
    destruct par, (Nat.odd (length bs)); done.
Qed.

Lemma fold_step ret :
  65535 < ret < 4294967296 ->
  let r := u32 (Z.shiftr ret 16 + Z.land ret 65535) in
  0 < r < ret /\ r <= 131070 /\ (ret <= 131070 -> r <= 65535) /\ ones_complement r = ones_complement ret.
Proof.
  intros Hr. change (Z.land ret 65535) with (Z.land ret (Z.ones 16)). rewrite Z.land_ones, Z.shiftr_div_pow2 by lia.
  change (2 ^ 16) with 65536. pose proof (Z.div_mod ret 65536 ltac:(lia)) as Hd.
  pose proof (Z.mod_pos_bound ret 65536 ltac:(lia)) as Hm.
  set (q := ret / 65536) in *. set (m := ret mod 65536) in *.
  assert (0 < q < 65536) by lia. rewrite u32_small by lia. cbv zeta.
  do 3 (split; [lia|]). unfold ones_complement.
  rewrite !(proj2 (Z.eqb_neq _ _)) by lia. f_equal.
  replace (ret - 1) with (q + m - 1 + q * 65535) by lia. by rewrite Z_mod_plus_full.
Qed.

Lemma ones_complement_small x : 0 <= x <= 65535 -> ones_complement x = x.
Proof. intros. unfold ones_complement. case_bool; [lia|]. rewrite Z.mod_small; lia. Qed.

Lemma fold_carries_spec fuel ret :
  0 <= ret < 4294967296 -> (2 <= fuel)%nat -> fold_carries fuel ret = ones_complement ret.
Proof.
  intros Hr Hf. destruct fuel as [|[|fuel]]; [lia..|]. cbn [fold_carries].
  destruct (Z.ltb_spec 65535 ret); [|by rewrite ones_complement_small by lia].
  destruct (fold_step ret) as (Hr1 & Hr2 & _ & <-); [lia|].
  revert Hr1 Hr2. generalize (u32 (Z.shiftr ret 16 + Z.land ret 65535)) as r. intros r Hr1 Hr2.
  destruct (Z.ltb_spec 65535 r); [|by rewrite ones_complement_small by lia].
  destruct (fold_step r) as (Hs1 & _ & Hs2 & <-); [lia|]. specialize (Hs2 ltac:(lia)).
  revert Hs1 Hs2. generalize (u32 (Z.shiftr r 16 + Z.land r 65535)) as s. intros s Hs1 Hs2.
  rewrite ones_complement_small by lia. destruct fuel; [done|]. cbn [fold_carries].
  by rewrite (proj2 (Z.ltb_ge _ _)) by lia.
Qed.

Lemma ones_complement_range x : 0 <= x -> 0 <= ones_complement x <= 65535.
Proof. intros. unfold ones_complement. case_bool; [lia|]. pose proof (Z.mod_pos_bound (x - 1) 65535). lia. Qed.

Lemma value_sum c : 0 <= _sum c < 4294967296 -> value c = 65535 - ones_complement (_sum c).
Proof.
  intros. unfold value. rewrite fold_carries_spec by (lia || done).
  pose proof (ones_complement_range (_sum c) ltac:(lia)).
  unfold u16, Z.lnot. symmetry. apply Z.mod_unique with (-1); lia.
Qed.

Lemma ones_complement_full x :
  0 <= x -> ones_complement x = 65535 <-> 0 < x /\ x mod 65535 = 0.
Proof.
  intros Hx. unfold ones_complement. destruct (Z.eqb_spec x 0); [lia|].
  pose proof (Z.div_mod (x - 1) 65535 ltac:(lia)) as Hd.
  pose proof (Z.mod_pos_bound (x - 1) 65535 ltac:(lia)).
  pose proof (Z.div_mod x 65535 ltac:(lia)). pose proof (Z.mod_pos_bound x 65535 ltac:(lia)).
  split; intros; [split; [lia|]|]; [|destruct H1].
  - symmetry. apply Z.mod_unique with ((x - 1) / 65535 + 1); lia.
  - enough ((x - 1) mod 65535 = 65534) by lia.
    symmetry. apply Z.mod_unique with (x / 65535 - 1); lia.
Qed.

(** The value after adding [bs]. *)
Lemma value_add initial bs :
  0 <= initial -> initial + word_sum false bs < 4294967296 ->
  value (add (checksum_init initial) bs) = 65535 - ones_complement (initial + word_sum false bs).
Proof.
  intros. rewrite add_spec by (simpl; lia). simpl. apply value_sum. simpl.
  pose proof (word_sum_range false bs). lia.
Qed.

(** Replacing a zero word by the checksum makes the total a multiple of 65535. *)
Lemma complement_cancels x : 0 <= x -> ones_complement (x + (65535 - ones_complement x)) = 65535.
Proof.
  intros Hx. apply ones_complement_full; [pose proof (ones_complement_range x); lia|].
  unfold ones_complement. destruct (Z.eqb_spec x 0); [subst; done|].
  pose proof (Z.div_mod (x - 1) 65535 ltac:(lia)) as Hd.
  pose proof (Z.mod_pos_bound (x - 1) 65535 ltac:(lia)). split; [lia|].
  symmetry. apply Z.mod_unique with ((x - 1) / 65535 + 1); lia.
Qed.

Lemma word_sum_word v bs : 0 <= v < 65536 -> word_sum false (be_bytes 2 v ++ bs) = v + word_sum false bs.
Proof.
  intros Hv. cbn [be_bytes app word_sum negb]. rewrite !byte_val_of_Z.
  change (256 ^ Z.of_nat 1) with 256. change (256 ^ Z.of_nat 0) with 1. rewrite Z.div_1_r.
  rewrite (Z.mod_small (v / 256)) by (split; [apply Z.div_pos|apply Z.div_lt_upper_bound]; lia).
  pose proof (Z.div_mod v 256). lia.
Qed.

(** Filling in a checksum field that was zero when the checksum was computed. *)
Lemma checksum_filled initial (pre post : bytes) c :
  0 <= initial -> Nat.even (length pre) = true ->
  initial + word_sum false (pre ++ post) + 65535 < 4294967296 ->
  c = value (add (checksum_init initial) (pre ++ be_bytes 2 0 ++ post)) ->
  0 <= c < 65536 /\ value (add (checksum_init initial) (pre ++ be_bytes 2 c ++ post)) = 0.
Proof.
  intros Hi Hpre Hb Hc.
  assert (Hw : forall v, 0 <= v < 65536 ->
    word_sum false (pre ++ be_bytes 2 v ++ post) = v + word_sum false (pre ++ post)).
  { intros v Hv. rewrite !(word_sum_app _ pre), <- Nat.negb_even, Hpre. cbn [negb xorb].
    rewrite word_sum_word by done. lia. }
  pose proof (word_sum_range false (pre ++ post)).
  rewrite value_add, Hw in Hc by (rewrite ?Hw; lia).
  pose proof (ones_complement_range (initial + (0 + word_sum false (pre ++ post)))) as Hr.
  rewrite Z.add_0_l in *. split; [lia|].
  rewrite value_add, Hw by (rewrite ?Hw; lia).
  replace (initial + (c + _)) with (initial + word_sum false (pre ++ post) + c) by lia.
  subst c. rewrite complement_cancels by lia. lia.
Qed.

(** ** Properties *)

(** C40: while the accumulator cannot overflow, the checksum of a string is the
    complement of the one's-complement sum of its 16-bit words, it does not
    depend on how the string is cut into pieces, and it is 0 exactly when the
    sum is a positive multiple of 65535. *)
Theorem checksum_value_spec initial bs bs' :
  0 <= initial -> initial + word_sum false (bs ++ bs') < 4294967296 ->
  let v := value (add (add (checksum_init initial) bs) bs') in
  let total := initial + word_sum false (bs ++ bs') in
  v = 65535 - ones_complement total /\ (v = 0 <-> 0 < total /\ total mod 65535 = 0).
Proof.
  intros Hi Ht. cbv zeta. rewrite <- add_app, value_add by done. split; [done|].
  pose proof (word_sum_range false (bs ++ bs')).
  rewrite <- ones_complement_full by lia. lia.
Qed.

Lemma checksum_value_spec_witness :
  value (add (add (checksum_init 5) [x01]) [x02; x03]) = 65535 - ones_complement (5 + (256 + 2 + 768)).
Proof.
  apply (checksum_value_spec 5 [x01] [x02; x03]); [lia|reflexivity].
Defined.

(** Writing the checksum into an (aligned) field that was zero when it was
    computed makes the checksum of the whole 0, which is what the receiver
    tests. *)
Theorem checksum_verifies initial (pre post : bytes) :
  0 <= initial -> Nat.even (length pre) = true ->
  initial + word_sum false (pre ++ post) + 65535 < 4294967296 ->
  let c := value (add (checksum_init initial) (pre ++ unparse_u16 [] 0 ++ post)) in
  value (add (checksum_init initial) (pre ++ unparse_u16 [] c ++ post)) = 0.
Proof.
  intros Hi Hp Hb. cbv zeta. unfold unparse_u16. rewrite !_unparse_int_be. cbn [app].
  by eapply checksum_filled.
Qed.

Lemma checksum_verifies_witness :
  let c := value (add (checksum_init 6) ([x45; x00] ++ unparse_u16 [] 0 ++ [xff; xff; x01])) in
  value (add (checksum_init 6) ([x45; x00] ++ unparse_u16 [] c ++ [xff; xff; x01])) = 0.
Proof. apply (checksum_verifies 6 [x45; x00] [xff; xff; x01]); [lia|reflexivity|reflexivity]. Defined.
