(* ===== verification/TCPHeader.v ===== *)
(** * TCPHeader

    The 20-byte TCP header and the options behind it, which are skipped
    (libsponge/tcp_helpers/tcp_header.{hh,cc}).  The two printing functions are
    not modelled. *)

From stdpp Require Import base list numbers.
From Stdlib Require Import ZArith Lia Strings.Byte.
From S2P Require Import Prelude.
From S2P Require Import Buffer.
From S2P Require Import Parser.
From S2P Require Import WrappingIntegers.
#[local] Open Scope Z_scope.

Definition LENGTH : Z := 20.

Record TCPHeader := mkTCPHeader {
  sport : Z;
  dport : Z;
  seqno : WrappingInt32;
  ackno : WrappingInt32;
  doff : Z;
  urg : bool;
  ack : bool;
  psh : bool;
  rst : bool;
  syn : bool;
  fin : bool;
  win : Z;
  cksum : Z;
  uptr : Z;
}.
#[global] Instance TCPHeader_eta : RecordEta TCPHeader := fun h =>
  mkTCPHeader (sport h) (dport h) (seqno h) (ackno h) (doff h) (urg h) (ack h) (psh h) (rst h)
    (syn h) (fin h) (win h) (cksum h) (uptr h).

(** The default member initializers. *)
Definition default_header : TCPHeader :=
  mkTCPHeader 0 0 (mkWrappingInt32 0) (mkWrappingInt32 0) (LENGTH / 4) false false false false false false 0 0 0.

(** [static_cast<bool>(x & mask)] *)
Definition flag (x mask : Z) : bool := negb (Z.land x mask =? 0).

(** [parse] assigns every field before it looks at [doff]. *)
Definition parse (p : NetParser) : res (ParseResult * TCPHeader * NetParser) :=
  let* (sport, p) := parse_u16 p in
  let* (dport, p) := parse_u16 p in
  let* (seqno, p) := parse_u32 p in
  let* (ackno, p) := parse_u32 p in
  let* (off, p) := parse_u8 p in
  let doff := Z.shiftr off 4 in
  let* (fl_b, p) := parse_u8 p in
  let* (win, p) := parse_u16 p in
  let* (cksum, p) := parse_u16 p in
  let* (uptr, p) := parse_u16 p in
  let h := mkTCPHeader sport dport (mkWrappingInt32 seqno) (mkWrappingInt32 ackno) doff
    (flag fl_b 32) (flag fl_b 16) (flag fl_b 8) (flag fl_b 4) (flag fl_b 2) (flag fl_b 1) win cksum uptr in
  if doff <? 5 then Ok (HeaderTooShort, h, p)
  else
    let* p := Parser.remove_prefix p (u64 (doff * 4 - LENGTH)) in
    Ok (if error p then get_error p else NoError, h, p).

(** The byte of flags. *)
Definition flags_byte (h : TCPHeader) : Z :=
  Z.lor (Z.lor (Z.lor (Z.lor (Z.lor (if urg h then 32 else 0) (if ack h then 16 else 0))
    (if psh h then 8 else 0)) (if rst h then 4 else 0)) (if syn h then 2 else 0)) (if fin h then 1 else 0).

(** [std::string::resize] *)
Definition resize (s : bytes) (n : Z) : bytes :=
  if n <? len s then take (Z.to_nat n) s else s ++ repeat x00 (Z.to_nat (n - len s)).

Definition serialize (h : TCPHeader) : res bytes :=
  if doff h <? 5 then Throw runtime_error
  else
    let ret := unparse_u16 [] (sport h) in
    let ret := unparse_u16 ret (dport h) in
    let ret := unparse_u32 ret (raw_value (seqno h)) in
    let ret := unparse_u32 ret (raw_value (ackno h)) in
    let ret := unparse_u8 ret (u8 (Z.shiftl (doff h) 4)) in
    let ret := unparse_u8 ret (flags_byte h) in
    let ret := unparse_u16 ret (win h) in
    let ret := unparse_u16 ret (cksum h) in
    let ret := unparse_u16 ret (uptr h) in
    Ok (resize ret (4 * doff h)).

(** [operator==]: the ports and the checksum are not compared. *)
Definition header_eqb (a b : TCPHeader) : bool :=
  wi_eqb (seqno a) (seqno b) && wi_eqb (ackno a) (ackno b) && (doff a =? doff b) && Bool.eqb (urg a) (urg b) &&
  Bool.eqb (ack a) (ack b) && Bool.eqb (psh a) (psh b) && Bool.eqb (rst a) (rst b) && Bool.eqb (syn a) (syn b) &&
  Bool.eqb (fin a) (fin b) && (win a =? win b) && (uptr a =? uptr b).

(** ** Invariant: every field fits its type, and [doff] its four bits *)

Record header_ok (h : TCPHeader) : Prop := {
  ok_sport : 0 <= sport h < 65536;
  ok_dport : 0 <= dport h < 65536;
  ok_seqno : wi_ok (seqno h);
  ok_ackno : wi_ok (ackno h);
  ok_doff : 5 <= doff h < 16;
  ok_win : 0 <= win h < 65536;
  ok_cksum : 0 <= cksum h < 65536;
  ok_uptr : 0 <= uptr h < 65536;
}.

(** ** Lemmas *)

Lemma flags_byte_range h : 0 <= flags_byte h < 256.
Proof. unfold flags_byte. by destruct (urg h), (ack h), (psh h), (rst h), (syn h), (fin h). Qed.

Lemma flags_byte_flags h :
  flag (flags_byte h) 32 = urg h /\ flag (flags_byte h) 16 = ack h /\ flag (flags_byte h) 8 = psh h /\
  flag (flags_byte h) 4 = rst h /\ flag (flags_byte h) 2 = syn h /\ flag (flags_byte h) 1 = fin h.
Proof. unfold flags_byte. by destruct (urg h), (ack h), (psh h), (rst h), (syn h), (fin h). Qed.

Lemma doff_shift d : 0 <= d < 16 -> u8 (Z.shiftl d 4) = d * 16 /\ Z.shiftr (d * 16) 4 = d.
Proof.
  intros. rewrite Z.shiftl_mul_pow2, Z.shiftr_div_pow2 by lia. change (2 ^ 4) with 16.
  rewrite u8_small, Z.div_mul by lia. done.
Qed.

(** The part of the header in front of the checksum, and behind it. *)
Definition head_bytes (h : TCPHeader) : bytes :=
  be_bytes 2 (sport h) ++ be_bytes 2 (dport h) ++ be_bytes 4 (raw_value (seqno h)) ++
  be_bytes 4 (raw_value (ackno h)) ++ be_bytes 1 (doff h * 16) ++ be_bytes 1 (flags_byte h) ++ be_bytes 2 (win h).
Definition tail_bytes (h : TCPHeader) : bytes :=
  be_bytes 2 (uptr h) ++ repeat x00 (Z.to_nat (4 * doff h - LENGTH)).

Lemma tcp_head_bytes_length h : length (head_bytes h) = 16%nat.
Proof. unfold head_bytes. by rewrite !length_app, !be_bytes_length. Qed.

Lemma tcp_serialize_bytes h :
  header_ok h -> serialize h = Ok (head_bytes h ++ be_bytes 2 (cksum h) ++ tail_bytes h).
Proof.
  intros [? ? ? ? Hd ? ? ?]. unfold serialize. rewrite (proj2 (Z.ltb_ge _ _)) by lia.
  unfold unparse_u16, unparse_u32, unparse_u8. rewrite !_unparse_int_be, (proj1 (doff_shift (doff h) ltac:(lia))).
  rewrite app_nil_l. unfold resize.
  match goal with |- context [len ?l] => replace (len l) with LENGTH end.
  2: { unfold len. by rewrite !length_app, !be_bytes_length. }
  unfold LENGTH at 1. rewrite (proj2 (Z.ltb_ge _ _)) by lia.
  unfold head_bytes, tail_bytes. by rewrite <- !app_assoc.
Qed.

Lemma len_serialized h :
  header_ok h -> len (head_bytes h ++ be_bytes 2 (cksum h) ++ tail_bytes h) = 4 * doff h.
Proof.
  intros Hok. pose proof (ok_doff _ Hok). unfold len, tail_bytes, LENGTH.
  rewrite !length_app, tcp_head_bytes_length, !be_bytes_length, repeat_length. lia.
Qed.

Lemma tcp_header_ok_cksum h c : header_ok h -> 0 <= c < 65536 -> header_ok (h <| cksum := c |>).
Proof. by intros []. Qed.

(** Parsing what was serialized gives the header back and stops behind the
    (zeroed) options. *)
Lemma tcp_parse_serialized h p rest :
  header_ok h -> parses p ((head_bytes h ++ be_bytes 2 (cksum h) ++ tail_bytes h) ++ rest) ->
  exists q, parse p = Ok (NoError, h, q) /\ parses q rest.
Proof.
  intros [] Hp. unfold head_bytes, tail_bytes in Hp. rewrite <- !app_assoc in Hp.
  destruct (doff_shift (doff h)) as [_ Hdoff]; [lia|].
  destruct (flags_byte_flags h) as (?&?&?&?&?&?).
  unfold parse, parse_u16, parse_u32, parse_u8. pose proof (flags_byte_range h).
  repeat parse_step. rewrite Hdoff, (proj2 (Z.ltb_ge _ _)) by lia.
  rewrite u64_small by (unfold LENGTH; lia).
  match goal with H : parses ?r (repeat _ _ ++ _) |- _ =>
    destruct (remove_prefix_ok' r (doff h * 4 - LENGTH) _ _ H) as (q & -> & Hq) end.
  { unfold len, LENGTH. rewrite repeat_length. lia. }
  cbn [res_bind]. rewrite (parses_error _ _ Hq). exists q. split; [|done].
  destruct h as [? ? [] [] ? ? ? ? ? ? ? ? ? ?]; simpl in *. congruence.
Qed.

Lemma tcp_parse_no_throw p : buf_wf (_buffer p) -> exists r h q, parse p = Ok (r, h, q) /\ buf_wf (_buffer q).
Proof.
  intros Hwf. unfold parse, parse_u16, parse_u32, parse_u8. repeat parse_total.
  case_bool; [by do 3 eexists|].
  match goal with H : buf_wf (_buffer ?r) |- context [Parser.remove_prefix ?r ?n] =>
    destruct (remove_prefix_total r n H (proj1 (u64_range _))) as (q & -> & Hq) end.
  by do 3 eexists.
Qed.
