(* ===== verification/TCPSegment.v ===== *)
(** * TCPSegment

    A TCP header and its payload, with the checksum that covers both and the
    pseudo-header (libsponge/tcp_helpers/tcp_segment.{hh,cc}). *)

From stdpp Require Import base list numbers.
From Stdlib Require Import ZArith Lia Strings.Byte.
From S2P Require Import Prelude.
From S2P Require Import Buffer.
From S2P Require Import Parser.
From S2P Require Import InternetChecksum.
From S2P Require Import WrappingIntegers.
From S2P Require Import TCPHeader.
#[local] Open Scope Z_scope.

Record TCPSegment := mkTCPSegment {
  header : TCPHeader;
  payload : Buffer;
}.
#[global] Instance TCPSegment_eta : RecordEta TCPSegment := fun s => mkTCPSegment (header s) (payload s).

Definition default_segment : TCPSegment := mkTCPSegment default_header empty_buffer.

(** The result of [_header.parse(p)] is ignored: what is returned is the error of
    the parser. *)
Definition parse (seg : TCPSegment) (buffer : Buffer) (datagram_layer_checksum : Z)
    : res (ParseResult * TCPSegment) :=
  let check := add (checksum_init datagram_layer_checksum) (str buffer) in
  if negb (value check =? 0) then Ok (BadChecksum, seg)
  else
    let* (_, h, p) := TCPHeader.parse (parser_of buffer) in
    Ok (get_error p, mkTCPSegment h (_buffer p)).

Definition length_in_sequence_space (seg : TCPSegment) : Z :=
  u64 (u64 (len (str (payload seg)) + (if syn (header seg) then 1 else 0)) + (if fin (header seg) then 1 else 0)).

Definition serialize (seg : TCPSegment) (datagram_layer_checksum : Z) : res BufferList :=
  let header_out := header seg <| cksum := 0 |> in
  let* s := TCPHeader.serialize header_out in
  let check := add (add (checksum_init datagram_layer_checksum) s) (str (payload seg)) in
  let header_out := header_out <| cksum := value check |> in
  let* s := TCPHeader.serialize header_out in
  Ok (append (append [] [of_string s]) [payload seg]).

(** ** Invariant *)

(** A segment that fits an IP datagram. *)
Definition segment_ok (seg : TCPSegment) : Prop :=
  header_ok (header seg) /\ buf_wf (payload seg) /\ len (str (payload seg)) <= 65535.

(** ** Lemmas *)

Lemma length_in_sequence_space_spec seg :
  len (str (payload seg)) < 18446744073709551614 ->
  length_in_sequence_space seg =
    len (str (payload seg)) + (if syn (header seg) then 1 else 0) + (if fin (header seg) then 1 else 0).
Proof.
  intros. unfold length_in_sequence_space. pose proof (len_nonneg (str (payload seg))).
  destruct (syn (header seg)), (fin (header seg)); u64_simpl; lia.
Qed.

Lemma head_bytes_cksum h c : head_bytes (h <| cksum := c |>) = head_bytes h.
Proof. done. Qed.

Lemma tail_bytes_cksum h c : tail_bytes (h <| cksum := c |>) = tail_bytes h.
Proof. done. Qed.

(** The checksum of the serialized segment as it is computed and verified. *)
Definition seg_checksum (seg : TCPSegment) (dlc : Z) : Z :=
  value (add (checksum_init dlc)
    (head_bytes (header seg) ++ be_bytes 2 0 ++ tail_bytes (header seg) ++ str (payload seg))).

Lemma seg_serialize_parts seg dlc :
  segment_ok seg -> 0 <= dlc <= 1000000 ->
  let c := seg_checksum seg dlc in
  0 <= c < 65536 /\
  serialize seg dlc = Ok [of_string (head_bytes (header seg) ++ be_bytes 2 c ++ tail_bytes (header seg)); payload seg] /\
  value (add (checksum_init dlc)
    (head_bytes (header seg) ++ be_bytes 2 c ++ tail_bytes (header seg) ++ str (payload seg))) = 0.
Proof.
  intros (Hh & Hwf & Hp) Hd. cbv zeta.
  destruct (checksum_filled dlc (head_bytes (header seg)) (tail_bytes (header seg) ++ str (payload seg))
    (seg_checksum seg dlc)) as [Hc Hv]; try done; try lia.
  { pose proof (word_sum_range false (head_bytes (header seg) ++ tail_bytes (header seg) ++ str (payload seg))) as Hw.
    rewrite !len_app in Hw. pose proof (len_serialized _ Hh) as Hl. rewrite !len_app, len_be_bytes in Hl.
    pose proof (ok_doff _ Hh). lia. }
  split; [done|]. split; [|done]. unfold serialize.
  rewrite tcp_serialize_bytes by (apply tcp_header_ok_cksum; [done|lia]). cbn [res_bind].
  rewrite head_bytes_cksum, tail_bytes_cksum, <- add_app. sponge_simpl.
  fold (seg_checksum seg dlc).
  change (mkTCPHeader _ _ _ _ _ _ _ _ _ _ _ _ (seg_checksum seg dlc) _)
    with (header seg <| cksum := seg_checksum seg dlc |>).
  rewrite tcp_serialize_bytes by (by apply tcp_header_ok_cksum). done.
Qed.

Lemma seg_parse_no_throw seg b dlc : buf_wf b -> exists r seg', parse seg b dlc = Ok (r, seg').
Proof.
  intros Hwf. unfold parse. case_bool; [by do 2 eexists|].
  destruct (tcp_parse_no_throw (parser_of b) Hwf) as (r & h & q & -> & _). by do 2 eexists.
Qed.

(** A buffer with the bytes of the serialized segment. *)
Lemma seg_parse_serialized seg dlc old b :
  segment_ok seg -> 0 <= dlc <= 1000000 -> buf_wf b ->
  str b = head_bytes (header seg) ++ be_bytes 2 (seg_checksum seg dlc) ++ tail_bytes (header seg) ++ str (payload seg) ->
  exists out, parse old b dlc = Ok (NoError, out) /\
    header out = header seg <| cksum := seg_checksum seg dlc |> /\ str (payload out) = str (payload seg).
Proof.
  intros Hok Hd Hwf Hs. destruct (seg_serialize_parts seg dlc Hok Hd) as (Hc & _ & Hv).
  set (c := seg_checksum seg dlc) in *. set (h := header seg <| cksum := c |>).
  destruct Hok as (Hh & _ & _). destruct (tcp_parse_serialized h (parser_of b) (str (payload seg)))
    as (q & Hq & He & _ & Hs').
  { by apply tcp_header_ok_cksum. }
  { split; [done|]. split; [done|]. unfold h. rewrite head_bytes_cksum, tail_bytes_cksum. cbn [cksum field_update].
    change (cksum _) with c. by rewrite <- !app_assoc. }
  exists (mkTCPSegment h (_buffer q)). unfold parse. rewrite Hs, Hv. cbn [negb Z.eqb]. rewrite Hq.
  cbn [res_bind]. by rewrite <- He.
Qed.

(** The bytes of a serialized segment, parsed again. *)
Lemma segment_reparsed seg dlc old bl :
  segment_ok seg -> 0 <= dlc <= 1000000 -> serialize seg dlc = Ok bl ->
  len (concatenate bl) <= 70000 /\
  exists c out, parse old (of_string (concatenate bl)) dlc = Ok (NoError, out) /\
    header out = header seg <| cksum := c |> /\ str (payload out) = str (payload seg).
Proof.
  intros Hok Hd Hser. destruct (seg_serialize_parts seg dlc Hok Hd) as (Hc & Hparts & _). rewrite Hser in Hparts.
  apply Ok_inj in Hparts as ->.
  assert (Hs : concatenate [of_string (head_bytes (header seg) ++ be_bytes 2 (seg_checksum seg dlc) ++ tail_bytes (header seg));
      payload seg] =
    head_bytes (header seg) ++ be_bytes 2 (seg_checksum seg dlc) ++ tail_bytes (header seg) ++ str (payload seg)).
  { rewrite concatenate_cons, concatenate_one, of_string_str. by rewrite <- !app_assoc. }
  assert (Hl : len (concatenate [of_string (head_bytes (header seg) ++ be_bytes 2 (seg_checksum seg dlc) ++ tail_bytes (header seg));
      payload seg]) <= 70000).
  { rewrite Hs. destruct Hok as (Hh & _ & Hp).
    pose proof (len_serialized (header seg <| cksum := seg_checksum seg dlc |>) (tcp_header_ok_cksum _ _ Hh Hc)) as Hl.
    rewrite head_bytes_cksum, tail_bytes_cksum, !len_app in Hl. rewrite !len_app. pose proof (ok_doff _ Hh).
    sponge_simpl. lia. }
  split; [done|]. exists (seg_checksum seg dlc). rewrite Hs in Hl |- *.
  apply seg_parse_serialized; [done|done| |by rewrite of_string_str]. apply of_string_wf. lia.
Qed.

(** ** Properties *)

(** C36: a segment survives serialization: parsing the bytes of a serialized
    segment with the same pseudo-header checksum succeeds and gives the same
    header, but for the checksum field, and the same payload. *)
Theorem segment_roundtrip seg dlc old :
  segment_ok seg -> 0 <= dlc <= 1000000 ->
  exists bl, serialize seg dlc = Ok bl /\
  exists c out, parse old (of_string (concatenate bl)) dlc = Ok (NoError, out) /\
    header out = header seg <| cksum := c |> /\ str (payload out) = str (payload seg).
Proof.
  intros Hok Hd. destruct (seg_serialize_parts seg dlc Hok Hd) as (_ & Hser & _). eexists. split; [exact Hser|].
  by apply segment_reparsed.
Qed.

Definition example_segment : TCPSegment :=
  mkTCPSegment (default_header <| seqno := mkWrappingInt32 4294967295 |> <| ack := true |> <| fin := true |>
    <| win := 1000 |>) (of_string [x61; x62; x63]).

Lemma example_segment_ok : segment_ok example_segment.
Proof. split; [split; vm_compute; repeat split; congruence|]. split; vm_compute; repeat split; congruence. Qed.

Lemma segment_roundtrip_witness :
  exists bl, serialize example_segment 327680 = Ok bl /\
  exists c out, parse default_segment (of_string (concatenate bl)) 327680 = Ok (NoError, out) /\
    header out = header example_segment <| cksum := c |> /\ str (payload out) = [x61; x62; x63].
Proof. apply (segment_roundtrip example_segment 327680 default_segment example_segment_ok). lia. Defined.

(** A data offset below 5 makes [TCPHeader::parse] return [HeaderTooShort],
    but the segment is accepted: [TCPSegment::parse] drops that result and the
    parser itself has seen no error.  The segment is 20 bytes with [doff = 4] and
    a correct checksum. *)
Theorem short_doff_accepted :
  let data := repeat x00 12 ++ [x40; x00; x00; x00; xbf; xff; x00; x00] in
  exists h q out,
    TCPHeader.parse (parser_of (of_string data)) = Ok (HeaderTooShort, h, q) /\
    parse default_segment (of_string data) 0 = Ok (NoError, out) /\ doff (header out) = 4.
Proof. do 3 eexists. split; [vm_compute; reflexivity|]. split; [vm_compute; reflexivity|reflexivity]. Qed.
