(* ===== verification/IPv4Header.v ===== *)
(** * IPv4Header

    The IPv4 header with its checksum and the pseudo-header sum TCP uses
    (libsponge/tcp_helpers/ipv4_header.{hh,cc}).  The two printing functions are
    not modelled. *)

From stdpp Require Import base list numbers.
From Stdlib Require Import ZArith Lia Strings.Byte.
From S2P Require Import Prelude.
From S2P Require Import Buffer.
From S2P Require Import Parser.
From S2P Require Import InternetChecksum.
From S2P Require Import TCPHeader.
#[local] Open Scope Z_scope.

Definition LENGTH : Z := 20.
Definition DEFAULT_TTL : Z := 128.
Definition PROTO_TCP : Z := 6.

(** [tot_len] is the field [len] of the code. *)
Record IPv4Header := mkIPv4Header {
  ver : Z;
  hlen : Z;
  tos : Z;
  tot_len : Z;
  id : Z;
  df : bool;
  mf : bool;
  offset : Z;
  ttl : Z;
  proto : Z;
  cksum : Z;
  src : Z;
  dst : Z;
}.
#[global] Instance IPv4Header_eta : RecordEta IPv4Header := fun h =>
  mkIPv4Header (ver h) (hlen h) (tos h) (tot_len h) (id h) (df h) (mf h) (offset h) (ttl h) (proto h)
    (cksum h) (src h) (dst h).

(** The default member initializers. *)
Definition default_header : IPv4Header :=
  mkIPv4Header 4 (LENGTH / 4) 0 0 0 true false 0 DEFAULT_TTL PROTO_TCP 0 0 0.

Definition parse (h : IPv4Header) (p : NetParser) : res (ParseResult * IPv4Header * NetParser) :=
  let original_serialized_version := _buffer p in
  let data_size := Buffer.size (_buffer p) in
  if data_size <? LENGTH then Ok (PacketTooShort, h, p)
  else
    let* (first_byte, p) := parse_u8 p in
    let ver := Z.shiftr first_byte 4 in
    let hlen := Z.land first_byte 15 in
    let* (tos, p) := parse_u8 p in
    let* (tot_len, p) := parse_u16 p in
    let* (id, p) := parse_u16 p in
    let* (fo_val, p) := parse_u16 p in
    let* (ttl, p) := parse_u8 p in
    let* (proto, p) := parse_u8 p in
    let* (cksum, p) := parse_u16 p in
    let* (src, p) := parse_u32 p in
    let* (dst, p) := parse_u32 p in
    let h := mkIPv4Header ver hlen tos tot_len id (flag fo_val 16384) (flag fo_val 8192)
      (Z.land fo_val 8191) ttl proto cksum src dst in
    if data_size <? 4 * hlen then Ok (PacketTooShort, h, p)
    else if negb (ver =? 4) then Ok (WrongIPVersion, h, p)
    else if hlen <? 5 then Ok (HeaderTooShort, h, p)
    else if negb (data_size =? tot_len) then Ok (TruncatedPacket, h, p)
    else
      let* p := Parser.remove_prefix p (u64 (hlen * 4 - LENGTH)) in
      if error p then Ok (get_error p, h, p)
      else
        let check := add (checksum_init 0) (prefix_str (str original_serialized_version) (4 * hlen)) in
        if negb (value check =? 0) then Ok (BadChecksum, h, p) else Ok (NoError, h, p).

Definition first_byte (h : IPv4Header) : Z := u8 (Z.lor (Z.shiftl (ver h) 4) (Z.land (hlen h) 15)).
Definition fo_val (h : IPv4Header) : Z :=
  Z.lor (Z.lor (if df h then 16384 else 0) (if mf h then 8192 else 0)) (Z.land (offset h) 8191).

Definition serialize (h : IPv4Header) : res bytes :=
  if negb (ver h =? 4) then Throw runtime_error
  else if 4 * hlen h <? LENGTH then Throw runtime_error
  else
    let ret := unparse_u8 [] (first_byte h) in
    let ret := unparse_u8 ret (tos h) in
    let ret := unparse_u16 ret (tot_len h) in
    let ret := unparse_u16 ret (id h) in
    let ret := unparse_u16 ret (fo_val h) in
    let ret := unparse_u8 ret (ttl h) in
    let ret := unparse_u8 ret (proto h) in
    let ret := unparse_u16 ret (cksum h) in
    let ret := unparse_u32 ret (src h) in
    let ret := unparse_u32 ret (dst h) in
    Ok (resize ret (4 * hlen h)).

Definition payload_length (h : IPv4Header) : Z := u16 (tot_len h - 4 * hlen h).

Definition pseudo_cksum (h : IPv4Header) : Z :=
  let pcksum := u32 (Z.shiftr (src h) 16 + Z.land (src h) 65535) in
  let pcksum := u32 (pcksum + u32 (Z.shiftr (dst h) 16 + Z.land (dst h) 65535)) in
  let pcksum := u32 (pcksum + proto h) in
  u32 (pcksum + payload_length h).

(** ** Invariant: every field fits its bits, and the lengths are possible ones *)

Record header_ok (h : IPv4Header) : Prop := {
  ok_ver : ver h = 4;
  ok_hlen : 5 <= hlen h < 16;
  ok_tos : 0 <= tos h < 256;
  ok_len : 4 * hlen h <= tot_len h < 65536;
  ok_id : 0 <= id h < 65536;
  ok_offset : 0 <= offset h < 8192;
  ok_ttl : 0 <= ttl h < 256;
  ok_proto : 0 <= proto h < 256;
  ok_cksum : 0 <= cksum h < 65536;
  ok_src : 0 <= src h < 4294967296;
  ok_dst : 0 <= dst h < 4294967296;
}.

(** ** Lemmas *)

Lemma land_low x y k : 0 <= k -> 0 <= y < 2 ^ k -> (2 ^ k | x) -> Z.land x y = 0.
Proof.
  intros Hk Hy [z ->]. rewrite <- (Z.mod_small y (2 ^ k)), <- Z.land_ones by lia.
  rewrite Z.land_comm, <- Z.land_assoc, (Z.land_comm (Z.ones k)), Z.land_ones, Z_mod_mult, Z.land_0_r by lia. done.
Qed.

Lemma lor_disjoint x y k : 0 <= k -> 0 <= y < 2 ^ k -> (2 ^ k | x) -> Z.lor x y = x + y.
Proof. intros Hk Hy Hx. rewrite <- Z.lxor_lor, <- Z.add_nocarry_lxor by (by apply (land_low _ _ k)). done. Qed.

Lemma first_byte_spec h :
  ver h = 4 -> 0 <= hlen h < 16 ->
  first_byte h = 64 + hlen h /\ Z.shiftr (64 + hlen h) 4 = ver h /\ Z.land (64 + hlen h) 15 = hlen h.
Proof.
  intros Hv Hh. assert (Hl : Z.land (hlen h) 15 = hlen h).
  { rewrite (Z.land_ones _ 4), Z.mod_small by lia. done. }
  split; [|split].
  - unfold first_byte. rewrite Hv, Hl, (lor_disjoint _ _ 4); [apply u8_small; simpl; lia|lia|lia|by exists 4].
  - rewrite Z.shiftr_div_pow2, Hv by lia. symmetry. apply Z.div_unique with (hlen h); lia.
  - rewrite (Z.land_ones _ 4) by lia. symmetry. apply Z.mod_unique with 4; lia.
Qed.

Lemma fo_val_spec h :
  0 <= offset h < 8192 ->
  0 <= fo_val h < 65536 /\ flag (fo_val h) 16384 = df h /\ flag (fo_val h) 8192 = mf h /\
  Z.land (fo_val h) 8191 = offset h.
Proof.
  intros Ho. unfold fo_val, flag. set (b := Z.lor (if df h then 16384 else 0) (if mf h then 8192 else 0)).
  assert (Hoff : Z.land (offset h) 8191 = offset h) by (rewrite (Z.land_ones _ 13), Z.mod_small by lia; done).
  assert (Hd : forall k, (8192 | k) -> Z.land (offset h) k = 0).
  { intros k Hk. rewrite Z.land_comm. by apply (land_low _ _ 13). }
  assert (Hb : (8192 | b)) by (unfold b; destruct (df h), (mf h); [by exists 3|by exists 2|by exists 1|by exists 0]).
  split.
  { rewrite Hoff, (lor_disjoint b _ 13) by (done || lia).
    enough (0 <= b <= 24576) by lia. unfold b. by destruct (df h), (mf h). }
  rewrite !Z.land_lor_distr_l, Hoff, (Hd 16384), (Hd 8192), Hoff, !Z.lor_0_r by (by apply Z.divide_refl || by exists 2).
  unfold b. by destruct (df h), (mf h).
Qed.

Lemma payload_length_ok h : header_ok h -> payload_length h = tot_len h - 4 * hlen h.
Proof. intros []. apply u16_small. lia. Qed.

Lemma half_words x : 0 <= x < 4294967296 ->
  0 <= Z.shiftr x 16 < 65536 /\ 0 <= Z.land x 65535 < 65536.
Proof.
  intros. rewrite (Z.land_ones _ 16), Z.shiftr_div_pow2 by lia. split; [|apply Z.mod_pos_bound; lia].
  split; [apply Z.div_pos|apply Z.div_lt_upper_bound]; lia.
Qed.

Lemma pseudo_cksum_range h : header_ok h -> 0 <= pseudo_cksum h <= 1000000.
Proof.
  intros Hok. pose proof (payload_length_ok h Hok). destruct Hok.
  pose proof (half_words (src h)). pose proof (half_words (dst h)).
  unfold pseudo_cksum.
  rewrite (u32_small (Z.shiftr (src h) 16 + _)), (u32_small (Z.shiftr (dst h) 16 + _)) by lia.
  rewrite (u32_small (_ + _ + (Z.shiftr (dst h) 16 + _))) by lia.
  rewrite (u32_small (_ + proto h)), u32_small by lia. lia.
Qed.

(** The header in front of the checksum field, and behind it. *)
Definition head_bytes (h : IPv4Header) : bytes :=
  be_bytes 1 (64 + hlen h) ++ be_bytes 1 (tos h) ++ be_bytes 2 (tot_len h) ++ be_bytes 2 (id h) ++
  be_bytes 2 (fo_val h) ++ be_bytes 1 (ttl h) ++ be_bytes 1 (proto h).
Definition tail_bytes (h : IPv4Header) : bytes :=
  be_bytes 4 (src h) ++ be_bytes 4 (dst h) ++ repeat x00 (Z.to_nat (4 * hlen h - LENGTH)).
Definition header_bytes (h : IPv4Header) : bytes := head_bytes h ++ be_bytes 2 (cksum h) ++ tail_bytes h.

Lemma ip_head_bytes_length h : length (head_bytes h) = 10%nat.
Proof. unfold head_bytes. by rewrite !length_app, !be_bytes_length. Qed.

Lemma ip_serialize_bytes h : header_ok h -> serialize h = Ok (header_bytes h).
Proof.
  intros []. destruct (first_byte_spec h ltac:(done) ltac:(lia)) as [Hf _]. unfold serialize.
  rewrite (proj2 (Z.eqb_eq _ _)), (proj2 (Z.ltb_ge _ _)) by (unfold LENGTH; lia). cbn [negb].
  unfold unparse_u16, unparse_u32, unparse_u8. rewrite !_unparse_int_be, Hf, app_nil_l.
  unfold resize.
  match goal with |- context [len ?l] => replace (len l) with LENGTH end.
  2: { unfold len. by rewrite !length_app, !be_bytes_length. }
  unfold LENGTH at 1. rewrite (proj2 (Z.ltb_ge _ _)) by lia.
  unfold header_bytes, head_bytes, tail_bytes. by rewrite <- !app_assoc.
Qed.

Lemma len_header_bytes h : header_ok h -> len (header_bytes h) = 4 * hlen h.
Proof.
  intros Hok. pose proof (ok_hlen _ Hok). unfold len, header_bytes, tail_bytes, LENGTH.
  rewrite !length_app, ip_head_bytes_length, !be_bytes_length, repeat_length. lia.
Qed.

Lemma ip_header_ok_cksum h c : header_ok h -> 0 <= c < 65536 -> header_ok (h <| cksum := c |>).
Proof. by intros []. Qed.

(** The checksum that [IPv4Datagram::serialize] writes. *)
Definition header_checksum (h : IPv4Header) : Z := value (add (checksum_init 0) (header_bytes (h <| cksum := 0 |>))).

Lemma header_checksum_ok h :
  header_ok h -> 0 <= header_checksum h < 65536 /\
  value (add (checksum_init 0) (header_bytes (h <| cksum := header_checksum h |>))) = 0.
Proof.
  intros Hok. destruct (checksum_filled 0 (head_bytes h) (tail_bytes h) (header_checksum h)); try done.
  pose proof (word_sum_range false (head_bytes h ++ tail_bytes h)) as Hw.
  rewrite len_app in Hw. pose proof (len_header_bytes h Hok) as Hl. unfold header_bytes in Hl.
  rewrite !len_app, len_be_bytes in Hl. pose proof (ok_hlen _ Hok). lia.
Qed.

Lemma ip_parse_serialized h old p rest :
  header_ok h -> parses p (header_bytes h ++ rest) -> tot_len h = 4 * hlen h + len rest ->
  value (add (checksum_init 0) (header_bytes h)) = 0 ->
  exists q, parse old p = Ok (NoError, h, q) /\ parses q rest.
Proof.
  intros Hok Hp Hlen Hck. pose proof Hp as (_ & _ & Hs).
  pose proof (len_header_bytes h Hok) as Hl. destruct Hok. pose proof (len_nonneg rest).
  assert (Hsz : Buffer.size (_buffer p) = tot_len h) by (unfold Buffer.size; rewrite Hs, len_app; lia).
  assert (Hpre : prefix_str (str (_buffer p)) (4 * hlen h) = header_bytes h).
  { rewrite Hs. unfold prefix_str. rewrite take_app_length'; [done|]. unfold len in Hl. lia. }
  unfold header_bytes, head_bytes, tail_bytes in Hp. rewrite <- !app_assoc in Hp.
  destruct (first_byte_spec h) as (Hfb & Hver & Hhlen); [lia..|].
  destruct (fo_val_spec h) as (Hfo & Hdf & Hmf & Hoff); [lia|].
  unfold parse. rewrite Hsz, (proj2 (Z.ltb_ge _ _)) by (unfold LENGTH; lia).
  unfold parse_u16, parse_u32, parse_u8. revert Hpre. generalize (str (_buffer p)) as orig. intros orig Hpre.
  repeat parse_step. rewrite Hver, Hhlen, Hpre, Hck.
  rewrite !(proj2 (Z.ltb_ge _ _)), ok_ver0, Z.eqb_refl by lia. cbn [negb].
  rewrite u64_small by (unfold LENGTH; lia).
  match goal with H : parses ?r (repeat _ _ ++ _) |- _ =>
    destruct (remove_prefix_ok' r (hlen h * 4 - LENGTH) _ _ H) as (q & -> & Hq) end.
  { unfold len, LENGTH. rewrite repeat_length. lia. }
  cbn [res_bind]. rewrite (parses_error _ _ Hq). exists q. split; [|done].
  rewrite Hdf, Hmf, Hoff, <- ok_ver0, Z.eqb_refl. clear. by destruct h.
Qed.

Lemma ip_parse_no_throw h p : buf_wf (_buffer p) -> exists r h' q, parse h p = Ok (r, h', q) /\ buf_wf (_buffer q).
Proof.
  intros Hwf. unfold parse, parse_u16, parse_u32, parse_u8. case_bool; [by do 3 eexists|].
  generalize (str (_buffer p)) (Buffer.size (_buffer p)). intros orig sz.
  repeat parse_total.
  match goal with H : buf_wf (_buffer ?r) |- context [Parser.remove_prefix ?r ?n] =>
    destruct (remove_prefix_total r n H (proj1 (u64_range _))) as (q & -> & Hq) end.
  cbn [res_bind]. repeat case_bool; by do 3 eexists.
Qed.
