(* ===== verification/IPv4Datagram.v ===== *)
(** * IPv4Datagram

    An IPv4 header and its payload (libsponge/tcp_helpers/ipv4_datagram.{hh,cc}). *)

From stdpp Require Import base list numbers.
From Stdlib Require Import ZArith Lia Strings.Byte.
From S2P Require Import Prelude.
From S2P Require Import Buffer.
From S2P Require Import Parser.
From S2P Require Import InternetChecksum.
From S2P Require Import IPv4Header.
#[local] Open Scope Z_scope.

Record IPv4Datagram := mkIPv4Datagram {
  header : IPv4Header;
  payload : BufferList;
}.
#[global] Instance IPv4Datagram_eta : RecordEta IPv4Datagram := fun d => mkIPv4Datagram (header d) (payload d).

Definition default_datagram : IPv4Datagram := mkIPv4Datagram default_header [].

(** The result of [_header.parse(p)] is ignored. *)
Definition parse (dgram : IPv4Datagram) (buffer : Buffer) : res (ParseResult * IPv4Datagram) :=
  let* (_, h, p) := IPv4Header.parse (header dgram) (parser_of buffer) in
  let dgram := mkIPv4Datagram h [_buffer p] in
  if negb (list_size (payload dgram) =? payload_length h) then Ok (PacketTooShort, dgram)
  else Ok (get_error p, dgram).

Definition serialize (dgram : IPv4Datagram) : res BufferList :=
  if negb (list_size (payload dgram) =? payload_length (header dgram)) then Throw runtime_error
  else
    let header_out := header dgram <| cksum := 0 |> in
    let* header_zero_checksum := IPv4Header.serialize header_out in
    let check := add (checksum_init 0) header_zero_checksum in
    let header_out := header_out <| cksum := value check |> in
    let* s := IPv4Header.serialize header_out in
    Ok (append (append [] [of_string s]) (payload dgram)).

(** ** Invariant *)

Definition datagram_ok (dgram : IPv4Datagram) : Prop :=
  header_ok (header dgram) /\ Forall buf_wf (payload dgram) /\
  tot_len (header dgram) = 4 * hlen (header dgram) + len (concatenate (payload dgram)).

(** ** Lemmas *)

Lemma datagram_size dgram :
  datagram_ok dgram -> list_size (payload dgram) = payload_length (header dgram).
Proof.
  intros (Hh & _ & Hl). rewrite (payload_length_ok _ Hh). destruct Hh.
  rewrite list_size_ok; lia.
Qed.

Lemma dgram_serialize_parts dgram :
  datagram_ok dgram ->
  serialize dgram =
    Ok (of_string (header_bytes (header dgram <| cksum := header_checksum (header dgram) |>)) :: payload dgram).
Proof.
  intros Hok. unfold serialize. rewrite (datagram_size _ Hok), Z.eqb_refl. cbn [negb].
  destruct Hok as (Hh & _ & _). rewrite ip_serialize_bytes by (by apply ip_header_ok_cksum). cbn [res_bind].
  fold (header_checksum (header dgram)). destruct (header_checksum_ok _ Hh) as [Hc _].
  change (header dgram <| cksum := 0 |> <| cksum := header_checksum (header dgram) |>)
    with (header dgram <| cksum := header_checksum (header dgram) |>).
  by rewrite ip_serialize_bytes by (by apply ip_header_ok_cksum).
Qed.

Lemma dgram_parse_no_throw dgram b : buf_wf b -> exists r d, parse dgram b = Ok (r, d).
Proof.
  intros Hwf. unfold parse.
  destruct (ip_parse_no_throw (header dgram) (parser_of b) Hwf) as (r & h & q & -> & _).
  cbn [res_bind]. case_bool; by do 2 eexists.
Qed.

(** What [serialize] writes, [parse] reads back. *)
Lemma parse_of_serialized dgram old b :
  datagram_ok dgram -> buf_wf b ->
  str b = header_bytes (header dgram <| cksum := header_checksum (header dgram) |>) ++ concatenate (payload dgram) ->
  exists out, parse old b = Ok (NoError, out) /\
    header out = header dgram <| cksum := header_checksum (header dgram) |> /\
    Forall buf_wf (payload out) /\
    concatenate (payload out) = concatenate (payload dgram).
Proof.
  intros Hok Hwf Hs. pose proof (datagram_size _ Hok) as Hsz. destruct Hok as (Hh & _ & Hl).
  destruct (header_checksum_ok _ Hh) as [Hc Hv]. set (h := header dgram <| cksum := _ |>) in *.
  assert (Hhok : header_ok h) by (by apply ip_header_ok_cksum).
  destruct (ip_parse_serialized h (header old) (parser_of b) (concatenate (payload dgram)))
    as (q & Hq & He & Hqwf & Hqs); [done|done|done|done|].
  exists (mkIPv4Datagram h [_buffer q]). unfold parse. rewrite Hq. cbn [res_bind].
  assert (Hcat : concatenate [_buffer q] = concatenate (payload dgram)).
  { by rewrite concatenate_one. }
  cbn [header payload]. rewrite list_size_ok, Hcat by (rewrite Hcat; destruct Hh; lia).
  rewrite (payload_length_ok _ Hhok), (proj2 (Z.eqb_eq _ _)) by (unfold h; sponge_simpl; lia).
  cbn [negb]. unfold get_error. rewrite He. split; [done|]. split; [done|]. by split; [repeat constructor|].
Qed.

(** ** Properties *)

(** A datagram survives serialization: its header checksum verifies, and
    parsing the bytes gives the same header, but for the checksum field, and the
    same payload. *)
Theorem datagram_roundtrip dgram old :
  datagram_ok dgram ->
  exists bl, serialize dgram = Ok bl /\
  exists c out q,
    IPv4Header.parse (header old) (parser_of (of_string (concatenate bl))) =
      Ok (NoError, header dgram <| cksum := c |>, q) /\
    parse old (of_string (concatenate bl)) = Ok (NoError, out) /\
    header out = header dgram <| cksum := c |> /\ concatenate (payload out) = concatenate (payload dgram).
Proof.
  intros Hok. rewrite (dgram_serialize_parts _ Hok). eexists. split; [done|].
  pose proof Hok as (Hh & _ & Hl). destruct (header_checksum_ok _ Hh) as [Hc Hv].
  exists (header_checksum (header dgram)).
  assert (Hwf : buf_wf (of_string (concatenate (of_string (header_bytes
    (header dgram <| cksum := header_checksum (header dgram) |>)) :: payload dgram)))).
  { apply of_string_wf. rewrite concatenate_cons, len_app, of_string_str.
    pose proof (len_header_bytes _ (ip_header_ok_cksum _ _ Hh Hc)) as Hlen. sponge_simpl.
    destruct Hh. lia. }
  destruct (parse_of_serialized dgram old _ Hok Hwf eq_refl) as (out & Hp & Ho & _ & Hcat).
  exists out.
  destruct (ip_parse_serialized (header dgram <| cksum := header_checksum (header dgram) |>) (header old)
    (parser_of (of_string (concatenate (of_string (header_bytes
    (header dgram <| cksum := header_checksum (header dgram) |>)) :: payload dgram))))
    (concatenate (payload dgram))) as (q & Hq & _); [by apply ip_header_ok_cksum|done|done|done|].
  by exists q.
Qed.

Definition example_datagram : IPv4Datagram :=
  mkIPv4Datagram (default_header <| tot_len := 24 |> <| src := 3232235777 |> <| dst := 3232235778 |>)
    [of_string [x61]; of_string [x62; x63; x64]].

Lemma example_datagram_ok : datagram_ok example_datagram.
Proof.
  split; [split; vm_compute; repeat split; congruence|].
  split; [repeat constructor; vm_compute; congruence|reflexivity].
Qed.

Lemma datagram_roundtrip_witness :
  exists bl, serialize example_datagram = Ok bl /\
  exists c out q,
    IPv4Header.parse (header default_datagram) (parser_of (of_string (concatenate bl))) =
      Ok (NoError, header example_datagram <| cksum := c |>, q) /\
    parse default_datagram (of_string (concatenate bl)) = Ok (NoError, out) /\
    header out = header example_datagram <| cksum := c |> /\ concatenate (payload out) = [x61; x62; x63; x64].
Proof. apply (datagram_roundtrip example_datagram default_datagram example_datagram_ok). Defined.

(** [IPv4Datagram::parse] drops the result of [IPv4Header::parse]: a datagram
    with a wrong checksum and one of another IP version are accepted. *)
Theorem bad_headers_accepted :
  let packet first cks :=
    of_string ([first; x00; x00; x14] ++ repeat x00 4 ++ [x80; x06; cks; x00] ++ repeat x00 8) in
  (exists h q out, IPv4Header.parse default_header (parser_of (packet x45 x00)) = Ok (BadChecksum, h, q) /\
    parse default_datagram (packet x45 x00) = Ok (NoError, out)) /\
  (exists h q out, IPv4Header.parse default_header (parser_of (packet x65 x00)) = Ok (WrongIPVersion, h, q) /\
    parse default_datagram (packet x65 x00) = Ok (NoError, out)).
Proof. split; do 3 eexists; split; vm_compute; reflexivity. Qed.
