(* ===== verification/EthernetHeader.v ===== *)
(** * EthernetHeader

    Ethernet addresses and the 14-byte frame header
    (libsponge/tcp_helpers/ethernet_header.{hh,cc}).  The two printing functions
    are not modelled. *)

From stdpp Require Import base list numbers.
From Stdlib Require Import ZArith Lia Strings.Byte.
From S2P Require Import Prelude.
From S2P Require Import Buffer.
From S2P Require Import Parser.
#[local] Open Scope Z_scope.

(** [std::array<uint8_t, 6>] *)
Definition EthernetAddress : Type := list byte.
Definition ETHERNET_BROADCAST : EthernetAddress := [xff; xff; xff; xff; xff; xff].
Definition zero_address : EthernetAddress := [x00; x00; x00; x00; x00; x00].

Definition LENGTH : Z := 14.
Definition TYPE_IPv4 : Z := 2048.
Definition TYPE_ARP : Z := 2054.

Record EthernetHeader := mkEthernetHeader {
  dst : EthernetAddress;
  src : EthernetAddress;
  type : Z;
}.
#[global] Instance EthernetHeader_eta : RecordEta EthernetHeader := fun h => mkEthernetHeader (dst h) (src h) (type h).

(** [EthernetHeader _header{}] zeroes the members. *)
Definition default_header : EthernetHeader := mkEthernetHeader zero_address zero_address 0.

(** [for (auto &byte : address) byte = p.u8();] *)
Fixpoint parse_array (n : nat) (p : NetParser) : res (bytes * NetParser) :=
  match n with
  | O => Ok ([], p)
  | S n' =>
      let* (v, p) := parse_u8 p in
      let* (rest, p) := parse_array n' p in
      Ok (byte_of_Z v :: rest, p)
  end.

(** [for (auto &byte : address) NetUnparser::u8(ret, byte);] *)
Definition unparse_array (ret : bytes) (a : bytes) : bytes :=
  fold_left (fun ret b => unparse_u8 ret (byte_val b)) a ret.

Definition parse (h : EthernetHeader) (p : NetParser) : res (ParseResult * EthernetHeader * NetParser) :=
  if Buffer.size (_buffer p) <? LENGTH then Ok (PacketTooShort, h, p)
  else
    let* (dst, p) := parse_array 6 p in
    let* (src, p) := parse_array 6 p in
    let* (type, p) := parse_u16 p in
    Ok (get_error p, mkEthernetHeader dst src type, p).

Definition serialize (h : EthernetHeader) : bytes :=
  let ret := unparse_array [] (dst h) in
  let ret := unparse_array ret (src h) in
  unparse_u16 ret (type h).

(** ** Invariant *)

Definition address_ok (a : EthernetAddress) : Prop := length a = 6%nat.
Definition header_ok (h : EthernetHeader) : Prop :=
  address_ok (dst h) /\ address_ok (src h) /\ 0 <= type h < 65536.

(** ** Lemmas *)

Lemma unparse_array_app ret a : unparse_array ret a = ret ++ a.
Proof.
  unfold unparse_array. revert ret. induction a as [|b a IH]; intros ret; simpl; [by rewrite app_nil_r|].
  rewrite IH. unfold unparse_u8. rewrite _unparse_int_be, <- app_assoc. simpl. do 2 f_equal.
  rewrite Z.div_1_r. apply byte_of_Z_val.
Qed.

Lemma parse_array_ok p (a rest : bytes) n :
  parses p (a ++ rest) -> length a = n -> exists q, parse_array n p = Ok (a, q) /\ parses q rest.
Proof.
  intros Hp <-. revert p Hp. induction a as [|b a IH]; intros p Hp; [by exists p|]. cbn [parse_array length].
  destruct (_parse_int_ok 1 p [b] (a ++ rest)) as (q & Hq & Hq'); [done..|].
  unfold parse_u8. rewrite Hq. cbn [res_bind]. destruct (IH q Hq') as (r & -> & Hr). cbn [res_bind].
  exists r. split; [|done]. by rewrite be_val_cons, Z.mul_1_r, Z.add_0_r, byte_of_Z_val.
Qed.

(** Runs the next address of a parser. *)
Ltac parse_array_step Hlen :=
  match goal with
  | H : parses ?p (?a ++ ?rest) |- context [parse_array 6 ?p] =>
      let q := fresh "p" in let Hq := fresh "Hp" in let E := fresh "E" in
      destruct (parse_array_ok p a rest 6 H Hlen) as (q & E & Hq); rewrite E; clear E H; cbn [res_bind]
  end.

Lemma parse_array_total n p :
  buf_wf (_buffer p) -> exists a q, parse_array n p = Ok (a, q) /\ buf_wf (_buffer q) /\ length a = n.
Proof.
  revert p. induction n as [|n IH]; intros p Hwf; cbn [parse_array]; [by do 2 eexists|].
  unfold parse_u8. parse_total. destruct (IH _ Hp) as (a & q & -> & Hq & Ha). cbn [res_bind].
  do 2 eexists. split; [done|]. split; [done|]. simpl. lia.
Qed.

Lemma eth_serialize_bytes h : serialize h = dst h ++ src h ++ be_bytes 2 (type h).
Proof.
  unfold serialize. rewrite !unparse_array_app. unfold unparse_u16.
  by rewrite _unparse_int_be, app_nil_l, <- app_assoc.
Qed.

Lemma eth_parse_serialized h old p rest :
  header_ok h -> parses p (serialize h ++ rest) ->
  exists q, parse old p = Ok (NoError, h, q) /\ parses q rest.
Proof.
  intros (Hd & Hs & Ht) Hp. rewrite eth_serialize_bytes in Hp. unfold parse.
  rewrite (proj2 (Z.ltb_ge _ _)).
  2: { destruct Hp as (_ & _ & Hstr). unfold Buffer.size, len. rewrite Hstr, !length_app, be_bytes_length.
       unfold address_ok, LENGTH in *. lia. }
  rewrite <- !app_assoc in Hp.
  parse_array_step Hd. parse_array_step Hs. unfold parse_u16. parse_step. eexists. split; [|done].
  match goal with H : parses _ rest |- _ => destruct H as [He _] end.
  unfold get_error. rewrite He. by destruct h.
Qed.

Lemma eth_parse_no_throw h p : buf_wf (_buffer p) -> exists r h' q, parse h p = Ok (r, h', q) /\ buf_wf (_buffer q).
Proof.
  intros Hwf. unfold parse. case_bool; [by do 3 eexists|].
  destruct (parse_array_total 6 p Hwf) as (a & q & -> & Hq & _). cbn [res_bind].
  destruct (parse_array_total 6 q Hq) as (b & r & -> & Hr & _). cbn [res_bind].
  unfold parse_u16. parse_total. by do 3 eexists.
Qed.
