(* ===== verification/EthernetFrame.v ===== *)
(** * EthernetFrame

    An Ethernet header and its payload (libsponge/tcp_helpers/ethernet_frame.{hh,cc}). *)

From stdpp Require Import base list numbers.
From Stdlib Require Import ZArith Lia Strings.Byte.
From S2P Require Import Prelude.
From S2P Require Import Buffer.
From S2P Require Import Parser.
From S2P Require Import EthernetHeader.
#[local] Open Scope Z_scope.

Record EthernetFrame := mkEthernetFrame {
  header : EthernetHeader;
  payload : BufferList;
}.
#[global] Instance EthernetFrame_eta : RecordEta EthernetFrame := fun f => mkEthernetFrame (header f) (payload f).

Definition default_frame : EthernetFrame := mkEthernetFrame default_header [].

(** The result of [_header.parse(p)] is ignored. *)
Definition parse (frame : EthernetFrame) (buffer : Buffer) : res (ParseResult * EthernetFrame) :=
  let* (_, h, p) := EthernetHeader.parse (header frame) (parser_of buffer) in
  Ok (get_error p, mkEthernetFrame h [_buffer p]).

Definition serialize (frame : EthernetFrame) : BufferList :=
  append (append [] [of_string (EthernetHeader.serialize (header frame))]) (payload frame).

(** ** Lemmas *)

Lemma frame_parse_no_throw frame b : buf_wf b -> exists r f, parse frame b = Ok (r, f).
Proof.
  intros Hwf. unfold parse.
  destruct (eth_parse_no_throw (header frame) (parser_of b) Hwf) as (r & h & q & -> & _).
  by do 2 eexists.
Qed.

(** ** Properties *)

(** A frame survives serialization: parsing its bytes gives the same
    addresses, type and payload. *)
Theorem frame_roundtrip frame old :
  header_ok (header frame) -> len (concatenate (serialize frame)) < 18446744073709551616 ->
  exists out, parse old (of_string (concatenate (serialize frame))) = Ok (NoError, out) /\
    header out = header frame /\ concatenate (payload out) = concatenate (payload frame).
Proof.
  intros Hok Hl.
  destruct (eth_parse_serialized (header frame) (header old) (parser_of (of_string (concatenate (serialize frame))))
    (concatenate (payload frame)) Hok) as (q & Hq & He & _ & Hs); [by apply parses_of_string|].
  exists (mkEthernetFrame (header frame) [_buffer q]). unfold parse. rewrite Hq. cbn [res_bind].
  unfold get_error. rewrite He. split; [done|]. split; [done|].
  cbn [payload]. by rewrite concatenate_one.
Qed.

Lemma frame_roundtrip_witness :
  exists out, parse default_frame (of_string (concatenate (serialize
      (mkEthernetFrame (mkEthernetHeader ETHERNET_BROADCAST zero_address TYPE_ARP) [of_string [x01; x02]])))) =
    Ok (NoError, out) /\
    header out = mkEthernetHeader ETHERNET_BROADCAST zero_address TYPE_ARP /\ concatenate (payload out) = [x01; x02].
Proof.
  apply (frame_roundtrip
    (mkEthernetFrame (mkEthernetHeader ETHERNET_BROADCAST zero_address TYPE_ARP) [of_string [x01; x02]]) default_frame).
  - vm_compute. repeat split; congruence.
  - reflexivity.
Defined.

(** Every frame shorter than the 14-byte header is accepted with [NoError],
    with the header left as it was and the whole input as payload, although
    [EthernetHeader::parse] returned [PacketTooShort]. *)
Theorem short_frame_accepted frame (data : bytes) :
  len data < LENGTH ->
  EthernetHeader.parse (header frame) (parser_of (of_string data)) =
    Ok (PacketTooShort, header frame, parser_of (of_string data)) /\
  parse frame (of_string data) = Ok (NoError, mkEthernetFrame (header frame) [of_string data]).
Proof.
  intros Hl. assert (Hp : EthernetHeader.parse (header frame) (parser_of (of_string data)) =
    Ok (PacketTooShort, header frame, parser_of (of_string data))).
  { unfold EthernetHeader.parse. by rewrite (proj2 (Z.ltb_lt _ _)) by done. }
  split; [done|]. unfold parse. by rewrite Hp.
Qed.

Lemma short_frame_accepted_witness :
  parse default_frame (of_string [x01]) = Ok (NoError, mkEthernetFrame default_header [of_string [x01]]).
Proof. apply (short_frame_accepted default_frame [x01]). reflexivity. Defined.
