(* ===== verification/ARPMessage.v ===== *)
(** * ARPMessage

    ARP requests and replies for IPv4 over Ethernet
    (libsponge/tcp_helpers/arp_message.{hh,cc}).  The printing function is not
    modelled. *)

From stdpp Require Import base list numbers.
From Stdlib Require Import ZArith Lia Strings.Byte.
From S2P Require Import Prelude.
From S2P Require Import Buffer.
From S2P Require Import Parser.
From S2P Require Import EthernetHeader.
#[local] Open Scope Z_scope.

Definition LENGTH : Z := 28.
Definition TYPE_ETHERNET : Z := 1.
Definition OPCODE_REQUEST : Z := 1.
Definition OPCODE_REPLY : Z := 2.

Record ARPMessage := mkARPMessage {
  hardware_type : Z;
  protocol_type : Z;
  hardware_address_size : Z;
  protocol_address_size : Z;
  opcode : Z;
  sender_ethernet_address : EthernetAddress;
  sender_ip_address : Z;
  target_ethernet_address : EthernetAddress;
  target_ip_address : Z;
}.
#[global] Instance ARPMessage_eta : RecordEta ARPMessage := fun m =>
  mkARPMessage (hardware_type m) (protocol_type m) (hardware_address_size m) (protocol_address_size m)
    (opcode m) (sender_ethernet_address m) (sender_ip_address m) (target_ethernet_address m) (target_ip_address m).

(** The default member initializers. *)
Definition default_message : ARPMessage :=
  mkARPMessage TYPE_ETHERNET TYPE_IPv4 6 4 0 zero_address 0 zero_address 0.

Definition supported (m : ARPMessage) : bool :=
  (hardware_type m =? TYPE_ETHERNET) && (protocol_type m =? TYPE_IPv4) &&
  (hardware_address_size m =? 6) && (protocol_address_size m =? 4) &&
  ((opcode m =? OPCODE_REQUEST) || (opcode m =? OPCODE_REPLY)).

Definition parse (m : ARPMessage) (buffer : Buffer) : res (ParseResult * ARPMessage) :=
  let p := parser_of buffer in
  if Buffer.size (_buffer p) <? LENGTH then Ok (PacketTooShort, m)
  else
    let* (hardware_type, p) := parse_u16 p in
    let* (protocol_type, p) := parse_u16 p in
    let* (hardware_address_size, p) := parse_u8 p in
    let* (protocol_address_size, p) := parse_u8 p in
    let* (opcode, p) := parse_u16 p in
    let m := mkARPMessage hardware_type protocol_type hardware_address_size protocol_address_size opcode
      (sender_ethernet_address m) (sender_ip_address m) (target_ethernet_address m) (target_ip_address m) in
    if negb (supported m) then Ok (Unsupported, m)
    else
      let* (sender_eth, p) := parse_array 6 p in
      let* (sender_ip, p) := parse_u32 p in
      let* (target_eth, p) := parse_array 6 p in
      let* (target_ip, p) := parse_u32 p in
      Ok (get_error p, mkARPMessage hardware_type protocol_type hardware_address_size protocol_address_size opcode
        sender_eth sender_ip target_eth target_ip).

Definition serialize (m : ARPMessage) : res bytes :=
  if negb (supported m) then Throw runtime_error
  else
    let ret := unparse_u16 [] (hardware_type m) in
    let ret := unparse_u16 ret (protocol_type m) in
    let ret := unparse_u8 ret (hardware_address_size m) in
    let ret := unparse_u8 ret (protocol_address_size m) in
    let ret := unparse_u16 ret (opcode m) in
    let ret := unparse_array ret (sender_ethernet_address m) in
    let ret := unparse_u32 ret (sender_ip_address m) in
    let ret := unparse_array ret (target_ethernet_address m) in
    Ok (unparse_u32 ret (target_ip_address m)).

(** ** Invariant *)

Definition message_ok (m : ARPMessage) : Prop :=
  address_ok (sender_ethernet_address m) /\ 0 <= sender_ip_address m < 4294967296 /\
  address_ok (target_ethernet_address m) /\ 0 <= target_ip_address m < 4294967296.

(** ** Lemmas *)

Lemma supported_fields m :
  supported m = true ->
  hardware_type m = TYPE_ETHERNET /\ protocol_type m = TYPE_IPv4 /\ hardware_address_size m = 6 /\
  protocol_address_size m = 4 /\ (opcode m = OPCODE_REQUEST \/ opcode m = OPCODE_REPLY).
Proof.
  unfold supported. rewrite !andb_true_iff, orb_true_iff, !Z.eqb_eq. tauto.
Qed.

Definition message_bytes (m : ARPMessage) : bytes :=
  be_bytes 2 (hardware_type m) ++ be_bytes 2 (protocol_type m) ++ be_bytes 1 (hardware_address_size m) ++
  be_bytes 1 (protocol_address_size m) ++ be_bytes 2 (opcode m) ++ sender_ethernet_address m ++
  be_bytes 4 (sender_ip_address m) ++ target_ethernet_address m ++ be_bytes 4 (target_ip_address m).

Lemma arp_serialize_bytes m : supported m = true -> serialize m = Ok (message_bytes m).
Proof.
  intros Hs. unfold serialize. rewrite Hs. cbn [negb]. rewrite !unparse_array_app.
  unfold unparse_u16, unparse_u8, unparse_u32. rewrite !_unparse_int_be.
  unfold message_bytes. by rewrite app_nil_l, <- !app_assoc.
Qed.

Lemma len_message_bytes m : message_ok m -> len (message_bytes m) = LENGTH.
Proof.
  intros (Hs & _ & Ht & _). unfold message_bytes, len, address_ok in *.
  rewrite !length_app, !be_bytes_length, Hs, Ht. done.
Qed.

(** Parsing a buffer that starts with a serialized message; what follows it, the
    padding of a short frame, is ignored. *)
Lemma arp_parse_serialized m old b (rest : bytes) :
  supported m = true -> message_ok m -> buf_wf b -> str b = message_bytes m ++ rest ->
  parse old b = Ok (NoError, m).
Proof.
  intros Hsup Hok Hwf Hstr. pose proof (len_message_bytes m Hok) as Hlen. unfold parse.
  rewrite (proj2 (Z.ltb_ge _ _)).
  2: { simpl. unfold Buffer.size. rewrite Hstr, len_app, Hlen. pose proof (len_nonneg rest). lia. }
  assert (Hp : parses (parser_of b) (message_bytes m ++ rest)) by done.
  unfold message_bytes in Hp. rewrite <- !app_assoc in Hp. destruct Hok as (Hs & Hsi & Ht & Hti).
  pose proof (supported_fields m Hsup) as (H1 & H2 & H3 & H4 & H5).
  unfold OPCODE_REQUEST, OPCODE_REPLY, TYPE_ETHERNET, TYPE_IPv4 in *.
  unfold parse_u16, parse_u8, parse_u32. do 5 (parse_step).
  change (supported (mkARPMessage _ _ _ _ _ _ _ _ _)) with (supported m). rewrite Hsup. cbn [negb].
  parse_array_step Hs. parse_step. parse_array_step Ht. parse_step.
  match goal with H : parses _ rest |- _ => destruct H as [He _] end.
  unfold get_error. rewrite He. by destruct m.
Qed.

Lemma arp_parse_no_throw m b : buf_wf b -> exists r m', parse m b = Ok (r, m').
Proof.
  intros Hwf. unfold parse. case_bool; [by do 2 eexists|].
  assert (Hp : buf_wf (_buffer (parser_of b))) by done.
  unfold parse_u16, parse_u8, parse_u32. do 5 parse_total. case_bool; [by do 2 eexists|].
  destruct (parse_array_total 6 _ Hp4) as (a & q & -> & Hq & _). cbn [res_bind]. parse_total.
  destruct (parse_array_total 6 _ Hp5) as (c & r & -> & Hr & _). cbn [res_bind]. parse_total.
  by do 2 eexists.
Qed.

(** ** Properties *)

(** A supported ARP message survives serialization, whatever padding follows
    it, and serializing one that is not supported throws. *)
Theorem arp_roundtrip m old (padding : bytes) :
  message_ok m -> len padding < 65536 ->
  if supported m then
    exists s, serialize m = Ok s /\ len s = LENGTH /\ parse old (of_string (s ++ padding)) = Ok (NoError, m)
  else serialize m = Throw runtime_error.
Proof.
  intros Hok Hpad. destruct (supported m) eqn:Hs.
  - rewrite (arp_serialize_bytes _ Hs). eexists. split; [done|]. split; [by apply len_message_bytes|].
    apply (arp_parse_serialized m old _ padding); [done|done| |done].
    apply of_string_wf. rewrite len_app, (len_message_bytes _ Hok). unfold LENGTH. lia.
  - unfold serialize. by rewrite Hs.
Qed.

Definition example_message : ARPMessage :=
  default_message <| opcode := OPCODE_REQUEST |> <| sender_ip_address := 167772161 |>
    <| sender_ethernet_address := [x02; x00; x00; x00; x00; x01] |> <| target_ip_address := 167772162 |>.

Lemma arp_roundtrip_witness :
  exists s, serialize example_message = Ok s /\ len s = LENGTH /\
    parse default_message (of_string (s ++ [x00; x00])) = Ok (NoError, example_message).
Proof.
  apply (arp_roundtrip example_message default_message [x00; x00]).
  - vm_compute. repeat split; congruence.
  - reflexivity.
Defined.
