(* ===== verification/PacketText.v ===== *)
(** * Packets as text

    The printing functions of the packet formats (libsponge/tcp_helpers:
    ethernet_header.cc, arp_message.cc, ipv4_header.cc, tcp_header.cc) and the
    summaries of frames of apps/network_simulator.cc and apps/lab7.cc.  Streams keep
    [hex] once it is set. *)

From Stdlib Require Import Strings.String.
From stdpp Require Import base list numbers.
From Stdlib Require Import ZArith Lia Strings.Byte.
From S2P Require Import Prelude.
From S2P Require Import Text.
From S2P Require Import WrappingIntegers.
From S2P Require Import Buffer.
From S2P Require Import Parser.
From S2P Require Import TCPHeader.
From S2P Require Import TCPSegment.
From S2P Require Import IPv4Header.
From S2P Require Import IPv4Datagram.
From S2P Require Import EthernetHeader.
From S2P Require Import EthernetFrame.
From S2P Require Import ARPMessage.
#[local] Open Scope Z_scope.

(** [to_string(const EthernetAddress)] *)
Fixpoint mac_text (address : EthernetAddress) : bytes :=
  match address with
  | [] => []
  | [b] => pad x30 2 (hex (byte_val b))
  | b :: rest => pad x30 2 (hex (byte_val b)) ++ txt ":" ++ mac_text rest
  end.

Definition ethernet_text (h : EthernetHeader) : bytes :=
  txt "dst=" ++ mac_text (dst h) ++ txt ", src=" ++ mac_text (src h) ++ txt ", type=" ++
  (if type h =? TYPE_IPv4 then txt "IPv4"
   else if type h =? TYPE_ARP then txt "ARP"
   else txt "[unknown type " ++ hex (type h) ++ txt "!]").

Definition arp_text (m : ARPMessage) : bytes :=
  let opcode_str := txt "(unknown type)" in
  let opcode_str := if opcode m =? OPCODE_REQUEST then txt "REQUEST" else opcode_str in
  let opcode_str := if opcode m =? OPCODE_REPLY then txt "REPLY" else opcode_str in
  txt "opcode=" ++ opcode_str ++ txt ", sender=" ++ mac_text (sender_ethernet_address m) ++ txt "/" ++
  dotted (sender_ip_address m) ++ txt ", target=" ++ mac_text (target_ethernet_address m) ++ txt "/" ++
  dotted (target_ip_address m).

Definition line (name : String.string) (value : bytes) : bytes := txt name ++ value ++ [x0a].
Arguments line name%_string value.

Definition ipv4_text (h : IPv4Header) : bytes :=
  line "IP version: " (hex (ver h)) ++ line "IP hdr len: " (hex (hlen h)) ++ line "IP tos: " (hex (tos h)) ++
  line "IP dgram len: " (hex (tot_len h)) ++ line "IP id: " (hex (id h)) ++
  line "Flags: df: " (boolalpha (df h) ++ txt " mf: " ++ boolalpha (mf h)) ++
  line "Offset: " (hex (offset h)) ++ line "TTL: " (hex (ttl h)) ++ line "Protocol: " (hex (proto h)) ++
  line "Checksum: " (hex (IPv4Header.cksum h)) ++ line "Src addr: " (hex (IPv4Header.src h)) ++
  line "Dst addr: " (hex (IPv4Header.dst h)).

(** The length and the protocol are hexadecimal, a small TTL decimal. *)
Definition ipv4_summary (h : IPv4Header) : bytes :=
  txt "IPv" ++ hex (ver h) ++ txt ", len=" ++ hex (tot_len h) ++ txt ", protocol=" ++ hex (proto h) ++ txt ", " ++
  (if 10 <=? ttl h then [] else txt "ttl=" ++ to_string (ttl h) ++ txt ", ") ++
  txt "src=" ++ dotted (IPv4Header.src h) ++ txt ", dst=" ++ dotted (IPv4Header.dst h).

Definition tcp_text (h : TCPHeader) : bytes :=
  line "TCP source port: " (hex (sport h)) ++ line "TCP dest port: " (hex (dport h)) ++
  line "TCP seqno: " (hex (raw_value (seqno h))) ++ line "TCP ackno: " (hex (raw_value (ackno h))) ++
  line "TCP doff: " (hex (doff h)) ++
  line "Flags: urg: " (boolalpha (urg h) ++ txt " ack: " ++ boolalpha (ack h) ++ txt " psh: " ++ boolalpha (psh h) ++
    txt " rst: " ++ boolalpha (rst h) ++ txt " syn: " ++ boolalpha (syn h) ++ txt " fin: " ++ boolalpha (fin h)) ++
  line "TCP winsize: " (hex (win h)) ++ line "TCP cksum: " (hex (TCPHeader.cksum h)) ++ line "TCP uptr: " (hex (uptr h)).

Definition tcp_summary (h : TCPHeader) : bytes :=
  txt "Header(flags=" ++ (if syn h then txt "S" else []) ++ (if ack h then txt "A" else []) ++
  (if rst h then txt "R" else []) ++ (if fin h then txt "F" else []) ++ txt ",seqno=" ++ to_string (raw_value (seqno h)) ++
  txt ",ack=" ++ to_string (raw_value (ackno h)) ++ txt ",win=" ++ to_string (win h) ++ txt ")".

(** The ARP part of both summaries; a payload of several buffers throws. *)
Definition arp_summary (frame : EthernetFrame) : res bytes :=
  let* b := to_buffer (EthernetFrame.payload frame) in
  let* (r, arp) := ARPMessage.parse default_message b in
  Ok (if bool_decide (r = NoError) then txt " " ++ arp_text arp else txt " (bad ARP)").

(** [summary] of the network simulator *)
Definition summary (frame : EthernetFrame) : res bytes :=
  let ret := ethernet_text (EthernetFrame.header frame) in
  if type (EthernetFrame.header frame) =? TYPE_IPv4 then
    let* b := to_buffer (EthernetFrame.payload frame) in
    let* (r, dgram) := IPv4Datagram.parse default_datagram b in
    Ok (if bool_decide (r = NoError)
        then ret ++ txt " " ++ ipv4_summary (IPv4Datagram.header dgram) ++ txt " payload=" ++ [x22] ++
             concatenate (IPv4Datagram.payload dgram) ++ [x22]
        else ret ++ txt " (bad IPv4)")
  else if type (EthernetFrame.header frame) =? TYPE_ARP then
    let* a := arp_summary frame in Ok (ret ++ a)
  else Ok ret.

(** [summary] of lab7: TCP segments too, payloads concatenated first *)
Definition lab7_summary (frame : EthernetFrame) : res bytes :=
  let ret := ethernet_text (EthernetFrame.header frame) in
  if type (EthernetFrame.header frame) =? TYPE_IPv4 then
    let* (r, dgram) := IPv4Datagram.parse default_datagram (of_string (concatenate (EthernetFrame.payload frame))) in
    if bool_decide (r = NoError) then
      let h := IPv4Datagram.header dgram in
      let ret := ret ++ txt " " ++ ipv4_summary h in
      if proto h =? PROTO_TCP then
        let* (r, seg) := TCPSegment.parse default_segment (of_string (concatenate (IPv4Datagram.payload dgram))) (pseudo_cksum h) in
        Ok (if bool_decide (r = NoError) then ret ++ txt " " ++ tcp_summary (TCPSegment.header seg) else ret)
      else Ok ret
    else Ok (ret ++ txt " (bad IPv4)")
  else if type (EthernetFrame.header frame) =? TYPE_ARP then
    let* a := arp_summary frame in Ok (ret ++ a)
  else Ok ret.

(** ** Properties *)

(** Reads an address back, two digits for each byte. *)
Fixpoint read_mac (s : bytes) : option EthernetAddress :=
  match s with
  | [c1; c2] =>
      match digit_value c1, digit_value c2 with Some d1, Some d2 => Some [byte_of_Z (16 * d1 + d2)] | _, _ => None end
  | c1 :: c2 :: x3a :: rest =>
      match digit_value c1, digit_value c2 with
      | Some d1, Some d2 => cons (byte_of_Z (16 * d1 + d2)) <$> read_mac rest
      | _, _ => None
      end
  | _ => None
  end.

Lemma byte_text b : exists c1 c2 d1 d2, pad x30 2 (hex (byte_val b)) = [c1; c2] /\
  digit_value c1 = Some d1 /\ digit_value c2 = Some d2 /\ byte_of_Z (16 * d1 + d2) = b.
Proof.
  pose proof (byte_val_range b) as Hb. unfold hex, number. set (n := byte_val b) in *.
  pose proof (Z.div_mod n 16 ltac:(lia)). pose proof (Z.mod_pos_bound n 16 ltac:(lia)).
  change (digits 16 64 n []) with
    (if n <? 16 then [digit (n mod 16)] else digits 16 63 (n / 16) [digit (n mod 16)]).
  destruct (Z.ltb_spec n 16) as [Hlt|Hge].
  - exists x30, (digit (n mod 16)), 0, (n mod 16). rewrite digit_value_digit by lia. split_and!; try done.
    rewrite (Z.mod_small n) by lia. apply byte_of_Z_val.
  - change (digits 16 63 (n / 16) [digit (n mod 16)]) with
      (if n / 16 <? 16 then [digit ((n / 16) mod 16); digit (n mod 16)]
       else digits 16 62 (n / 16 / 16) [digit ((n / 16) mod 16); digit (n mod 16)]).
    rewrite (proj2 (Z.ltb_lt _ _)), (Z.mod_small (n / 16)) by lia.
    exists (digit (n / 16)), (digit (n mod 16)), (n / 16), (n mod 16). rewrite !digit_value_digit by lia. split_and!; try done.
    replace (16 * (n / 16) + n mod 16) with n by lia. apply byte_of_Z_val.
Qed.

(** The text of an Ethernet address determines it: reading back two hexadecimal
    digits for every byte gives the address. *)
Theorem mac_text_roundtrip a : address_ok a -> read_mac (mac_text a) = Some a.
Proof.
  intros Ha. assert (Hne : a <> []) by (by intros ->). clear Ha. induction a as [|b [|b' rest] IH]; [done| |].
  - destruct (byte_text b) as (c1 & c2 & d1 & d2 & E & H1 & H2 & H3). cbn [mac_text]. rewrite E. cbn [read_mac].
    by rewrite H1, H2, H3.
  - destruct (byte_text b) as (c1 & c2 & d1 & d2 & E & H1 & H2 & H3). specialize (IH ltac:(done)).
    change (mac_text (b :: b' :: rest)) with (pad x30 2 (hex (byte_val b)) ++ [x3a] ++ mac_text (b' :: rest)).
    rewrite E. cbn [app read_mac]. by rewrite H1, H2, H3, IH.
Qed.

Lemma mac_text_roundtrip_witness :
  mac_text [x02; x00; x0a; xff; x10; x9c] = txt "02:00:0a:ff:10:9c" /\
  read_mac (txt "02:00:0a:ff:10:9c") = Some [x02; x00; x0a; xff; x10; x9c].
Proof. split; [vm_compute; reflexivity|]. apply (mac_text_roundtrip [x02; x00; x0a; xff; x10; x9c]). reflexivity. Defined.
