(* ===== verification/TCPReceiver.v ===== *)
(** * TCPReceiver

    Turns sequence numbers into stream indices, feeds the reassembler and computes
    the acknowledgment number and the window (libsponge/tcp_receiver.{hh,cc}). *)

From stdpp Require Import base list numbers.
From Stdlib Require Import ZArith Lia Strings.Byte.
From S2P Require Import Prelude.
From S2P Require Import ByteStream.
From S2P Require Import StreamReassembler.
From S2P Require Import Reassembly.
From S2P Require Import WrappingIntegers.
From S2P Require Import Buffer.
From S2P Require Import TCPHeader.
From S2P Require Import TCPSegment.
#[local] Open Scope Z_scope.

Record TCPReceiver := mkTCPReceiver {
  _reassembler : StreamReassembler;
  _capacity : Z;
  _isn : WrappingInt32;
  _isn_set : bool;
}.
#[global] Instance TCPReceiver_eta : RecordEta TCPReceiver := fun r =>
  mkTCPReceiver (_reassembler r) (_capacity r) (_isn r) (_isn_set r).

Definition new (capacity : Z) : TCPReceiver :=
  mkTCPReceiver (StreamReassembler.new capacity) capacity (mkWrappingInt32 0) false.

Definition stream_out (r : TCPReceiver) : ByteStream := StreamReassembler.stream_out (_reassembler r).
Definition unassembled_bytes (r : TCPReceiver) : Z := StreamReassembler.unassembled_bytes (_reassembler r).

Definition segment_received (r : TCPReceiver) (seg : TCPSegment) : res TCPReceiver :=
  let data_seqno := raw_value (seqno (header seg)) in
  let '(r, data_seqno) :=
    if syn (header seg)
    then (r <| _isn := seqno (header seg) |> <| _isn_set := true |>, u32 (raw_value (seqno (header seg)) + 1))
    else (r, data_seqno) in
  if _isn_set r then
    let index := u64 (unwrap (mkWrappingInt32 data_seqno) (_isn r) (ByteStream.bytes_written (stream_out r)) - 1) in
    let* ra := StreamReassembler.push_substring (_reassembler r) (Buffer.copy (payload seg)) index
      (if fin (header seg) then true else false) in
    Ok (r <| _reassembler := ra |>)
  else Ok r.

Definition ackno (r : TCPReceiver) : option WrappingInt32 :=
  if negb (_isn_set r) then None
  else if ByteStream.input_ended (stream_out r)
  then Some (wrap (u64 (ByteStream.bytes_written (stream_out r) + 2)) (_isn r))
  else Some (wrap (u64 (ByteStream.bytes_written (stream_out r) + 1)) (_isn r)).

Definition window_size (r : TCPReceiver) : Z := ByteStream.remaining_capacity (stream_out r).

(** The reader takes [n] bytes of the output. *)
Definition read_out (r : TCPReceiver) (n : Z) : TCPReceiver :=
  r <| _reassembler := StreamReassembler.pop_output (_reassembler r) n |>.

(** ** Runs of the receiver *)

(** The payload of [seg] starts at index [i] of the stream of a peer with initial
    sequence number [isn], less than 2^31 away from the next expected byte. *)
Record placed (isn : WrappingInt32) (r : TCPReceiver) (seg : TCPSegment) (i : Z) : Prop := {
  seg_index : 0 <= i;
  seg_seqno : seqno (header seg) = (if syn (header seg) then isn else wrap (i + 1) isn);
  seg_syn : syn (header seg) = true -> i = 0;
  seg_near : Z.abs (i + 1 - ByteStream.bytes_written (stream_out r)) < 2147483648;
  seg_limit : i < 18446744073709551615;
}.

(** It holds bytes of the stream [s] inside the window; FIN marks the end of [s]. *)
Record valid_seg (s : source) (isn : WrappingInt32) (r : TCPReceiver) (seg : TCPSegment) (i : Z) : Prop := {
  seg_at : placed isn r seg i;
  seg_sub : valid_sub s (_reassembler r) (str (payload seg)) i (fin (header seg));
}.

(** [run s isn cap evs synced fin r]: the receiver [r] is reached from a new one by
    segments of [s] and reads.  [evs] are the substrings received and the reads,
    [synced] tells whether the SYN was received and [fin] whether the FIN was.
    Segments before the SYN and segments that start behind the window are ignored. *)
Inductive run (s : source) (isn : WrappingInt32) (cap : Z) : list event -> bool -> bool -> TCPReceiver -> Prop :=
| run_new :
    0 <= cap -> len s + cap + 2 < 18446744073709551616 -> wi_ok isn -> run s isn cap [] false false (new cap)
| run_ignored evs fn r seg r' :
    run s isn cap evs false fn r -> syn (header seg) = false -> segment_received r seg = Ok r' ->
    run s isn cap evs false fn r'
| run_segment evs synced fn r seg i r' :
    run s isn cap evs synced fn r -> synced || syn (header seg) = true -> valid_seg s isn r seg i ->
    segment_received r seg = Ok r' ->
    run s isn cap (evs ++ [Push (str (payload seg)) i (fin (header seg))]) true
      (fn || (fin (header seg) && (i <? window (_reassembler r)))) r'
| run_beyond evs fn r seg i r' :
    run s isn cap evs true fn r -> syn (header seg) = false -> placed isn r seg i -> window (_reassembler r) <= i ->
    segment_received r seg = Ok r' -> run s isn cap evs true fn r'
| run_read evs synced fn r n :
    run s isn cap evs synced fn r -> 0 <= n -> run s isn cap (evs ++ [Pop n]) synced fn (read_out r n).

(** ** Lemmas *)

Record tracks (s : source) (isn : WrappingInt32) (cap : Z) (evs : list event) (synced fn : bool)
    (q : Spec.fifo) (r : TCPReceiver) : Prop := {
  tr_abs : abstracts s cap evs fn q (_reassembler r);
  tr_synced : _isn_set r = synced;
  tr_isn : synced = true -> _isn r = isn;
  tr_ok : wi_ok isn;
  tr_len : len s + cap + 2 < 18446744073709551616;
}.

Lemma index_of_segment isn i w :
  wi_ok isn -> 0 <= i < 18446744073709551615 -> 0 <= w < 18446744073709551616 -> Z.abs (i + 1 - w) < 2147483648 ->
  u64 (unwrap (wrap (i + 1) isn) isn w - 1) = i.
Proof. intros. rewrite unwrap_wrap by (done || lia). rewrite u64_small; lia. Qed.

Lemma wrap_one isn : mkWrappingInt32 (u32 (raw_value isn + 1)) = wrap 1 isn.
Proof. unfold wrap, wi_add. by rewrite (u32_small 1). Qed.

Lemma written_range s isn cap evs synced fn q r :
  tracks s isn cap evs synced fn q r ->
  0 <= ByteStream.bytes_written (stream_out r) <= len s.
Proof.
  intros []. unfold stream_out. rewrite (abs_written _ _ _ _ _ _ tr_abs0).
  split; [apply len_nonneg|]. eapply sent_bound, tr_abs0.
Qed.

(** One accepted segment is one push at the index of its payload. *)
Lemma segment_push s isn cap evs synced fn q r seg i :
  tracks s isn cap evs synced fn q r -> synced || syn (header seg) = true -> placed isn r seg i ->
  segment_received r seg =
    let* ra := push_substring (_reassembler r) (str (payload seg)) i (fin (header seg)) in
    Ok (mkTCPReceiver ra (_capacity r) isn true).
Proof.
  intros T Hsyn V. pose proof (written_range _ _ _ _ _ _ _ _ T). pose proof (tr_len _ _ _ _ _ _ _ _ T).
  pose proof (ab_inv _ _ _ _ _ _ (tr_abs _ _ _ _ _ _ _ _ T)) as I. pose proof (inv_bound _ _ _ I).
  destruct V as [Hi0 Hq Hi Hn Hl]. pose proof (tr_ok _ _ _ _ _ _ _ _ T).
  assert (0 <= cap). { pose proof (ab_cap _ _ _ _ _ _ (tr_abs _ _ _ _ _ _ _ _ T)). pose proof (inv_out _ _ _ I) as []. lia. }
  pose proof (index_of_segment isn i (ByteStream.bytes_written (stream_out r))
    ltac:(done) ltac:(lia) ltac:(lia) ltac:(done)) as Hix.
  unfold segment_received. rewrite Hq. destruct (syn (header seg)); sponge_simpl.
  - rewrite (Hi eq_refl) in *. rewrite wrap_one. unfold stream_out in *. sponge_simpl. change (0 + 1) with 1 in Hix. rewrite Hix.
    unfold Buffer.copy. by destruct (fin (header seg)).
  - rewrite orb_false_r in Hsyn. subst synced.
    rewrite (tr_synced _ _ _ _ _ _ _ _ T), (tr_isn _ _ _ _ _ _ _ _ T eq_refl).
    change (mkWrappingInt32 (u32 (raw_value isn + u32 (i + 1)))) with (wrap (i + 1) isn). rewrite Hix.
    unfold Buffer.copy. by destruct (fin (header seg)).
Qed.

Lemma segment_tracks s isn cap evs synced fn q r seg i :
  tracks s isn cap evs synced fn q r -> synced || syn (header seg) = true -> valid_seg s isn r seg i ->
  exists q' r', segment_received r seg = Ok r' /\
    tracks s isn cap (evs ++ [Push (str (payload seg)) i (fin (header seg))]) true
      (fn || (fin (header seg) && (i <? window (_reassembler r)))) q' r' /\ Spec.taken q' = Spec.taken q.
Proof.
  intros T Hsyn V. rewrite (segment_push _ _ _ _ _ _ _ _ _ _ T Hsyn (seg_at _ _ _ _ _ V)).
  destruct (push_abstracts _ _ _ _ _ _ _ _ _ (tr_abs _ _ _ _ _ _ _ _ T) (seg_sub _ _ _ _ _ V))
    as (q' & ra & -> & A & Ht). exists q'. eexists. split; [done|]. split; [|done]. destruct T. by split.
Qed.

Lemma segment_beyond s isn cap evs fn q r seg i :
  tracks s isn cap evs true fn q r -> syn (header seg) = false -> placed isn r seg i ->
  window (_reassembler r) <= i -> segment_received r seg = Ok r.
Proof.
  intros T Hs V Hi. rewrite (segment_push _ _ _ _ _ _ _ _ _ _ T eq_refl V).
  rewrite (push_beyond _ _ _ _ _ _ (ab_inv _ _ _ _ _ _ (tr_abs _ _ _ _ _ _ _ _ T)) Hi). cbn [res_bind].
  pose proof (tr_synced _ _ _ _ _ _ _ _ T). pose proof (tr_isn _ _ _ _ _ _ _ _ T eq_refl).
  destruct r; simpl in *; by subst.
Qed.

Lemma segment_ignored r seg : _isn_set r = false -> syn (header seg) = false -> segment_received r seg = Ok r.
Proof. intros Hi Hs. unfold segment_received. by rewrite Hs, Hi. Qed.

Lemma run_tracks s isn cap evs synced fn r :
  run s isn cap evs synced fn r -> exists q, tracks s isn cap evs synced fn q r.
Proof.
  induction 1 as [|evs fn r seg r' _ [q T] Hs Hok|evs synced fn r seg i r' _ [q T] Hs V Hok|evs fn r seg i r' _ [q T] Hs V Hi Hok|evs synced fn r n _ [q T] Hn].
  - eexists. split; [by apply new_abstracts; lia|done..].
  - exists q. rewrite (segment_ignored _ _ (tr_synced _ _ _ _ _ _ _ _ T) Hs) in Hok. by injection Hok as <-.
  - destruct (segment_tracks _ _ _ _ _ _ _ _ _ _ T Hs V) as (q' & r1 & Hok' & T' & _).
    rewrite Hok in Hok'. injection Hok' as <-. eauto.
  - exists q. rewrite (segment_beyond _ _ _ _ _ _ _ _ _ T Hs V Hi) in Hok. by injection Hok as <-.
  - eexists. destruct T. split; [by apply pop_abstracts|done..].
Qed.

(** ** Properties *)

(** More received is more written. *)
Lemma tracks_mono s isn cap evs synced fn q r evs' synced' fn' q' r' :
  tracks s isn cap evs synced fn q r -> tracks s isn cap evs' synced' fn' q' r' ->
  (forall j, was_pushed evs j -> was_pushed evs' j) ->
  ByteStream.bytes_written (stream_out r) <= ByteStream.bytes_written (stream_out r').
Proof.
  intros T T' Hev. pose proof (tr_abs _ _ _ _ _ _ _ _ T) as A. pose proof (tr_abs _ _ _ _ _ _ _ _ T') as A'.
  pose proof (abs_not_received _ _ _ _ _ _ A') as Hn. rewrite (ab_received _ _ _ _ _ _ A') in Hn.
  unfold stream_out. rewrite (abs_written _ _ _ _ _ _ A), (abs_written _ _ _ _ _ _ A').
  pose proof (len_nonneg (Spec.sent q')).
  destruct (Z.le_gt_cases (len (Spec.sent q)) (len (Spec.sent q'))); [done|]. exfalso. apply Hn, Hev.
  apply (ab_received _ _ _ _ _ _ A). left. lia.
Qed.

(** A valid segment is taken in, up to its end when it starts at the next byte or before. *)
Lemma segment_advances s isn cap evs synced fn q r seg i :
  tracks s isn cap evs synced fn q r -> synced || syn (header seg) = true -> valid_seg s isn r seg i ->
  exists q' r', segment_received r seg = Ok r' /\
    tracks s isn cap (evs ++ [Push (str (payload seg)) i (fin (header seg))]) true
      (fn || (fin (header seg) && (i <? window (_reassembler r)))) q' r' /\ Spec.taken q' = Spec.taken q /\
    ByteStream.bytes_written (stream_out r) <= ByteStream.bytes_written (stream_out r') /\
    (i <= ByteStream.bytes_written (stream_out r) ->
      i + len (str (payload seg)) <= ByteStream.bytes_written (stream_out r')).
Proof.
  intros T Hs V. destruct (segment_tracks _ _ _ _ _ _ _ _ _ _ T Hs V) as (q' & r' & Hok & T' & Ht).
  exists q', r'. split; [done|]. split; [done|]. split; [done|].
  assert (Hle := tracks_mono _ _ _ _ _ _ _ _ _ _ _ _ _ T T' ltac:(intros; rewrite was_pushed_snoc; by left)).
  split; [done|]. pose proof (tr_abs _ _ _ _ _ _ _ _ T) as A. pose proof (tr_abs _ _ _ _ _ _ _ _ T') as A'.
  pose proof (abs_not_received _ _ _ _ _ _ A') as Hn. rewrite (ab_received _ _ _ _ _ _ A'), was_pushed_snoc in Hn.
  unfold stream_out in *. rewrite (abs_written _ _ _ _ _ _ A), (abs_written _ _ _ _ _ _ A') in *. intros Hi.
  destruct (Z.le_gt_cases (i + len (str (payload seg))) (len (Spec.sent q'))); [done|].
  exfalso. apply Hn. right. simpl. lia.
Qed.

(** What a receiver promises its peer: the sequence numbers it acknowledges. *)
Definition acked_up_to (s : source) (fn : bool) (r : TCPReceiver) : Z :=
  let w := ByteStream.bytes_written (stream_out r) in 1 + w + (if fn && (w =? len s) then 1 else 0).

Lemma tracks_ackno s isn cap evs synced fn q r :
  tracks s isn cap evs synced fn q r ->
  ackno r = (if synced then Some (wrap (acked_up_to s fn r) isn) else None).
Proof.
  intros T. pose proof (written_range _ _ _ _ _ _ _ _ T) as Hw. pose proof (tr_abs _ _ _ _ _ _ _ _ T) as A.
  pose proof (tr_len _ _ _ _ _ _ _ _ T). pose proof (abs_ended _ _ _ _ _ _ A) as He.
  rewrite <- (abs_written _ _ _ _ _ _ A) in He. pose proof (ab_cap _ _ _ _ _ _ A).
  pose proof (inv_out _ _ _ (ab_inv _ _ _ _ _ _ A)) as []. fold (stream_out r) in He.
  unfold ackno, acked_up_to. rewrite (tr_synced _ _ _ _ _ _ _ _ T). destruct synced; [|done]. cbn [negb].
  rewrite (tr_isn _ _ _ _ _ _ _ _ T eq_refl). set (w := ByteStream.bytes_written (stream_out r)) in *.
  destruct (ByteStream.input_ended (stream_out r)).
  - destruct (proj1 He eq_refl) as [-> ->]. rewrite Z.eqb_refl, u64_small by lia. simpl. do 2 f_equal. lia.
  - rewrite u64_small by lia. replace (fn && (w =? len s)) with false; [do 2 f_equal; lia|].
    symmetry. apply not_true_iff_false. rewrite andb_true_iff, Z.eqb_eq. intros ?%He. done.
Qed.

Lemma tracks_window s isn cap evs synced fn q r :
  tracks s isn cap evs synced fn q r ->
  window_size r = cap - (ByteStream.bytes_written (stream_out r) - ByteStream.bytes_read (stream_out r)).
Proof.
  intros T. pose proof (tr_abs _ _ _ _ _ _ _ _ T) as A. pose proof (tr_len _ _ _ _ _ _ _ _ T).
  pose proof (inv_out _ _ _ (ab_inv _ _ _ _ _ _ A)) as Ro. pose proof (ab_cap _ _ _ _ _ _ A). pose proof Ro as [].
  unfold stream_out. rewrite (abs_written _ _ _ _ _ _ A), (abs_read _ _ _ _ _ _ A).
  unfold window_size, ByteStream.remaining_capacity. pose proof (ByteStream.refines_buffer_len _ _ Ro) as Hb.
  unfold stream_out, StreamReassembler.stream_out. rewrite Hb, ref_cap, u64_small; [lia|].
  pose proof (len_nonneg (Spec.sent q)). lia.
Qed.


(** On every run, a valid segment is processed without exception or endless
    loop, and moves the acknowledgment number never backwards. *)
Theorem receiver_progress s isn cap evs synced fn r seg i :
  run s isn cap evs synced fn r -> synced || syn (header seg) = true -> valid_seg s isn r seg i ->
  exists r', segment_received r seg = Ok r' /\
    ByteStream.bytes_written (stream_out r) <= ByteStream.bytes_written (stream_out r') /\
    (i <= ByteStream.bytes_written (stream_out r) ->
      i + len (str (payload seg)) <= ByteStream.bytes_written (stream_out r')).
Proof.
  intros Hrun Hs V. destruct (run_tracks _ _ _ _ _ _ _ Hrun) as [q T].
  destruct (segment_advances _ _ _ _ _ _ _ _ _ _ T Hs V) as (q' & r' & Hok & _ & _ & Hle & Hi). eauto.
Qed.

(** ** Witnesses *)

Definition demo_isn : WrappingInt32 := mkWrappingInt32 4294967294.
Definition demo_seg (i : Z) (d : bytes) (sy fi : bool) : TCPSegment :=
  mkTCPSegment (TCPHeader.default_header <| seqno := if sy then demo_isn else wrap (i + 1) demo_isn |>
    <| syn := sy |> <| fin := fi |>) (of_string d).

Definition demo0 : TCPReceiver := new 6.
Definition demo1 : TCPReceiver := res_or (segment_received demo0 (demo_seg 0 [] true false)) demo0.

Lemma demo_run1 : run abcdef_marked demo_isn 6 [Push [] 0 false] true false demo1.
Proof.
  apply (run_segment abcdef_marked demo_isn 6 [] false false demo0 (demo_seg 0 [] true false) 0).
  - apply run_new; vm_compute; repeat split; congruence.
  - reflexivity.
  - split; [by split|]. split; [lia|by left|done|done].
  - vm_compute. reflexivity.
Qed.

Lemma demo_valid2 : valid_seg abcdef_marked demo_isn demo1 (demo_seg 3 [x64; x65; x66] false true) 3.
Proof. split; [by split|]. split; [lia|right; vm_compute; repeat split; congruence|done|done]. Qed.


Lemma receiver_progress_witness :
  exists r', segment_received demo1 (demo_seg 3 [x64; x65; x66] false true) = Ok r' /\
    0 <= ByteStream.bytes_written (stream_out r').
Proof.
  destruct (receiver_progress abcdef_marked demo_isn 6 [Push [] 0 false] true false demo1
    (demo_seg 3 [x64; x65; x66] false true) 3 demo_run1 eq_refl demo_valid2) as (r' & H & Hw & _).
  exists r'. split; [exact H|exact Hw].
Defined.
