(* ===== verification/TCPConfig.v ===== *)
(** * TCPConfig

    The constants and the configuration record of a connection
    (libsponge/tcp_helpers/tcp_config.hh). *)

From stdpp Require Import base option numbers.
From Stdlib Require Import ZArith.
From S2P Require Import Prelude.
From S2P Require Import WrappingIntegers.
#[local] Open Scope Z_scope.

Definition DEFAULT_CAPACITY : Z := 64000.
Definition MAX_PAYLOAD_SIZE : Z := 1000.
Definition TIMEOUT_DFLT : Z := 1000.
Definition MAX_RETX_ATTEMPTS : Z := 8.

Record TCPConfig := mkTCPConfig {
  rt_timeout : Z;
  recv_capacity : Z;
  send_capacity : Z;
  fixed_isn : option WrappingInt32;
}.

Definition default_config : TCPConfig := mkTCPConfig TIMEOUT_DFLT DEFAULT_CAPACITY DEFAULT_CAPACITY None.
