(* ===== verification/TCPSender.v ===== *)
(** * TCPSender: the model

    Cuts the outgoing stream into segments, keeps the ones in flight and
    retransmits them (libsponge/tcp_sender.{hh,cc}).  [_segments_out] is a queue,
    oldest first; [_outstanding_segs] is a [std::map] from the absolute sequence
    number of a segment to the segment.  The commented-out debugging output of
    [fill_window] is left out. *)

From stdpp Require Import base list numbers option.
From Stdlib Require Import ZArith Lia Strings.Byte.
From S2P Require Import Prelude.
From S2P Require Import OMap.
From S2P Require Import ByteStream.
From S2P Require Import WrappingIntegers.
From S2P Require Import Buffer.
From S2P Require Import TCPHeader.
From S2P Require Import TCPSegment.
From S2P Require Import TCPConfig.
#[local] Open Scope Z_scope.

Record TCPSender := mkTCPSender {
  _isn : WrappingInt32;
  _segments_out : list TCPSegment;
  _initial_retransmission_timeout : Z;
  _stream : ByteStream;
  _next_seqno : Z;
  _outstanding_segs : list (Z * TCPSegment);
  _win_size : Z;
  _ackno : WrappingInt32;
  _rx_time_left : Z;
  timer_running : bool;
  _rx_times : Z;
  _zero_win_seg : TCPSegment;
  _zero_win_seg_send : bool;
  _zero_win_seg_seq : Z;
}.
#[global] Instance TCPSender_eta : RecordEta TCPSender := fun s =>
  mkTCPSender (_isn s) (_segments_out s) (_initial_retransmission_timeout s) (_stream s) (_next_seqno s)
    (_outstanding_segs s) (_win_size s) (_ackno s) (_rx_time_left s) (timer_running s) (_rx_times s)
    (_zero_win_seg s) (_zero_win_seg_send s) (_zero_win_seg_seq s).

(** The constructor; [random] is what [random_device()()] returns. *)
Definition new (capacity retx_timeout : Z) (fixed_isn : option WrappingInt32) (random : Z) : TCPSender :=
  {| _isn := default (mkWrappingInt32 random) fixed_isn;
     _segments_out := [];
     _initial_retransmission_timeout := retx_timeout;
     _stream := ByteStream.new capacity;
     _next_seqno := 0;
     _outstanding_segs := [];
     _win_size := 0;
     _ackno := mkWrappingInt32 0;
     _rx_time_left := retx_timeout;
     timer_running := false;
     _rx_times := 0;
     _zero_win_seg := default_segment;
     _zero_win_seg_send := false;
     _zero_win_seg_seq := 0 |}.

Definition get_zero_seg_send (s : TCPSender) : bool := _zero_win_seg_send s.
Definition stream_in (s : TCPSender) : ByteStream := _stream s.
Definition segments_out (s : TCPSender) : list TCPSegment := _segments_out s.
Definition next_seqno_absolute (s : TCPSender) : Z := _next_seqno s.
Definition next_seqno (s : TCPSender) : WrappingInt32 := wrap (_next_seqno s) (_isn s).
Definition consecutive_retransmissions (s : TCPSender) : Z := u32 (_rx_times s).

Definition bytes_in_flight (s : TCPSender) : Z :=
  fold_left (fun total p => u64 (total + length_in_sequence_space p.2)) (_outstanding_segs s) 0.

(** [if (!timer_running) { timer_running = true; _rx_time_left = _initial_retransmission_timeout; }] *)
Definition start_timer (s : TCPSender) : TCPSender :=
  if negb (timer_running s)
  then s <| timer_running := true |> <| _rx_time_left := _initial_retransmission_timeout s |>
  else s.

(** [_segments_out.push(seg); _outstanding_segs[_next_seqno] = seg;
    _next_seqno += seg.length_in_sequence_space();] and the start of the timer. *)
Definition send_new (s : TCPSender) (seg : TCPSegment) : TCPSender :=
  let s := s <| _segments_out := _segments_out s ++ [seg] |> in
  let s := s <| _outstanding_segs := OMap.assign Z.ltb (_next_seqno s) seg (_outstanding_segs s) |> in
  let s := s <| _next_seqno := u64 (_next_seqno s + length_in_sequence_space seg) |> in
  start_timer s.

(** The [while] loop of [fill_window].  Every iteration takes bytes of the stream,
    so there are at most as many as buffered bytes. *)
Fixpoint fill_loop (fuel : nat) (s : TCPSender) : res TCPSender :=
  if negb (ByteStream.buffer_empty (stream_in s)) && (bytes_in_flight s <? _win_size s) then
    match fuel with
    | O => Throw NoFuel
    | S fuel' =>
        let transfer_size := u16 (if u64 (_win_size s - bytes_in_flight s) <? MAX_PAYLOAD_SIZE
                                  then u64 (_win_size s - bytes_in_flight s) else MAX_PAYLOAD_SIZE) in
        let '(stream, d) := ByteStream.read (_stream s) transfer_size in
        let s := s <| _stream := stream |> in
        let seg := default_segment in
        let seg := seg <| header := header seg <| seqno := next_seqno s |> |> in
        let seg := seg <| payload := of_string d |> in
        let seg := if (u64 (bytes_in_flight s + length_in_sequence_space seg) <? _win_size s)
                      && ByteStream.eof (stream_in s)
                   then seg <| header := header seg <| fin := true |> |> else seg in
        fill_loop fuel' (send_new s seg)
    end
  else Ok s.

(** [_zero_win_seg] is sent: the probe of a closed window. *)
Definition send_probe (s : TCPSender) : TCPSender :=
  let s := s <| _zero_win_seg_seq := next_seqno_absolute s |> in
  let s := s <| _next_seqno := u64 (_next_seqno s + length_in_sequence_space (_zero_win_seg s)) |> in
  let s := s <| _segments_out := _segments_out s ++ [_zero_win_seg s] |> in
  start_timer s.

Definition fill_window (s : TCPSender) : res TCPSender :=
  if next_seqno_absolute s =? 0 then
    let seg := default_segment in
    let seg := seg <| header := header seg <| syn := true |> <| seqno := _isn s |> |> in
    Ok (send_new s seg)
  else if (bytes_in_flight s <? _win_size s) && negb (_zero_win_seg_send s) then
    let s :=
      if ByteStream.eof (stream_in s) && (next_seqno_absolute s <? u64 (ByteStream.bytes_written (stream_in s) + 2))
      then
        let seg := default_segment in
        let seg := seg <| header := header seg <| seqno := next_seqno s |> <| fin := true |> |> in
        send_new s seg
      else s in
    fill_loop (length (ByteStream._buffer (stream_in s))) s
  else if (_win_size s =? 0) && (bytes_in_flight s <? next_seqno_absolute s) then
    let s :=
      if negb (ByteStream.buffer_empty (stream_in s)) && negb (_zero_win_seg_send s) then
        let s := s <| _zero_win_seg_send := true |> in
        let '(stream, d) := ByteStream.read (_stream s) 1 in
        let z := _zero_win_seg s in
        let z := z <| header := header z <| seqno := next_seqno s |> |> in
        let z := z <| payload := of_string d |> in
        send_probe (s <| _stream := stream |> <| _zero_win_seg := z |>)
      else s in
    let s :=
      if ByteStream.eof (stream_in s) && negb (_zero_win_seg_send s) then
        let s := s <| _zero_win_seg_send := true |> in
        let z := _zero_win_seg s in
        let z := z <| header := header z <| seqno := next_seqno s |> <| fin := true |> |> in
        let z := z <| payload := of_string [] |> in
        send_probe (s <| _zero_win_seg := z |>)
      else s in
    Ok s
  else Ok s.

(** The loop of [ack_received] over the segments in flight. *)
Fixpoint drop_acked (ack_absolute_seqno : Z) (m : list (Z * TCPSegment)) : list (Z * TCPSegment) :=
  match m with
  | [] => []
  | (k, seg) :: m' =>
      if u64 (length_in_sequence_space seg + k - 1) <? ack_absolute_seqno then drop_acked ack_absolute_seqno m'
      else if ack_absolute_seqno <=? k then m
      else (k, seg) :: drop_acked ack_absolute_seqno m'
  end.

(** The statements of [ack_received] behind the computation of the absolute number:
    the probe is acknowledged; *)
Definition ack_probe (s : TCPSender) (ack_absolute_seqno : Z) : TCPSender :=
  if _zero_win_seg_seq s <? ack_absolute_seqno then s <| _zero_win_seg_send := false |> else s.

(** the acknowledged segments are dropped; *)
Definition ack_segments (s : TCPSender) (ack_absolute_seqno : Z) : TCPSender :=
  s <| _outstanding_segs := drop_acked ack_absolute_seqno (_outstanding_segs s) |>.

(** the timer stops when nothing is in flight; *)
Definition ack_stop_timer (s : TCPSender) : TCPSender :=
  if (match _outstanding_segs s with [] => true | _ => false end) && negb (_zero_win_seg_send s)
  then s <| timer_running := false |> else s.

(** a new acknowledgment number resets the timeout.  (Shifting by 32 or more is
    undefined in the code and does not happen below 32 retransmissions.) *)
Definition ack_reset_timeout (s : TCPSender) (ackno : WrappingInt32) : TCPSender :=
  if wi_neqb (_ackno s) ackno then
    let rto := Z.shiftr (_initial_retransmission_timeout s) (_rx_times s) in
    s <| _initial_retransmission_timeout := rto |> <| _rx_times := 0 |> <| _rx_time_left := rto |>
  else s.

Definition ack_received (s : TCPSender) (ackno : WrappingInt32) (window_size : Z) : TCPSender :=
  let ack_absolute_seqno := unwrap ackno (_isn s) (_next_seqno s) in
  if (_next_seqno s <? ack_absolute_seqno) && (ack_absolute_seqno <? 4294967296) then s
  else
    let ack_absolute_seqno :=
      if _next_seqno s <? ack_absolute_seqno then ack_absolute_seqno - 4294967296 else ack_absolute_seqno in
    let s := ack_probe s ack_absolute_seqno in
    let s := ack_segments s ack_absolute_seqno in
    let s := ack_stop_timer s in
    let s := ack_reset_timeout s ackno in
    s <| _win_size := window_size |> <| _ackno := ackno |>.

(** [_rx_time_left > ms ? _rx_time_left - ms : 0] *)
Definition time_left_after (s : TCPSender) (ms : Z) : Z :=
  if ms <? _rx_time_left s then _rx_time_left s - ms else 0.

(** [segments_out().push(seg); timer_running = true; _rx_time_left = _initial_retransmission_timeout;] *)
Definition resend (s : TCPSender) (seg : TCPSegment) : TCPSender :=
  s <| _segments_out := _segments_out s ++ [seg] |>
    <| timer_running := true |>
    <| _rx_time_left := _initial_retransmission_timeout s |>.

(** The exponential backoff, not applied while the window is closed. *)
Definition back_off (s : TCPSender) : TCPSender :=
  if negb (_win_size s =? 0)
     || ((0 <? next_seqno_absolute s) && (next_seqno_absolute s =? bytes_in_flight s))
  then s <| _rx_times := u64 (_rx_times s + 1) |>
         <| _initial_retransmission_timeout := u32 (_initial_retransmission_timeout s * 2) |>
  else s.

Definition tick (s : TCPSender) (ms_since_last_tick : Z) : TCPSender :=
  if _zero_win_seg_send s then
    let s := s <| _rx_time_left := time_left_after s ms_since_last_tick |> in
    if _rx_time_left s =? 0 then resend s (_zero_win_seg s) else s
  else
    match _outstanding_segs s with
    | [] => s <| timer_running := false |>
    | (_, first) :: _ =>
        if negb (timer_running s) then s <| timer_running := false |>
        else
          let s := s <| _rx_time_left := time_left_after s ms_since_last_tick |> in
          if _rx_time_left s =? 0 then resend (back_off s) first else s
    end.

Definition send_empty_segment (s : TCPSender) : TCPSender :=
  let seg := default_segment in
  let seg := seg <| header := header seg <| seqno := next_seqno s |> |> in
  s <| _segments_out := _segments_out s ++ [seg] |>.
