(* ===== verification/Sending.v ===== *)
(** * TCPSender: the segments sent are the stream

    The invariant of the sender against the abstract stream it reads from
    ([ByteStream.Spec.fifo]): every segment in flight or queued carries the bytes
    of the stream its sequence number says, the next sequence number counts the
    SYN, the bytes taken and the FIN, and the segments in flight are ordered and
    disjoint.  The theorems on windows, acknowledgments and timers follow. *)

From stdpp Require Import base list numbers option.
From Stdlib Require Import ZArith Lia Strings.Byte.
From S2P Require Import Prelude.
From S2P Require Import OMap.
From S2P Require Import ByteStream.
From S2P Require Import WrappingIntegers.
From S2P Require Import Buffer.
From S2P Require Import TCPHeader.
From S2P Require Import TCPSegment.
From S2P Require Import TCPConfig.
From S2P Require Import TCPSender.
#[local] Open Scope Z_scope.

(** ** The invariant *)

(** [carries q isn k seg]: the segment [seg] of absolute sequence number [k] holds
    bytes taken from the stream [q], and FIN only at its end. *)
Record carries (q : Spec.fifo) (isn : WrappingInt32) (k : Z) (seg : TCPSegment) : Prop := {
  c_seqno : seqno (header seg) = wrap k isn;
  c_size : len (str (payload seg)) <= MAX_PAYLOAD_SIZE;
  c_data : if syn (header seg) then k = 0 /\ str (payload seg) = [] /\ fin (header seg) = false
           else 1 <= k /\ k - 1 + len (str (payload seg)) <= Spec.taken q /\
                str (payload seg) = slice (Spec.sent q) (k - 1) (len (str (payload seg)));
  c_fin : fin (header seg) = true ->
          Spec.closed q = true /\ k - 1 + len (str (payload seg)) = len (Spec.sent q);
}.

(** An empty segment, a pure acknowledgment. *)
Record pure_ack (isn : WrappingInt32) (k : Z) (seg : TCPSegment) : Prop := {
  p_seqno : seqno (header seg) = wrap k isn;
  p_data : str (payload seg) = [];
  p_flags : syn (header seg) = false /\ fin (header seg) = false;
}.

(** The segments in flight between the sequence numbers [lo] and [hi]. *)
Fixpoint in_flight (q : Spec.fifo) (isn : WrappingInt32) (lo hi : Z) (m : list (Z * TCPSegment)) : Prop :=
  match m with
  | [] => lo <= hi
  | (k, seg) :: m' =>
      lo <= k /\ 1 <= length_in_sequence_space seg /\ carries q isn k seg /\
      in_flight q isn (k + length_in_sequence_space seg) hi m'
  end.

(** The sequence number behind everything sent: SYN, the bytes taken, FIN. *)
Definition sent_up_to (q : Spec.fifo) (fins : bool) : Z := 1 + Spec.taken q + (if fins then 1 else 0).

Record sender_ok (q : Spec.fifo) (fins : bool) (s : TCPSender) : Prop := {
  so_stream : ByteStream.refines q (_stream s);
  so_bound : len (Spec.sent q) + 2 < 18446744073709551616;
  so_isn : wi_ok (_isn s);
  so_start : _next_seqno s = 0 -> Spec.taken q = 0 /\ fins = false /\ _zero_win_seg_send s = false;
  so_next : _next_seqno s <> 0 -> _next_seqno s = sent_up_to q fins;
  so_fins : fins = true -> Spec.closed q = true /\ Spec.taken q = len (Spec.sent q);
  so_flight : in_flight q (_isn s) 0 (_next_seqno s) (_outstanding_segs s);
  so_win : 0 <= _win_size s < 65536;
  so_probe_header : syn (header (_zero_win_seg s)) = false /\
                    (fin (header (_zero_win_seg s)) = true -> fins = true);
  so_probe : _zero_win_seg_send s = true -> carries q (_isn s) (_zero_win_seg_seq s) (_zero_win_seg s) /\
             _zero_win_seg_seq s + length_in_sequence_space (_zero_win_seg s) <= _next_seqno s;
  so_queue : Forall (fun seg => exists k, 0 <= k <= _next_seqno s /\
               (carries q (_isn s) k seg \/ pure_ack (_isn s) k seg)) (_segments_out s);
}.

(** ** Growth of the stream *)

(** [q'] is [q] after more writes, reads and possibly its end. *)
Record grows (q q' : Spec.fifo) : Prop := {
  g_sent : exists more, Spec.sent q' = Spec.sent q ++ more /\ (Spec.closed q = true -> more = []);
  g_taken : Spec.taken q <= Spec.taken q';
  g_closed : Spec.closed q = true -> Spec.closed q' = true;
}.

Lemma grows_refl q : grows q q.
Proof. split; [exists []; by rewrite app_nil_r|done|done]. Qed.

Lemma slice_grows (s more : bytes) i n : 0 <= i -> 0 <= n -> i + n <= len s -> slice (s ++ more) i n = slice s i n.
Proof.
  intros. unfold slice. rewrite drop_app_le by (unfold len in *; lia).
  rewrite take_app_le; [done|]. rewrite length_drop. unfold len in *. lia.
Qed.

Lemma carries_grows q q' isn k seg :
  grows q q' -> Spec.taken q <= len (Spec.sent q) -> carries q isn k seg -> carries q' isn k seg.
Proof.
  intros [(more & Hs & Hm) Ht Hc] Htk [H1 H2 H3 H4]. pose proof (len_nonneg (str (payload seg))). split; try done.
  - destruct (syn (header seg)); [done|]. destruct H3 as (Hk & Hl & Hd). split; [done|]. split; [lia|].
    rewrite Hs, slice_grows by lia. done.
  - intros Hf. destruct (H4 Hf) as [Hcl Hl]. rewrite Hs, (Hm Hcl), app_nil_r. auto.
Qed.

Lemma in_flight_grows q q' isn lo hi m :
  grows q q' -> Spec.taken q <= len (Spec.sent q) -> in_flight q isn lo hi m -> in_flight q' isn lo hi m.
Proof.
  intros G Ht. revert lo. induction m as [|[k seg] m IH]; intros lo; simpl; [done|].
  intros (? & ? & ? & ?). split_and!; auto. by eapply carries_grows.
Qed.

Lemma grows_pop q n : 0 <= n -> Spec.taken q <= len (Spec.sent q) -> grows q (Spec.pop q n).
Proof. intros. split; simpl; [exists []; by rewrite app_nil_r|lia|done]. Qed.

Lemma grows_close q : grows q (Spec.close q).
Proof. split; simpl; [exists []; by rewrite app_nil_r|lia|done]. Qed.

Lemma grows_push q d : Spec.closed q = false -> grows q (Spec.push q d).
Proof. intros Hc. split; simpl; [|lia|done]. eexists. split; [done|]. by rewrite Hc. Qed.

(** ** Lemmas on the segments in flight *)

Lemma carries_length q isn k seg :
  carries q isn k seg ->
  length_in_sequence_space seg =
    len (str (payload seg)) + (if syn (header seg) then 1 else 0) + (if fin (header seg) then 1 else 0).
Proof. intros []. apply length_in_sequence_space_spec. unfold MAX_PAYLOAD_SIZE in *. lia. Qed.

Lemma in_flight_bounds q isn lo hi m :
  in_flight q isn lo hi m -> lo + OMap.total length_in_sequence_space m <= hi.
Proof.
  revert lo. induction m as [|[k seg] m IH]; intros lo; simpl; [lia|].
  intros (? & ? & _ & H). apply IH in H. lia.
Qed.

Lemma in_flight_hi q isn lo hi hi' m : hi <= hi' -> in_flight q isn lo hi m -> in_flight q isn lo hi' m.
Proof.
  intros Hh. revert lo. induction m as [|[k seg] m IH]; intros lo; simpl; [lia|].
  intros (? & ? & ? & ?). auto.
Qed.

Lemma in_flight_lo q isn lo lo' hi m : lo' <= lo -> in_flight q isn lo hi m -> in_flight q isn lo' hi m.
Proof. destruct m as [|[k seg] m]; simpl; [lia|]. intros ? (? & ? & ? & ?). split_and!; auto. lia. Qed.

(** The next sequence number is behind all keys: assigning it appends. *)
Lemma in_flight_assign q isn lo hi m seg :
  in_flight q isn lo hi m -> OMap.assign Z.ltb hi seg m = m ++ [(hi, seg)].
Proof.
  revert lo. induction m as [|[k sg] m IH]; intros lo; simpl; [done|]. intros (? & ? & _ & H).
  pose proof (in_flight_bounds _ _ _ _ _ H) as Hb.
  assert (0 <= OMap.total length_in_sequence_space m).
  { apply OMap.total_nonneg. intros v. apply u64_range. }
  destruct (Z.eqb_spec hi k); [lia|]. destruct (Z.ltb_spec hi k); [lia|]. f_equal. by eapply IH.
Qed.

Lemma in_flight_snoc q isn lo hi m seg :
  in_flight q isn lo hi m -> 1 <= length_in_sequence_space seg -> carries q isn hi seg ->
  in_flight q isn lo (hi + length_in_sequence_space seg) (m ++ [(hi, seg)]).
Proof.
  revert lo. induction m as [|[k sg] m IH]; intros lo; simpl; [intros; split_and!; lia || done|].
  intros (? & ? & ? & ?) ? ?. split_and!; auto.
Qed.

Lemma total_snoc {V} (f : V -> Z) m k v : OMap.total f (m ++ [(k, v)]) = OMap.total f m + f v.
Proof. induction m as [|[k' v'] m IH]; simpl; lia. Qed.

Lemma flight_fold acc m :
  0 <= acc -> acc + OMap.total length_in_sequence_space m < 18446744073709551616 ->
  fold_left (fun total p => u64 (total + length_in_sequence_space p.2)) m acc =
    acc + OMap.total length_in_sequence_space m.
Proof.
  revert acc. induction m as [|[k seg] m IH]; intros acc H0 H; simpl in *; [lia|].
  assert (0 <= OMap.total length_in_sequence_space m) by (apply OMap.total_nonneg; intros; apply u64_range).
  assert (0 <= length_in_sequence_space seg) by apply u64_range.
  rewrite u64_small by lia. rewrite IH by lia. lia.
Qed.

Section invariant.
Context (q : Spec.fifo) (fins : bool) (s : TCPSender) (Ok_s : sender_ok q fins s).

Lemma sender_taken : 0 <= Spec.taken q <= len (Spec.sent q).
Proof. exact (ref_taken _ _ (so_stream _ _ _ Ok_s)). Qed.

Lemma next_seqno_range : 0 <= _next_seqno s <= len (Spec.sent q) + 2.
Proof.
  pose proof sender_taken. pose proof (so_next _ _ _ Ok_s) as Hn. unfold sent_up_to in Hn.
  destruct (Z.eq_dec (_next_seqno s) 0); [lia|]. destruct fins; lia.
Qed.

Lemma flight_total : bytes_in_flight s = OMap.total length_in_sequence_space (_outstanding_segs s).
Proof.
  pose proof (in_flight_bounds _ _ _ _ _ (so_flight _ _ _ Ok_s)). pose proof next_seqno_range.
  pose proof (so_bound _ _ _ Ok_s). unfold bytes_in_flight. rewrite flight_fold; lia.
Qed.

Lemma flight_range : 0 <= bytes_in_flight s <= _next_seqno s.
Proof.
  rewrite flight_total. pose proof (in_flight_bounds _ _ _ _ _ (so_flight _ _ _ Ok_s)).
  split; [apply OMap.total_nonneg; intros; apply u64_range|lia].
Qed.

Lemma sender_eof : ByteStream.eof (stream_in s) = Spec.at_end q.
Proof. apply refines_eof, Ok_s. Qed.

Lemma sender_written : ByteStream.bytes_written (stream_in s) = len (Spec.sent q).
Proof.
  unfold ByteStream.bytes_written, stream_in. rewrite (ref_written _ _ (so_stream _ _ _ Ok_s)).
  pose proof (so_bound _ _ _ Ok_s). pose proof (len_nonneg (Spec.sent q)). apply u64_small. lia.
Qed.

Lemma sender_buffer_empty : ByteStream.buffer_empty (stream_in s) = (Spec.taken q =? len (Spec.sent q)).
Proof.
  unfold ByteStream.buffer_empty, stream_in. rewrite (refines_buffer_len _ _ (so_stream _ _ _ Ok_s)).
  destruct (Z.eqb_spec (Spec.taken q) (len (Spec.sent q))), (Z.eqb_spec (len (Spec.sent q) - Spec.taken q) 0); done || lia.
Qed.

End invariant.

(** ** Sending a segment *)

Lemma queue_grows q q' isn n n' (l : list TCPSegment) :
  grows q q' -> Spec.taken q <= len (Spec.sent q) -> n <= n' ->
  Forall (fun seg => exists k, 0 <= k <= n /\ (carries q isn k seg \/ pure_ack isn k seg)) l ->
  Forall (fun seg => exists k, 0 <= k <= n' /\ (carries q' isn k seg \/ pure_ack isn k seg)) l.
Proof.
  intros G Ht Hn. apply Forall_impl. intros seg (k & Hk & Hc). exists k. split; [lia|].
  destruct Hc; [left; by eapply carries_grows|by right].
Qed.

Lemma start_timer_ok q fins s : sender_ok q fins s -> sender_ok q fins (start_timer s).
Proof. intros []. unfold start_timer. destruct (timer_running s); by split. Qed.

Lemma start_timer_fields s :
  _stream (start_timer s) = _stream s /\ _outstanding_segs (start_timer s) = _outstanding_segs s /\
  _win_size (start_timer s) = _win_size s /\ _next_seqno (start_timer s) = _next_seqno s /\
  _zero_win_seg_send (start_timer s) = _zero_win_seg_send s /\ _isn (start_timer s) = _isn s /\
  _segments_out (start_timer s) = _segments_out s.
Proof. unfold start_timer. by destruct (timer_running s). Qed.

(** [send_new] of a segment with the bytes just read: [b] is the stream after the
    read and [q'] its abstract state. *)
Lemma send_new_ok q fins s q' fins' b seg :
  sender_ok q fins s -> grows q q' -> ByteStream.refines q' b ->
  len (Spec.sent q') + 2 < 18446744073709551616 ->
  carries q' (_isn s) (_next_seqno s) seg -> 1 <= length_in_sequence_space seg ->
  _next_seqno s + length_in_sequence_space seg = sent_up_to q' fins' ->
  (fins = true -> fins' = true) ->
  (fins' = true -> Spec.closed q' = true /\ Spec.taken q' = len (Spec.sent q')) ->
  sender_ok q' fins' (send_new (s <| _stream := b |>) seg).
Proof.
  intros Hs G Hb Hbound Hc Hl Hn Hf Hf'. pose proof (sender_taken _ _ _ Hs) as Ht.
  pose proof (next_seqno_range _ _ _ Hs) as Hr. pose proof (ref_taken _ _ Hb) as Ht'.
  unfold send_new. apply start_timer_ok. destruct Hs as [H1 H2 H3 H4 H5 H6 H7 H8 [H9 H9'] H10 H11].
  assert (Hnext : u64 (_next_seqno s + length_in_sequence_space seg) = sent_up_to q' fins').
  { rewrite Hn, u64_small; [done|]. unfold sent_up_to. destruct fins'; lia. }
  split; sponge_simpl; rewrite ?Hnext; try done; try lia.
  - rewrite (in_flight_assign q (_isn s) 0) by done. rewrite <- Hn. apply in_flight_snoc; [|done|done].
    eapply in_flight_grows; [exact G|lia|done].
  - split; [done|]. intros Hz. apply Hf, H9', Hz.
  - intros Hz. destruct (H10 Hz) as [Hz1 Hz2]. split; [eapply carries_grows; [exact G|lia|done]|lia].
  - apply Forall_app. split; [eapply queue_grows; [exact G|lia| |done]; lia|].
    apply Forall_singleton. exists (_next_seqno s). split; [lia|by left].
Qed.

Lemma send_new_fields s seg :
  _stream (send_new s seg) = _stream s /\ _win_size (send_new s seg) = _win_size s /\
  _zero_win_seg_send (send_new s seg) = _zero_win_seg_send s /\ _isn (send_new s seg) = _isn s /\
  _segments_out (send_new s seg) = _segments_out s ++ [seg] /\
  _outstanding_segs (send_new s seg) = OMap.assign Z.ltb (_next_seqno s) seg (_outstanding_segs s).
Proof. destruct s as [? ? ? ? ? ? ? ? ? [] ? ? ? ?]; split_and!; reflexivity. Qed.

Lemma send_new_flight q fins s seg b q' fins' :
  sender_ok q fins s -> sender_ok q' fins' (send_new (s <| _stream := b |>) seg) ->
  bytes_in_flight (send_new (s <| _stream := b |>) seg) = bytes_in_flight s + length_in_sequence_space seg.
Proof.
  intros Hs Hs'. rewrite (flight_total _ _ _ Hs'), (flight_total _ _ _ Hs).
  destruct (send_new_fields (s <| _stream := b |>) seg) as (_ & _ & _ & _ & _ & ->). sponge_simpl.
  rewrite (in_flight_assign _ _ _ _ _ _ (so_flight _ _ _ Hs)). apply total_snoc.
Qed.

(** The segments [l] take the sequence numbers from [lo] to [hi], without gaps. *)
Fixpoint contiguous (lo hi : Z) (l : list (Z * TCPSegment)) : Prop :=
  match l with
  | [] => lo = hi
  | (k, seg) :: l' => k = lo /\ contiguous (k + length_in_sequence_space seg) hi l'
  end.

Lemma contiguous_app lo mid hi l1 l2 : contiguous lo mid l1 -> contiguous mid hi l2 -> contiguous lo hi (l1 ++ l2).
Proof. revert lo. induction l1 as [|[k seg] l1 IH]; intros lo; simpl; [by intros ->|]. intros [? ?] ?. auto. Qed.

Definition same_probe (s s' : TCPSender) : Prop :=
  _zero_win_seg_send s' = _zero_win_seg_send s /\ _zero_win_seg s' = _zero_win_seg s /\
  _zero_win_seg_seq s' = _zero_win_seg_seq s.

(** From [s] to [s'] the segments [new] were queued and put in flight. *)
Record launched (s : TCPSender) (new : list (Z * TCPSegment)) (s' : TCPSender) : Prop := {
  l_queue : _segments_out s' = _segments_out s ++ map snd new;
  l_flight : _outstanding_segs s' = _outstanding_segs s ++ new;
  l_seqnos : contiguous (_next_seqno s) (_next_seqno s') new;
  l_probe : same_probe s s';
}.

(** Or the probe [z] was queued. *)
Record probed (s : TCPSender) (z : TCPSegment) (s' : TCPSender) : Prop := {
  b_queue : _segments_out s' = _segments_out s ++ [z];
  b_flight : _outstanding_segs s' = _outstanding_segs s;
  b_seqno : _next_seqno s' = _next_seqno s + length_in_sequence_space z;
  b_size : length_in_sequence_space z = 1;
  b_idle : _zero_win_seg_send s = false;
  b_probe : _zero_win_seg_send s' = true /\ _zero_win_seg s' = z /\ _zero_win_seg_seq s' = _next_seqno s;
}.

Lemma launched_nil s : launched s [] s.
Proof. split; rewrite ?app_nil_r; done. Qed.

Lemma launched_trans s1 s2 s3 l1 l2 : launched s1 l1 s2 -> launched s2 l2 s3 -> launched s1 (l1 ++ l2) s3.
Proof.
  intros [A1 A2 A3 (A4 & A5 & A6)] [B1 B2 B3 (B4 & B5 & B6)]. split.
  - by rewrite B1, A1, map_app, app_assoc.
  - by rewrite B2, A2, app_assoc.
  - by eapply contiguous_app.
  - split_and!; congruence.
Qed.

Lemma send_new_seqno s seg :
  _next_seqno (send_new s seg) = u64 (_next_seqno s + length_in_sequence_space seg) /\
  same_probe s (send_new s seg).
Proof. destruct s as [? ? ? ? ? ? ? ? ? [] ? ? ? ?]; unfold same_probe; split_and!; reflexivity. Qed.

Lemma send_new_launched q fins s seg b q' fins' :
  sender_ok q fins s -> sender_ok q' fins' (send_new (s <| _stream := b |>) seg) ->
  _next_seqno s + length_in_sequence_space seg = sent_up_to q' fins' ->
  launched s [(_next_seqno s, seg)] (send_new (s <| _stream := b |>) seg).
Proof.
  intros Hs Hs' Hn. pose proof (so_bound _ _ _ Hs'). pose proof (sender_taken _ _ _ Hs').
  assert (Hu : u64 (_next_seqno s + length_in_sequence_space seg) = _next_seqno s + length_in_sequence_space seg).
  { rewrite Hn. apply u64_small. unfold sent_up_to. destruct fins'; lia. }
  destruct (send_new_fields (s <| _stream := b |>) seg) as (_ & _ & _ & _ & Hq & Hf).
  destruct (send_new_seqno (s <| _stream := b |>) seg) as [Hx Hp].
  split; [exact Hq| | |exact Hp].
  - rewrite Hf. exact (in_flight_assign _ _ _ _ _ seg (so_flight _ _ _ Hs)).
  - rewrite Hx. split; [done|]. symmetry. exact Hu.
Qed.

(** ** Filling the window *)

Lemma read_spec q b n :
  ByteStream.refines q b -> 0 <= n ->
  exists b' d, ByteStream.read b n = (b', d) /\ ByteStream.refines (Spec.pop q n) b' /\
    len d = Z.min n (len (Spec.sent q) - Spec.taken q) /\ d = slice (Spec.sent q) (Spec.taken q) (len d).
Proof.
  intros R Hn. unfold ByteStream.read. do 2 eexists. split; [done|]. split; [by apply refines_pop|].
  rewrite (refines_peek q) by done. pose proof (ref_taken _ _ R). unfold Spec.pending.
  assert (Hl : len (take (Z.to_nat n) (drop (Z.to_nat (Spec.taken q)) (Spec.sent q))) =
    Z.min n (len (Spec.sent q) - Spec.taken q)).
  { rewrite len_take, len_drop. lia. }
  split; [done|]. rewrite Hl. unfold slice.
  destruct (Z.le_gt_cases n (len (Spec.sent q) - Spec.taken q)).
  - f_equal. lia.
  - rewrite !take_ge; [done|rewrite length_drop; unfold len in *; lia..].
Qed.

(** The data segment of one iteration of the loop, before FIN is considered. *)
Definition data_segment (s : TCPSender) (d : bytes) (f : bool) : TCPSegment :=
  mkTCPSegment (default_header <| seqno := next_seqno s |> <| fin := f |>) (of_string d).

Lemma data_segment_length s d f :
  len d <= MAX_PAYLOAD_SIZE -> length_in_sequence_space (data_segment s d f) = len d + (if f then 1 else 0).
Proof.
  intros. rewrite length_in_sequence_space_spec;
    change (str (payload (data_segment s d f))) with d; unfold MAX_PAYLOAD_SIZE in *; [|lia].
  change (syn (header (data_segment s d f))) with false. change (fin (header (data_segment s d f))) with f. cbv iota. lia.
Qed.

Lemma data_segment_carries q s d f :
  len d <= MAX_PAYLOAD_SIZE -> 1 <= _next_seqno s -> _next_seqno s - 1 + len d <= Spec.taken q ->
  d = slice (Spec.sent q) (_next_seqno s - 1) (len d) ->
  (f = true -> Spec.closed q = true /\ _next_seqno s - 1 + len d = len (Spec.sent q)) ->
  carries q (_isn s) (_next_seqno s) (data_segment s d f).
Proof. intros. by split. Qed.

(** What filling the window achieves. *)
Record filled (q : Spec.fifo) (s : TCPSender) (q' : Spec.fifo) (fins' : bool) (s' : TCPSender) : Prop := {
  f_ok : sender_ok q' fins' s';
  f_grows : grows q q';
  f_same : _win_size s' = _win_size s /\ _zero_win_seg_send s' = _zero_win_seg_send s /\ _isn s' = _isn s;
  f_stream : Spec.sent q' = Spec.sent q /\ Spec.closed q' = Spec.closed q;
  f_new : exists new, launched s new s';
  f_limit : bytes_in_flight s <= _win_size s -> bytes_in_flight s' <= _win_size s;
  f_full : Spec.taken q' = len (Spec.sent q') \/ _win_size s <= bytes_in_flight s';
  f_fin : Spec.at_end q' = true -> fins' = true \/ _win_size s <= bytes_in_flight s';
}.

Lemma filled_refl q fins s :
  sender_ok q fins s ->
  Spec.taken q = len (Spec.sent q) \/ _win_size s <= bytes_in_flight s ->
  (Spec.at_end q = true -> fins = true \/ _win_size s <= bytes_in_flight s) -> filled q s q fins s.
Proof. intros. split; try done; [apply grows_refl|]. exists []. apply launched_nil. Qed.

Lemma grows_trans q1 q2 q3 : grows q1 q2 -> grows q2 q3 -> grows q1 q3.
Proof.
  intros [(m1 & H1 & C1) T1 K1] [(m2 & H2 & C2) T2 K2]. split; [|lia|auto].
  exists (m1 ++ m2). rewrite H2, H1, app_assoc. split; [done|]. intros Hc.
  rewrite (C1 Hc). by rewrite (C2 (K1 Hc)).
Qed.

(** One iteration. *)
Lemma fill_step q fins s :
  sender_ok q fins s -> _next_seqno s <> 0 ->
  Spec.taken q < len (Spec.sent q) -> bytes_in_flight s < _win_size s ->
  let t := u16 (if u64 (_win_size s - bytes_in_flight s) <? MAX_PAYLOAD_SIZE
                then u64 (_win_size s - bytes_in_flight s) else MAX_PAYLOAD_SIZE) in
  exists b d f, ByteStream.read (_stream s) t = (b, d) /\ 1 <= len d <= MAX_PAYLOAD_SIZE /\
    len d = len (ByteStream._buffer (_stream s)) - len (ByteStream._buffer b) /\
    f = (u64 (bytes_in_flight s + length_in_sequence_space (data_segment s d false)) <? _win_size s)
        && ByteStream.eof b /\
    sender_ok (Spec.pop q t) (fins || f) (send_new (s <| _stream := b |>) (data_segment s d f)) /\
    launched s [(_next_seqno s, data_segment s d f)] (send_new (s <| _stream := b |>) (data_segment s d f)) /\
    bytes_in_flight (send_new (s <| _stream := b |>) (data_segment s d f)) <= _win_size s /\
    (Spec.at_end (Spec.pop q t) = true -> fins || f = true \/
      _win_size s <= bytes_in_flight (send_new (s <| _stream := b |>) (data_segment s d f))).
Proof.
  intros Hs Hn0 Hbuf Hfl t. pose proof (so_win _ _ _ Hs). pose proof (flight_range _ _ _ Hs).
  pose proof (sender_taken _ _ _ Hs). pose proof (so_bound _ _ _ Hs).
  assert (fins = false) as -> by (destruct fins; [destruct (so_fins _ _ _ Hs eq_refl); lia|done]).
  pose proof (so_next _ _ _ Hs Hn0) as Hn. unfold sent_up_to in Hn. rewrite Z.add_0_r in Hn.
  assert (Ht : 1 <= t <= MAX_PAYLOAD_SIZE /\ t <= _win_size s - bytes_in_flight s).
  { unfold t, MAX_PAYLOAD_SIZE. u64_simpl. case_bool; rewrite u16_small; lia. }
  clearbody t. destruct (read_spec q (_stream s) t (so_stream _ _ _ Hs)) as (b & d & Hr & Rb & Hl & Hd); [lia|].
  pose proof (refines_buffer_len _ _ (so_stream _ _ _ Hs)) as HB. pose proof (refines_buffer_len _ _ Rb) as HB'.
  cbn [Spec.pop Spec.sent Spec.taken] in HB'.
  set (f := (u64 (bytes_in_flight s + length_in_sequence_space (data_segment s d false)) <? _win_size s)
        && ByteStream.eof b).
  assert (Hlen : forall g, length_in_sequence_space (data_segment s d g) = len d + (if g then 1 else 0)).
  { intros g. apply data_segment_length. lia. }
  assert (Hf : f = (bytes_in_flight s + len d <? _win_size s) && Spec.at_end (Spec.pop q t)).
  { unfold f. rewrite Hlen, Z.add_0_r, u64_small, (refines_eof _ _ Rb) by lia. done. }
  assert (Hend : Spec.at_end (Spec.pop q t) = true ->
    Spec.closed q = true /\ Spec.taken q + len d = len (Spec.sent q)).
  { unfold Spec.at_end. cbn. rewrite andb_true_iff, Z.eqb_eq. intros [? ?]. split; [done|lia]. }
  assert (Hok : sender_ok (Spec.pop q t) f (send_new (s <| _stream := b |>) (data_segment s d f))).
  { apply (send_new_ok q false); try done.
    - apply grows_pop; lia.
    - apply data_segment_carries; simpl; try lia; [rewrite Hn; by replace (1 + Spec.taken q - 1) with (Spec.taken q) by lia|].
      rewrite Hf. intros [_ [? ?]%Hend]%andb_true_iff. split; [done|lia].
    - rewrite Hlen. destruct f; lia.
    - rewrite Hlen, Hn. unfold sent_up_to. simpl. lia.
    - rewrite Hf. intros [_ [? ?]%Hend]%andb_true_iff. simpl. split; [done|lia]. }
  exists b, d, f. split_and!; try done; try lia;
    [|rewrite (send_new_flight _ _ _ _ _ _ _ Hs Hok), Hlen..].
  - apply (send_new_launched _ _ _ _ _ _ _ Hs Hok). rewrite Hlen, Hn. unfold sent_up_to. simpl. lia.
  - rewrite Hf. destruct (Z.ltb_spec (bytes_in_flight s + len d) (_win_size s)); simpl; [|lia].
    destruct (Spec.at_end _); lia.
  - intros He. rewrite Hf, He, andb_true_r. simpl.
    destruct (Z.ltb_spec (bytes_in_flight s + len d) (_win_size s)); [by left|right; lia].
Qed.

(** The segment the loop builds is [data_segment]. *)
Lemma fill_loop_unfold fuel s b d f :
  ByteStream.buffer_empty (stream_in s) = false -> bytes_in_flight s < _win_size s ->
  ByteStream.read (_stream s) (u16 (if u64 (_win_size s - bytes_in_flight s) <? MAX_PAYLOAD_SIZE
                then u64 (_win_size s - bytes_in_flight s) else MAX_PAYLOAD_SIZE)) = (b, d) ->
  f = (u64 (bytes_in_flight s + length_in_sequence_space (data_segment s d false)) <? _win_size s)
      && ByteStream.eof b ->
  fill_loop (S fuel) s = fill_loop fuel (send_new (s <| _stream := b |>) (data_segment s d f)).
Proof.
  intros He Hf Hr ->. cbn [fill_loop]. rewrite He, (proj2 (Z.ltb_lt _ _)), Hr by done. cbn [negb andb].
  match goal with |- fill_loop _ (send_new _ ?x) = fill_loop _ (send_new _ ?y) => replace x with y; [done|] end.
  change (bytes_in_flight (s <| _stream := b |>)) with (bytes_in_flight s).
  change (_win_size (s <| _stream := b |>)) with (_win_size s).
  change (stream_in (s <| _stream := b |>)) with b.
  match goal with |- _ = (if ?c then _ else _) => change c with
    ((u64 (bytes_in_flight s + length_in_sequence_space (data_segment s d false)) <? _win_size s) && ByteStream.eof b) end.
  by destruct ((_ <? _) && _).
Qed.

Lemma fill_loop_done fuel s :
  ByteStream.buffer_empty (stream_in s) = true \/ _win_size s <= bytes_in_flight s -> fill_loop fuel s = Ok s.
Proof.
  intros H. destruct fuel; cbn [fill_loop]; (replace (_ && _) with false; [done|]); symmetry;
    apply andb_false_iff; destruct H as [->|H]; [by left|right; by apply Z.ltb_ge|by left|right; by apply Z.ltb_ge].
Qed.

Lemma fill_loop_spec fuel : forall q fins s,
  sender_ok q fins s -> _next_seqno s <> 0 ->
  len (ByteStream._buffer (_stream s)) <= Z.of_nat fuel ->
  (Spec.at_end q = true -> fins = true \/ _win_size s <= bytes_in_flight s) ->
  exists q' fins' s', fill_loop fuel s = Ok s' /\ filled q s q' fins' s' /\ _next_seqno s' <> 0.
Proof.
  induction fuel as [|fuel IH]; intros q fins s Hs Hn Hb He;
    pose proof (refines_buffer_len _ _ (so_stream _ _ _ Hs)) as Hbl; pose proof (sender_taken _ _ _ Hs);
    (destruct (Z.eq_dec (Spec.taken q) (len (Spec.sent q))) as [Ht|Ht];
      [|destruct (Z.le_gt_cases (_win_size s) (bytes_in_flight s)) as [Hw|Hw]]).
  1,2,4,5: exists q, fins, s; (split; [apply fill_loop_done; rewrite (sender_buffer_empty _ _ _ Hs), Z.eqb_eq; tauto|]);
    (split; [|done]); by apply filled_refl; [..|tauto|].
  - lia.
  - destruct (fill_step q fins s Hs Hn ltac:(lia) ltac:(lia)) as (b & d & f & Hr & Hd & Hbuf & Hf & Hok & Hnew & Hlim & Hend).
    rewrite (fill_loop_unfold fuel s b d f); [|rewrite (sender_buffer_empty _ _ _ Hs); by apply Z.eqb_neq|lia|done|done].
    set (t := u16 _) in *.
    set (s1 := send_new (s <| _stream := b |>) (data_segment s d f)) in *.
    pose proof (send_new_fields (s <| _stream := b |>) (data_segment s d f)) as (F1 & F2 & F3 & F4 & F5 & _).
    fold s1 in F1, F2, F3, F4, F5. change (_stream (s <| _stream := b |>)) with b in F1.
    change (_win_size (s <| _stream := b |>)) with (_win_size s) in F2.
    change (_zero_win_seg_send (s <| _stream := b |>)) with (_zero_win_seg_send s) in F3.
    change (_isn (s <| _stream := b |>)) with (_isn s) in F4.
    change (_segments_out (s <| _stream := b |>)) with (_segments_out s) in F5.
    destruct (IH _ _ _ Hok) as (q' & fins' & s' & Hl & [G1 G2 G3 G4 G5 G6 G7 G8] & Hn').
    + intros Hz. destruct (so_start _ _ _ Hok Hz) as [Hz1 _]. unfold Spec.pop in Hz1. simpl in Hz1.
      assert (0 <= t) by apply u16_range. pose proof (so_bound _ _ _ Hs).
      pose proof (refines_buffer_len _ _ (so_stream _ _ _ Hok)) as Hbl1. rewrite F1 in Hbl1. simpl in Hbl1. lia.
    + rewrite F1. lia.
    + rewrite F2. done.
    + exists q', fins', s'. split; [done|]. split; [|done]. rewrite F2, F3, F4 in *.
      split; try done.
      * eapply grows_trans; [|done]. apply grows_pop; [apply u16_range|lia].
      * destruct G5 as [new Hnew']. eexists. exact (launched_trans _ _ _ _ _ Hnew Hnew').
      * auto.
Qed.

Lemma stream_same s : s <| _stream := _stream s |> = s.
Proof. by destruct s. Qed.

(** The probe of a closed window, with the stream left by the read. *)
Definition probing (s : TCPSender) (b : ByteStream) (z : TCPSegment) : TCPSender :=
  s <| _zero_win_seg_send := true |> <| _stream := b |> <| _zero_win_seg := z |>.

Lemma send_probe_fields s b z :
  let s' := send_probe (probing s b z) in
  _win_size s' = _win_size s /\ _isn s' = _isn s /\ _segments_out s' = _segments_out s ++ [z] /\
  _zero_win_seg_send s' = true /\ _stream s' = b /\ _zero_win_seg s' = z /\
  _zero_win_seg_seq s' = _next_seqno s /\ _outstanding_segs s' = _outstanding_segs s /\
  _next_seqno s' = u64 (_next_seqno s + length_in_sequence_space z).
Proof. destruct s as [? ? ? ? ? ? ? ? ? [] ? ? ? ?]; split_and!; reflexivity. Qed.

Lemma send_probe_ok q fins s q' fins' b z :
  sender_ok q fins s -> grows q q' -> ByteStream.refines q' b ->
  len (Spec.sent q') + 2 < 18446744073709551616 -> _next_seqno s <> 0 ->
  carries q' (_isn s) (_next_seqno s) z -> syn (header z) = false -> (fin (header z) = true -> fins' = true) ->
  _next_seqno s + length_in_sequence_space z = sent_up_to q' fins' ->
  (fins' = true -> Spec.closed q' = true /\ Spec.taken q' = len (Spec.sent q')) ->
  sender_ok q' fins' (send_probe (probing s b z)).
Proof.
  intros Hs G Hb Hbound Hn0 Hc Hsyn Hfin Hn Hf'. pose proof (sender_taken _ _ _ Hs) as Ht.
  pose proof (next_seqno_range _ _ _ Hs) as Hr. pose proof (ref_taken _ _ Hb) as Ht'.
  destruct Hs as [H1 H2 H3 H4 H5 H6 H7 H8 _ H10 H11].
  assert (0 <= length_in_sequence_space z) by apply u64_range.
  pose proof (send_probe_fields s b z) as (F1 & F2 & F3 & F4 & F5 & F6 & F7 & F8 & F9).
  rewrite Hn, u64_small in F9 by (unfold sent_up_to; destruct fins'; lia).
  revert F1 F2 F3 F4 F5 F6 F7 F8 F9. generalize (send_probe (probing s b z)) as s'.
  intros s' F1 F2 F3 F4 F5 F6 F7 F8 F9.
  split; rewrite ?F1, ?F2, ?F3, ?F4, ?F5, ?F6, ?F7, ?F8, ?F9; try done; try lia.
  - eapply in_flight_hi; [|eapply in_flight_grows; [exact G|lia|done]]. lia.
  - intros _. split; [done|lia].
  - apply Forall_app. split; [eapply queue_grows; [exact G|lia| |done]; lia|].
    apply Forall_singleton. exists (_next_seqno s). split; [lia|by left].
Qed.

(** The guard under which the probe is not a second FIN. *)
Definition no_second_fin (fins : bool) (s : TCPSender) : Prop :=
  fins = true -> _win_size s = 0 -> _zero_win_seg_send s = true.

(** The probe with one byte of the stream. *)
Definition byte_probe (s : TCPSender) (d : bytes) : TCPSegment :=
  mkTCPSegment (header (_zero_win_seg s) <| seqno := next_seqno s |>) (of_string d).
(** The probe with the FIN. *)
Definition fin_probe (s : TCPSender) : TCPSegment :=
  mkTCPSegment (header (_zero_win_seg s) <| seqno := next_seqno s |> <| fin := true |>) (of_string []).

(** What [fill_window] leaves of the abstract state. *)
Record advanced (q q' : Spec.fifo) (fins' : bool) (s s' : TCPSender) : Prop := {
  a_ok : sender_ok q' fins' s';
  a_grows : grows q q';
  a_sent : Spec.sent q' = Spec.sent q /\ Spec.closed q' = Spec.closed q;
  a_same : _win_size s' = _win_size s /\ _isn s' = _isn s;
  a_new : (exists new, launched s new s') \/ (exists z, probed s z s');
}.

Lemma advanced_refl q fins s : sender_ok q fins s -> advanced q q fins s s.
Proof. intros. split; try done; [apply grows_refl|]. left. exists []. apply launched_nil. Qed.

Lemma filled_advanced q s q' fins' s' : filled q s q' fins' s' -> advanced q q' fins' s s'.
Proof. intros [? ? (? & ? & ?) [? ?]]. split; try done. by left. Qed.

Lemma byte_probe_advanced q s b d :
  sender_ok q false s -> _next_seqno s <> 0 -> _zero_win_seg_send s = false -> Spec.taken q < len (Spec.sent q) ->
  ByteStream.read (_stream s) 1 = (b, d) ->
  advanced q (Spec.pop q 1) false s (send_probe (probing s b (byte_probe s d))).
Proof.
  intros Hs Hn0 Hidle Hb Hr. destruct (read_spec q (_stream s) 1 (so_stream _ _ _ Hs)) as (b' & d' & Hr' & Rb & Hl & Hd); [lia|].
  rewrite Hr in Hr'. injection Hr' as <- <-. pose proof (sender_taken _ _ _ Hs). pose proof (so_bound _ _ _ Hs).
  pose proof (so_next _ _ _ Hs Hn0) as Hn. unfold sent_up_to in Hn.
  destruct (so_probe_header _ _ _ Hs) as [Hsyn Hfin].
  assert (Hfin' : fin (header (_zero_win_seg s)) = false).
  { destruct (fin _); [by destruct (Hfin eq_refl)|done]. }
  assert (Hz : length_in_sequence_space (byte_probe s d) = 1).
  { rewrite length_in_sequence_space_spec; change (str (payload (byte_probe s d))) with d; [|lia].
    change (syn (header (byte_probe s d))) with (syn (header (_zero_win_seg s))).
    change (fin (header (byte_probe s d))) with (fin (header (_zero_win_seg s))). rewrite Hsyn, Hfin'. lia. }
  pose proof (send_probe_fields s b (byte_probe s d)) as (F1 & F2 & F3 & F4 & _ & F6 & F7 & F8 & F9).
  split; [|by apply grows_pop; lia|done|by rewrite F1, F2|right; exists (byte_probe s d); split; try done].
  2: { rewrite F9, Hz. apply u64_small. lia. }
  apply (send_probe_ok q false); try done; [by apply grows_pop; lia| |].
  - split; [done|unfold MAX_PAYLOAD_SIZE; change (str _) with d; lia| |].
    + change (syn (header (byte_probe s d))) with (syn (header (_zero_win_seg s))). rewrite Hsyn.
      change (str (payload (byte_probe s d))) with d. simpl. split_and!; [lia..|]. rewrite Hd at 1. f_equal. lia.
    + change (fin (header (byte_probe s d))) with (fin (header (_zero_win_seg s))). by rewrite Hfin'.
  - rewrite Hz. unfold sent_up_to. simpl. lia.
Qed.

Lemma fin_probe_advanced q s :
  sender_ok q false s -> _next_seqno s <> 0 -> _zero_win_seg_send s = false -> Spec.at_end q = true ->
  advanced q q true s (send_probe (probing s (_stream s) (fin_probe s))).
Proof.
  intros Hs Hn0 Hidle He. pose proof (sender_taken _ _ _ Hs). pose proof (so_bound _ _ _ Hs).
  pose proof (so_next _ _ _ Hs Hn0) as Hn. unfold sent_up_to in Hn.
  destruct (so_probe_header _ _ _ Hs) as [Hsyn _].
  unfold Spec.at_end in He. apply andb_true_iff in He as [Hc Ht%Z.eqb_eq].
  assert (Hz : length_in_sequence_space (fin_probe s) = 1).
  { unfold length_in_sequence_space, fin_probe. sponge_simpl. by rewrite Hsyn. }
  pose proof (send_probe_fields s (_stream s) (fin_probe s)) as (F1 & F2 & F3 & F4 & _ & F6 & F7 & F8 & F9).
  split; [|by apply grows_refl|done|by rewrite F1, F2|right; exists (fin_probe s); split; try done].
  2: { rewrite F9, Hz. apply u64_small. lia. }
  apply (send_probe_ok q false); try done; [apply grows_refl|apply Hs| |].
  - split; [done|done| |].
    + change (syn (header (fin_probe s))) with (syn (header (_zero_win_seg s))). rewrite Hsyn.
      change (str (payload (fin_probe s))) with (@nil byte). change (len []) with 0. simpl. split_and!; [lia..|].
      unfold slice. by rewrite take_0.
    + intros _. split; [done|]. change (len (str (payload (fin_probe s)))) with 0. lia.
  - rewrite Hz. unfold sent_up_to. lia.
Qed.

(** The three branches of [fill_window], named. *)
Definition syn_segment (s : TCPSender) : TCPSegment :=
  mkTCPSegment (default_header <| syn := true |> <| seqno := _isn s |>) empty_buffer.
Definition fin_segment (s : TCPSender) : TCPSegment :=
  mkTCPSegment (default_header <| seqno := next_seqno s |> <| fin := true |>) empty_buffer.

Lemma syn_advanced q fins s :
  sender_ok q fins s -> _next_seqno s = 0 -> advanced q q false s (send_new s (syn_segment s)).
Proof.
  intros Hs Hn. destruct (so_start _ _ _ Hs Hn) as (Ht & -> & _). pose proof (so_bound _ _ _ Hs).
  assert (Hok : sender_ok q false (send_new (s <| _stream := _stream s |>) (syn_segment s))).
  { apply (send_new_ok q false); try done; [apply grows_refl|apply Hs| |].
    - split; [|done|done|done]. rewrite Hn. unfold wrap, wi_add. rewrite (u32_small 0), Z.add_0_r by lia. simpl.
      rewrite u32_small by apply (so_isn _ _ _ Hs). by destruct (_isn s).
    - rewrite Hn. unfold sent_up_to. by rewrite Ht. }
  assert (Hl : launched s [(_next_seqno s, syn_segment s)] (send_new (s <| _stream := _stream s |>) (syn_segment s))).
  { apply (send_new_launched _ _ _ _ _ _ _ Hs Hok). rewrite Hn. unfold sent_up_to. by rewrite Ht. }
  rewrite stream_same in Hok, Hl. pose proof (send_new_fields s (syn_segment s)) as (_ & F2 & _ & F4 & _).
  split; [done|by apply grows_refl|done|by rewrite F2, F4|left; by eexists].
Qed.

Lemma fin_advanced q s :
  sender_ok q false s -> _next_seqno s <> 0 -> Spec.at_end q = true -> bytes_in_flight s < _win_size s ->
  filled q s q true (send_new s (fin_segment s)).
Proof.
  intros Hs Hn0 He Hw. pose proof (so_bound _ _ _ Hs). pose proof (sender_taken _ _ _ Hs).
  pose proof (so_next _ _ _ Hs Hn0) as Hn. unfold sent_up_to in Hn.
  unfold Spec.at_end in He. apply andb_true_iff in He as [Hc Ht%Z.eqb_eq].
  assert (Hok : sender_ok q true (send_new (s <| _stream := _stream s |>) (fin_segment s))).
  { apply (send_new_ok q false); try done; [apply grows_refl|apply Hs| |].
    - split; [done|done| |].
      + change (str (payload (fin_segment s))) with (@nil byte). change (len []) with 0. simpl. split_and!; [lia..|].
        unfold slice. by rewrite take_0.
      + intros _. split; [done|]. change (len (str (payload (fin_segment s)))) with 0. lia.
    - change (length_in_sequence_space (fin_segment s)) with 1. unfold sent_up_to. lia. }
  pose proof (send_new_flight _ _ _ _ _ _ _ Hs Hok) as Hfl.
  assert (Hl : launched s [(_next_seqno s, fin_segment s)] (send_new (s <| _stream := _stream s |>) (fin_segment s))).
  { apply (send_new_launched _ _ _ _ _ _ _ Hs Hok). change (length_in_sequence_space (fin_segment s)) with 1.
    unfold sent_up_to. lia. }
  rewrite stream_same in *.
  pose proof (send_new_fields s (fin_segment s)) as (F1 & F2 & F3 & F4 & F5 & _).
  change (length_in_sequence_space (fin_segment s)) with 1 in Hfl.
  split; try done; [apply grows_refl|by eexists|lia|by left|by left].
Qed.

Lemma fill_window_open s :
  _next_seqno s <> 0 -> bytes_in_flight s < _win_size s -> _zero_win_seg_send s = false ->
  fill_window s =
    let s1 := if ByteStream.eof (stream_in s) && (_next_seqno s <? u64 (ByteStream.bytes_written (stream_in s) + 2))
              then send_new s (fin_segment s) else s in
    fill_loop (length (ByteStream._buffer (stream_in s1))) s1.
Proof.
  intros H1 H2 H3. unfold fill_window, next_seqno_absolute.
  by rewrite (proj2 (Z.eqb_neq _ _)), (proj2 (Z.ltb_lt _ _)), H3 by done.
Qed.

(** The open window. *)
Lemma fill_open_spec q fins s :
  sender_ok q fins s -> _next_seqno s <> 0 -> bytes_in_flight s < _win_size s -> _zero_win_seg_send s = false ->
  exists q' fins' s', fill_window s = Ok s' /\ filled q s q' fins' s'.
Proof.
  intros Hs Hn0 Hw Hz. rewrite (fill_window_open s Hn0 Hw Hz). cbv zeta.
  rewrite (sender_eof _ _ _ Hs), (sender_written _ _ _ Hs). pose proof (so_bound _ _ _ Hs).
  pose proof (sender_taken _ _ _ Hs). pose proof (so_next _ _ _ Hs Hn0) as Hn. rewrite u64_small by lia.
  destruct (Spec.at_end q) eqn:He; cbn [andb].
  - pose proof He as [_ Ht%Z.eqb_eq]%andb_true_iff. unfold sent_up_to in Hn.
    destruct fins.
    + rewrite (proj2 (Z.ltb_ge _ _)) by lia. exists q, true, s.
      split; [apply fill_loop_done; left; rewrite (sender_buffer_empty _ _ _ Hs); by apply Z.eqb_eq|].
      apply filled_refl; [done|by left|by left].
    + rewrite (proj2 (Z.ltb_lt _ _)) by lia. pose proof (fin_advanced q s Hs Hn0 He Hw) as F.
      exists q, true, (send_new s (fin_segment s)). split; [|done].
      apply fill_loop_done. left. rewrite (sender_buffer_empty _ _ _ (f_ok _ _ _ _ _ F)). by apply Z.eqb_eq.
  - destruct (fill_loop_spec (length (ByteStream._buffer (stream_in s))) q fins s Hs Hn0)
      as (q' & fins' & s' & H1 & H2 & _); [unfold len, stream_in; lia|by rewrite He|]. eauto.
Qed.

Lemma fill_window_closed s :
  _next_seqno s <> 0 -> _win_size s = 0 -> bytes_in_flight s < _next_seqno s -> 0 <= bytes_in_flight s ->
  fill_window s = Ok (
    let s1 := if negb (ByteStream.buffer_empty (stream_in s)) && negb (_zero_win_seg_send s) then
                let '(b, d) := ByteStream.read (_stream s) 1 in send_probe (probing s b (byte_probe s d))
              else s in
    if ByteStream.eof (stream_in s1) && negb (_zero_win_seg_send s1)
    then send_probe (s1 <| _zero_win_seg_send := true |> <| _zero_win_seg := fin_probe s1 |>) else s1).
Proof.
  intros H1 H2 H3 H4. unfold fill_window, next_seqno_absolute.
  rewrite (proj2 (Z.eqb_neq (_next_seqno s) 0)) by done.
  rewrite (proj2 (Z.ltb_ge (bytes_in_flight s) (_win_size s))) by lia.
  by rewrite H2, (proj2 (Z.ltb_lt (bytes_in_flight s) (_next_seqno s))) by done.
Qed.

Lemma fin_probe_same s : s <| _zero_win_seg_send := true |> <| _zero_win_seg := fin_probe s |> = probing s (_stream s) (fin_probe s).
Proof. by destruct s. Qed.

(** The closed window: a probe is sent, or there is nothing to send. *)
Lemma fill_closed_spec q fins s :
  sender_ok q fins s -> no_second_fin fins s -> _next_seqno s <> 0 -> _win_size s = 0 ->
  bytes_in_flight s < _next_seqno s -> _zero_win_seg_send s = false ->
  exists q' fins' s', fill_window s = Ok s' /\ advanced q q' fins' s s' /\ (s' = s \/ exists z, probed s z s').
Proof.
  intros Hs Hg Hn0 Hw0 Hf Hz. pose proof (flight_range _ _ _ Hs).
  assert (fins = false) as -> by (destruct fins; [by rewrite (Hg eq_refl Hw0) in Hz|done]).
  assert (Hprobe : forall q' fins' b z, advanced q q' fins' s (send_probe (probing s b z)) ->
    exists z', probed s z' (send_probe (probing s b z))).
  { intros q' fins' b z [_ _ _ _ [[new L]|?]]; [|done]. destruct (l_probe _ _ _ L) as [E _].
    destruct (send_probe_fields s b z) as (_ & _ & _ & E' & _). congruence. }
  rewrite (fill_window_closed s Hn0 Hw0 Hf ltac:(lia)), Hz, (sender_buffer_empty _ _ _ Hs). cbv zeta.
  destruct (Z.eqb_spec (Spec.taken q) (len (Spec.sent q))) as [Ht|Ht]; cbn [negb andb].
  - rewrite (sender_eof _ _ _ Hs), Hz, andb_true_r.
    destruct (Spec.at_end q) eqn:He; [|exists q, false, s; split; [done|split; [by apply advanced_refl|by left]]].
    exists q, true. eexists. split; [done|]. rewrite fin_probe_same.
    pose proof (fin_probe_advanced q s Hs Hn0 Hz He) as A. split; [done|right; by eapply Hprobe].
  - pose proof (sender_taken _ _ _ Hs). destruct (ByteStream.read (_stream s) 1) as [b d] eqn:Hr.
    destruct (send_probe_fields s b (byte_probe s d)) as (_ & _ & _ & -> & _). cbn [negb]. rewrite andb_false_r.
    exists (Spec.pop q 1), false. eexists. split; [done|].
    pose proof (byte_probe_advanced q s b d Hs Hn0 Hz ltac:(lia) Hr) as A. split; [done|right; by eapply Hprobe].
Qed.

(** [fill_window] returns, and keeps the invariant unless it sends a second FIN. *)
Lemma fill_window_spec q fins s :
  sender_ok q fins s -> no_second_fin fins s ->
  exists q' fins' s', fill_window s = Ok s' /\ advanced q q' fins' s s'.
Proof.
  intros Hs Hg. pose proof (so_win _ _ _ Hs). pose proof (flight_range _ _ _ Hs).
  destruct (Z.eq_dec (_next_seqno s) 0) as [Hn0|Hn0].
  { exists q, false, (send_new s (syn_segment s)). split; [|by eapply syn_advanced].
    unfold fill_window, next_seqno_absolute. by rewrite (proj2 (Z.eqb_eq _ _)). }
  destruct (_zero_win_seg_send s) eqn:Hz.
  { exists q, fins, s. split; [|by apply advanced_refl]. unfold fill_window, next_seqno_absolute.
    rewrite (proj2 (Z.eqb_neq _ _)), Hz by done. cbn [negb]. rewrite !andb_false_r, Hz.
    cbn [negb]. rewrite andb_false_r. by destruct (_ && _). }
  destruct (Z.lt_ge_cases (bytes_in_flight s) (_win_size s)) as [Hw|Hw].
  { destruct (fill_open_spec q fins s Hs Hn0 Hw Hz) as (q' & fins' & s' & H1 & H2).
    exists q', fins', s'. split; [done|by apply filled_advanced]. }
  destruct (Z.eq_dec (_win_size s) 0) as [Hw0|Hw0];
    [destruct (Z.lt_ge_cases (bytes_in_flight s) (_next_seqno s)) as [Hf|Hf]|].
  2,3: exists q, fins, s; (split; [|by apply advanced_refl]); unfold fill_window, next_seqno_absolute;
    rewrite (proj2 (Z.eqb_neq (_next_seqno s) 0)), (proj2 (Z.ltb_ge (bytes_in_flight s) (_win_size s))) by done; cbn [andb].
  2: by rewrite (proj2 (Z.ltb_ge (bytes_in_flight s) (_next_seqno s))), andb_false_r by done.
  2: by rewrite (proj2 (Z.eqb_neq (_win_size s) 0)) by done.
  destruct (fill_closed_spec q fins s Hs Hg Hn0 Hw0 Hf Hz) as (q' & fins' & s' & ? & ? & _). by exists q', fins', s'.
Qed.

(** ** Acknowledgments *)

(** The last sequence number up to [next] that wraps to [ackno]; negative when there is none. *)
Definition last_ack (ackno isn : WrappingInt32) (next : Z) : Z := next - u32 (next - unwrap_base ackno isn).

Lemma last_ack_unwrap ackno isn next :
  wi_ok ackno -> wi_ok isn -> 0 <= next < 18446744073709551616 ->
  let v := unwrap ackno isn next in
  let a := last_ack ackno isn next in
  (a < 0 /\ next < v < 4294967296) \/
  (0 <= a <= next /\ ((v <= next /\ v = a) \/ (next < v /\ 4294967296 <= v /\ v - 4294967296 = a))).
Proof.
  intros Ha Hi Hn v a. destruct (unwrap_nearest ackno isn next Ha Hi Hn) as (k & Hk & Hv & Hnear).
  fold v in Hv, Hnear. pose proof (u32_range (raw_value ackno - raw_value isn)) as Hb.
  fold (unwrap_base ackno isn) in Hb. unfold candidate in *. unfold last_ack, u32 in a.
  pose proof (Z.div_mod (next - unwrap_base ackno isn) 4294967296 ltac:(lia)) as Hd.
  pose proof (Z.mod_pos_bound (next - unwrap_base ackno isn) 4294967296 ltac:(lia)).
  set (k' := (next - unwrap_base ackno isn) / 4294967296) in *.
  assert (k = k' \/ k = k' + 1) by lia. lia.
Qed.

Lemma last_ack_wrap a isn next :
  wi_ok isn -> 0 <= a <= next -> next < a + 4294967296 -> last_ack (wrap a isn) isn next = a.
Proof.
  intros Hi Ha Hn. unfold last_ack, unwrap_base. rewrite wrap_raw. unfold u32.
  rewrite Zminus_mod_idemp_l. replace (raw_value isn + a - raw_value isn) with a by lia.
  rewrite Zminus_mod_idemp_r, Z.mod_small; lia.
Qed.

(** Not fully covered by the acknowledgment number [a]. *)
Definition unacked (a : Z) (p : Z * TCPSegment) : bool := a <? p.1 + length_in_sequence_space p.2.

Lemma drop_acked_filter q isn lo hi a m :
  in_flight q isn lo hi m -> 0 <= lo -> hi < 18446744073709551616 -> drop_acked a m = List.filter (unacked a) m.
Proof.
  intros H Hlo Hhi. revert lo Hlo H. induction m as [|[k seg] m IH]; intros lo Hlo; [done|].
  cbn [in_flight drop_acked List.filter]. intros (H1 & H2 & _ & Hm).
  pose proof (in_flight_bounds _ _ _ _ _ Hm) as Hb.
  assert (0 <= OMap.total length_in_sequence_space m) by (apply OMap.total_nonneg; intros; apply u64_range).
  specialize (IH (k + length_in_sequence_space seg) ltac:(lia) Hm). unfold unacked at 1. cbn [fst snd].
  rewrite u64_small by lia. destruct (Z.ltb_spec (length_in_sequence_space seg + k - 1) a).
  - by rewrite (proj2 (Z.ltb_ge _ _)) by lia.
  - rewrite (proj2 (Z.ltb_lt a _)) by lia. destruct (Z.leb_spec a k); [|by rewrite IH].
    f_equal. rewrite <- IH. clear IH Hb. destruct m as [|[k2 seg2] m]; [done|]. cbn [in_flight drop_acked] in *.
    destruct Hm as (H5 & H6 & _ & Hm). pose proof (in_flight_bounds _ _ _ _ _ Hm).
    assert (0 <= OMap.total length_in_sequence_space m) by (apply OMap.total_nonneg; intros; apply u64_range).
    rewrite u64_small, (proj2 (Z.ltb_ge _ _)), (proj2 (Z.leb_le _ _)) by lia. done.
Qed.

Lemma in_flight_filter q isn lo hi P m : in_flight q isn lo hi m -> in_flight q isn lo hi (List.filter P m).
Proof.
  revert lo. induction m as [|[k seg] m IH]; intros lo; [done|]. cbn [in_flight List.filter].
  intros (H1 & H2 & H3 & H4). destruct (P (k, seg)); [cbn [in_flight]; auto|].
  apply (in_flight_lo _ _ (k + length_in_sequence_space seg)); [lia|auto].
Qed.

(** The state left by an acknowledgment of the absolute number [a]. *)
Record acked (a : Z) (ackno : WrappingInt32) (win : Z) (s s' : TCPSender) : Prop := {
  ak_flight : _outstanding_segs s' = List.filter (unacked a) (_outstanding_segs s);
  ak_win : _win_size s' = win /\ _ackno s' = ackno;
  ak_same : _isn s' = _isn s /\ _stream s' = _stream s /\ _next_seqno s' = _next_seqno s /\
            _segments_out s' = _segments_out s;
  ak_probe : _zero_win_seg_send s' = (if _zero_win_seg_seq s <? a then false else _zero_win_seg_send s) /\
             _zero_win_seg s' = _zero_win_seg s /\ _zero_win_seg_seq s' = _zero_win_seg_seq s;
  ak_timer : if wi_neqb (_ackno s) ackno
             then _rx_times s' = 0 /\
                  _initial_retransmission_timeout s' = Z.shiftr (_initial_retransmission_timeout s) (_rx_times s) /\
                  _rx_time_left s' = _initial_retransmission_timeout s'
             else _rx_times s' = _rx_times s /\
                  _initial_retransmission_timeout s' = _initial_retransmission_timeout s /\
                  _rx_time_left s' = _rx_time_left s;
  ak_running : timer_running s' =
    (match _outstanding_segs s' with [] => _zero_win_seg_send s' | _ => true end) && timer_running s;
}.

(** The five statements in sequence. *)
Lemma acked_of_drop s a ackno win :
  drop_acked a (_outstanding_segs s) = List.filter (unacked a) (_outstanding_segs s) ->
  acked a ackno win s
    (ack_reset_timeout (ack_stop_timer (ack_segments (ack_probe s a) a)) ackno
      <| _win_size := win |> <| _ackno := ackno |>).
Proof.
  destruct s as [isn so rto st nx m w ak tl run rx z zs zq]. cbn [_outstanding_segs]. intros Hd.
  set (zs' := if zq <? a then false else zs).
  assert (E1 : ack_probe (mkTCPSender isn so rto st nx m w ak tl run rx z zs zq) a =
    mkTCPSender isn so rto st nx m w ak tl run rx z zs' zq).
  { unfold ack_probe, zs'. cbn [_zero_win_seg_seq]. by destruct (zq <? a). }
  assert (E2 : ack_segments (mkTCPSender isn so rto st nx m w ak tl run rx z zs' zq) a =
    mkTCPSender isn so rto st nx (List.filter (unacked a) m) w ak tl run rx z zs' zq).
  { unfold ack_segments. cbn [_outstanding_segs]. by rewrite Hd. }
  set (m' := List.filter (unacked a) m) in *.
  set (run' := match m' with [] => zs' | _ => true end && run).
  assert (E3 : ack_stop_timer (mkTCPSender isn so rto st nx m' w ak tl run rx z zs' zq) =
    mkTCPSender isn so rto st nx m' w ak tl run' rx z zs' zq).
  { unfold ack_stop_timer, run'. cbn [_outstanding_segs _zero_win_seg_send]. by destruct m', zs'. }
  rewrite E1, E2, E3. unfold ack_reset_timeout. cbn [_ackno].
  split; cbn [_ackno]; try (by destruct (wi_neqb ak ackno)).
Qed.

Lemma ack_received_spec q fins s ackno win :
  sender_ok q fins s -> wi_ok ackno ->
  let a := last_ack ackno (_isn s) (_next_seqno s) in
  if a <? 0 then ack_received s ackno win = s else acked a ackno win s (ack_received s ackno win).
Proof.
  intros Hs Ha a. pose proof (next_seqno_range _ _ _ Hs). pose proof (so_bound _ _ _ Hs).
  pose proof (last_ack_unwrap ackno (_isn s) (_next_seqno s) Ha (so_isn _ _ _ Hs) ltac:(lia)) as Hu.
  cbv zeta in Hu. fold a in Hu. unfold ack_received. set (v := unwrap ackno (_isn s) (_next_seqno s)) in *.
  clearbody a v.
  destruct (Z.ltb_spec a 0).
  - by rewrite (proj2 (Z.ltb_lt (_next_seqno s) v)), (proj2 (Z.ltb_lt v 4294967296)) by lia.
  - replace ((_next_seqno s <? v) && (v <? 4294967296)) with false.
    2: { symmetry. apply andb_false_iff. rewrite !Z.ltb_ge. lia. }
    replace (if _next_seqno s <? v then v - 4294967296 else v) with a.
    2: { destruct (Z.ltb_spec (_next_seqno s) v); lia. }
    pose proof (drop_acked_filter _ _ _ _ a _ (so_flight _ _ _ Hs) ltac:(lia) ltac:(lia)) as Hd.
    by apply acked_of_drop.
Qed.

Lemma ack_ok q fins s ackno win :
  sender_ok q fins s -> wi_ok ackno -> 0 <= win < 65536 -> sender_ok q fins (ack_received s ackno win).
Proof.
  intros Hs Ha Hw. pose proof (ack_received_spec q fins s ackno win Hs Ha) as H. cbv zeta in H.
  destruct (_ <? 0); [by rewrite H|]. destruct H as [Hf [H1 _] (H2 & H3 & H4 & H5) (H6 & H7 & H8) _ _].
  destruct Hs as [S1 S2 S3 S4 S5 S6 S7 S8 S9 S10 S11].
  split; rewrite ?Hf, ?H1, ?H2, ?H3, ?H4, ?H5, ?H7, ?H8; try done.
  - intros Hn. destruct (S4 Hn) as (? & ? & Hz). rewrite H6, Hz. by destruct (_ <? _).
  - by apply in_flight_filter.
  - rewrite H6. destruct (_ <? _); [done|auto].
Qed.

(** ** Timer *)

(** Only the queue and the timer change. *)
Record timer_step (s s' : TCPSender) : Prop := {
  ts_same : _isn s' = _isn s /\ _stream s' = _stream s /\ _next_seqno s' = _next_seqno s /\
            _outstanding_segs s' = _outstanding_segs s /\ _win_size s' = _win_size s /\ _ackno s' = _ackno s;
  ts_probe : _zero_win_seg s' = _zero_win_seg s /\ _zero_win_seg_send s' = _zero_win_seg_send s /\
             _zero_win_seg_seq s' = _zero_win_seg_seq s;
}.

Lemma timer_step_ok q fins s s' seg :
  sender_ok q fins s -> timer_step s s' ->
  _segments_out s' = _segments_out s \/
  (_segments_out s' = _segments_out s ++ [seg] /\ exists k, 0 <= k <= _next_seqno s /\
     (carries q (_isn s) k seg \/ pure_ack (_isn s) k seg)) ->
  sender_ok q fins s'.
Proof.
  intros [] [(H1 & H2 & H3 & H4 & H5 & H6) (H7 & H8 & H9)] Hq.
  split; rewrite ?H1, ?H2, ?H3, ?H4, ?H5, ?H7, ?H8, ?H9; try done.
  destruct Hq as [->|[-> Hk]]; [done|]. apply Forall_app. split; [done|by apply Forall_singleton].
Qed.

Lemma back_off_step s : timer_step s (back_off s) /\ _segments_out (back_off s) = _segments_out s.
Proof. unfold back_off. by destruct (_ || _). Qed.

Lemma tick_ok q fins s ms : sender_ok q fins s -> sender_ok q fins (tick s ms).
Proof.
  intros Hs. unfold tick. destruct (_zero_win_seg_send s) eqn:Hz.
  - cbv zeta. destruct (_ =? 0); [|by apply (timer_step_ok _ _ _ _ default_segment Hs); [|left]].
    apply (timer_step_ok _ _ s _ (_zero_win_seg s) Hs); [done|right]. split; [done|].
    destruct (so_probe _ _ _ Hs Hz) as [Hc Hl]. exists (_zero_win_seg_seq s).
    assert (0 <= length_in_sequence_space (_zero_win_seg s)) by apply u64_range.
    destruct (so_probe_header _ _ _ Hs) as [Hsyn _]. pose proof (c_data _ _ _ _ Hc) as Hd. rewrite Hsyn in Hd.
    split; [lia|by left].
  - destruct (_outstanding_segs s) as [|[k first] m] eqn:Hm; [by apply (timer_step_ok _ _ _ _ default_segment Hs); [|left]|].
    destruct (timer_running s); cbn [negb]; [|by apply (timer_step_ok _ _ _ _ default_segment Hs); [|left]].
    cbv zeta. destruct (_ =? 0); [|by apply (timer_step_ok _ _ _ _ default_segment Hs); [|left]].
    pose proof (so_flight _ _ _ Hs) as Hf. rewrite Hm in Hf. cbn [in_flight] in Hf.
    destruct Hf as (Hk & Hl & Hc & Hf). pose proof (in_flight_bounds _ _ _ _ _ Hf).
    assert (0 <= OMap.total length_in_sequence_space m) by (apply OMap.total_nonneg; intros; apply u64_range).
    destruct (back_off_step (s <| _rx_time_left := time_left_after s ms |>)) as [[B1 B2] B3].
    apply (timer_step_ok _ _ s _ first Hs); [by split|right].
    split; [change (_segments_out (back_off (s <| _rx_time_left := time_left_after s ms |>)) ++ [first] =
      _segments_out s ++ [first]); by rewrite B3|]. exists k. split; [lia|by left].
Qed.

Lemma empty_ok q fins s : sender_ok q fins s -> sender_ok q fins (send_empty_segment s).
Proof.
  intros Hs. pose proof (next_seqno_range _ _ _ Hs).
  apply (timer_step_ok _ _ s _ (default_segment <| header := default_header <| seqno := next_seqno s |> |>) Hs); [done|right].
  split; [done|]. exists (_next_seqno s). split; [lia|]. by right.
Qed.

(** ** The writer *)

Lemma write_ok q s d :
  sender_ok q false s -> Spec.closed q = false -> len (Spec.sent q) + len d + 2 < 18446744073709551616 ->
  sender_ok (Spec.push q d) false (s <| _stream := (ByteStream.write (_stream s) d).1 |>).
Proof.
  intros Hs Hc Hb. pose proof (sender_taken _ _ _ Hs). pose proof (grows_push q d Hc) as G.
  destruct (refines_write q (_stream s) d (so_stream _ _ _ Hs)) as [R _].
  destruct Hs as [S1 S2 S3 S4 S5 S6 S7 S8 S9 S10 S11]. split; try done.
  - simpl. rewrite len_app. unfold prefix_str. rewrite len_take. lia.
  - eapply in_flight_grows; [exact G|lia|exact S7].
  - intros Hz. destruct (S10 Hz). split; [by eapply carries_grows; [exact G|lia|]|done].
  - eapply queue_grows; [exact G|lia| |exact S11]. simpl. lia.
Qed.

Lemma close_ok q fins s :
  sender_ok q fins s -> sender_ok (Spec.close q) fins (s <| _stream := ByteStream.end_input (_stream s) |>).
Proof.
  intros Hs. pose proof (sender_taken _ _ _ Hs). pose proof (grows_close q) as G.
  pose proof (refines_end_input _ _ (so_stream _ _ _ Hs)) as R.
  destruct Hs as [S1 S2 S3 S4 S5 S6 S7 S8 S9 S10 S11]. split; try done.
  - intros Hf. by destruct (S6 Hf).
  - eapply in_flight_grows; [exact G|lia|exact S7].
  - intros Hz. destruct (S10 Hz). split; [by eapply carries_grows; [exact G|lia|]|done].
  - eapply queue_grows; [exact G|lia| |exact S11]. simpl. lia.
Qed.

Lemma dequeue_ok q fins s :
  sender_ok q fins s -> sender_ok q fins (s <| _segments_out := tail (_segments_out s) |>).
Proof.
  intros []. split; try done. change (Forall (fun seg => exists k, 0 <= k <= _next_seqno s /\
    (carries q (_isn s) k seg \/ pure_ack (_isn s) k seg)) (tail (_segments_out s))).
  destruct (_segments_out s); [done|]. by inversion so_queue0.
Qed.

(** ** Runs of the sender *)

(** The next [fill_window] would probe a closed window with a second FIN. *)
Definition second_fin_risk (s : TCPSender) : bool :=
  (_next_seqno s =? u64 (ByteStream.bytes_written (stream_in s) + 2)) && (_win_size s =? 0)
  && negb (_zero_win_seg_send s).

(** [srun cap rto isn w closed s]: [s] is reached from a new sender by the writer's
    and the connection's calls; [w] is what was accepted into the stream.  The
    connection stops calling [tick] once there were more than
    [MAX_RETX_ATTEMPTS] retransmissions. *)
Inductive srun (cap rto : Z) (isn : WrappingInt32) : bytes -> bool -> TCPSender -> Prop :=
| sr_new :
    0 <= cap < 18446744073709551616 -> 0 <= rto < 65536 -> wi_ok isn ->
    srun cap rto isn [] false (TCPSender.new cap rto (Some isn) 0)
| sr_write w s d :
    srun cap rto isn w false s -> len w + len d + 2 < 18446744073709551616 ->
    srun cap rto isn (w ++ prefix_str d (ByteStream.remaining_capacity (stream_in s))) false
      (s <| _stream := (ByteStream.write (_stream s) d).1 |>)
| sr_end w c s : srun cap rto isn w c s ->
    srun cap rto isn w true (s <| _stream := ByteStream.end_input (_stream s) |>)
| sr_fill w c s s' :
    srun cap rto isn w c s -> second_fin_risk s = false -> fill_window s = Ok s' -> srun cap rto isn w c s'
| sr_ack w c s ackno win :
    srun cap rto isn w c s -> wi_ok ackno -> 0 <= win < 65536 -> srun cap rto isn w c (ack_received s ackno win)
| sr_tick w c s ms :
    srun cap rto isn w c s -> _rx_times s <= MAX_RETX_ATTEMPTS -> srun cap rto isn w c (tick s ms)
| sr_empty w c s : srun cap rto isn w c s -> srun cap rto isn w c (send_empty_segment s)
| sr_dequeue w c s : srun cap rto isn w c s -> srun cap rto isn w c (s <| _segments_out := tail (_segments_out s) |>).

(** No risk before the stream has ended or the SYN is sent. *)
Lemma sender_no_risk q fins s :
  sender_ok q fins s -> Spec.closed q = false \/ _next_seqno s = 0 -> second_fin_risk s = false.
Proof.
  intros Hs Hc. pose proof (sender_taken _ _ _ Hs). pose proof (so_bound _ _ _ Hs).
  assert (Hn : _next_seqno s <= len (Spec.sent q) + 1).
  { destruct (Z.eq_dec (_next_seqno s) 0) as [E|E]; [pose proof (len_nonneg (Spec.sent q)); lia|].
    rewrite (so_next _ _ _ Hs E). unfold sent_up_to. destruct Hc as [Hc|?]; [|done].
    destruct fins; [destruct (so_fins _ _ _ Hs eq_refl); congruence|lia]. }
  unfold second_fin_risk. rewrite (sender_written _ _ _ Hs), u64_small by lia.
  by rewrite (proj2 (Z.eqb_neq _ _)) by lia.
Qed.

Lemma risk_guard q fins s : sender_ok q fins s -> second_fin_risk s = false -> no_second_fin fins s.
Proof.
  intros Hs Hr -> Hw. unfold second_fin_risk in Hr. rewrite Hw, (sender_written _ _ _ Hs) in Hr.
  destruct (so_fins _ _ _ Hs eq_refl) as [_ Ht]. pose proof (so_bound _ _ _ Hs). pose proof (sender_taken _ _ _ Hs).
  assert (Hn : _next_seqno s <> 0) by (intros E; by destruct (so_start _ _ _ Hs E) as (_ & ? & _)).
  rewrite (so_next _ _ _ Hs Hn), u64_small in Hr by lia. unfold sent_up_to in Hr.
  rewrite (proj2 (Z.eqb_eq _ _)) in Hr by lia. by destruct (_zero_win_seg_send s).
Qed.

Lemma new_sender_ok cap rto isn :
  0 <= cap < 18446744073709551616 -> wi_ok isn ->
  sender_ok (Spec.mkFifo cap [] 0 false) false (TCPSender.new cap rto (Some isn) 0).
Proof. intros. split; try done. by apply refines_new. Qed.

Lemma srun_ok cap rto isn w c s :
  srun cap rto isn w c s ->
  exists q fins, sender_ok q fins s /\ Spec.sent q = w /\ Spec.closed q = c /\ _isn s = isn.
Proof.
  induction 1 as [|w s d _ (q & fins & Hs & <- & Hc & Hi) Hl|w c s _ (q & fins & Hs & <- & Hc & Hi)
    |w c s s' _ (q & fins & Hs & <- & Hc & Hi) Hr Hf|w c s ackno win _ (q & fins & Hs & <- & Hc & Hi) Ha Hw
    |w c s ms _ (q & fins & Hs & <- & Hc & Hi) Hm|w c s _ (q & fins & Hs & <- & Hc & Hi)
    |w c s _ (q & fins & Hs & <- & Hc & Hi)].
  - do 2 eexists. split; [by apply new_sender_ok|done].
  - assert (fins = false) as -> by (destruct fins; [destruct (so_fins _ _ _ Hs eq_refl); congruence|done]).
    exists (Spec.push q d), false. split; [by apply write_ok|]. simpl.
    by rewrite <- (refines_remaining _ _ (so_stream _ _ _ Hs)).
  - exists (Spec.close q), fins. split; [by apply close_ok|done].
  - destruct (fill_window_spec q fins s Hs (risk_guard _ _ _ Hs Hr)) as (q' & fins' & s1 & Hf' & [A1 _ [A2 A3] [_ A4] _]).
    rewrite Hf in Hf'. injection Hf' as <-. exists q', fins'. split; [done|]. split; [done|]. by rewrite A3, A4.
  - exists q, fins. split; [by apply ack_ok|]. split; [done|]. split; [done|].
    pose proof (ack_received_spec q fins s ackno win Hs Ha) as H. cbv zeta in H.
    destruct (_ <? 0); [by rewrite H|]. by destruct H as [_ _ (-> & _) _ _ _].
  - exists q, fins. split; [by apply tick_ok|]. split; [done|]. split; [done|].
    unfold tick, resend, back_off. repeat case_match; done.
  - exists q, fins. split; [by apply empty_ok|done].
  - exists q, fins. split; [by apply dequeue_ok|done].
Qed.

(** ** The retransmission timeout *)

Definition keeps_rto (s s' : TCPSender) : Prop :=
  _rx_times s' = _rx_times s /\ _initial_retransmission_timeout s' = _initial_retransmission_timeout s.

Lemma send_new_keeps_rto s seg : keeps_rto s (send_new s seg).
Proof. destruct s as [? ? ? ? ? ? ? ? ? [] ? ? ? ?]; split; reflexivity. Qed.

Lemma send_probe_keeps_rto s : keeps_rto s (send_probe s).
Proof. destruct s as [? ? ? ? ? ? ? ? ? [] ? ? ? ?]; split; reflexivity. Qed.

Lemma keeps_rto_trans s1 s2 s3 : keeps_rto s1 s2 -> keeps_rto s2 s3 -> keeps_rto s1 s3.
Proof. unfold keeps_rto. intuition congruence. Qed.

Lemma fill_loop_keeps_rto fuel : forall s s', fill_loop fuel s = Ok s' -> keeps_rto s s'.
Proof.
  induction fuel as [|fuel IH]; intros s s'; cbn [fill_loop].
  - by destruct (_ && _); [|intros [= <-]].
  - destruct (_ && _); [|by intros [= <-]]. destruct (ByteStream.read _ _) as [b d].
    intros H%IH. eapply keeps_rto_trans; [|exact H].
    apply (keeps_rto_trans _ (s <| _stream := b |>)); [done|apply send_new_keeps_rto].
Qed.

Lemma fill_window_keeps_rto s s' : fill_window s = Ok s' -> keeps_rto s s'.
Proof.
  unfold fill_window. destruct (_ =? 0); [intros [= <-]; apply send_new_keeps_rto|].
  destruct (_ && negb _).
  { intros H%fill_loop_keeps_rto. eapply keeps_rto_trans; [|exact H].
    destruct (_ && _); [apply send_new_keeps_rto|done]. }
  destruct (_ && _); [|by intros [= <-]]. destruct (ByteStream.read _ 1) as [b d]. intros [= <-].
  match goal with |- keeps_rto s (if _ then send_probe (?s1 <| _zero_win_seg_send := true |> <| _zero_win_seg := _ |>) else _) =>
    assert (K : keeps_rto s s1) end.
  { destruct (negb _ && negb _); [|done]. eapply keeps_rto_trans; [|apply send_probe_keeps_rto]. done. }
  match goal with |- keeps_rto s (if ?c then _ else _) => destruct c end; [|exact K].
  eapply keeps_rto_trans; [exact K|].
  eapply keeps_rto_trans; [|apply send_probe_keeps_rto]. done.
Qed.

Definition rto_ok (rto : Z) (s : TCPSender) : Prop :=
  0 <= _rx_times s <= MAX_RETX_ATTEMPTS + 1 /\ _initial_retransmission_timeout s = rto * 2 ^ _rx_times s.

Lemma back_off_rto rto s :
  0 <= rto < 65536 -> rto_ok rto s -> _rx_times s <= MAX_RETX_ATTEMPTS -> rto_ok rto (back_off s).
Proof.
  intros Hr [H1 H2] Hm. unfold MAX_RETX_ATTEMPTS in *. unfold back_off. destruct (_ || _); [|done].
  unfold rto_ok. sponge_simpl. unfold MAX_RETX_ATTEMPTS. rewrite u64_small by lia. split; [lia|].
  rewrite H2, Z.pow_add_r by lia. assert (2 ^ _rx_times s <= 2 ^ 8) by (apply Z.pow_le_mono_r; lia).
  assert (0 < 2 ^ _rx_times s) by (apply Z.pow_pos_nonneg; lia). change (2 ^ 8) with 256 in *. change (2 ^ 1) with 2.
  rewrite u32_small; nia.
Qed.

Lemma ack_rto rto q fins s ackno win :
  sender_ok q fins s -> wi_ok ackno -> 0 <= rto -> rto_ok rto s -> rto_ok rto (ack_received s ackno win).
Proof.
  intros Hs Ha Hr [H1 H2]. pose proof (ack_received_spec q fins s ackno win Hs Ha) as H. cbv zeta in H.
  destruct (_ <? 0); [by rewrite H|]. destruct H as [_ _ _ _ Ht _]. unfold rto_ok, MAX_RETX_ATTEMPTS in *.
  destruct (wi_neqb _ _); destruct Ht as (-> & -> & _); [|done]. split; [lia|].
  rewrite H2, Z.shiftr_div_pow2, Z.div_mul, Z.pow_0_r by (try lia; apply Z.pow_nonzero; lia). lia.
Qed.

Lemma srun_rto cap rto isn w c s : srun cap rto isn w c s -> 0 <= rto < 65536 /\ rto_ok rto s.
Proof.
  induction 1 as [|w s d _ IH Hl|w c s _ IH|w c s s' _ [Hr [H1 H2]] _ Hf|w c s ackno win Hrun [Hr IH] Ha Hw
    |w c s ms _ [Hr IH] Hm|w c s _ IH|w c s _ IH]; try done.
  - split; [done|]. split; [done|]. simpl. lia.
  - destruct (fill_window_keeps_rto _ _ Hf) as [E1 E2]. unfold rto_ok. by rewrite E1, E2.
  - destruct (srun_ok _ _ _ _ _ _ Hrun) as (q & fins & Hs & _). split; [done|]. eapply ack_rto; [done|done|lia|done].
  - split; [done|]. unfold tick. destruct (_zero_win_seg_send s); [cbv zeta; by destruct (_ =? 0)|].
    destruct (_outstanding_segs s) as [|[k first] m]; [done|]. destruct (negb _); [done|]. cbv zeta.
    destruct (_ =? 0); [|done].
    pose proof (back_off_rto rto (s <| _rx_time_left := time_left_after s ms |>)) as B. by apply B.
Qed.

(** ** Properties *)

(** A segment of the stream [w]: sequence number [k], at most [MAX_PAYLOAD_SIZE]
    bytes, which are those of [w] behind the SYN; FIN only at the end of a closed
    stream. *)
Definition segment_of (isn : WrappingInt32) (w : bytes) (c : bool) (k : Z) (seg : TCPSegment) : Prop :=
  let d := str (payload seg) in
  seqno (header seg) = wrap k isn /\ len d <= MAX_PAYLOAD_SIZE /\
  (syn (header seg) = true -> k = 0) /\
  (d <> [] -> 1 <= k /\ k - 1 + len d <= len w /\ d = slice w (k - 1) (len d)) /\
  (fin (header seg) = true -> c = true /\ k - 1 + len d = len w).

Lemma carries_segment_of q isn k seg :
  Spec.taken q <= len (Spec.sent q) -> carries q isn k seg \/ pure_ack isn k seg ->
  segment_of isn (Spec.sent q) (Spec.closed q) k seg.
Proof.
  intros Ht [[H1 H2 H3 H4]|[H1 H2 [H3 H4]]]; unfold segment_of; cbv zeta.
  - split_and!; try done; destruct (syn (header seg)); try done; [by destruct H3|by destruct H3 as (_ & -> & _)|].
    intros _. destruct H3 as (? & ? & ?). split_and!; [done|lia|done].
  - rewrite H2, H3, H4. split_and!; done.
Qed.

(** C8: on every run of the sender in which [fill_window] is not called in the one state
    where it would send a second FIN (all of the stream and the FIN sent, the window
    closed, no probe out; see [second_fin_sent]): every segment the sender has queued
    (new, retransmitted, probe or empty) carries bytes of the stream its writer wrote, at
    the position its sequence number says, with FIN only behind the last byte of an ended
    stream; and the next sequence number counts the SYN, the bytes taken from the stream
    and the FIN, and never exceeds the length of the stream plus 2. *)
Theorem sender_sends_stream cap rto isn w c s :
  srun cap rto isn w c s ->
  Forall (fun seg => exists k, 0 <= k <= next_seqno_absolute s /\ segment_of isn w c k seg) (segments_out s) /\
  bytes_in_flight s <= next_seqno_absolute s <= len w + 2 /\
  (next_seqno_absolute s = 0 \/
   next_seqno_absolute s = 1 + ByteStream.bytes_read (stream_in s) \/
   (next_seqno_absolute s = 2 + len w /\ c = true /\ ByteStream.eof (stream_in s) = true)).
Proof.
  intros Hrun. destruct (srun_ok _ _ _ _ _ _ Hrun) as (q & fins & Hs & <- & <- & <-).
  pose proof (sender_taken _ _ _ Hs). pose proof (flight_range _ _ _ Hs). pose proof (next_seqno_range _ _ _ Hs).
  pose proof (so_bound _ _ _ Hs). unfold next_seqno_absolute. split_and!; [|lia..|].
  - eapply Forall_impl; [|exact (so_queue _ _ _ Hs)]. intros seg (k & Hk & Hc). exists k. split; [done|]. apply carries_segment_of; [lia|done].
  - destruct (Z.eq_dec (_next_seqno s) 0) as [?|Hn]; [by left|right].
    rewrite (so_next _ _ _ Hs Hn), (sender_eof _ _ _ Hs). unfold sent_up_to, Spec.at_end.
    unfold ByteStream.bytes_read, stream_in. rewrite (ref_read _ _ (so_stream _ _ _ Hs)), u64_small by lia.
    destruct fins; [|left; lia]. destruct (so_fins _ _ _ Hs eq_refl) as [-> ->]. rewrite Z.eqb_refl. right. split; [lia|done].
Qed.

(** Every pass of the loop takes a byte, in any state. *)
Lemma flight_nonneg s : 0 <= bytes_in_flight s.
Proof.
  unfold bytes_in_flight. assert (K : forall (m : list (Z * TCPSegment)) acc, 0 <= acc -> 0 <= fold_left (fun total p => u64 (total + length_in_sequence_space p.2)) m acc);
    [|by apply (K (_outstanding_segs s))].
  intros m. induction m as [|p m IH]; intros acc H; cbn [fold_left]; [done|]. apply IH, u64_range.
Qed.

Lemma send_new_keeps s seg : _win_size (send_new s seg) = _win_size s /\ _stream (send_new s seg) = _stream s.
Proof. unfold send_new, start_timer. by destruct (negb _). Qed.

Lemma fill_loop_total fuel s :
  0 <= _win_size s < 65536 -> (length (ByteStream._buffer (stream_in s)) <= fuel)%nat -> exists s', fill_loop fuel s = Ok s'.
Proof.
  revert s. induction fuel as [|fuel IH]; intros s Hw Hf; cbn [fill_loop].
  { destruct (ByteStream._buffer (stream_in s)) eqn:E; [|simpl in Hf; lia]. unfold ByteStream.buffer_empty. rewrite E. by eexists. }
  destruct (negb _ && _) eqn:E; [|by eexists]. apply andb_true_iff in E as [E1%negb_true_iff E2%Z.ltb_lt].
  unfold ByteStream.buffer_empty in E1. apply Z.eqb_neq in E1. pose proof (flight_nonneg s).
  pose proof (len_nonneg (ByteStream._buffer (stream_in s))). cbv zeta. set (n := u16 _).
  assert (Hn : 1 <= n).
  { unfold n. rewrite u64_small by lia. unfold MAX_PAYLOAD_SIZE. case_bool; unfold u16; rewrite Z.mod_small; lia. }
  unfold ByteStream.read. set (s1 := s <| _stream := _ |>).
  match goal with |- context [send_new s1 ?x] => destruct (send_new_keeps s1 x) as [K1 K2] end.
  apply IH; [by rewrite K1|]. unfold stream_in at 1. rewrite K2. change (_stream s1) with (ByteStream.pop_output (_stream s) n).
  unfold ByteStream.pop_output. sponge_simpl. unfold slice. rewrite length_take, length_drop. unfold stream_in, len in *. lia.
Qed.

Lemma fill_window_total s : 0 <= _win_size s < 65536 -> exists s', fill_window s = Ok s'.
Proof.
  intros Hw. unfold fill_window. case_bool; [by eexists|]. case_bool; [|case_bool; by eexists].
  cbv zeta. apply fill_loop_total; [|done]. destruct (ByteStream.eof _ && _); [|done]. by rewrite (proj1 (send_new_keeps _ _)).
Qed.

(** C18: [fill_window] returns in every state whose window has 16 bits, whether or not a
    run leads there. And on every run without a second FIN ([srun]), with an open window
    and no probe out it never sends past the window, and it stops only when the window is
    full or there is nothing left to send: the buffer is empty and, at the end of the
    stream, the FIN is out. *)
Theorem fill_window_fills s :
  0 <= _win_size s < 65536 ->
  exists s', fill_window s = Ok s' /\
    forall cap rto isn w c, srun cap rto isn w c s ->
    next_seqno_absolute s <> 0 -> bytes_in_flight s < _win_size s -> get_zero_seg_send s = false ->
      bytes_in_flight s' <= _win_size s /\
      (bytes_in_flight s' < _win_size s ->
        ByteStream.buffer_empty (stream_in s') = true /\
        (ByteStream.eof (stream_in s') = true -> next_seqno_absolute s' = len w + 2)).
Proof.
  intros Hwin. destruct (fill_window_total s Hwin) as [s' Hf]. exists s'. split; [done|]. intros cap rto isn w c Hrun Hn Hw Hz.
  destruct (srun_ok _ _ _ _ _ _ Hrun) as (q & fins & Hs & <- & _ & _).
  destruct (fill_open_spec q fins s Hs Hn Hw Hz) as (q' & fins' & s1 & Hf' & [F1 F2 F3 [F4 _] F5 F6 F7 F8]).
  rewrite Hf in Hf'. injection Hf' as <-. split; [lia|]. intros Hlt.
  rewrite (sender_buffer_empty _ _ _ F1), Z.eqb_eq, (sender_eof _ _ _ F1). split; [lia|]. intros He.
  destruct (F8 He) as [->|?]; [|lia]. unfold next_seqno_absolute.
  destruct (so_fins _ _ _ F1 eq_refl) as [_ Ht]. pose proof (sender_taken _ _ _ F1).
  assert (Hn' : _next_seqno s' <> 0) by (intros E; by destruct (so_start _ _ _ F1 E) as (_ & ? & _)).
  rewrite (so_next _ _ _ F1 Hn'). unfold sent_up_to. rewrite Ht, F4. lia.
Qed.

(** C10: an acknowledgment of the absolute number [a] removes from the segments in
    flight exactly those it covers completely, records the window, and stops the
    timer when nothing is left; an acknowledgment of something never sent changes
    nothing. *)
Theorem ack_removes_covered cap rto isn w c s ackno win :
  srun cap rto isn w c s -> wi_ok ackno ->
  (forall a, 0 <= a <= next_seqno_absolute s -> next_seqno_absolute s < a + 4294967296 -> ackno = wrap a isn ->
    let s' := ack_received s ackno win in
    _outstanding_segs s' = List.filter (unacked a) (_outstanding_segs s) /\
    _win_size s' = win /\
    (timer_running s' = true -> _outstanding_segs s' <> [] \/ get_zero_seg_send s' = true)) /\
  ((forall a, 0 <= a <= next_seqno_absolute s -> wrap a isn <> ackno) -> ack_received s ackno win = s).
Proof.
  intros Hrun Ha. destruct (srun_ok _ _ _ _ _ _ Hrun) as (q & fins & Hs & _ & _ & <-).
  pose proof (ack_received_spec q fins s ackno win Hs Ha) as H. cbv zeta in H.
  pose proof (next_seqno_range _ _ _ Hs). pose proof (so_isn _ _ _ Hs) as Hi. unfold next_seqno_absolute.
  split.
  - intros a Ha1 Ha2 ->. rewrite (last_ack_wrap a) in H by done. rewrite (proj2 (Z.ltb_ge a 0)) in H by lia.
    destruct H as [-> [-> _] _ _ _ ->]. split; [done|]. split; [done|].
    destruct (List.filter _ _); [|by left]. cbn. intros [? _]%andb_true_iff. by right.
  - intros Hno. destruct (Z.ltb_spec (last_ack ackno (_isn s) (_next_seqno s)) 0); [done|]. exfalso.
    apply (Hno (last_ack ackno (_isn s) (_next_seqno s))).
    + unfold last_ack in *. pose proof (u32_range (_next_seqno s - unwrap_base ackno (_isn s))). lia.
    + apply wrap_iff; [done|done|]. unfold last_ack, candidate, u32.
      exists ((_next_seqno s - unwrap_base ackno (_isn s)) / 4294967296).
      pose proof (Z.div_mod (_next_seqno s - unwrap_base ackno (_isn s)) 4294967296). lia.
Qed.

(** C29: the retransmission timeout is always the initial one doubled once per
    consecutive retransmission.  An acknowledgment of something that was sent resets the
    count and restarts the timer with the initial timeout exactly if its number differs
    from that of the last acknowledgment taken, which is 0 before the first; an equal one
    changes neither.  (So the code takes an old acknowledgment for a new one, and may miss
    the first; see [newest_ack_misjudged].) *)
Theorem sender_exponential_backoff cap rto isn w c s ackno win :
  srun cap rto isn w c s -> wi_ok ackno ->
  (exists a, 0 <= a <= next_seqno_absolute s /\ wrap a isn = ackno) ->
  _initial_retransmission_timeout s = rto * 2 ^ consecutive_retransmissions s /\
  let s' := ack_received s ackno win in
  _ackno s' = ackno /\
  if wi_neqb (_ackno s) ackno
  then consecutive_retransmissions s' = 0 /\ _initial_retransmission_timeout s' = rto /\ _rx_time_left s' = rto
  else consecutive_retransmissions s' = consecutive_retransmissions s /\ _rx_time_left s' = _rx_time_left s /\
    _initial_retransmission_timeout s' = _initial_retransmission_timeout s.
Proof.
  intros Hrun Ha (a & Ha1 & Ha2). destruct (srun_rto _ _ _ _ _ _ Hrun) as [Hr [H1 H2]].
  destruct (srun_ok _ _ _ _ _ _ Hrun) as (q & fins & Hs & _ & _ & Hi). unfold MAX_RETX_ATTEMPTS in *.
  unfold consecutive_retransmissions. rewrite u32_small by lia. split; [done|]. cbv zeta.
  pose proof (ack_received_spec q fins s ackno win Hs Ha) as H. cbv zeta in H.
  pose proof (next_seqno_range _ _ _ Hs). pose proof (so_bound _ _ _ Hs).
  pose proof (last_ack_unwrap ackno (_isn s) (_next_seqno s) Ha (so_isn _ _ _ Hs) ltac:(lia)) as Hu.
  assert (Hl : 0 <= last_ack ackno (_isn s) (_next_seqno s)).
  { rewrite <- Ha2, Hi in *. unfold last_ack, unwrap_base. rewrite wrap_raw. unfold u32, next_seqno_absolute in *.
    rewrite Zminus_mod_idemp_l. replace (raw_value isn + a - raw_value isn) with a by lia.
    rewrite Zminus_mod_idemp_r. pose proof (Z.mod_le (_next_seqno s - a) 4294967296). lia. }
  rewrite (proj2 (Z.ltb_ge _ _)) in H by lia. destruct H as [_ [_ Hk] _ _ Ht _]. split; [done|].
  destruct (wi_neqb (_ackno s) ackno); destruct Ht as (T1 & T2 & T3).
  - rewrite T1, T3, T2, H2, Z.shiftr_div_pow2, Z.div_mul by (try lia; apply Z.pow_nonzero; lia). done.
  - by rewrite T1, u32_small by lia.
Qed.

(** While the timer runs and no probe is out, [tick] counts down, and when the
    time is up it queues the oldest segment in flight again and restarts the timer,
    with the timeout and the count of retransmissions doubled and incremented
    unless the peer's window is closed (an unacknowledged SYN always backs off). *)
Theorem tick_retransmits_oldest cap rto isn w c s ms k first m :
  srun cap rto isn w c s -> _rx_times s <= MAX_RETX_ATTEMPTS ->
  get_zero_seg_send s = false -> timer_running s = true -> _outstanding_segs s = (k, first) :: m -> 0 <= ms ->
  let s' := tick s ms in
  if ms <? _rx_time_left s
  then segments_out s' = segments_out s /\ _rx_time_left s' = _rx_time_left s - ms /\
       consecutive_retransmissions s' = consecutive_retransmissions s
  else segments_out s' = segments_out s ++ [first] /\ _rx_time_left s' = _initial_retransmission_timeout s' /\
       (0 < _win_size s \/ bytes_in_flight s = next_seqno_absolute s ->
         consecutive_retransmissions s' = consecutive_retransmissions s + 1 /\
         _initial_retransmission_timeout s' = 2 * _initial_retransmission_timeout s) /\
       (_win_size s = 0 -> bytes_in_flight s < next_seqno_absolute s ->
         consecutive_retransmissions s' = consecutive_retransmissions s /\
         _initial_retransmission_timeout s' = _initial_retransmission_timeout s).
Proof.
  intros Hrun Hm Hz Ht Ho Hms. cbv zeta. destruct (srun_rto _ _ _ _ _ _ Hrun) as [Hr Hrto].
  destruct (srun_ok _ _ _ _ _ _ Hrun) as (q & fins & Hs & _). pose proof (so_win _ _ _ Hs).
  pose proof (flight_range _ _ _ Hs). unfold get_zero_seg_send, next_seqno_absolute in *.
  unfold tick. rewrite Hz, Ho, Ht. cbn [negb]. cbv zeta.
  change (_rx_time_left (s <| _rx_time_left := time_left_after s ms |>)) with (time_left_after s ms).
  unfold time_left_after. destruct (Z.ltb_spec ms (_rx_time_left s)).
  { by rewrite (proj2 (Z.eqb_neq _ _)) by lia. }
  rewrite Z.eqb_refl. set (s1 := s <| _rx_time_left := 0 |>).
  destruct (back_off_rto rto s1 Hr Hrto Hm) as [B1 B2]. destruct Hrto as [R1 R2]. unfold MAX_RETX_ATTEMPTS in *.
  split; [change (_segments_out (back_off s1) ++ [first] = segments_out s ++ [first]); by rewrite (proj2 (back_off_step s1))|].
  split; [done|]. unfold consecutive_retransmissions.
  change (_rx_times (resend (back_off s1) first)) with (_rx_times (back_off s1)).
  change (_initial_retransmission_timeout (resend (back_off s1) first)) with (_initial_retransmission_timeout (back_off s1)).
  rewrite !(u32_small (_rx_times _)) by lia. rewrite B2, R2.
  assert (Hb : _rx_times (back_off s1) =
    if negb (_win_size s =? 0) || ((0 <? _next_seqno s) && (_next_seqno s =? bytes_in_flight s))
    then _rx_times s + 1 else _rx_times s).
  { unfold back_off. change (bytes_in_flight s1) with (bytes_in_flight s). change (next_seqno_absolute s1) with (_next_seqno s).
    change (_win_size s1) with (_win_size s). destruct (_ || _); [|done].
    change (u64 (_rx_times s + 1) = _rx_times s + 1). apply u64_small. lia. }
  rewrite Hb. split; intros.
  - assert (Hnz : _next_seqno s <> 0).
    { intros E. pose proof (so_flight _ _ _ Hs) as Hf. rewrite E, Ho in Hf. pose proof (in_flight_bounds _ _ _ _ _ Hf) as Hb'.
      cbn [in_flight OMap.total] in *. assert (0 <= OMap.total length_in_sequence_space m) by (apply OMap.total_nonneg; intros; apply u64_range). lia. }
    replace (negb _ || _) with true; [rewrite Z.pow_add_r by lia; split; lia|]. symmetry. apply orb_true_iff.
    rewrite negb_true_iff, Z.eqb_neq, andb_true_iff, Z.ltb_lt, Z.eqb_eq. lia.
  - replace (negb _ || _) with false; [done|]. symmetry. apply orb_false_iff.
    rewrite negb_false_iff, Z.eqb_eq, andb_false_iff, Z.ltb_ge, Z.eqb_neq. lia.
Qed.

(** ** Witnesses *)

Definition demo_isn : WrappingInt32 := mkWrappingInt32 4294967294.
Definition demo_new : TCPSender := TCPSender.new 16 1000 (Some demo_isn) 0.
(** The SYN is sent, acknowledged with a window of 5, eight bytes are written and five of them sent. *)
Definition demo_syn : TCPSender := res_or (fill_window demo_new) demo_new.
Definition demo_open : TCPSender := ack_received demo_syn (wrap 1 demo_isn) 5.
Definition demo_bytes : bytes := [x61; x62; x63; x64; x65; x66; x67; x68].
Definition demo_written : TCPSender :=
  demo_open <| _stream := (ByteStream.write (_stream demo_open) demo_bytes).1 |>.
Definition demo_sent : TCPSender := res_or (fill_window demo_written) demo_written.

Lemma demo_written_run : srun 16 1000 demo_isn demo_bytes false demo_written.
Proof.
  apply (sr_write 16 1000 demo_isn [] demo_open demo_bytes); [|reflexivity].
  apply sr_ack; [|vm_compute; split; congruence|lia].
  apply (sr_fill _ _ _ _ _ demo_new); [|reflexivity|vm_compute; reflexivity].
  apply sr_new; [lia..|vm_compute; split; congruence].
Qed.

Lemma demo_sent_run : srun 16 1000 demo_isn demo_bytes false demo_sent.
Proof.
  apply (sr_fill _ _ _ _ _ demo_written); [apply demo_written_run|reflexivity|vm_compute; reflexivity].
Qed.

Lemma sender_sends_stream_witness :
  Forall (fun seg => exists k, 0 <= k <= 6 /\ segment_of demo_isn demo_bytes false k seg) (segments_out demo_sent).
Proof. exact (proj1 (sender_sends_stream 16 1000 demo_isn demo_bytes false demo_sent demo_sent_run)). Defined.

Lemma fill_window_fills_witness :
  exists s', fill_window demo_written = Ok s' /\ bytes_in_flight s' <= 5.
Proof.
  destruct (fill_window_fills demo_written) as (s' & H & Hf); [vm_compute; split; congruence|].
  exists s'. split; [exact H|]. apply (Hf _ _ _ _ _ demo_written_run); vm_compute; congruence.
Defined.

Lemma ack_removes_covered_witness :
  _outstanding_segs (ack_received demo_sent (wrap 6 demo_isn) 10) = [].
Proof.
  destruct (ack_removes_covered 16 1000 demo_isn demo_bytes false demo_sent (wrap 6 demo_isn) 10 demo_sent_run
    (wrap_ok 6 demo_isn)) as [Hok _].
  destruct (Hok 6) as (Hf & _); [split; vm_compute; congruence|reflexivity|reflexivity|]. rewrite Hf. reflexivity.
Defined.

(** Five bytes are in flight and their segment was sent again. *)
Definition demo_resent : TCPSender := tick demo_sent 1000.

Lemma sender_exponential_backoff_witness :
  consecutive_retransmissions demo_resent = 1 /\ _initial_retransmission_timeout demo_resent = 1000 * 2 ^ 1 /\
  _initial_retransmission_timeout (ack_received demo_resent (wrap 6 demo_isn) 10) = 1000.
Proof.
  assert (Hrun : srun 16 1000 demo_isn demo_bytes false demo_resent)
    by (apply sr_tick; [exact demo_sent_run|vm_compute; congruence]).
  destruct (sender_exponential_backoff 16 1000 demo_isn demo_bytes false demo_resent (wrap 6 demo_isn) 10 Hrun
    (wrap_ok 6 demo_isn)) as (H1 & _ & H2).
  - exists 6. split; [split; vm_compute; congruence|reflexivity].
  - assert (E : wi_neqb (_ackno demo_resent) (wrap 6 demo_isn) = true) by (vm_compute; reflexivity).
    assert (C : consecutive_retransmissions demo_resent = 1) by (vm_compute; reflexivity).
    rewrite E in H2. rewrite C in H1. split; [exact C|]. split; [exact H1|exact (proj1 (proj2 H2))].
Defined.

Lemma tick_retransmits_oldest_witness :
  segments_out (tick demo_sent 1000) = segments_out demo_sent ++ [data_segment demo_written [x61; x62; x63; x64; x65] false].
Proof.
  assert (Hm : _rx_times demo_sent <= MAX_RETX_ATTEMPTS) by (vm_compute; congruence).
  assert (Ho : _outstanding_segs demo_sent = [(1, data_segment demo_written [x61; x62; x63; x64; x65] false)])
    by (vm_compute; reflexivity).
  assert (Hz : get_zero_seg_send demo_sent = false /\ timer_running demo_sent = true) by (vm_compute; split; reflexivity).
  pose proof (tick_retransmits_oldest 16 1000 demo_isn demo_bytes false demo_sent 1000 1
    (data_segment demo_written [x61; x62; x63; x64; x65] false) [] demo_sent_run Hm (proj1 Hz) (proj2 Hz) Ho
    ltac:(lia)) as H.
  cbv zeta in H. replace (1000 <? _rx_time_left demo_sent) with false in H by (vm_compute; reflexivity).
  exact (proj1 H).
Defined.

(** When the peer acknowledges the FIN and closes its window in the same
    segment, the next [fill_window] probes with a second FIN, one sequence number
    behind the end of the stream: the next sequence number is then the length of
    the stream plus 3. *)
Theorem second_fin_sent :
  let s0 := demo_open <| _stream := ByteStream.end_input (_stream demo_open) |> in
  exists s1 s2 f1 f2,
    fill_window s0 = Ok s1 /\ fill_window (ack_received s1 (wrap 2 demo_isn) 0) = Ok s2 /\
    segments_out s2 = segments_out s0 ++ [f1; f2] /\
    fin (header f1) = true /\ seqno (header f1) = wrap 1 demo_isn /\
    fin (header f2) = true /\ seqno (header f2) = wrap 2 demo_isn /\
    next_seqno_absolute s2 = ByteStream.bytes_written (stream_in s2) + 3.
Proof. do 4 eexists. split; [vm_compute; reflexivity|]. split; [vm_compute; reflexivity|]. split_and!; reflexivity. Qed.

(** The reset of the timeout goes by a difference of acknowledgment numbers.  An old
    acknowledgment differs from the last one and resets the count of retransmissions
    although it acknowledges nothing; the first acknowledgment of a sender whose
    initial sequence number is 2^32 - 1 is the initial value of [_ackno], and resets
    nothing although it acknowledges the SYN. *)
Theorem newest_ack_misjudged :
  let acked := ack_received demo_sent (wrap 6 demo_isn) 5 in
  let waiting := tick (res_or (fill_window acked) acked) 1000 in
  let stale := ack_received waiting (wrap 1 demo_isn) 5 in
  let last_isn := mkWrappingInt32 4294967295 in
  let s0 := TCPSender.new 16 1000 (Some last_isn) 0 in
  let syn_resent := tick (res_or (fill_window s0) s0) 1000 in
  let first := ack_received syn_resent (wrap 1 last_isn) 5 in
  consecutive_retransmissions waiting = 1 /\ consecutive_retransmissions stale = 0 /\
  _outstanding_segs stale = _outstanding_segs waiting /\
  consecutive_retransmissions syn_resent = 1 /\ consecutive_retransmissions first = 1 /\
  length (_outstanding_segs syn_resent) = 1%nat /\ _outstanding_segs first = [].
Proof. cbv zeta. split_and!; vm_compute; reflexivity. Qed.
