(* ===== verification/Transfer.v ===== *)
(** * A sender and a receiver over an unreliable network

    One direction of a connection: a [TCPSender] and a [TCPReceiver] joined by a
    network that loses, repeats and reorders segments and acknowledgments.  The
    writer, the reader, the sender's calls, the network and the receiver's
    acknowledgments interleave in any way ([transfer]).  What the reader gets is a
    prefix of what the writer wrote, the end is signalled only behind all of it, and
    what the sender no longer keeps has arrived. *)

From stdpp Require Import base list numbers option.
From Stdlib Require Import ZArith Lia Strings.Byte.
From S2P Require Import Prelude.
From S2P Require Import OMap.
From S2P Require Import ByteStream.
From S2P Require Import StreamReassembler.
From S2P Require Import Reassembly.
From S2P Require Import WrappingIntegers.
From S2P Require Import Buffer.
From S2P Require Import TCPHeader.
From S2P Require Import TCPSegment.
From S2P Require Import TCPReceiver.
From S2P Require Import TCPConfig.
From S2P Require Import TCPSender.
From S2P Require Import Sending.
#[local] Open Scope Z_scope.

(** ** The system *)

(** [wire] are the segments handed to the network, [acks] the acknowledgment
    numbers and windows the receiver's side has sent, [got] what the reader read. *)
Record link := mkLink {
  tx : TCPSender;
  rx : TCPReceiver;
  wire : list TCPSegment;
  acks : list (WrappingInt32 * Z);
  got : bytes;
}.
#[global] Instance link_eta : RecordEta link := fun n => mkLink (tx n) (rx n) (wire n) (acks n) (got n).

(** The absolute sequence number of a segment of a stream shorter than 2^32. *)
Definition position (isn : WrappingInt32) (seg : TCPSegment) : Z := unwrap_base (seqno (header seg)) isn.

(** The payload lies inside the window of the receiver or behind all of it. *)
Definition fits (isn : WrappingInt32) (r : TCPReceiver) (seg : TCPSegment) : Prop :=
  let i := position isn seg - 1 in
  str (payload seg) = [] \/ i + len (str (payload seg)) <= window (_reassembler r) \/ window (_reassembler r) <= i.

(** What a segment of the receiver's side carries: its acknowledgment number and its
    window cut to 16 bits. *)
Definition advertises (r : TCPReceiver) (a : WrappingInt32) (win : Z) : Prop :=
  TCPReceiver.ackno r = Some a /\ win = u16 (window_size r).

(** The network delivers any segment it was ever given, as often as it likes, or
    never; acknowledgments as well. *)
Inductive transfer (cap rto rcap : Z) (isn : WrappingInt32) : bytes -> bool -> link -> Prop :=
| t_start :
    0 <= cap < 18446744073709551616 -> 0 <= rto < 65536 -> 0 <= rcap < 9223372036854775808 -> wi_ok isn ->
    transfer cap rto rcap isn [] false (mkLink (TCPSender.new cap rto (Some isn) 0) (TCPReceiver.new rcap) [] [] [])
| t_write w n d :
    transfer cap rto rcap isn w false n -> len w + len d + 2 < 2147483648 ->
    transfer cap rto rcap isn (w ++ prefix_str d (ByteStream.remaining_capacity (stream_in (tx n)))) false
      (n <| tx := (tx n) <| _stream := (ByteStream.write (_stream (tx n)) d).1 |> |>)
| t_end w c n :
    transfer cap rto rcap isn w c n ->
    transfer cap rto rcap isn w true (n <| tx := (tx n) <| _stream := ByteStream.end_input (_stream (tx n)) |> |>)
| t_fill w c n s :
    transfer cap rto rcap isn w c n -> second_fin_risk (tx n) = false -> fill_window (tx n) = Ok s ->
    transfer cap rto rcap isn w c (n <| tx := s |>)
| t_tick w c n ms :
    transfer cap rto rcap isn w c n -> transfer cap rto rcap isn w c (n <| tx := tick (tx n) ms |>)
| t_empty w c n :
    transfer cap rto rcap isn w c n -> transfer cap rto rcap isn w c (n <| tx := send_empty_segment (tx n) |>)
| t_send w c n seg rest :
    transfer cap rto rcap isn w c n -> _segments_out (tx n) = seg :: rest ->
    transfer cap rto rcap isn w c (n <| tx := (tx n) <| _segments_out := rest |> |> <| wire := wire n ++ [seg] |>)
| t_deliver w c n seg r :
    transfer cap rto rcap isn w c n -> In seg (wire n) -> fits isn (rx n) seg ->
    segment_received (rx n) seg = Ok r -> transfer cap rto rcap isn w c (n <| rx := r |>)
| t_read w c n k :
    transfer cap rto rcap isn w c n -> 0 <= k ->
    transfer cap rto rcap isn w c
      (n <| rx := read_out (rx n) k |> <| got := got n ++ ByteStream.peek_output (stream_out (rx n)) k |>)
| t_ack w c n a win :
    transfer cap rto rcap isn w c n -> advertises (rx n) a win ->
    transfer cap rto rcap isn w c (n <| acks := acks n ++ [(a, win)] |>)
| t_acked w c n a win :
    transfer cap rto rcap isn w c n -> In (a, win) (acks n) ->
    transfer cap rto rcap isn w c (n <| tx := ack_received (tx n) a win |>).

(** ** The history of the sender *)

(** Every segment of new sequence numbers ever queued, in order: [h].  What is in
    flight, probing or queued comes from it. *)
Record history (q : Spec.fifo) (h : list (Z * TCPSegment)) (s : TCPSender) : Prop := {
  h_seqnos : contiguous 0 (_next_seqno s) h;
  h_carries : Forall (fun p => carries q (_isn s) p.1 p.2) h;
  h_flight : incl (_outstanding_segs s) h;
  h_probe : _zero_win_seg_send s = true ->
            In (_zero_win_seg_seq s, _zero_win_seg s) h /\ length_in_sequence_space (_zero_win_seg s) = 1;
}.

(** A segment that comes from the history, or has no sequence numbers. *)
Definition known (isn : WrappingInt32) (next : Z) (h : list (Z * TCPSegment)) (seg : TCPSegment) : Prop :=
  (exists k, In (k, seg) h) \/ (exists k, 0 <= k <= next /\ pure_ack isn k seg).

(** What the sender no longer keeps was acknowledged up to [a]. *)
Definition kept (a : Z) (h : list (Z * TCPSegment)) (s : TCPSender) : Prop :=
  forall k seg, In (k, seg) h ->
    k + length_in_sequence_space seg <= a \/ In (k, seg) (_outstanding_segs s) \/
    (_zero_win_seg_send s = true /\ k = _zero_win_seg_seq s /\ seg = _zero_win_seg s).

Lemma known_mono isn next next' h more seg :
  next <= next' -> known isn next h seg -> known isn next' (h ++ more) seg.
Proof.
  intros Hn [(k & Hk)|(k & Hk & Hp)]; [left; exists k; apply in_or_app; by left|right; exists k; split; [lia|done]].
Qed.

Lemma contiguous_le lo hi l : contiguous lo hi l -> lo <= hi.
Proof.
  revert lo. induction l as [|[k seg] l IH]; intros lo; simpl; [lia|]. intros [-> H%IH].
  assert (0 <= length_in_sequence_space seg) by apply u64_range. lia.
Qed.

Lemma contiguous_In lo hi l k seg :
  contiguous lo hi l -> In (k, seg) l -> lo <= k /\ k + length_in_sequence_space seg <= hi.
Proof.
  revert lo. induction l as [|[k1 seg1] l IH]; intros lo; simpl; [done|]. intros [-> H] [[= -> ->]|Hin].
  - apply contiguous_le in H. lia.
  - destruct (IH _ H Hin). assert (0 <= length_in_sequence_space seg1) by apply u64_range. lia.
Qed.

(** Two segments with sequence numbers that end at the same number are one. *)
Lemma contiguous_end lo hi l k1 seg1 k2 seg2 :
  contiguous lo hi l -> In (k1, seg1) l -> In (k2, seg2) l ->
  1 <= length_in_sequence_space seg1 -> 1 <= length_in_sequence_space seg2 ->
  forall x, k1 <= x < k1 + length_in_sequence_space seg1 -> k2 <= x < k2 + length_in_sequence_space seg2 ->
  (k1, seg1) = (k2, seg2).
Proof.
  revert lo. induction l as [|[k seg] l IH]; intros lo; simpl; [done|]. intros [-> H] H1 H2 L1 L2 x X1 X2.
  destruct H1 as [[= -> ->]|H1], H2 as [[= -> ->]|H2]; [done| | |by eapply (IH _ H)].
  - pose proof (contiguous_In _ _ _ _ _ H H2). lia.
  - pose proof (contiguous_In _ _ _ _ _ H H1). lia.
Qed.

(** All acknowledged: the number behind the last one is. *)
Lemma contiguous_all lo hi l a :
  contiguous lo hi l -> lo <= a -> (forall k seg, In (k, seg) l -> k + length_in_sequence_space seg <= a) -> hi <= a.
Proof.
  revert lo. induction l as [|[k seg] l IH]; intros lo; simpl; [lia|]. intros [-> H] Hlo Hall.
  apply (IH _ H); [|eauto]. apply Hall. by left.
Qed.

(** ** Steps of the sender *)

Lemma in_flight_In q isn lo hi m k seg :
  in_flight q isn lo hi m -> In (k, seg) m -> carries q isn k seg /\ 1 <= length_in_sequence_space seg.
Proof.
  revert lo. induction m as [|[k1 seg1] m IH]; intros lo; simpl; [done|].
  intros (_ & ? & ? & H) [[= -> ->]|Hin]; eauto.
Qed.

Lemma history_grows q q' h s s' :
  grows q q' -> Spec.taken q <= len (Spec.sent q) -> history q h s ->
  _next_seqno s' = _next_seqno s -> _isn s' = _isn s -> incl (_outstanding_segs s') (_outstanding_segs s) ->
  (_zero_win_seg_send s' = true -> _zero_win_seg_send s = true) -> _zero_win_seg s' = _zero_win_seg s ->
  _zero_win_seg_seq s' = _zero_win_seg_seq s -> history q' h s'.
Proof.
  intros G Ht [H1 H2 H3 H4] E1 E2 E3 E4 E5 E6. split; rewrite ?E1, ?E2, ?E5, ?E6; auto.
  - eapply Forall_impl; [|exact H2]. intros p Hp. by eapply carries_grows.
  - by eapply incl_tran.
Qed.

(** What the steps preserve of history, queue and memory, from [s] to [s']. *)
Record sender_step (q : Spec.fifo) (h : list (Z * TCPSegment)) (s : TCPSender)
    (q' : Spec.fifo) (more : list (Z * TCPSegment)) (s' : TCPSender) : Prop := {
  st_history : history q' (h ++ more) s';
  st_queue : forall seg, In seg (_segments_out s') ->
               In seg (_segments_out s) \/ known (_isn s) (_next_seqno s') (h ++ more) seg;
  st_kept : forall a, kept a h s -> kept a (h ++ more) s';
  st_next : _next_seqno s <= _next_seqno s';
}.

Lemma launched_step q q' fins' h s new s' :
  grows q q' -> Spec.taken q <= len (Spec.sent q) -> sender_ok q' fins' s' -> _isn s' = _isn s ->
  history q h s -> launched s new s' -> sender_step q h s q' new s'.
Proof.
  intros G Ht Hs' Hi [H1 H2 H3 H4] [L1 L2 L3 (L4 & L5 & L6)]. split.
  - split.
    + by eapply contiguous_app.
    + apply Forall_app. split; rewrite Hi.
      * eapply Forall_impl; [|exact H2]. intros p Hp. by eapply carries_grows.
      * apply List.Forall_forall. intros [k seg] Hin. rewrite <- Hi.
        refine (proj1 (in_flight_In _ _ _ _ _ _ _ (so_flight _ _ _ Hs') _)). rewrite L2. apply in_or_app. by right.
    + rewrite L2. apply incl_app; [by apply incl_appl|apply incl_appr, incl_refl].
    + rewrite L4, L5, L6. intros Hz. destruct (H4 Hz). split; [apply in_or_app; by left|done].
  - rewrite L1. intros seg [?|Hin]%in_app_or; [by left|right]. apply in_map_iff in Hin as ([k seg'] & <- & Hin).
    left. exists k. apply in_or_app. by right.
  - intros a Hk k seg [Hin|Hin]%in_app_or; rewrite L2, L4, L5, L6.
    + destruct (Hk k seg Hin) as [?|[?|?]]; [by left|right; left; apply in_or_app; by left|right; by right].
    + right. left. apply in_or_app. by right.
  - by eapply contiguous_le.
Qed.

Lemma probed_step q q' fins' h s z s' :
  grows q q' -> Spec.taken q <= len (Spec.sent q) -> sender_ok q' fins' s' -> _isn s' = _isn s ->
  history q h s -> probed s z s' -> sender_step q h s q' [(_next_seqno s, z)] s'.
Proof.
  intros G Ht Hs' Hi [H1 H2 H3 H4] [L1 L2 L3 L4 L5 (L6 & L7 & L8)].
  assert (Hin : In (_next_seqno s, z) (h ++ [(_next_seqno s, z)])) by (apply in_or_app; right; by left).
  split.
  - split; rewrite ?L2, ?L6, ?L7, ?L8.
    + apply (contiguous_app _ (_next_seqno s)); [done|]. by split.
    + apply Forall_app. rewrite Hi. split.
      * eapply Forall_impl; [|exact H2]. intros p Hp. by eapply carries_grows.
      * apply Forall_singleton. simpl. destruct (so_probe _ _ _ Hs' L6) as [Hc _]. by rewrite L7, L8, Hi in Hc.
    + by apply incl_appl.
    + done.
  - rewrite L1. intros seg [?|[<-|[]]]%in_app_or; [by left|right; left; eauto].
  - intros a Hk k seg [Hk1|[[= <- <-]|[]]]%in_app_or; rewrite L2, L6, L7, L8.
    + destruct (Hk k seg Hk1) as [?|[?|(? & _)]]; [by left|right; by left|congruence].
    + right; by right.
  - lia.
Qed.

Lemma advanced_step q q' fins' h s s' :
  Spec.taken q <= len (Spec.sent q) -> advanced q q' fins' s s' -> history q h s ->
  exists more, sender_step q h s q' more s'.
Proof.
  intros Ht [A1 A2 _ [_ A3] [[new L]|[z P]]] Hh; eexists.
  - by eapply launched_step.
  - by eapply probed_step.
Qed.

(** A step that sends no new sequence numbers. *)
Lemma quiet_step q q' h s s' :
  history q' h s' -> _next_seqno s' = _next_seqno s -> incl (_outstanding_segs s) (_outstanding_segs s') ->
  same_probe s s' ->
  (forall seg, In seg (_segments_out s') -> In seg (_segments_out s) \/ known (_isn s) (_next_seqno s') h seg) ->
  sender_step q h s q' [] s'.
Proof.
  intros Hh Hn Ho (E1 & E2 & E3) Hq. split; rewrite ?app_nil_r; try done; [|lia].
  intros a Hk k seg Hin. rewrite E1, E2, E3. destruct (Hk k seg Hin) as [?|[?|?]]; auto.
Qed.

Lemma tick_step q fins h s ms :
  sender_ok q fins s -> history q h s -> sender_step q h s q [] (tick s ms) /\ _isn (tick s ms) = _isn s.
Proof.
  intros Hs Hh. pose proof (sender_taken _ _ _ Hs).
  assert (Htick : timer_step s (tick s ms) /\ forall seg, In seg (_segments_out (tick s ms)) ->
    In seg (_segments_out s) \/ exists k, In (k, seg) h).
  { unfold tick. destruct (_zero_win_seg_send s) eqn:Hz; cbv zeta.
    - destruct (_ =? 0); (split; [done|]); intros seg; [|by left]. change (In seg (_segments_out s ++ [_zero_win_seg s]) ->
        In seg (_segments_out s) \/ exists k, In (k, seg) h). intros [?|[<-|[]]]%in_app_or; [by left|right].
      destruct (h_probe _ _ _ Hh Hz). eauto.
    - destruct (_outstanding_segs s) as [|[k first] m] eqn:Hm; [by split; [|left]|].
      destruct (timer_running s); cbn [negb]; [|by split; [|left]]. destruct (_ =? 0); [|by split; [|left]].
      destruct (back_off_step (s <| _rx_time_left := time_left_after s ms |>)) as [[B1 B2] B3].
      split; [by split|]. intros seg. change (In seg (_segments_out (back_off (s <| _rx_time_left := time_left_after s ms |>))
        ++ [first]) -> In seg (_segments_out s) \/ exists k, In (k, seg) h). rewrite B3.
      intros [?|[<-|[]]]%in_app_or; [by left|right]. exists k. apply (h_flight _ _ _ Hh). rewrite Hm. by left. }
  destruct Htick as [[(T1 & _ & T2 & T3 & _) (T4 & T5 & T6)] Hq].
  split; [|done]. apply quiet_step; try done.
  - eapply history_grows; [apply grows_refl|lia|exact Hh|..]; try done; [rewrite T3; apply incl_refl|congruence].
  - rewrite T3. apply incl_refl.
  - intros seg [?|?]%Hq; [by left|right; by left].
Qed.

Lemma empty_step q fins h s :
  sender_ok q fins s -> history q h s -> sender_step q h s q [] (send_empty_segment s).
Proof.
  intros Hs Hh. pose proof (sender_taken _ _ _ Hs). pose proof (next_seqno_range _ _ _ Hs).
  apply quiet_step; try done.
  - eapply history_grows; [apply grows_refl|lia|exact Hh|..]; try done; apply incl_refl.
  - apply incl_refl.
  - intros seg [?|[<-|[]]]%in_app_or; [by left|right]. right. exists (_next_seqno s).
    split; [change (0 <= _next_seqno s <= _next_seqno s); lia|done].
Qed.

Lemma ack_step q fins h s a ackno win A :
  sender_ok q fins s -> history q h s -> kept A h s -> wi_ok (_isn s) ->
  ackno = wrap a (_isn s) -> 0 <= a <= A -> a <= _next_seqno s -> _next_seqno s < 4294967296 ->
  history q h (ack_received s ackno win) /\ kept A h (ack_received s ackno win) /\
  _isn (ack_received s ackno win) = _isn s /\ _next_seqno (ack_received s ackno win) = _next_seqno s /\
  _segments_out (ack_received s ackno win) = _segments_out s.
Proof.
  intros Hs Hh Hk Hi Hw Ha Hn Hlt. pose proof (sender_taken _ _ _ Hs).
  assert (wi_ok ackno) as Hwi by (rewrite Hw; apply wrap_ok).
  pose proof (ack_received_spec q fins s ackno win Hs Hwi) as H1. cbv zeta in H1.
  rewrite Hw, last_ack_wrap, <- Hw, (proj2 (Z.ltb_ge a 0)) in H1 by (done || lia).
  destruct H1 as [H1 _ (H2 & _ & H3 & H4) (H5 & H6 & H7) _ _]. split_and!; try done.
  - eapply history_grows; [apply grows_refl|lia|exact Hh|..]; try done.
    + rewrite H1. intros p [? _]%filter_In. done.
    + rewrite H5. by destruct (_ <? _).
  - intros k seg Hin. rewrite H1, H5, H6, H7.
    destruct (Hk k seg Hin) as [?|[Ho|(Hz & -> & ->)]]; [by left| |].
    + destruct (unacked a (k, seg)) eqn:Hu; [right; left; by apply filter_In|left].
      unfold unacked in Hu. apply Z.ltb_ge in Hu. simpl in Hu. lia.
    + destruct (Z.ltb_spec (_zero_win_seg_seq s) a); [left|right; by right].
      destruct (h_probe _ _ _ Hh Hz) as [_ ->]. lia.
Qed.

(** ** The receiver *)

(** The absolute number the receiver acknowledges. *)
Definition ack_number (r : TCPReceiver) : Z :=
  if _isn_set r then ByteStream.bytes_written (stream_out r) + (if ByteStream.input_ended (stream_out r) then 2 else 1)
  else 0.

Lemma tracks_ended s isn cap evs synced fn q r :
  tracks s isn cap evs synced fn q r ->
  ByteStream.input_ended (stream_out r) = fn && (ByteStream.bytes_written (stream_out r) =? len s).
Proof.
  intros T. pose proof (tr_abs _ _ _ _ _ _ _ _ T) as A. apply eq_true_iff_eq.
  rewrite andb_true_iff, Z.eqb_eq. unfold stream_out. rewrite (abs_written _ _ _ _ _ _ A). by eapply abs_ended.
Qed.

Lemma tracks_ack_number s isn cap evs synced fn q r :
  tracks s isn cap evs synced fn q r -> ack_number r = if synced then acked_up_to s fn r else 0.
Proof.
  intros T. unfold ack_number, acked_up_to. rewrite (tr_synced _ _ _ _ _ _ _ _ T), (tracks_ended _ _ _ _ _ _ _ _ T).
  destruct synced; [|done]. destruct (_ && _); lia.
Qed.

(** The complete streams the peer may turn out to send, given what it has sent. *)
Record extends (h : list (Z * TCPSegment)) (w : bytes) (c : bool) (s : source) : Prop := {
  x_text : exists more, text s = w ++ more /\ (c = true -> more = []);
  x_mark : forall k seg, In (k, seg) h -> str (payload seg) <> [] ->
           k - 1 + len (str (payload seg)) = len s -> fin (header seg) = attached s;
  x_len : len s + 2 < 2147483648;
}.

Record received_from (q : Spec.fifo) (fins : bool) (s : source) (isn : WrappingInt32) (cap : Z)
    (evs : list event) (synced fn : bool) (qr : Spec.fifo) (r : TCPReceiver) (out : bytes) : Prop := {
  rf_tracks : tracks s isn cap evs synced fn qr r;
  rf_pushed : forall j, was_pushed evs j -> j < Spec.taken q;
  rf_fin : fn = true -> fins = true;
  rf_out : out = take (Z.to_nat (ByteStream.bytes_read (stream_out r))) s;
}.

Lemma extends_sub h more w d c c' s :
  extends (h ++ more) (w ++ d) c' s -> (c = true -> c' = true /\ d = []) -> extends h w c s.
Proof.
  intros [(m & Hm & Hc) H2 H3] Hcc. split; [|intros k seg Hin; apply H2; apply in_or_app; by left|done].
  exists (d ++ m). rewrite app_assoc. split; [done|]. intros [? ->]%Hcc. by rewrite Hc.
Qed.

(** There is always one. *)
Definition reaches (w : bytes) (p : Z * TCPSegment) : bool :=
  (0 <? len (str (payload p.2))) && (p.1 - 1 + len (str (payload p.2)) =? len w) && fin (header p.2).

Lemma extends_exists q fins h s :
  sender_ok q fins s -> history q h s -> len (Spec.sent q) + 2 < 2147483648 ->
  extends h (Spec.sent q) (Spec.closed q) (Source (Spec.sent q) (existsb (reaches (Spec.sent q)) h)).
Proof.
  intros Hs [H1 H2 _ _] Hl. split; [exists []; by rewrite app_nil_r| |done]. intros k seg Hin Hd He. cbn [text attached] in *.
  assert (Hpos : forall d : bytes, d <> [] -> 0 < len d).
  { intros d Hne. pose proof (len_nonneg d). assert (len d <> 0) by (by intros ?%len_zero_nil). lia. }
  rewrite List.Forall_forall in H2. pose proof (carries_length _ _ _ _ (H2 _ Hin)) as L. simpl in L.
  destruct (fin (header seg)) eqn:Hf; symmetry.
  - apply existsb_exists. exists (k, seg). split; [done|]. unfold reaches. simpl. rewrite Hf, andb_true_r.
    apply andb_true_iff. rewrite Z.ltb_lt, Z.eqb_eq. split; [by apply Hpos|done].
  - apply not_true_iff_false. intros ([k' seg'] & Hin' & Hr)%existsb_exists.
    unfold reaches in Hr. simpl in Hr. apply andb_true_iff in Hr as [[Hp%Z.ltb_lt He'%Z.eqb_eq]%andb_true_iff Hf'].
    pose proof (carries_length _ _ _ _ (H2 _ Hin')) as L'. simpl in L'. pose proof (Hpos _ Hd).
    assert ((k, seg) = (k', seg')) as [= -> ->]; [|congruence].
    apply (contiguous_end _ _ _ _ _ _ _ H1 Hin Hin') with (x := len (Spec.sent q));
      rewrite ?L, ?L'; destruct (syn _), (fin _), (syn _), (fin _); lia.
Qed.

Lemma position_wrap k isn : 0 <= k < 4294967296 -> unwrap_base (wrap k isn) isn = k.
Proof.
  intros Hk. unfold unwrap_base. rewrite wrap_raw. unfold u32. rewrite Zminus_mod_idemp_l.
  replace (raw_value isn + k - raw_value isn) with k by lia. by rewrite Z.mod_small.
Qed.

Lemma tracks_read s isn cap evs synced fn q r :
  tracks s isn cap evs synced fn q r -> ByteStream.bytes_read (stream_out r) = Spec.taken q.
Proof. intros T. exact (abs_read _ _ _ _ _ _ (tr_abs _ _ _ _ _ _ _ _ T)). Qed.

(** A segment without sequence numbers from before the SYN is ignored. *)
Lemma segment_before_start s isn cap evs fn q r seg :
  tracks s isn cap evs true fn q r -> syn (header seg) = false -> seqno (header seg) = wrap 0 isn -> len s < 2147483648 ->
  segment_received r seg = Ok r.
Proof.
  intros T Hs Hq Hl. pose proof (written_range _ _ _ _ _ _ _ _ T). pose proof (tr_len _ _ _ _ _ _ _ _ T).
  pose proof (ab_inv _ _ _ _ _ _ (tr_abs _ _ _ _ _ _ _ _ T)) as I. pose proof (inv_bound _ _ _ I).
  unfold segment_received. rewrite Hs, (tr_synced _ _ _ _ _ _ _ _ T), (tr_isn _ _ _ _ _ _ _ _ T eq_refl), Hq.
  change (mkWrappingInt32 (raw_value (wrap 0 isn))) with (wrap 0 isn).
  rewrite unwrap_wrap by (apply (tr_ok _ _ _ _ _ _ _ _ T) || lia).
  rewrite (push_beyond _ _ _ _ _ _ I); [by destruct r|]. pose proof (window_abs _ _ _ I) as ->.
  pose proof (window_end_bound _ _ _ I). change (u64 (0 - 1)) with 18446744073709551615. lia.
Qed.

(** A segment of the sender reaches the receiver. *)
Section delivery.
Context (q : Spec.fifo) (fins : bool) (h : list (Z * TCPSegment)) (s : TCPSender) (S : source) (cap : Z).
Context (Hs : sender_ok q fins s) (Hh : history q h s) (Hx : extends h (Spec.sent q) (Spec.closed q) S).

(** What the receiver then has. *)
Definition delivered (evs : list event) (synced fn : bool) (r : TCPReceiver) (out : bytes) (seg : TCPSegment) : Prop :=
  exists evs' synced' fn' qr' r', segment_received r seg = Ok r' /\
    received_from q fins S (_isn s) cap evs' synced' fn' qr' r' out /\
    (forall j, was_pushed evs j -> was_pushed evs' j) /\ (synced = true -> synced' = true) /\ (fn = true -> fn' = true) /\
    (fn' = true -> fn = true \/
      (fin (header seg) = true /\ len S - len (str (payload seg)) < window (_reassembler r))).

Context (evs : list event) (synced fn : bool) (qr : Spec.fifo) (r : TCPReceiver) (out : bytes).
Context (R : received_from q fins S (_isn s) cap evs synced fn qr r out).

Lemma delivered_same seg : segment_received r seg = Ok r -> delivered evs synced fn r out seg.
Proof. intros E. exists evs, synced, fn, qr, r. split_and!; auto. Qed.

Lemma delivered_valid seg i :
  synced || syn (header seg) = true -> valid_seg S (_isn s) r seg i ->
  i + len (str (payload seg)) <= Spec.taken q \/ str (payload seg) = [] -> (fin (header seg) = true -> fins = true) ->
  delivered evs synced fn r out seg.
Proof.
  intros Hsy V Hd Hf. pose proof (rf_tracks _ _ _ _ _ _ _ _ _ _ _ R) as T.
  destruct (segment_tracks _ _ _ _ _ _ _ _ _ _ T Hsy V) as (q' & r' & Hok & T' & Ht).
  do 5 eexists. split; [exact Hok|]. split; [split; [exact T'|..]|].
  - intros j. rewrite was_pushed_snoc. intros [?%(rf_pushed _ _ _ _ _ _ _ _ _ _ _ R)|Hj]; [done|]. simpl in Hj.
    destruct Hd as [?|E]; [lia|]. rewrite E, len_nil in Hj. lia.
  - intros [?%(rf_fin _ _ _ _ _ _ _ _ _ _ _ R)|[? _]%andb_true_iff]%orb_true_iff; auto.
  - rewrite (rf_out _ _ _ _ _ _ _ _ _ _ _ R), (tracks_read _ _ _ _ _ _ _ _ T), (tracks_read _ _ _ _ _ _ _ _ T').
    by rewrite Ht.
  - split_and!; [intros j ?; rewrite was_pushed_snoc; by left|done|by intros ->|].
    intros [?|[Hfi Hi%Z.ltb_lt]%andb_true_iff]%orb_true_iff; [by left|right]. split; [done|].
    pose proof (vs_eof _ _ _ _ _ (seg_sub _ _ _ _ _ V) Hfi). lia.
Qed.

(** The sender's place of a segment is the receiver's. *)
Lemma placed_at seg k :
  seqno (header seg) = wrap k (_isn s) -> (syn (header seg) = true -> k = 0) ->
  1 <= k + (if syn (header seg) then 1 else 0) -> k <= _next_seqno s ->
  placed (_isn s) r seg (k - 1 + (if syn (header seg) then 1 else 0)).
Proof.
  intros Hq Hsyn Hk Hn. pose proof (rf_tracks _ _ _ _ _ _ _ _ _ _ _ R) as T.
  pose proof (written_range _ _ _ _ _ _ _ _ T). pose proof (next_seqno_range _ _ _ Hs). pose proof (x_len _ _ _ _ Hx).
  destruct (x_text _ _ _ _ Hx) as (m & Hm & _). pose proof (len_nonneg m).
  rewrite Hm, len_app in *.
  destruct (syn (header seg)) eqn:E; [specialize (Hsyn eq_refl); subst k|]; split; rewrite ?E; try done; try lia.
  - rewrite Hq. unfold wrap, wi_add. rewrite (u32_small 0), Z.add_0_r, u32_small by (apply Hs || lia). by destruct (_isn s).
  - rewrite Hq. f_equal. lia.
Qed.

Lemma segment_slice k (d : bytes) :
  d = slice (Spec.sent q) (k - 1) (len d) -> 1 <= k -> k - 1 + len d <= len (Spec.sent q) ->
  d = slice S (k - 1) (len d) /\ k - 1 + len d <= len S.
Proof.
  intros Hd Hk Hl. destruct (x_text _ _ _ _ Hx) as (m & -> & _). pose proof (len_nonneg d). pose proof (len_nonneg m).
  split; [by rewrite slice_grows by lia|rewrite len_app; lia].
Qed.

(** FIN was sent: the sender's count includes it. *)
Lemma fin_counted k seg : In (k, seg) h -> fin (header seg) = true -> fins = true.
Proof.
  intros Hin Hf. pose proof (h_carries _ _ _ Hh) as Hc. rewrite List.Forall_forall in Hc. specialize (Hc _ Hin). simpl in Hc.
  destruct (contiguous_In _ _ _ _ _ (h_seqnos _ _ _ Hh) Hin) as [Hk He]. rewrite (carries_length _ _ _ _ Hc), Hf in He.
  destruct (c_fin _ _ _ _ Hc Hf) as [_ Hl]. pose proof (sender_taken _ _ _ Hs). pose proof (len_nonneg (str (payload seg))).
  destruct fins eqn:E; [done|exfalso]. assert (Hn : _next_seqno s <> 0) by (destruct (syn _); lia).
  pose proof (so_next _ _ _ Hs Hn) as Hx'. unfold sent_up_to in Hx'. destruct (syn _); lia.
Qed.

Lemma closed_text : Spec.closed q = true -> len (Spec.sent q) = len S.
Proof. intros Hc. destruct (x_text _ _ _ _ Hx) as (m & -> & Hm). by rewrite (Hm Hc), app_nil_r. Qed.

(** A segment of the history is a valid one, if its bytes are inside the window. *)
Lemma data_valid k seg :
  In (k, seg) h -> syn (header seg) = false ->
  str (payload seg) = [] \/ k - 1 + len (str (payload seg)) <= window (_reassembler r) ->
  valid_seg S (_isn s) r seg (k - 1) /\ k - 1 + len (str (payload seg)) <= Spec.taken q.
Proof.
  intros Hin Hsy Hw. pose proof (h_carries _ _ _ Hh) as Hc. rewrite List.Forall_forall in Hc.
  specialize (Hc _ Hin). simpl in Hc. pose proof (contiguous_In _ _ _ _ _ (h_seqnos _ _ _ Hh) Hin) as [_ Hk].
  assert (0 <= length_in_sequence_space seg) by apply u64_range. pose proof (sender_taken _ _ _ Hs).
  pose proof (c_data _ _ _ _ Hc) as Hd. rewrite Hsy in Hd. destruct Hd as (Hk1 & Hk2 & Hd).
  pose proof (placed_at seg k (c_seqno _ _ _ _ Hc)) as P. rewrite Hsy, !Z.add_0_r in P.
  specialize (P ltac:(done) Hk1 ltac:(lia)).
  destruct (segment_slice k _ Hd Hk1 ltac:(lia)) as [Hsl Hle].
  split; [|done]. split; [done|]. split; [lia| | |].
  - destruct Hw; [by left|right; done].
  - intros [Hcl Hend]%(c_fin _ _ _ _ Hc). rewrite <- (closed_text Hcl). done.
  - intros Hne Hend. by apply (x_mark _ _ _ _ Hx k seg).
Qed.

Lemma syn_valid k seg :
  In (k, seg) h -> syn (header seg) = true ->
  k = 0 /\ valid_seg S (_isn s) r seg 0 /\ str (payload seg) = [] /\ fin (header seg) = false.
Proof.
  intros Hin Hsy. pose proof (h_carries _ _ _ Hh) as Hc. rewrite List.Forall_forall in Hc. specialize (Hc _ Hin). simpl in Hc.
  pose proof (c_data _ _ _ _ Hc) as Hd. rewrite Hsy in Hd. destruct Hd as (-> & Hd & Hf).
  pose proof (placed_at seg 0 (c_seqno _ _ _ _ Hc)) as P. rewrite Hsy in P. pose proof (next_seqno_range _ _ _ Hs).
  split_and!; try done. split; [apply P; lia|]. rewrite Hd, Hf. by split; [lia|left|..].
Qed.

Lemma history_position k seg : In (k, seg) h -> position (_isn s) seg = k.
Proof.
  intros Hin. pose proof (h_carries _ _ _ Hh) as Hc. rewrite List.Forall_forall in Hc. specialize (Hc _ Hin). simpl in Hc.
  pose proof (contiguous_In _ _ _ _ _ (h_seqnos _ _ _ Hh) Hin) as [? Hk].
  assert (0 <= length_in_sequence_space seg) by apply u64_range. pose proof (next_seqno_range _ _ _ Hs).
  pose proof (x_len _ _ _ _ Hx). unfold position. rewrite (c_seqno _ _ _ _ Hc). apply position_wrap.
  destruct (x_text _ _ _ _ Hx) as (m & Hm & _). rewrite Hm, len_app in *. pose proof (len_nonneg m). lia.
Qed.

Lemma deliver_data k seg :
  In (k, seg) h -> syn (header seg) = false -> synced = true -> fits (_isn s) r seg -> delivered evs synced fn r out seg.
Proof.
  intros Hin Hsy Hsync Hfit. pose proof (rf_tracks _ _ _ _ _ _ _ _ _ _ _ R) as T.
  assert (Hin_window : str (payload seg) = [] \/ k - 1 + len (str (payload seg)) <= window (_reassembler r) ->
    delivered evs synced fn r out seg).
  { intros [V Hd]%(data_valid k); [|done..]. apply (delivered_valid seg (k - 1)); [by rewrite Hsync|done|by left|].
    by eapply fin_counted. }
  unfold fits in Hfit. rewrite (history_position k) in Hfit by done. cbv zeta in Hfit.
  destruct Hfit as [?|[?|Hb]]; [auto..|].
  apply delivered_same. rewrite Hsync in T. pose proof (h_carries _ _ _ Hh) as Hc. rewrite List.Forall_forall in Hc.
  specialize (Hc _ Hin). simpl in Hc. pose proof (contiguous_In _ _ _ _ _ (h_seqnos _ _ _ Hh) Hin) as [_ Hk].
  assert (0 <= length_in_sequence_space seg) by apply u64_range.
  pose proof (placed_at seg k (c_seqno _ _ _ _ Hc)) as P. pose proof (c_data _ _ _ _ Hc) as Hd. rewrite Hsy in Hd.
  rewrite Hsy, !Z.add_0_r in P. apply (segment_beyond _ _ _ _ _ _ _ _ _ T Hsy (P ltac:(done) (proj1 Hd) ltac:(lia)) Hb).
Qed.

Lemma deliver_known seg : known (_isn s) (_next_seqno s) h seg -> fits (_isn s) r seg -> delivered evs synced fn r out seg.
Proof.
  intros Hkn Hfit. pose proof (rf_tracks _ _ _ _ _ _ _ _ _ _ _ R) as T.
  destruct (syn (header seg)) eqn:Hsy.
  - destruct Hkn as [[k Hin]|(k & _ & [_ _ [? _]])]; [|congruence].
    destruct (syn_valid k seg Hin Hsy) as (-> & V & Hd & Hf).
    apply (delivered_valid seg 0); [by rewrite Hsy, orb_true_r|done|by right|by rewrite Hf].
  - destruct (bool_dec synced true) as [Hsync|Hsync%not_true_is_false].
    2: { apply delivered_same, segment_ignored; [by rewrite (tr_synced _ _ _ _ _ _ _ _ T)|done]. }
    destruct Hkn as [[k Hin]|(k & Hk & [Hq Hd [_ Hf]])]; [by apply (deliver_data k)|].
    destruct (Z.eq_dec k 0) as [->|Hk0].
    { apply delivered_same. rewrite Hsync in T. apply (segment_before_start _ _ _ _ _ _ _ _ T Hsy Hq). pose proof (x_len _ _ _ _ Hx). lia. }
    pose proof (placed_at seg k Hq) as P. rewrite Hsy, !Z.add_0_r in P. specialize (P ltac:(done) ltac:(lia) ltac:(lia)).
    apply (delivered_valid seg (k - 1)); [by rewrite Hsync| |by right|by rewrite Hf].
    split; [done|]. rewrite Hd, Hf. by split; [lia|left|..].
Qed.

End delivery.

(** ** The invariant *)

Record linked (w : bytes) (c : bool) (rcap : Z) (isn : WrappingInt32) (q : Spec.fifo) (fins : bool)
    (h : list (Z * TCPSegment)) (n : link) : Prop := {
  lk_sender : sender_ok q fins (tx n);
  lk_stream : Spec.sent q = w /\ Spec.closed q = c;
  lk_isn : _isn (tx n) = isn;
  lk_len : len w + 2 < 2147483648;
  lk_history : history q h (tx n);
  lk_queue : forall seg, In seg (_segments_out (tx n)) \/ In seg (wire n) -> known isn (_next_seqno (tx n)) h seg;
  lk_kept : kept (ack_number (rx n)) h (tx n);
  lk_acks : forall a win, In (a, win) (acks n) ->
            0 <= win < 65536 /\ exists x, a = wrap x isn /\ 0 <= x <= ack_number (rx n);
  lk_started : _isn_set (rx n) = true -> _next_seqno (tx n) <> 0;
  lk_receiver : forall s, extends h w c s -> exists evs synced fn qr,
                received_from q fins s isn rcap evs synced fn qr (rx n) (got n);
}.

Definition linked_some (w : bytes) (c : bool) (rcap : Z) (isn : WrappingInt32) (n : link) : Prop :=
  exists q fins h, linked w c rcap isn q fins h n.

Lemma written_taken q fins s isn cap evs synced fn qr r out :
  received_from q fins s isn cap evs synced fn qr r out -> 0 <= Spec.taken q ->
  ByteStream.bytes_written (stream_out r) <= Spec.taken q.
Proof.
  intros R Ht. pose proof (rf_tracks _ _ _ _ _ _ _ _ _ _ _ R) as T.
  destruct (Z.le_gt_cases (ByteStream.bytes_written (stream_out r)) (Spec.taken q)); [done|exfalso].
  assert (Spec.taken q < Spec.taken q); [|lia]. apply (rf_pushed _ _ _ _ _ _ _ _ _ _ _ R).
  pose proof (tr_abs _ _ _ _ _ _ _ _ T) as A. apply (ab_received _ _ _ _ _ _ A). left.
  rewrite <- (abs_written _ _ _ _ _ _ A). fold (stream_out r). lia.
Qed.

(** The receiver acknowledges only what was sent. *)
Lemma ack_number_sent q fins s sn isn cap evs synced fn qr r out :
  sender_ok q fins sn -> received_from q fins s isn cap evs synced fn qr r out ->
  (_isn_set r = true -> _next_seqno sn <> 0) -> 0 <= ack_number r <= _next_seqno sn.
Proof.
  intros Hs R Hn0. pose proof (rf_tracks _ _ _ _ _ _ _ _ _ _ _ R) as T. rewrite (tracks_ack_number _ _ _ _ _ _ _ _ T).
  pose proof (sender_taken _ _ _ Hs). pose proof (next_seqno_range _ _ _ Hs). rewrite (tr_synced _ _ _ _ _ _ _ _ T) in Hn0.
  destruct synced; [|lia]. specialize (Hn0 eq_refl). rewrite (so_next _ _ _ Hs Hn0). unfold sent_up_to, acked_up_to.
  pose proof (written_range _ _ _ _ _ _ _ _ T).
  pose proof (written_taken _ _ _ _ _ _ _ _ _ _ _ R ltac:(lia)).
  pose proof (rf_fin _ _ _ _ _ _ _ _ _ _ _ R). destruct fn, fins; simpl; try destruct (_ =? _); intuition lia.
Qed.

Lemma linked_ack w c rcap isn q fins h n : linked w c rcap isn q fins h n -> 0 <= ack_number (rx n) <= _next_seqno (tx n).
Proof.
  intros [L1 [<- <-] L3 L4 L5 _ _ _ L9 L10]. pose proof (extends_exists _ _ _ _ L1 L5 L4) as X.
  destruct (L10 _ X) as (evs & synced & fn & qr & R). by eapply ack_number_sent.
Qed.

(** A step of the sender or of the writer. *)
Lemma linked_sender w d c c' rcap isn q fins h n q' fins' more s' :
  linked w c rcap isn q fins h n -> sender_ok q' fins' s' -> grows q q' ->
  Spec.sent q' = w ++ d -> Spec.closed q' = c' -> (c = true -> c' = true /\ d = []) -> len (w ++ d) + 2 < 2147483648 ->
  _isn s' = isn -> history q' (h ++ more) s' -> kept (ack_number (rx n)) (h ++ more) s' ->
  (forall seg, In seg (_segments_out s') -> In seg (_segments_out (tx n)) \/ known isn (_next_seqno s') (h ++ more) seg) ->
  _next_seqno (tx n) <= _next_seqno s' -> linked (w ++ d) c' rcap isn q' fins' (h ++ more) (n <| tx := s' |>).
Proof.
  intros [L1 [L2 L2'] L3 L4 L5 L6 L7 L8 L9 L10] Hs' G Hq Hc Hcc Hl Hi Hh Hk Hqueue Hnx.
  pose proof (sender_taken _ _ _ L1). pose proof (sender_taken _ _ _ Hs'). pose proof (next_seqno_range _ _ _ L1).
  split; try done.
  - intros seg [Hin|Hin]; [destruct (Hqueue _ Hin) as [Hin'|?]; [|done]|];
      eapply known_mono; [exact Hnx|eauto|exact Hnx|eauto].
  - intros ?%L9. simpl. lia.
  - intros s X. destruct (L10 s (extends_sub _ _ _ _ _ _ _ X Hcc)) as (evs & synced & fn & qr & [R1 R2 R3 R4]).
    exists evs, synced, fn, qr. split; [done| | |done].
    + intros j ?%R2. pose proof (g_taken _ _ G). lia.
    + intros ?%R3. subst fins. destruct (so_fins _ _ _ L1 eq_refl) as [Hcl Ht]. rewrite L2' in Hcl. subst c.
      destruct (Hcc Hcl) as [_ ->]. rewrite app_nil_r in Hq. rewrite <- L2 in Hq.
      assert (N1 : _next_seqno (tx n) <> 0) by (intros E; by destruct (so_start _ _ _ L1 E) as (_ & ? & _)).
      assert (N2 : _next_seqno s' <> 0) by lia.
      rewrite (so_next _ _ _ L1 N1), (so_next _ _ _ Hs' N2) in Hnx. unfold sent_up_to in Hnx. rewrite Hq in *.
      destruct fins'; [done|lia].
Qed.

Lemma linked_step w c rcap isn q fins h n q' fins' more s' :
  linked w c rcap isn q fins h n -> sender_ok q' fins' s' -> grows q q' -> Spec.sent q' = w -> Spec.closed q' = c ->
  _isn s' = isn -> sender_step q h (tx n) q' more s' -> linked w c rcap isn q' fins' (h ++ more) (n <| tx := s' |>).
Proof.
  intros L Hs' G Hq Hc Hi [S1 S2 S3 S4]. pose proof (lk_isn _ _ _ _ _ _ _ _ L) as Hisn.
  rewrite <- (app_nil_r w). eapply linked_sender; rewrite ?app_nil_r; try done.
  - apply (lk_len _ _ _ _ _ _ _ _ L).
  - apply S3, (lk_kept _ _ _ _ _ _ _ _ L).
  - by rewrite <- Hisn.
Qed.

(** A segment that sets the sequence number is a SYN. *)
Lemma segment_sets_isn r seg r' :
  segment_received r seg = Ok r' -> _isn_set r' = true -> _isn_set r = true \/ syn (header seg) = true.
Proof.
  unfold segment_received. destruct (syn (header seg)); [by right|]. intros H Hr. left.
  destruct (_isn_set r) eqn:E; [done|]. injection H as <-. congruence.
Qed.

Lemma known_syn q h s seg :
  history q h s -> known (_isn s) (_next_seqno s) h seg -> syn (header seg) = true -> _next_seqno s <> 0.
Proof.
  intros Hh [[k Hin]|(k & _ & [_ _ [? _]])] Hsy; [|congruence].
  pose proof (h_carries _ _ _ Hh) as Hc. rewrite List.Forall_forall in Hc. specialize (Hc _ Hin). simpl in Hc.
  destruct (contiguous_In _ _ _ _ _ (h_seqnos _ _ _ Hh) Hin) as [? He]. rewrite (carries_length _ _ _ _ Hc), Hsy in He.
  pose proof (len_nonneg (str (payload seg))). destruct (fin _); lia.
Qed.

(** The receiver moves on: it keeps what it has promised. *)
Lemma ack_number_mono s isn cap evs synced fn q r evs' synced' fn' q' r' :
  tracks s isn cap evs synced fn q r -> tracks s isn cap evs' synced' fn' q' r' ->
  (forall j, was_pushed evs j -> was_pushed evs' j) -> (synced = true -> synced' = true) -> (fn = true -> fn' = true) ->
  ack_number r <= ack_number r'.
Proof.
  intros T T' He Hs Hf. rewrite (tracks_ack_number _ _ _ _ _ _ _ _ T), (tracks_ack_number _ _ _ _ _ _ _ _ T').
  pose proof (tracks_mono _ _ _ _ _ _ _ _ _ _ _ _ _ T T' He). unfold acked_up_to.
  pose proof (written_range _ _ _ _ _ _ _ _ T). pose proof (written_range _ _ _ _ _ _ _ _ T').
  destruct synced; [rewrite (Hs eq_refl)|destruct synced'; [|lia]; destruct (_ && _); lia].
  destruct fn; [rewrite (Hf eq_refl)|destruct (fn' && _); simpl; lia].
  destruct (Z.eqb_spec (ByteStream.bytes_written (stream_out r)) (len s)),
    (Z.eqb_spec (ByteStream.bytes_written (stream_out r')) (len s)); simpl; lia.
Qed.

Lemma linked_receiver w c rcap isn q fins h n r' out' :
  linked w c rcap isn q fins h n ->
  ack_number (rx n) <= ack_number r' -> (_isn_set r' = true -> _next_seqno (tx n) <> 0) ->
  (forall s, extends h w c s -> exists evs synced fn qr, received_from q fins s isn rcap evs synced fn qr r' out') ->
  linked w c rcap isn q fins h (n <| rx := r' |> <| got := out' |>).
Proof.
  intros [L1 L2 L3 L4 L5 L6 L7 L8 L9 L10] Ha Hn Hr. split; try done.
  - intros k seg Hin. simpl. destruct (L7 k seg Hin) as [?|?]; [left; lia|by right].
  - intros a win Hin. destruct (L8 a win Hin) as [? (x & -> & ?)]. split; [done|]. exists x. simpl. split; [done|lia].
Qed.

Lemma linked_deliver w c rcap isn q fins h n seg r' :
  linked w c rcap isn q fins h n -> In seg (wire n) -> fits isn (rx n) seg -> segment_received (rx n) seg = Ok r' ->
  linked w c rcap isn q fins h (n <| rx := r' |>).
Proof.
  intros L Hin Hfit Hok. pose proof L as [L1 [L2 L2'] L3 L4 L5 L6 L7 L8 L9 L10]. subst w c isn.
  pose proof (L6 seg (or_intror Hin)) as Hkn.
  assert (Hdel : forall s, extends h (Spec.sent q) (Spec.closed q) s -> exists evs synced fn qr evs' synced' fn' qr',
    received_from q fins s (_isn (tx n)) rcap evs synced fn qr (rx n) (got n) /\
    received_from q fins s (_isn (tx n)) rcap evs' synced' fn' qr' r' (got n) /\
    (forall j, was_pushed evs j -> was_pushed evs' j) /\ (synced = true -> synced' = true) /\ (fn = true -> fn' = true)).
  { intros s X. destruct (L10 s X) as (evs & synced & fn & qr & R). exists evs, synced, fn, qr.
    destruct (deliver_known _ _ _ _ _ _ L1 L5 X _ _ _ _ _ _ R seg Hkn Hfit)
      as (evs' & synced' & fn' & qr' & r1 & Hok' & R' & ? & ? & ? & _).
    rewrite Hok in Hok'. injection Hok' as <-. exists evs', synced', fn', qr'. by split_and!. }
  apply (linked_receiver _ _ _ _ _ _ _ n r' (got n) L).
  - destruct (Hdel _ (extends_exists _ _ _ _ L1 L5 L4)) as (? & ? & ? & ? & ? & ? & ? & ? & [R] & [R'] & ? & ? & ?).
    by eapply ack_number_mono.
  - intros [?|?]%(segment_sets_isn _ _ _ Hok); [by apply L9|]. by eapply known_syn.
  - intros s X. destruct (Hdel s X) as (? & ? & ? & ? & ? & ? & ? & ? & _ & R' & _). eauto.
Qed.

Lemma linked_read w c rcap isn q fins h n k :
  linked w c rcap isn q fins h n -> 0 <= k ->
  linked w c rcap isn q fins h
    (n <| rx := read_out (rx n) k |> <| got := got n ++ ByteStream.peek_output (stream_out (rx n)) k |>).
Proof.
  intros L Hk. apply linked_receiver; [done|done|apply (lk_started _ _ _ _ _ _ _ _ L)|].
  intros s X. destruct (lk_receiver _ _ _ _ _ _ _ _ L s X) as (evs & synced & fn & qr & [R1 R2 R3 R4]).
  exists (evs ++ [Pop k]), synced, fn, (Spec.pop qr k).
  assert (T' : tracks s isn rcap (evs ++ [Pop k]) synced fn (Spec.pop qr k) (read_out (rx n) k)).
  { destruct R1. split; [by apply pop_abstracts|done..]. }
  split; [done| |done|].
  - intros j. rewrite was_pushed_snoc. intros [?%R2|[]]. done.
  - pose proof (tr_abs _ _ _ _ _ _ _ _ R1) as A. pose proof (inv_out _ _ _ (ab_inv _ _ _ _ _ _ A)) as Ro.
    rewrite R4, (tracks_read _ _ _ _ _ _ _ _ R1), (tracks_read _ _ _ _ _ _ _ _ T').
    unfold stream_out, StreamReassembler.stream_out. rewrite (refines_peek _ _ _ Hk Ro). unfold Spec.pending.
    rewrite (inv_sent _ _ _ (ab_inv _ _ _ _ _ _ A)) at 1. pose proof (ref_taken _ _ Ro).
    pose proof (sent_bound _ _ _ (ab_inv _ _ _ _ _ _ A)). simpl.
    rewrite skipn_firstn_comm, take_take, take_take_drop. f_equal. unfold len in *. lia.
Qed.

Lemma linked_start cap rto rcap isn :
  0 <= cap < 18446744073709551616 -> 0 <= rcap < 9223372036854775808 -> wi_ok isn ->
  linked [] false rcap isn (Spec.mkFifo cap [] 0 false) false []
    (mkLink (TCPSender.new cap rto (Some isn) 0) (TCPReceiver.new rcap) [] [] []).
Proof.
  intros Hc Hr Hi. split; try done; [by apply new_sender_ok|split; try done; by intros ? []|by intros seg [[]|[]]|by intros ? ? []|].
  intros s X. exists [], false, false, (Spec.mkFifo rcap [] 0 false). pose proof (x_len _ _ _ _ X). pose proof (len_nonneg s).
  split; [|by intros j ?%Exists_nil|done|done].
  split; [by apply new_abstracts; lia|done|done|done|lia].
Qed.

Lemma linked_acked w c rcap isn q fins h n a win :
  linked w c rcap isn q fins h n -> In (a, win) (acks n) ->
  linked w c rcap isn q fins h (n <| tx := ack_received (tx n) a win |>).
Proof.
  intros L Hin. pose proof (linked_ack _ _ _ _ _ _ _ _ L). pose proof L as [L1 [L2 L2'] L3 L4 L5 L6 L7 L8 L9 L10].
  destruct (L8 a win Hin) as [Hwin (x & -> & Hx)]. pose proof (next_seqno_range _ _ _ L1). rewrite L2 in *. subst isn.
  destruct (ack_step q fins h (tx n) x _ win _ L1 L5 L7 (so_isn _ _ _ L1) eq_refl Hx ltac:(lia) ltac:(lia))
    as (A1 & A2 & A3 & A4 & A5).
  rewrite <- (app_nil_r w), <- (app_nil_r h). eapply linked_sender; rewrite ?app_nil_r; try done.
  - apply ack_ok; [done|apply wrap_ok|done].
  - apply grows_refl.
  - rewrite A5. by left.
  - lia.
Qed.

Lemma linked_advertises w c rcap isn q fins h n a win :
  linked w c rcap isn q fins h n -> advertises (rx n) a win ->
  linked w c rcap isn q fins h (n <| acks := acks n ++ [(a, win)] |>).
Proof.
  intros L [Ha ->]. pose proof (linked_ack _ _ _ _ _ _ _ _ L) as Hn. pose proof L as [L1 [L2 L2'] L3 L4 L5 L6 L7 L8 L9 L10].
  split; try done. intros a' win' [?|[[= <- <-]|[]]]%in_app_or; [by apply L8|].
  split; [apply u16_range|]. exists (ack_number (rx n)). split; [|simpl; lia]. subst w c.
  destruct (L10 _ (extends_exists _ _ _ _ L1 L5 L4)) as (evs & synced & fn & qr & [R _ _ _]).
  rewrite (tracks_ackno _ _ _ _ _ _ _ _ R) in Ha. rewrite (tracks_ack_number _ _ _ _ _ _ _ _ R).
  destruct synced; [by injection Ha|done].
Qed.

Lemma linked_write w rcap isn q fins h n d :
  linked w false rcap isn q fins h n -> len w + len d + 2 < 2147483648 ->
  linked_some (w ++ prefix_str d (ByteStream.remaining_capacity (stream_in (tx n)))) false rcap isn
    (n <| tx := (tx n) <| _stream := (ByteStream.write (_stream (tx n)) d).1 |> |>).
Proof.
  intros L Hl. pose proof L as [L1 [L2 L2'] L3 L4 L5 L6 L7 L8 L9 L10]. pose proof (len_nonneg w).
  assert (fins = false) as -> by (destruct fins; [destruct (so_fins _ _ _ L1 eq_refl); congruence|done]).
  exists (Spec.push q d), false, h. rewrite <- (app_nil_r h).
  eapply (linked_sender _ _ _ _ _ _ _ _ _ _ (Spec.push q d)); rewrite ?app_nil_r; try done.
  - apply write_ok; [done|done|]. rewrite L2. lia.
  - by apply grows_push.
  - simpl. rewrite L2. by rewrite <- (refines_remaining _ _ (so_stream _ _ _ L1)).
  - rewrite len_app. unfold prefix_str. rewrite len_take. lia.
  - eapply history_grows; [by apply grows_push|apply (sender_taken _ _ _ L1)|exact L5|..]; try done. apply incl_refl.
  - intros seg ?. by left.
Qed.

Lemma linked_end w c rcap isn q fins h n :
  linked w c rcap isn q fins h n ->
  linked_some w true rcap isn (n <| tx := (tx n) <| _stream := ByteStream.end_input (_stream (tx n)) |> |>).
Proof.
  intros L. pose proof L as [L1 [L2 L2'] L3 L4 L5 L6 L7 L8 L9 L10]. exists (Spec.close q), fins, h.
  rewrite <- (app_nil_r h), <- (app_nil_r w).
  eapply (linked_sender _ _ _ _ _ _ _ _ _ _ (Spec.close q)); rewrite ?app_nil_r; try done.
  - by apply close_ok.
  - apply grows_close.
  - eapply history_grows; [apply grows_close|apply (sender_taken _ _ _ L1)|exact L5|..]; try done. apply incl_refl.
  - intros seg ?. by left.
Qed.

Lemma linked_fill w c rcap isn q fins h n s :
  linked w c rcap isn q fins h n -> second_fin_risk (tx n) = false -> fill_window (tx n) = Ok s ->
  linked_some w c rcap isn (n <| tx := s |>).
Proof.
  intros L Hr Hf. pose proof L as [L1 [L2 L2'] L3 L4 L5 L6 L7 L8 L9 L10]. pose proof (sender_taken _ _ _ L1) as [_ Ht].
  destruct (fill_window_spec q fins (tx n) L1 (risk_guard _ _ _ L1 Hr)) as (q' & fins' & s1 & Hf' & A).
  rewrite Hf in Hf'. injection Hf' as <-. destruct (advanced_step _ _ _ _ _ _ Ht A L5) as [more St].
  destruct A as [A1 A2 [A3 A4] [_ A5] _]. exists q', fins', (h ++ more). eapply linked_step; try done; congruence.
Qed.

Lemma linked_send w c rcap isn q fins h n seg rest :
  linked w c rcap isn q fins h n -> _segments_out (tx n) = seg :: rest ->
  linked w c rcap isn q fins h (n <| tx := (tx n) <| _segments_out := rest |> |> <| wire := wire n ++ [seg] |>).
Proof.
  intros [L1 L2 L3 L4 L5 L6 L7 L8 L9 L10] Hq. split; try done.
  - pose proof (dequeue_ok _ _ _ L1) as D. by rewrite Hq in D.
  - eapply history_grows; [apply grows_refl|apply (sender_taken _ _ _ L1)|exact L5|..]; try done. apply incl_refl.
  - simpl. intros seg' [Hin|[Hin|[<-|[]]]%in_app_or]; apply L6; rewrite Hq; simpl; auto.
Qed.

Lemma transfer_linked cap rto rcap isn w c n : transfer cap rto rcap isn w c n -> linked_some w c rcap isn n.
Proof.
  induction 1 as [|w n d _ (q & fins & h & L) Hl|w c n _ (q & fins & h & L)|w c n s _ (q & fins & h & L) Hr Hf
    |w c n ms _ (q & fins & h & L)|w c n _ (q & fins & h & L)|w c n seg rest _ (q & fins & h & L) Hq
    |w c n seg r _ (q & fins & h & L) Hin Hfit Hok|w c n k _ (q & fins & h & L) Hk
    |w c n a win _ (q & fins & h & L) Ha|w c n a win _ (q & fins & h & L) Hin].
  - do 3 eexists. by apply linked_start.
  - by eapply linked_write.
  - by eapply linked_end.
  - by eapply linked_fill.
  - pose proof L as [L1 [L2 L2'] L3 _ L5 _ _ _ _ _]. destruct (tick_step q fins h (tx n) ms L1 L5) as [St Hi].
    exists q, fins, (h ++ []). eapply linked_step; try done; [by apply tick_ok|apply grows_refl|congruence].
  - pose proof L as [L1 [L2 L2'] L3 _ L5 _ _ _ _ _]. pose proof (empty_step q fins h (tx n) L1 L5) as St.
    exists q, fins, (h ++ []). eapply linked_step; try done; [by apply empty_ok|apply grows_refl].
  - exists q, fins, h. by apply linked_send.
  - exists q, fins, h. by eapply linked_deliver.
  - exists q, fins, h. by apply linked_read.
  - exists q, fins, h. by apply linked_advertises.
  - exists q, fins, h. by apply linked_acked.
Qed.

(** ** Properties *)

Lemma received_text q fins s isn cap evs synced fn qr r out :
  received_from q fins s isn cap evs synced fn qr r out ->
  out ++ ByteStream._buffer (stream_out r) = take (Z.to_nat (ByteStream.bytes_written (stream_out r))) s.
Proof.
  intros [T _ _ ->]. pose proof (tr_abs _ _ _ _ _ _ _ _ T) as A. unfold stream_out.
  rewrite (abs_buffer _ _ _ _ _ _ A), (abs_read _ _ _ _ _ _ A), (abs_written _ _ _ _ _ _ A).
  pose proof (ref_taken _ _ (inv_out _ _ _ (ab_inv _ _ _ _ _ _ A))). unfold slice. rewrite take_take_drop.
  f_equal. lia.
Qed.

(** Nothing in flight and no probe: everything sent has been acknowledged. *)
Lemma idle_acked w c rcap isn q fins h n :
  linked w c rcap isn q fins h n -> bytes_in_flight (tx n) = 0 -> _zero_win_seg_send (tx n) = false ->
  ack_number (rx n) = _next_seqno (tx n).
Proof.
  intros L Hf Hz. pose proof (linked_ack _ _ _ _ _ _ _ _ L). destruct L as [L1 _ _ _ L5 _ L7 _ _ _].
  assert (_outstanding_segs (tx n) = []) as Ho.
  { rewrite (flight_total _ _ _ L1) in Hf. pose proof (so_flight _ _ _ L1) as Hfl.
    destruct (_outstanding_segs (tx n)) as [|[k seg] m]; [done|]. simpl in Hf, Hfl. destruct Hfl as (_ & ? & _).
    assert (0 <= OMap.total length_in_sequence_space m) by (apply OMap.total_nonneg; intros; apply u64_range). lia. }
  assert (_next_seqno (tx n) <= ack_number (rx n)); [|lia].
  apply (contiguous_all _ _ _ _ (h_seqnos _ _ _ L5)); [lia|]. intros k seg Hin.
  destruct (L7 k seg Hin) as [?|[Hin'|(? & _)]]; [done|by rewrite Ho in Hin'|congruence].
Qed.

Lemma acked_all q fins s sn isn cap evs synced fn qr r out :
  sender_ok q fins sn -> received_from q fins s isn cap evs synced fn qr r out ->
  ack_number r = _next_seqno sn ->
  ByteStream.bytes_written (stream_out r) = Spec.taken q /\
  (_next_seqno sn = len (Spec.sent q) + 2 -> ByteStream.input_ended (stream_out r) = true).
Proof.
  intros Hs R. pose proof (rf_tracks _ _ _ _ _ _ _ _ _ _ _ R) as T. pose proof (sender_taken _ _ _ Hs).
  pose proof (written_taken _ _ _ _ _ _ _ _ _ _ _ R ltac:(lia)). pose proof (written_range _ _ _ _ _ _ _ _ T).
  pose proof (rf_fin _ _ _ _ _ _ _ _ _ _ _ R) as Hf. rewrite (tracks_ack_number _ _ _ _ _ _ _ _ T), (tracks_ended _ _ _ _ _ _ _ _ T).
  destruct (Z.eq_dec (_next_seqno sn) 0) as [E|E]; [destruct (so_start _ _ _ Hs E); lia|].
  rewrite (so_next _ _ _ Hs E). unfold sent_up_to, acked_up_to. destruct synced; [|destruct fins; lia].
  destruct (fn && _) eqn:Hc.
  - apply andb_true_iff in Hc as [->%Hf _]. lia.
  - destruct fins; lia.
Qed.

Lemma linked_delivers w c rcap isn n :
  linked_some w c rcap isn n ->
  let r := stream_out (rx n) in
  (exists rest, w = got n ++ ByteStream._buffer r ++ rest) /\
  (ByteStream.input_ended r = true -> c = true /\ w = got n ++ ByteStream._buffer r) /\
  (bytes_in_flight (tx n) = 0 -> get_zero_seg_send (tx n) = false ->
    got n ++ ByteStream._buffer r = prefix_str w (ByteStream.bytes_read (stream_in (tx n))) /\
    (next_seqno_absolute (tx n) = len w + 2 -> ByteStream.input_ended r = true)) /\
  (forall seg, In seg (wire n) -> fits isn (rx n) seg -> exists r', segment_received (rx n) seg = Ok r').
Proof.
  intros (q & fins & h & L) r. pose proof L as [L1 [L2 L2'] L3 L4 L5 L6 _ _ L9 L10].
  assert (X := extends_exists _ _ _ _ L1 L5 ltac:(by rewrite L2)). rewrite L2, L2' in X.
  destruct (L10 _ X) as (evs & synced & fn & qr & R). pose proof (received_text _ _ _ _ _ _ _ _ _ _ _ R) as Htext.
  pose proof (rf_tracks _ _ _ _ _ _ _ _ _ _ _ R) as T. pose proof (written_range _ _ _ _ _ _ _ _ T) as Hw.
  pose proof (tracks_ended _ _ _ _ _ _ _ _ T) as He. fold r in Htext, Hw, He. cbn [text] in Htext, Hw, He.
  pose proof (sender_taken _ _ _ L1) as Ht. split_and!.
  - exists (drop (Z.to_nat (ByteStream.bytes_written r)) w). by rewrite app_assoc, Htext, take_drop.
  - rewrite He. intros [Hfn Hl%Z.eqb_eq]%andb_true_iff.
    destruct (so_fins _ _ _ L1 (rf_fin _ _ _ _ _ _ _ _ _ _ _ R Hfn)) as [? _]. split; [congruence|].
    rewrite Htext, Hl, take_ge; [done|]. unfold len. lia.
  - intros Hf Hz. pose proof (idle_acked _ _ _ _ _ _ _ _ L Hf Hz) as Ha.
    assert (Hrd : ByteStream.bytes_read (stream_in (tx n)) = Spec.taken q).
    { unfold ByteStream.bytes_read, stream_in. rewrite (ref_read _ _ (so_stream _ _ _ L1)). apply u64_small. rewrite L2 in Ht. lia. }
    destruct (acked_all _ _ _ _ _ _ _ _ _ _ _ _ L1 R Ha) as [Hall Hend].
    rewrite Hrd, <- Hall. split; [done|]. rewrite <- L2. apply Hend.
  - intros seg Hin Hfit. subst isn. rewrite <- L2, <- L2' in X. rewrite <- L2 in R.
    destruct (deliver_known _ _ _ _ _ _ L1 L5 X _ _ _ _ _ _ R seg (L6 seg (or_intror Hin)) Hfit)
      as (? & ? & ? & ? & r' & Hok & _). eauto.
Qed.

(** C4: one direction of a connection over a network that loses, repeats and reorders
    segments and acknowledgments, for streams below 2^31 bytes, as long as every delivered
    payload [fits] the receiver's window at that time or lies behind all of it, and
    [fill_window] is not called where it would send a second FIN (all of the stream and
    the FIN sent, the window closed, no probe out). With other deliveries it can fail: an
    old acknowledgment makes the sender exceed the window, and the end comes early
    ([stale_ack_truncates_stream]). At every point what the reader has read and can still
    read is a prefix of what the writer wrote; the end of input is signalled only behind
    all of it; when the sender has nothing in flight, everything it took from its stream
    has arrived, and the FIN too if it was sent; and a segment that fits is processed
    without exception. *)
Theorem transfer_delivers cap rto rcap isn w c n :
  transfer cap rto rcap isn w c n ->
  let r := stream_out (rx n) in
  (exists rest, w = got n ++ ByteStream._buffer r ++ rest) /\
  (ByteStream.input_ended r = true -> c = true /\ w = got n ++ ByteStream._buffer r) /\
  (bytes_in_flight (tx n) = 0 -> get_zero_seg_send (tx n) = false ->
    got n ++ ByteStream._buffer r = prefix_str w (ByteStream.bytes_read (stream_in (tx n))) /\
    (next_seqno_absolute (tx n) = len w + 2 -> ByteStream.input_ended r = true)) /\
  (forall seg, In seg (wire n) -> fits isn (rx n) seg -> exists r', segment_received (rx n) seg = Ok r').
Proof. intros H%transfer_linked. by apply linked_delivers in H. Qed.

(** ** Witness *)

(** Handshake, three bytes and the FIN in one segment, delivered twice and read. *)
Definition link_isn : WrappingInt32 := mkWrappingInt32 4294967295.
Definition link0 : link := mkLink (TCPSender.new 16 1000 (Some link_isn) 0) (TCPReceiver.new 8) [] [] [].

Definition on_fill (n : link) : link := n <| tx := res_or (fill_window (tx n)) (tx n) |>.
Definition on_send (n : link) : link :=
  match _segments_out (tx n) with
  | seg :: rest => n <| tx := (tx n) <| _segments_out := rest |> |> <| wire := wire n ++ [seg] |>
  | [] => n
  end.
Definition on_deliver (n : link) (seg : TCPSegment) : link := n <| rx := res_or (segment_received (rx n) seg) (rx n) |>.
Definition on_ack (n : link) : link :=
  match TCPReceiver.ackno (rx n) with
  | Some a => n <| acks := acks n ++ [(a, u16 (window_size (rx n)))] |>
  | None => n
  end.
Definition on_acked (n : link) : link :=
  match rev (acks n) with (a, win) :: _ => n <| tx := ack_received (tx n) a win |> | [] => n end.

Definition link_syn : link := on_send (on_fill link0).
Definition last_sent (n : link) : TCPSegment := List.last (wire n) default_segment.
Definition link_open : link := on_acked (on_ack (on_deliver link_syn (last_sent link_syn))).
Definition link_text : bytes := [] ++ prefix_str [x61; x62; x63] (ByteStream.remaining_capacity (stream_in (tx link_open))).
Definition link_written : link :=
  link_open <| tx := (tx link_open) <| _stream := (ByteStream.write (_stream (tx link_open)) [x61; x62; x63]).1 |> |>.
Definition link_ended : link :=
  link_written <| tx := (tx link_written) <| _stream := ByteStream.end_input (_stream (tx link_written)) |> |>.
Definition link_sent : link := on_send (on_fill link_ended).
Definition link_twice : link := on_deliver (on_deliver link_sent (last_sent link_sent)) (last_sent link_sent).

Lemma deliver_eq cap rto rcap isn w c n seg :
  transfer cap rto rcap isn w c n -> In seg (wire n) -> fits isn (rx n) seg ->
  segment_received (rx n) seg = Ok (res_or (segment_received (rx n) seg) (rx n)) ->
  transfer cap rto rcap isn w c (on_deliver n seg).
Proof. intros T Hin Hf Hok. by apply (t_deliver _ _ _ _ _ _ _ seg). Qed.

Lemma send_eq cap rto rcap isn w c n seg rest :
  transfer cap rto rcap isn w c n -> _segments_out (tx n) = seg :: rest -> transfer cap rto rcap isn w c (on_send n).
Proof. intros T E. unfold on_send. rewrite E. by apply t_send. Qed.

Lemma fill_eq cap rto rcap isn w c n :
  transfer cap rto rcap isn w c n -> second_fin_risk (tx n) = false ->
  fill_window (tx n) = Ok (res_or (fill_window (tx n)) (tx n)) -> transfer cap rto rcap isn w c (on_fill n).
Proof. intros T Hr E. by apply t_fill. Qed.

Lemma ack_eq cap rto rcap isn w c n a win :
  transfer cap rto rcap isn w c n -> advertises (rx n) a win -> transfer cap rto rcap isn w c (on_acked (on_ack n)).
Proof.
  intros T [Ha ->]. unfold on_ack. rewrite Ha. set (n' := n <| acks := _ |>).
  assert (E : acks n' = acks n ++ [(a, u16 (window_size (rx n)))]) by done.
  unfold on_acked. rewrite E, rev_app_distr. cbn [rev app]. apply t_acked; [by apply t_ack|].
  rewrite E. apply in_or_app. right. by left.
Qed.

Lemma link_open_run : transfer 16 1000 8 link_isn [] false link_open.
Proof.
  apply (ack_eq _ _ _ _ _ _ _ (wrap 1 link_isn) 8); [|by vm_compute].
  apply deliver_eq; [|vm_compute; by left|by left|vm_compute; reflexivity].
  eapply send_eq; [|vm_compute; reflexivity]. apply fill_eq; [|vm_compute; reflexivity..].
  apply t_start; by vm_compute.
Qed.

Lemma link_sent_run : transfer 16 1000 8 link_isn link_text true link_sent.
Proof.
  eapply send_eq; [|vm_compute; reflexivity]. apply fill_eq; [|vm_compute; reflexivity..].
  apply (t_end _ _ _ _ _ false), t_write; [exact link_open_run|by vm_compute].
Qed.

Lemma link_twice_run : transfer 16 1000 8 link_isn link_text true link_twice.
Proof.
  apply deliver_eq; [|vm_compute; right; by left|right; left; by vm_compute|vm_compute; reflexivity].
  apply deliver_eq; [exact link_sent_run|vm_compute; right; by left|right; left; by vm_compute|vm_compute; reflexivity].
Qed.

Lemma transfer_delivers_witness :
  ByteStream._buffer (stream_out (rx link_twice)) = [x61; x62; x63] /\
  link_text = got link_twice ++ ByteStream._buffer (stream_out (rx link_twice)).
Proof.
  split; [vm_compute; reflexivity|].
  refine (proj2 (proj1 (proj2 (transfer_delivers 16 1000 8 link_isn link_text true link_twice link_twice_run)) _)).
  vm_compute. reflexivity.
Defined.

(** ** A stale acknowledgment *)

(** Why deliveries have to fit the window: [ack_received] takes the window of any
    acknowledgment, an old one too.  Here the receiver holds 4 bytes, "abcd" fills
    it, and the acknowledgment of the SYN, with its window of 4, arrives again. *)
Definition stale_isn : WrappingInt32 := mkWrappingInt32 0.
Definition stale_text : bytes := [x61; x62; x63; x64; x65; x66; x67].
Definition stale_open : link :=
  let n := on_send (on_fill (mkLink (TCPSender.new 16 1000 (Some stale_isn) 0) (TCPReceiver.new 4) [] [] [])) in
  on_acked (on_ack (on_deliver n (last_sent n))).
Definition stale_written : link :=
  stale_open <| tx := (tx stale_open) <| _stream := (ByteStream.write (_stream (tx stale_open)) stale_text).1 |> |>.
Definition stale_ended : link :=
  stale_written <| tx := (tx stale_written) <| _stream := ByteStream.end_input (_stream (tx stale_written)) |> |>.
Definition stale_full : link :=
  let n := on_send (on_fill stale_ended) in on_acked (on_ack (on_deliver n (last_sent n))).
Definition stale_again : link := stale_full <| tx := ack_received (tx stale_full) (wrap 1 stale_isn) 4 |>.
Definition stale_sent : link := on_send (on_fill stale_again).
Definition stale_read : link :=
  stale_sent <| rx := read_out (rx stale_sent) 2 |>
    <| got := got stale_sent ++ ByteStream.peek_output (stream_out (rx stale_sent)) 2 |>.

Lemma stale_open_run : transfer 16 1000 4 stale_isn [] false stale_open.
Proof.
  apply (ack_eq _ _ _ _ _ _ _ (wrap 1 stale_isn) 4); [|by vm_compute].
  apply deliver_eq; [|vm_compute; by left|by left|vm_compute; reflexivity].
  eapply send_eq; [|vm_compute; reflexivity]. apply fill_eq; [|vm_compute; reflexivity..].
  apply t_start; by vm_compute.
Qed.

Lemma stale_full_run : transfer 16 1000 4 stale_isn stale_text true stale_full.
Proof.
  apply (ack_eq _ _ _ _ _ _ _ (wrap 5 stale_isn) 0); [|by vm_compute].
  apply deliver_eq; [|vm_compute; right; by left|right; left; by vm_compute|vm_compute; reflexivity].
  eapply send_eq; [|vm_compute; reflexivity]. apply fill_eq; [|vm_compute; reflexivity..].
  refine (t_end _ _ _ _ _ false stale_written _).
  refine (t_write _ _ _ _ [] stale_open stale_text stale_open_run _). by vm_compute.
Qed.

Lemma stale_read_run : transfer 16 1000 4 stale_isn stale_text true stale_read.
Proof.
  refine (t_read _ _ _ _ _ _ stale_sent 2 _ ltac:(lia)).
  eapply send_eq; [|vm_compute; reflexivity]. apply fill_eq; [|vm_compute; reflexivity..].
  refine (t_acked _ _ _ _ _ _ stale_full _ _ stale_full_run _). vm_compute. by left.
Qed.

(** A duplicate of an old acknowledgment can truncate the stream: on a run of
    the system the sender believes the old window, its next segment does not fit the
    window of the receiver, and the receiver cuts it but keeps its FIN.  The reader
    then sees the end of the stream after 6 of 7 bytes. *)
Theorem stale_ack_truncates_stream :
  exists n seg r, transfer 16 1000 4 stale_isn stale_text true n /\ In seg (wire n) /\
    segment_received (rx n) seg = Ok r /\ ~ fits stale_isn (rx n) seg /\
    got n ++ ByteStream._buffer (stream_out r) = prefix_str stale_text 6 /\
    ByteStream.input_ended (stream_out r) = true.
Proof.
  exists stale_read, (last_sent stale_read). eexists. split; [exact stale_read_run|].
  split; [vm_compute; tauto|]. split; [vm_compute; reflexivity|].
  split; [|split; vm_compute; reflexivity].
  vm_compute. intros [?|[?|?]]; [done|by auto|by auto].
Qed.
