(* ===== verification/Completion.v ===== *)
(** * A transfer completes

    When the network behaves, the transfer of [Transfer.v] ends.  The sender and the
    receiver may come from any run over the unreliable network, with segments and
    acknowledgments lost, repeated and reordered.  From then on they proceed in
    rounds: the reader reads what there is, the receiver's acknowledgment arrives,
    the sender fills the window, its timer expires, and what it has queued arrives.
    Every round moves the acknowledgment number on, so that the whole stream and its
    end arrive in at most as many rounds as the stream has sequence numbers. *)

From stdpp Require Import base list numbers option.
From Stdlib Require Import ZArith Lia Strings.Byte.
From S2P Require Import Prelude.
From S2P Require Import OMap.
From S2P Require Import ByteStream.
From S2P Require Import StreamReassembler.
From S2P Require Import Reassembly.
From S2P Require Import WrappingIntegers.
From S2P Require Import Buffer.
From S2P Require Import TCPHeader.
From S2P Require Import TCPSegment.
From S2P Require Import TCPReceiver.
From S2P Require Import TCPConfig.
From S2P Require Import TCPSender.
From S2P Require Import Sending.
From S2P Require Import Transfer.
#[local] Open Scope Z_scope.

(** ** A round *)

(** The reader takes all that the receiver has for it. *)
Definition read_all (n : link) : link :=
  let k := ByteStream.buffer_size (stream_out (rx n)) in
  n <| rx := read_out (rx n) k |> <| got := got n ++ ByteStream.peek_output (stream_out (rx n)) k |>.

(** The receiver's acknowledgment and window reach the sender. *)
Definition answer (n : link) : link :=
  match TCPReceiver.ackno (rx n) with
  | Some a => let win := u16 (window_size (rx n)) in
              n <| acks := acks n ++ [(a, win)] |> <| tx := ack_received (tx n) a win |>
  | None => n
  end.

Definition fill (n : link) : res link :=
  let* s := fill_window (tx n) in
  Ok (n <| tx := s |>).

(** The time left on the sender's timer passes. *)
Definition expire (n : link) : link := n <| tx := tick (tx n) (_rx_time_left (tx n)) |>.

(** What is queued is handed to the network and arrives, in this order. *)
Fixpoint arrive (queue : list TCPSegment) (n : link) : res link :=
  match queue with
  | [] => Ok n
  | seg :: rest =>
      let n := n <| tx := (tx n) <| _segments_out := rest |> |> <| wire := wire n ++ [seg] |> in
      let* r := segment_received (rx n) seg in
      arrive rest (n <| rx := r |>)
  end.

Definition round (n : link) : res link :=
  let* n := fill (answer (read_all n)) in
  let n := expire n in
  arrive (_segments_out (tx n)) n.

Fixpoint rounds (k : nat) (n : link) : res link :=
  match k with
  | O => Ok n
  | S k => let* n := round n in rounds k n
  end.

(** ** What every run keeps *)

(** Whatever is in flight has a running timer. *)
Definition timed (s : TCPSender) : Prop := _outstanding_segs s <> [] -> timer_running s = true.

Lemma send_new_timed s seg : timed (send_new s seg).
Proof. intros _. unfold send_new, start_timer. by destruct s as [? ? ? ? ? ? ? ? ? []]. Qed.

Lemma send_probe_timed s : timed (send_probe s).
Proof. intros _. unfold send_probe, start_timer. by destruct s as [? ? ? ? ? ? ? ? ? []]. Qed.

(** [P] holds of the result, if there is one. *)
Definition res_holds {A} (P : A -> Prop) (o : res A) : Prop := match o with Ok a => P a | Throw _ => True end.

Lemma fill_loop_timed fuel : forall s, timed s -> res_holds timed (fill_loop fuel s).
Proof.
  induction fuel as [|fuel IH]; intros s Ht; cbn [fill_loop]; destruct (_ && _); try done.
  destruct (ByteStream.read _ _) as [b d]. apply IH, send_new_timed.
Qed.

Lemma if_timed (c : bool) s s' : timed s -> timed s' -> timed (if c then s else s').
Proof. by destruct c. Qed.

Lemma fill_timed s : timed s -> res_holds timed (fill_window s).
Proof.
  intros Ht. unfold fill_window. destruct (_ =? 0); [apply send_new_timed|]. destruct (_ && negb _).
  - apply fill_loop_timed, if_timed; [apply send_new_timed|done].
  - destruct (_ && _); [|exact Ht]. cbv zeta. cbn [res_holds].
    apply if_timed; [apply send_probe_timed|]. apply if_timed; [|exact Ht]. apply send_probe_timed.
Qed.

Lemma tick_timed s ms : timed s -> timed (tick s ms).
Proof.
  unfold tick, timed. intros Ht. destruct (_zero_win_seg_send s); [by destruct (_ =? 0)|].
  destruct (_outstanding_segs s) as [|[k seg] m] eqn:E; [by rewrite <- E; intros []|].
  rewrite Ht by done. cbn [negb]. by destruct (_ =? 0); [|intros _; apply Ht].
Qed.

Lemma ack_timed q fins s ackno win : sender_ok q fins s -> wi_ok ackno -> timed s -> timed (ack_received s ackno win).
Proof.
  intros Hs Ha Ht. pose proof (ack_received_spec q fins s ackno win Hs Ha) as H. cbv zeta in H.
  destruct (_ <? 0); [by rewrite H|]. destruct H as [Hf _ _ _ _ Hr]. intros Hne. rewrite Hr.
  destruct (_outstanding_segs (ack_received s ackno win)) as [|p m] eqn:E; [done|]. apply Ht. intros E0.
  by rewrite E0 in Hf.
Qed.

(** ** What is in flight *)

Lemma total_submseteq {V} (f : V -> Z) (l m : list (Z * V)) :
  (forall v, 0 <= f v) -> l ⊆+ m -> OMap.total f l <= OMap.total f m.
Proof. intros Hf. induction 1 as [|[k v] l m _ IH|[k v] [k' v'] l|[k v] l m _ IH|l m o _ IH1 _ IH2]; simpl; try pose proof (Hf v); lia. Qed.

Lemma contiguous_total lo hi l : contiguous lo hi l -> OMap.total length_in_sequence_space l = hi - lo.
Proof. revert lo. induction l as [|[k seg] l IH]; intros lo; simpl; [lia|]. intros [-> ->%IH]. lia. Qed.

Lemma contiguous_NoDup lo hi l :
  contiguous lo hi l -> (forall k seg, In (k, seg) l -> 1 <= length_in_sequence_space seg) -> NoDup l.
Proof.
  revert lo. induction l as [|[k seg] l IH]; intros lo; [constructor|]. intros [-> H] Hl. constructor; [|eapply IH; [exact H|]].
  - intros Hin%list_elem_of_In. pose proof (contiguous_In _ _ _ _ _ H Hin). pose proof (Hl lo seg (or_introl eq_refl)). lia.
  - intros k seg' ?. eapply Hl. right. done.
Qed.

(** Up from the first segment that is not covered by [a]. *)
Lemma contiguous_suffix a lo hi l :
  contiguous lo hi l -> lo <= a -> exists mid l', contiguous mid hi l' /\ mid <= a /\
    (forall k seg, In (k, seg) l' -> In (k, seg) l /\ (mid < hi -> a < k + length_in_sequence_space seg)).
Proof.
  revert lo. induction l as [|[k seg] l IH]; intros lo; [intros H ?; exists lo, []; by split_and!|].
  intros [-> H] Hlo. destruct (Z.le_gt_cases (lo + length_in_sequence_space seg) a) as [Ha|Ha].
  - destruct (IH _ H Ha) as (mid & l' & H1 & H2 & H3). exists mid, l'. split_and!; try done. intros k' seg' Hin.
    destruct (H3 _ _ Hin). split; [by right|done].
  - exists lo, ((lo, seg) :: l). split_and!; try done. intros k' seg' Hin. split; [done|]. intros _.
    destruct Hin as [[= <- <-]|Hin]; [lia|]. destruct (contiguous_In _ _ _ _ _ H Hin).
    assert (0 <= length_in_sequence_space seg') by apply u64_range. lia.
Qed.

Lemma in_flight_key q isn lo hi m k seg : in_flight q isn lo hi m -> In (k, seg) m -> lo <= k /\ k <= hi.
Proof.
  revert lo. induction m as [|[k1 seg1] m IH]; intros lo; [done|]. intros (? & ? & _ & Hf) [[= -> ->]|Hin].
  - pose proof (in_flight_bounds _ _ _ _ _ Hf). assert (0 <= OMap.total length_in_sequence_space m)
      by (apply OMap.total_nonneg; intros; apply u64_range). lia.
  - destruct (IH _ Hf Hin). lia.
Qed.

(** Nothing is in flight behind the next sequence number. *)
Lemma idle_flight q fins s a :
  sender_ok q fins s -> _next_seqno s <= a -> (forall p, In p (_outstanding_segs s) -> unacked a p = true) ->
  _outstanding_segs s = [].
Proof.
  intros Hs Ha Hu. pose proof (so_flight _ _ _ Hs) as Hf. destruct (_outstanding_segs s) as [|[k seg] m]; [done|].
  specialize (Hu _ (or_introl eq_refl)). apply Z.ltb_lt in Hu. simpl in Hu. destruct Hf as (_ & _ & _ & Hf).
  pose proof (in_flight_bounds _ _ _ _ _ Hf).
  assert (0 <= OMap.total length_in_sequence_space m) by (apply OMap.total_nonneg; intros; apply u64_range). lia.
Qed.

(** Everything in flight is behind 0. *)
Lemma unacked_start q fins s p : sender_ok q fins s -> In p (_outstanding_segs s) -> unacked 0 p = true.
Proof.
  intros Hs Hin. destruct p as [k seg]. apply Z.ltb_lt. simpl.
  destruct (in_flight_In _ _ _ _ _ _ _ (so_flight _ _ _ Hs) Hin), (in_flight_key _ _ _ _ _ _ _ (so_flight _ _ _ Hs) Hin). lia.
Qed.

Section unacknowledged.
Context (w : bytes) (c : bool) (rcap : Z) (isn : WrappingInt32).
Context (q : Spec.fifo) (fins : bool) (h : list (Z * TCPSegment)) (n : link) (L : linked w c rcap isn q fins h n).

(** Everything sent and not acknowledged is in flight. *)
Lemma flight_covers : _zero_win_seg_send (tx n) = false -> _next_seqno (tx n) <= ack_number (rx n) + bytes_in_flight (tx n).
Proof.
  intros Hz. pose proof (linked_ack _ _ _ _ _ _ _ _ L). destruct L as [L1 _ _ _ L5 _ L7 _ _ _].
  rewrite (flight_total _ _ _ L1). pose proof (flight_range _ _ _ L1) as Hfl. rewrite (flight_total _ _ _ L1) in Hfl.
  destruct (contiguous_suffix (ack_number (rx n)) _ _ _ (h_seqnos _ _ _ L5)) as (mid & l' & H1 & H2 & H3); [lia|].
  pose proof (contiguous_le _ _ _ H1). destruct (Z.eq_dec mid (_next_seqno (tx n))); [lia|].
  assert (Hin : forall p, In p l' -> In p (_outstanding_segs (tx n))).
  { intros [k seg] Hp. destruct (H3 k seg Hp) as [Hh Ha]. specialize (Ha ltac:(lia)).
    destruct (L7 k seg Hh) as [?|[?|(? & _)]]; [lia|done|congruence]. }
  assert (Hs : l' ⊆+ _outstanding_segs (tx n)).
  { apply NoDup_submseteq; [|intros p; rewrite !list_elem_of_In; apply Hin]. eapply contiguous_NoDup; [exact H1|].
    intros k seg Hp%Hin. by eapply in_flight_In; [exact (so_flight _ _ _ L1)|]. }
  apply (total_submseteq length_in_sequence_space) in Hs; [|intros; apply u64_range].
  rewrite (contiguous_total _ _ _ H1) in Hs. lia.
Qed.

(** The segment with the next sequence number the receiver waits for. *)
Lemma awaited :
  ack_number (rx n) < _next_seqno (tx n) ->
  exists k seg, In (k, seg) h /\ k <= ack_number (rx n) < k + length_in_sequence_space seg /\
    (In (k, seg) (_outstanding_segs (tx n)) \/
     (_zero_win_seg_send (tx n) = true /\ k = _zero_win_seg_seq (tx n) /\ seg = _zero_win_seg (tx n))).
Proof.
  intros Hlt. pose proof (linked_ack _ _ _ _ _ _ _ _ L). destruct L as [L1 _ _ _ L5 _ L7 _ _ _].
  destruct (contiguous_suffix (ack_number (rx n)) _ _ _ (h_seqnos _ _ _ L5)) as (mid & [|[k seg] l'] & H1 & H2 & H3);
    [lia|simpl in H1; lia|]. pose proof H1 as [-> _].
  destruct (H3 mid seg (or_introl eq_refl)) as [Hh Ha]. specialize (Ha ltac:(lia)).
  exists mid, seg. split_and!; [done|done|done|]. destruct (L7 mid seg Hh); [lia|done].
Qed.

(** The oldest segment in flight, if nothing acknowledged is kept. *)
Lemma oldest_awaited :
  ack_number (rx n) < _next_seqno (tx n) -> _zero_win_seg_send (tx n) = false ->
  (forall p, In p (_outstanding_segs (tx n)) -> unacked (ack_number (rx n)) p = true) ->
  exists k seg m, _outstanding_segs (tx n) = (k, seg) :: m /\ In (k, seg) h /\
    k <= ack_number (rx n) < k + length_in_sequence_space seg.
Proof.
  intros Hlt Hz Hu. destruct (awaited Hlt) as (k & seg & Hh & Hk & [Hin|(? & _)]); [|congruence].
  destruct L as [L1 _ _ _ L5 _ _ _ _ _]. pose proof (so_flight _ _ _ L1) as Hf. pose proof (h_flight _ _ _ L5) as Hsub.
  destruct (_outstanding_segs (tx n)) as [|[k0 seg0] m]; [done|]. exists k0, seg0, m. split; [done|].
  split; [apply Hsub; by left|]. pose proof (Hu _ (or_introl eq_refl)) as Hu0%Z.ltb_lt. simpl in Hu0. split; [|done].
  destruct Hin as [[= -> ->]|Hin]; [lia|]. destruct Hf as (_ & ? & _ & Hf).
  destruct (in_flight_key _ _ _ _ _ _ _ Hf Hin). lia.
Qed.

End unacknowledged.

(** ** Arrival *)

(** Every segment sent has been received or lies inside the window. *)
Definition in_reach (h : list (Z * TCPSegment)) (r : TCPReceiver) : Prop :=
  forall k seg, In (k, seg) h ->
    k + length_in_sequence_space seg <= ack_number r \/ k - 1 + length_in_sequence_space seg <= window (_reassembler r).

Lemma tracks_reassembler_window s isn cap evs synced fn q r :
  tracks s isn cap evs synced fn q r -> window (_reassembler r) = ByteStream.bytes_read (stream_out r) + cap.
Proof.
  intros T. pose proof (tr_abs _ _ _ _ _ _ _ _ T) as A. rewrite (window_abs _ _ _ (ab_inv _ _ _ _ _ _ A)).
  unfold window_end. rewrite (ab_cap _ _ _ _ _ _ A). by rewrite (tracks_read _ _ _ _ _ _ _ _ T).
Qed.

Lemma read_le_written s isn cap evs synced fn q r :
  tracks s isn cap evs synced fn q r ->
  0 <= ByteStream.bytes_read (stream_out r) <= ByteStream.bytes_written (stream_out r) /\
  ByteStream.bytes_written (stream_out r) - ByteStream.bytes_read (stream_out r) <= cap.
Proof.
  intros T. pose proof (tr_abs _ _ _ _ _ _ _ _ T) as A. pose proof (inv_out _ _ _ (ab_inv _ _ _ _ _ _ A)) as Ro.
  pose proof (ref_taken _ _ Ro). pose proof (ab_cap _ _ _ _ _ _ A).
  rewrite (tracks_read _ _ _ _ _ _ _ _ T). unfold stream_out. rewrite (abs_written _ _ _ _ _ _ A).
  pose proof (ref_room _ _ Ro). lia.
Qed.

(** Without a read the window stays. *)
Lemma received_window q fins s isn cap evs synced fn qr r out evs' synced' fn' qr' r' q' :
  received_from q fins s isn cap evs synced fn qr r out -> received_from q' fins s isn cap evs' synced' fn' qr' r' out ->
  window (_reassembler r') = window (_reassembler r).
Proof.
  intros [T _ _ O] [T' _ _ O']. rewrite (tracks_reassembler_window _ _ _ _ _ _ _ _ T), (tracks_reassembler_window _ _ _ _ _ _ _ _ T').
  rewrite O in O'. apply (f_equal len) in O'. rewrite !len_take in O'.
  pose proof (read_le_written _ _ _ _ _ _ _ _ T). pose proof (read_le_written _ _ _ _ _ _ _ _ T').
  pose proof (written_range _ _ _ _ _ _ _ _ T). pose proof (written_range _ _ _ _ _ _ _ _ T'). lia.
Qed.

(** The receiver follows the stream the writer wrote. *)
Lemma linked_tracks w c rcap isn q fins h n :
  linked w c rcap isn q fins h n -> exists S evs synced fn qr,
    text S = w /\ extends h (Spec.sent q) (Spec.closed q) S /\ received_from q fins S isn rcap evs synced fn qr (rx n) (got n).
Proof.
  intros [L1 [L2 L2'] L3 L4 L5 _ _ _ _ L10]. rewrite <- L2, <- L2' in L10.
  pose proof (extends_exists _ _ _ _ L1 L5 ltac:(by rewrite L2)) as X.
  destruct (L10 _ X) as (evs & synced & fn & qr & R). by exists (Source (Spec.sent q) (existsb (reaches (Spec.sent q)) h)), evs, synced, fn, qr.
Qed.

Section arrival.
Context (w : bytes) (c : bool) (rcap : Z) (isn : WrappingInt32).
Context (q : Spec.fifo) (fins : bool) (h : list (Z * TCPSegment)).

(** The whole stream, end included, has been acknowledged. *)
Lemma ended_all n : linked w c rcap isn q fins h n -> ByteStream.input_ended (stream_out (rx n)) = true ->
  _isn_set (rx n) = true -> ack_number (rx n) = len w + 2 /\ _next_seqno (tx n) = len w + 2.
Proof.
  intros L He Hset. pose proof (linked_ack _ _ _ _ _ _ _ _ L) as Ha. destruct (lk_stream _ _ _ _ _ _ _ _ L) as [E _].
  destruct (linked_tracks _ _ _ _ _ _ _ _ L) as (S & evs & synced & fn & qr & HS & _ & [T _ _ _]).
  pose proof He as Hw. rewrite (tracks_ended _ _ _ _ _ _ _ _ T), HS in Hw. apply andb_true_iff in Hw as [_ Hw%Z.eqb_eq].
  pose proof (next_seqno_range _ _ _ (lk_sender _ _ _ _ _ _ _ _ L)). assert (ack_number (rx n) = len w + 2); [|rewrite E in *; lia].
  unfold ack_number. by rewrite Hset, He, Hw.
Qed.

Lemma reach_fits n seg :
  linked w c rcap isn q fins h n -> in_reach h (rx n) -> known isn (_next_seqno (tx n)) h seg -> fits isn (rx n) seg.
Proof.
  intros L Hr [[k Hin]|(k & _ & [_ Hd _])]; [right; left|by left]. pose proof L as [L1 [L2 L2'] L3 L4 L5 _ _ _ _ _].
  destruct (linked_tracks _ _ _ _ _ _ _ _ L) as (S & evs & synced & fn & qr & HS & X & [T _ _ _]).
  rewrite <- L3, (history_position _ _ _ _ _ L1 L5 X k seg Hin).
  pose proof (h_carries _ _ _ L5) as Hc. rewrite List.Forall_forall in Hc. specialize (Hc _ Hin). simpl in Hc.
  pose proof (carries_length _ _ _ _ Hc) as Hl. pose proof (c_data _ _ _ _ Hc) as Hd.
  rewrite (tracks_reassembler_window _ _ _ _ _ _ _ _ T) in *. pose proof (read_le_written _ _ _ _ _ _ _ _ T).
  pose proof (written_range _ _ _ _ _ _ _ _ T) as Hw. rewrite HS, <- L2 in Hw. pose proof (sender_taken _ _ _ L1).
  destruct (syn (header seg)); [destruct Hd as (-> & -> & _); change (len []) with 0; lia|].
  destruct (Hr k seg Hin) as [Ha|Ha]; rewrite Hl in Ha; [|rewrite (tracks_reassembler_window _ _ _ _ _ _ _ _ T) in Ha; destruct (fin _); lia].
  unfold ack_number in Ha. destruct (_isn_set (rx n)) eqn:Hset; [|pose proof (len_nonneg (str (payload seg))); destruct (fin _); lia].
  destruct (ByteStream.input_ended (stream_out (rx n))) eqn:He; [|destruct (fin _); lia].
  destruct (ended_all n L He Hset) as [Hn _]. unfold ack_number in Hn. rewrite Hset, He, <- L2 in Hn. lia.
Qed.

(** The awaited segment is acknowledged up to its end. *)
Lemma awaited_counts n evs synced fn qr r k seg S :
  linked w c rcap isn q fins h n -> extends h (Spec.sent q) (Spec.closed q) S -> text S = Spec.sent q ->
  received_from q fins S (_isn (tx n)) rcap evs synced fn qr (rx n) (got n) ->
  In (k, seg) h -> segment_received (rx n) seg = Ok r -> k <= ack_number (rx n) < k + length_in_sequence_space seg ->
  k - 1 + length_in_sequence_space seg <= window (_reassembler (rx n)) ->
  k + length_in_sequence_space seg <= ack_number r.
Proof.
  intros L X HS R Hin Hok Hk Hw. pose proof L as [L1 [L2 L2'] L3 L4 L5 _ _ _ _ _].
  pose proof (rf_tracks _ _ _ _ _ _ _ _ _ _ _ R) as T. pose proof (h_carries _ _ _ L5) as Hc.
  rewrite List.Forall_forall in Hc. specialize (Hc _ Hin). simpl in Hc. pose proof (carries_length _ _ _ _ Hc) as Hl.
  pose proof (len_nonneg (str (payload seg))). destruct (syn (header seg)) eqn:Hsy.
  - destruct (syn_valid _ _ _ _ _ _ L1 L5 X _ _ _ _ _ _ R k seg Hin Hsy) as (-> & V & Hd & Hf).
    destruct (segment_advances _ _ _ _ _ _ _ _ _ _ T ltac:(by rewrite Hsy, orb_true_r) V) as (q' & r' & Hok' & T' & _).
    rewrite Hok in Hok'. injection Hok' as <-. rewrite Hl, Hd, Hf, (tracks_ack_number _ _ _ _ _ _ _ _ T').
    pose proof (written_range _ _ _ _ _ _ _ _ T'). unfold acked_up_to. change (len []) with 0. destruct (_ && (_ =? _)); lia.
  - pose proof (c_data _ _ _ _ Hc) as Hd. rewrite Hsy in Hd. destruct Hd as (Hk1 & _).
    assert (Hset : _isn_set (rx n) = true).
    { unfold ack_number in Hk. destruct (_isn_set (rx n)); [done|lia]. }
    assert (He : ByteStream.input_ended (stream_out (rx n)) = false).
    { apply not_true_iff_false. intros He. destruct (ended_all n L He Hset) as [E1 E2].
      destruct (contiguous_In _ _ _ _ _ (h_seqnos _ _ _ L5) Hin). lia. }
    pose proof Hset as Hsync. rewrite (tr_synced _ _ _ _ _ _ _ _ T) in Hsync.
    unfold ack_number in Hk. rewrite Hset, He in Hk.
    destruct (data_valid _ _ _ _ _ _ L1 L5 X _ _ _ _ _ _ R k seg Hin Hsy) as [V _]; [right; destruct (fin _); lia|].
    destruct (segment_advances _ _ _ _ _ _ _ _ _ _ T ltac:(by rewrite Hsync) V) as (q' & r' & Hok' & T' & _ & _ & Hadv).
    rewrite Hok in Hok'. injection Hok' as <-. specialize (Hadv ltac:(lia)).
    rewrite Hl, (tracks_ack_number _ _ _ _ _ _ _ _ T'). unfold acked_up_to.
    pose proof (written_range _ _ _ _ _ _ _ _ T') as Hw'. rewrite HS in *. destruct (fin (header seg)) eqn:Hf; [|destruct (_ && (_ =? _)); lia].
    destruct (c_fin _ _ _ _ Hc Hf) as [_ Hend].
    rewrite (proj2 (Z.ltb_lt _ _)), orb_true_r, (proj2 (Z.eqb_eq _ _)) by lia. simpl. lia.
Qed.

(** One segment arrives. *)
Lemma arrives n seg :
  linked w c rcap isn q fins h n -> in_reach h (rx n) -> known isn (_next_seqno (tx n)) h seg ->
  exists r, segment_received (rx n) seg = Ok r /\ ack_number (rx n) <= ack_number r /\
    window (_reassembler r) = window (_reassembler (rx n)) /\
    (forall k, In (k, seg) h -> k <= ack_number (rx n) -> k + length_in_sequence_space seg <= ack_number r).
Proof.
  intros L Hr Hkn. pose proof (reach_fits n seg L Hr Hkn) as Hfit. pose proof L as [L1 [L2 L2'] L3 L4 L5 _ _ _ _ _].
  destruct (linked_tracks _ _ _ _ _ _ _ _ L) as (S & evs & synced & fn & qr & HS & X & R).
  rewrite <- L3 in R, Hkn, Hfit.
  destruct (deliver_known _ _ _ _ _ _ L1 L5 X _ _ _ _ _ _ R seg Hkn Hfit) as (evs' & synced' & fn' & qr' & r & Hok & R' & He & Hs & Hf & _).
  pose proof (rf_tracks _ _ _ _ _ _ _ _ _ _ _ R) as T. pose proof (rf_tracks _ _ _ _ _ _ _ _ _ _ _ R') as T'.
  assert (Hmono := ack_number_mono _ _ _ _ _ _ _ _ _ _ _ _ _ T T' He Hs Hf).
  exists r. split_and!; [done|done| |].
  - exact (received_window _ _ _ _ _ _ _ _ _ _ _ _ _ _ _ _ _ R R').
  - intros k Hin Hk. destruct (Z.le_gt_cases (k + length_in_sequence_space seg) (ack_number (rx n))) as [?|Hgt]; [lia|].
    eapply (awaited_counts n evs synced fn qr r k seg S); try done; [congruence|].
    destruct (Hr k seg Hin); [lia|done].
Qed.

(** The whole queue arrives. *)
Lemma arrive_spec cap rto queue : forall n,
  transfer cap rto rcap isn w c n -> linked w c rcap isn q fins h n -> in_reach h (rx n) -> _segments_out (tx n) = queue ->
  exists n', arrive queue n = Ok n' /\ transfer cap rto rcap isn w c n' /\ linked w c rcap isn q fins h n' /\
    tx n' = (tx n) <| _segments_out := [] |> /\ got n' = got n /\ ack_number (rx n) <= ack_number (rx n') /\
    (forall k seg, In seg queue -> In (k, seg) h -> k <= ack_number (rx n) ->
       k + length_in_sequence_space seg <= ack_number (rx n')).
Proof.
  induction queue as [|seg queue IH]; intros n T L Hr Hq; cbn [arrive].
  { exists n. split_and!; try done. destruct n as [s ? ? ? ?]. cbn [tx] in *. destruct s. cbn in *. by subst. }
  set (n1 := n <| tx := _ |> <| wire := _ |>).
  assert (T1 : transfer cap rto rcap isn w c n1) by (by apply t_send).
  assert (L1 : linked w c rcap isn q fins h n1) by (by apply linked_send).
  assert (Hin : In seg (wire n1)) by (apply in_or_app; right; by left).
  pose proof (lk_queue _ _ _ _ _ _ _ _ L1 seg (or_intror Hin)) as Hkn.
  destruct (arrives n1 seg L1 Hr Hkn) as (r & Hok & Ha & Hw & Hp).
  pose proof (reach_fits n1 seg L1 Hr Hkn) as Hfit. rewrite Hok. cbn [res_bind].
  destruct (IH (n1 <| rx := r |>)) as (n' & E & T' & L' & Htx & Hg & Hm & Hp').
  - by apply (t_deliver _ _ _ _ _ _ n1 seg).
  - by apply (linked_deliver _ _ _ _ _ _ _ n1 seg).
  - intros k seg' Hin'. simpl. rewrite Hw. destruct (Hr k seg' Hin'); [left|by right].
    change (ack_number (rx n1)) with (ack_number (rx n)) in Ha. lia.
  - done.
  - change (ack_number (rx n1)) with (ack_number (rx n)) in *. change (ack_number (rx (n1 <| rx := r |>))) with (ack_number r) in *.
    exists n'. split_and!; try done; [lia|]. intros k seg' [<-|Hq'] Hin' Hk; [specialize (Hp k Hin' Hk); lia|].
    apply Hp'; [done|done|lia].
Qed.

End arrival.

(** ** Before the handshake *)

(** Until the SYN has arrived the sender has no acknowledgment. *)
Definition unanswered (n : link) : Prop :=
  _isn_set (rx n) = false -> acks n = [] /\ _win_size (tx n) = 0 /\ _zero_win_seg_send (tx n) = false /\ _next_seqno (tx n) <= 1.

Lemma isn_stays r seg r' : segment_received r seg = Ok r' -> _isn_set r' = false -> _isn_set r = false.
Proof.
  unfold segment_received, res_bind. intros H Hr. repeat case_match; simplify_eq; done.
Qed.

(** A sender that waits for the answer to its SYN, or has not sent it. *)
Lemma unanswered_fill w c rcap isn n s :
  linked_some w c rcap isn n -> _isn_set (rx n) = false -> _win_size (tx n) = 0 -> _zero_win_seg_send (tx n) = false ->
  fill_window (tx n) = Ok s -> (_next_seqno (tx n) <> 0 /\ s = tx n) \/ (_next_seqno (tx n) = 0 /\ s = send_new (tx n) (syn_segment (tx n))).
Proof.
  intros (q & fins & h & L) Hset Hw Hz. pose proof (flight_covers _ _ _ _ _ _ _ _ L Hz) as Hf.
  pose proof (flight_range _ _ _ (lk_sender _ _ _ _ _ _ _ _ L)). unfold ack_number in Hf. rewrite Hset in Hf.
  unfold fill_window, next_seqno_absolute. destruct (Z.eqb_spec (_next_seqno (tx n)) 0) as [E|E]; [intros [= <-]; by right|].
  rewrite Hw, (proj2 (Z.ltb_ge (bytes_in_flight (tx n)) 0)), (proj2 (Z.ltb_ge (bytes_in_flight (tx n)) (_next_seqno (tx n)))) by lia.
  cbn [andb Z.eqb]. intros [= <-]. by left.
Qed.

Lemma tick_keeps s ms :
  _win_size (tick s ms) = _win_size s /\ _zero_win_seg_send (tick s ms) = _zero_win_seg_send s /\
  _next_seqno (tick s ms) = _next_seqno s /\ _outstanding_segs (tick s ms) = _outstanding_segs s.
Proof. unfold tick, resend, back_off. repeat case_match; done. Qed.

Lemma transfer_unanswered cap rto rcap isn w c n : transfer cap rto rcap isn w c n -> unanswered n.
Proof.
  induction 1 as [|w n d T IH Hl|w c n T IH|w c n s T IH Hr Hf|w c n ms T IH|w c n T IH|w c n seg rest T IH Hq
    |w c n seg r T IH Hin Hfit Hok|w c n k T IH Hk|w c n a win T IH Ha|w c n a win T IH Hin]; intros Hset; try done; try (by apply IH).
  - destruct (IH Hset) as (H1 & H2 & H3 & H4). split; [done|].
    destruct (unanswered_fill _ _ _ _ _ _ (transfer_linked _ _ _ _ _ _ _ T) Hset H2 H3 Hf) as [[_ ->]|[E ->]]; [done|].
    destruct (send_new_fields (tx n) (syn_segment (tx n))) as (_ & E1 & E2 & _).
    destruct (send_new_seqno (tx n) (syn_segment (tx n))) as [E3 _]. simpl. rewrite E1, E2, E3, E. done.
  - destruct (IH Hset) as (H1 & H2 & H3 & H4). destruct (tick_keeps (tx n) ms) as (E1 & E2 & E3 & _). simpl. by rewrite E1, E2, E3.
  - apply IH. by eapply isn_stays.
  - destruct Ha as [Ha _]. unfold TCPReceiver.ackno in Ha. simpl in Hset. by rewrite Hset in Ha.
  - destruct (IH Hset) as (H1 & _). by rewrite H1 in Hin.
Qed.

Lemma transfer_timed cap rto rcap isn w c n : transfer cap rto rcap isn w c n -> timed (tx n).
Proof.
  induction 1 as [|w n d T IH Hl|w c n T IH|w c n s T IH Hr Hf|w c n ms T IH|w c n T IH|w c n seg rest T IH Hq
    |w c n seg r T IH Hin Hfit Hok|w c n k T IH Hk|w c n a win T IH Ha|w c n a win T IH Hin]; try exact IH; try done.
  - by intros [].
  - pose proof (fill_timed _ IH) as H. by rewrite Hf in H.
  - by apply tick_timed.
  - destruct (transfer_linked _ _ _ _ _ _ _ T) as (q & fins & h & L).
    destruct (lk_acks _ _ _ _ _ _ _ _ L a win Hin) as [_ (x & -> & _)].
    eapply ack_timed; [apply L|apply wrap_ok|done].
Qed.

(** ** The steps of a round *)

Section round.
Context (cap rto rcap : Z) (isn : WrappingInt32) (w : bytes).
Context (Hcap : 1 <= rcap < 65536).

(** The reader has read all. *)
Lemma read_all_run c n : transfer cap rto rcap isn w c n -> transfer cap rto rcap isn w c (read_all n).
Proof. intros T. apply t_read; [done|]. apply len_nonneg. Qed.

Lemma answer_run c n : transfer cap rto rcap isn w c n -> transfer cap rto rcap isn w c (answer n).
Proof.
  intros T. unfold answer. destruct (TCPReceiver.ackno (rx n)) as [a|] eqn:E; [|done].
  refine (t_acked _ _ _ _ _ _ (n <| acks := acks n ++ [(a, u16 (window_size (rx n)))] |>) _ _ (t_ack _ _ _ _ _ _ _ _ _ T _) _); [done|].
  apply in_or_app. right. by left.
Qed.

Lemma read_all_buffer n : ByteStream._buffer (stream_out (rx (read_all n))) = [].
Proof.
  unfold read_all, read_out, stream_out, StreamReassembler.pop_output, StreamReassembler.stream_out. simpl.
  unfold ByteStream.buffer_size. rewrite Z.min_id, Z.sub_diag. done.
Qed.

Lemma read_all_window c q fins h n :
  linked w c rcap isn q fins h n -> ByteStream._buffer (stream_out (rx n)) = [] ->
  window_size (rx n) = rcap /\ window (_reassembler (rx n)) = ByteStream.bytes_written (stream_out (rx n)) + rcap.
Proof.
  intros L Hb. destruct (linked_tracks _ _ _ _ _ _ _ _ L) as (S & evs & synced & fn & qr & _ & _ & [T _ _ _]).
  pose proof (tr_abs _ _ _ _ _ _ _ _ T) as A. pose proof (inv_out _ _ _ (ab_inv _ _ _ _ _ _ A)) as Ro.
  pose proof (refines_buffer_len _ _ Ro) as Hl. unfold stream_out, StreamReassembler.stream_out in Hb. rewrite Hb in Hl. change (len []) with 0 in Hl.
  assert (ByteStream.bytes_written (stream_out (rx n)) = ByteStream.bytes_read (stream_out (rx n))) as E.
  { rewrite (tracks_read _ _ _ _ _ _ _ _ T). unfold stream_out. rewrite (abs_written _ _ _ _ _ _ A). lia. }
  rewrite (tracks_window _ _ _ _ _ _ _ _ T), (tracks_reassembler_window _ _ _ _ _ _ _ _ T), E. lia.
Qed.

(** Where a round can start. *)
Record ready (n : link) : Prop := {
  rd_run : transfer cap rto rcap isn w true n;
  rd_reach : _next_seqno (tx n) <= ack_number (rx n) + rcap;
  rd_probe : _zero_win_seg_send (tx n) = true -> _outstanding_segs (tx n) = [];
}.

(** The sender knows what the receiver has and its window. *)
Record answered (n : link) : Prop := {
  an_run : transfer cap rto rcap isn w true n;
  an_reach : _next_seqno (tx n) <= ack_number (rx n) + rcap;
  an_unacked : forall p, In p (_outstanding_segs (tx n)) -> unacked (ack_number (rx n)) p = true;
  an_probe : _zero_win_seg_send (tx n) = true -> _outstanding_segs (tx n) = [] /\ ack_number (rx n) < _next_seqno (tx n);
  an_window : _isn_set (rx n) = true -> _win_size (tx n) = rcap;
}.

Lemma linked_ackno c q fins h n :
  linked w c rcap isn q fins h n -> TCPReceiver.ackno (rx n) = if _isn_set (rx n) then Some (wrap (ack_number (rx n)) isn) else None.
Proof.
  intros L. destruct (linked_tracks _ _ _ _ _ _ _ _ L) as (S & evs & synced & fn & qr & _ & _ & [T _ _ _]).
  rewrite (tracks_ackno _ _ _ _ _ _ _ _ T), (tr_synced _ _ _ _ _ _ _ _ T). destruct synced eqn:E; [|done].
  by rewrite (tracks_ack_number _ _ _ _ _ _ _ _ T).
Qed.

Lemma answer_answered n :
  ready n -> ByteStream._buffer (stream_out (rx n)) = [] ->
  answered (answer n) /\ rx (answer n) = rx n /\ got (answer n) = got n.
Proof.
  intros [T Hreach Hp] Hb. destruct (transfer_linked _ _ _ _ _ _ _ T) as (q & fins & h & L).
  destruct (read_all_window _ _ _ _ _ L Hb) as [Hw _]. pose proof (linked_ack _ _ _ _ _ _ _ _ L) as Ha.
  pose proof (linked_ackno _ _ _ _ _ L) as Hk. pose proof (answer_run _ _ T) as T1. unfold answer in *. rewrite Hk, Hw, u16_small in * by lia.
  pose proof (lk_sender _ _ _ _ _ _ _ _ L) as Hs.
  destruct (_isn_set (rx n)) eqn:Hset.
  - split; [|done]. pose proof (next_seqno_range _ _ _ Hs). pose proof (lk_len _ _ _ _ _ _ _ _ L). destruct (lk_stream _ _ _ _ _ _ _ _ L) as [E _].
    pose proof (ack_received_spec q fins (tx n) (wrap (ack_number (rx n)) isn) rcap Hs (wrap_ok _ _)) as K. cbv zeta in K.
    rewrite (lk_isn _ _ _ _ _ _ _ _ L), last_ack_wrap, (proj2 (Z.ltb_ge _ _)) in K
      by (rewrite ?E in *; lia || (rewrite <- (lk_isn _ _ _ _ _ _ _ _ L); apply Hs)).
    destruct K as [K1 [K2 _] (_ & _ & K3 & _) (K4 & _) _ _]. split; simpl.
    + done.
    + by rewrite K3.
    + rewrite K1. by intros p [_ ?]%filter_In.
    + rewrite K4, K3, K1. destruct (Z.ltb_spec (_zero_win_seg_seq (tx n)) (ack_number (rx n))); [done|]. intros Hz.
      rewrite (Hp Hz). split; [done|]. destruct (so_probe _ _ _ Hs Hz) as [_ ?].
      destruct (h_probe _ _ _ (lk_history _ _ _ _ _ _ _ _ L) Hz). lia.
    + done.
  - split; [|done]. destruct (transfer_unanswered _ _ _ _ _ _ _ T Hset) as (_ & H2 & H3 & H4).
    split; try done; [|congruence|congruence]. intros p Hin. unfold ack_number. rewrite Hset. by eapply unacked_start.
Qed.

Lemma answered_no_risk n : answered n -> second_fin_risk (tx n) = false.
Proof.
  intros [T _ _ _ Hw]. destruct (transfer_linked _ _ _ _ _ _ _ T) as (q & fins & h & L).
  destruct (_isn_set (rx n)) eqn:Hset.
  - unfold second_fin_risk. rewrite (Hw eq_refl), (proj2 (Z.eqb_neq rcap 0)) by lia. by rewrite andb_false_r.
  - destruct (transfer_unanswered _ _ _ _ _ _ _ T Hset) as (_ & _ & _ & H4). pose proof (lk_sender _ _ _ _ _ _ _ _ L) as Hs.
    unfold second_fin_risk. rewrite (sender_written _ _ _ Hs). pose proof (so_bound _ _ _ Hs). pose proof (len_nonneg (Spec.sent q)).
    by rewrite u64_small, (proj2 (Z.eqb_neq _ _)) by lia.
Qed.

(** What was put in flight is not acknowledged. *)
Lemma launched_unacked q fins s new s' a :
  sender_ok q fins s' -> launched s new s' -> a <= _next_seqno s ->
  (forall p, In p (_outstanding_segs s) -> unacked a p = true) ->
  forall p, In p (_outstanding_segs s') -> unacked a p = true.
Proof.
  intros Hs' [_ L2 L3 _] Ha Hu [k seg] Hin. pose proof (in_flight_In _ _ _ _ _ _ _ (so_flight _ _ _ Hs') Hin) as [_ ?].
  rewrite L2 in Hin. apply in_app_or in Hin as [Hin|Hin]; [by apply Hu|].
  destruct (contiguous_In _ _ _ _ _ L3 Hin). apply Z.ltb_lt. simpl. lia.
Qed.

(** An open window: the sender fills it or has sent everything. *)
Lemma fill_answered_open n :
  answered n -> _isn_set (rx n) = true -> _zero_win_seg_send (tx n) = false -> bytes_in_flight (tx n) < rcap ->
  exists s, fill_window (tx n) = Ok s /\ answered (n <| tx := s |>) /\
    (_next_seqno s = ack_number (rx n) -> ack_number (rx n) = len w + 2).
Proof.
  intros An Hset Hz Hfl. pose proof An as [T Hr Hu Hp Hw]. specialize (Hw Hset).
  destruct (transfer_linked _ _ _ _ _ _ _ T) as (q & fins & h & L). pose proof (lk_sender _ _ _ _ _ _ _ _ L) as Hs.
  pose proof (lk_started _ _ _ _ _ _ _ _ L Hset) as Hn0. pose proof (linked_ack _ _ _ _ _ _ _ _ L) as Ha.
  destruct (fill_open_spec q fins (tx n) Hs Hn0 ltac:(lia) Hz) as (q' & fins' & s & Hf & [F1 F2 (F3 & F3' & F3'') [F4 F4'] [new F5] F6 F7 F8]).
  assert (T' : transfer cap rto rcap isn w true (n <| tx := s |>)) by (apply t_fill; [done|by apply answered_no_risk|done]).
  destruct (transfer_linked _ _ _ _ _ _ _ T') as (q1 & fins1 & h1 & L').
  pose proof (flight_covers _ _ _ _ _ _ _ _ L') as Hcov. pose proof (linked_ack _ _ _ _ _ _ _ _ L') as Ha'. simpl in Hcov, Ha'.
  exists s. split; [done|]. split; [split; simpl|].
  - done.
  - specialize (Hcov ltac:(congruence)). specialize (F6 ltac:(lia)). lia.
  - eapply launched_unacked; [exact F1|exact F5|lia|done].
  - congruence.
  - congruence.
  - intros E. destruct (lk_stream _ _ _ _ _ _ _ _ L) as [E1 E2].
    assert (Hfl0 : bytes_in_flight s = 0).
    { rewrite (flight_total _ _ _ F1). pose proof (launched_unacked _ _ _ _ _ (ack_number (rx n)) F1 F5 ltac:(lia) Hu) as Hu'.
      by rewrite (idle_flight _ _ _ (ack_number (rx n)) F1 ltac:(lia) Hu'). }
    destruct F7 as [F7|?]; [|lia]. destruct F8 as [->|?]; [|destruct (so_fins _ _ _ F1 eq_refl)|lia].
    { unfold Spec.at_end. rewrite F7, F4', E2, Z.eqb_refl. done. }
    rewrite <- E, (so_next _ _ _ F1) by (pose proof (contiguous_le _ _ _ (l_seqnos _ _ _ F5)); lia).
    unfold sent_up_to. rewrite F7, F4, E1. lia.
Qed.

Lemma fill_probing s : _next_seqno s <> 0 -> _zero_win_seg_send s = true -> fill_window s = Ok s.
Proof.
  intros Hn Hz. unfold fill_window, next_seqno_absolute. rewrite (proj2 (Z.eqb_neq _ _)), Hz by done. cbn [negb].
  rewrite !andb_false_r, Hz. cbn [negb]. rewrite andb_false_r. by destruct (_ && _).
Qed.

Lemma fill_full s :
  _next_seqno s <> 0 -> _win_size s <= bytes_in_flight s -> _win_size s <> 0 -> fill_window s = Ok s.
Proof.
  intros Hn Hf Hw. unfold fill_window, next_seqno_absolute.
  rewrite (proj2 (Z.eqb_neq (_next_seqno s) 0)), (proj2 (Z.ltb_ge _ _)), (proj2 (Z.eqb_neq (_win_size s) 0)) by done. done.
Qed.

Lemma fill_answered n :
  answered n ->
  exists s, fill_window (tx n) = Ok s /\ answered (n <| tx := s |>) /\
    (_next_seqno s = ack_number (rx n) -> ack_number (rx n) = len w + 2).
Proof.
  intros An. pose proof An as [T Hr Hu Hp Hw]. destruct (transfer_linked _ _ _ _ _ _ _ T) as (q & fins & h & L).
  pose proof (lk_sender _ _ _ _ _ _ _ _ L) as Hs. pose proof (linked_ack _ _ _ _ _ _ _ _ L) as Ha.
  destruct (_isn_set (rx n)) eqn:Hset.
  - pose proof (lk_started _ _ _ _ _ _ _ _ L Hset) as Hn0. specialize (Hw eq_refl).
    destruct (_zero_win_seg_send (tx n)) eqn:Hz.
    { exists (tx n). split; [by apply fill_probing|]. destruct (Hp eq_refl). split; [by destruct n|lia]. }
    destruct (Z.lt_ge_cases (bytes_in_flight (tx n)) rcap) as [Hfl|Hfl]; [by apply fill_answered_open|].
    exists (tx n). split; [apply fill_full; lia|]. split; [by destruct n|]. intros E. exfalso.
    rewrite (flight_total _ _ _ Hs), (idle_flight _ _ _ (ack_number (rx n)) Hs ltac:(lia) Hu) in Hfl. simpl in Hfl. lia.
  - destruct (transfer_unanswered _ _ _ _ _ _ _ T Hset) as (_ & H2 & H3 & _). pose proof (answered_no_risk n An) as Hrisk.
    destruct (fill_window_spec q fins (tx n) Hs (risk_guard _ _ _ Hs Hrisk)) as (q' & fins' & s & Hf & [A1 _ _ _ _]).
    assert (T' : transfer cap rto rcap isn w true (n <| tx := s |>)) by (by apply t_fill).
    destruct (transfer_unanswered _ _ _ _ _ _ _ T' Hset) as (_ & _ & H5 & H6). simpl in H5, H6.
    assert (HA : ack_number (rx n) = 0) by (unfold ack_number; by rewrite Hset).
    exists s. split; [done|]. split; [split; simpl; try done; [lia|rewrite HA; intros p Hin; by eapply unacked_start|congruence|congruence]|].
    rewrite HA. destruct (unanswered_fill _ _ _ _ _ _ (transfer_linked _ _ _ _ _ _ _ T) Hset H2 H3 Hf) as [[? ->]|[E ->]]; [done|].
    destruct (send_new_seqno (tx n) (syn_segment (tx n))) as [-> _]. by rewrite E.
Qed.

(** When the timer expires the awaited segment is queued again. *)
Lemma expire_resends q fins h n :
  answered n -> linked w true rcap isn q fins h n -> ack_number (rx n) < _next_seqno (tx n) ->
  exists k seg, In seg (_segments_out (tx (expire n))) /\ In (k, seg) h /\
    k <= ack_number (rx n) < k + length_in_sequence_space seg.
Proof.
  intros [T _ Hu Hp _] L Hlt. pose proof (transfer_timed _ _ _ _ _ _ _ T) as Ht. unfold expire. cbn [tx].
  assert (E0 : time_left_after (tx n) (_rx_time_left (tx n)) =? 0 = true) by (unfold time_left_after; by rewrite Z.ltb_irrefl).
  destruct (_zero_win_seg_send (tx n)) eqn:Hz.
  - destruct (awaited _ _ _ _ _ _ _ _ L Hlt) as (k & seg & Hh & Hk & [Hin|(_ & -> & ->)]).
    { destruct (Hp eq_refl) as [E _]. by rewrite E in Hin. }
    exists (_zero_win_seg_seq (tx n)), (_zero_win_seg (tx n)). split; [|done].
    change (In (_zero_win_seg (tx n)) (_segments_out (tick (tx n) (_rx_time_left (tx n))))).
    unfold tick. rewrite Hz. change (_rx_time_left (tx n <| _rx_time_left := ?x |>)) with x. rewrite E0.
    apply in_or_app. right. by left.
  - destruct (oldest_awaited _ _ _ _ _ _ _ _ L Hlt Hz Hu) as (k & seg & m & Ho & Hh & Hk). exists k, seg. split; [|done].
    change (In seg (_segments_out (tick (tx n) (_rx_time_left (tx n))))).
    unfold tick. rewrite Hz, Ho, Ht by (by rewrite Ho). cbn [negb]. cbv zeta.
    change (_rx_time_left (tx n <| _rx_time_left := ?x |>)) with x. rewrite E0. apply in_or_app. right. by left.
Qed.

Lemma expire_linked c q fins h n : linked w c rcap isn q fins h n -> linked w c rcap isn q fins h (expire n).
Proof.
  intros L. destruct (lk_stream _ _ _ _ _ _ _ _ L) as [E1 E2].
  destruct (tick_step q fins h (tx n) (_rx_time_left (tx n)) (lk_sender _ _ _ _ _ _ _ _ L) (lk_history _ _ _ _ _ _ _ _ L)) as [St Hi].
  rewrite <- (app_nil_r h). eapply linked_step; try done; [apply tick_ok, L|apply grows_refl|].
  by rewrite Hi, (lk_isn _ _ _ _ _ _ _ _ L).
Qed.

(** Behind the reader everything sent is in reach. *)
Lemma answered_in_reach q fins h n :
  linked w true rcap isn q fins h n -> ByteStream._buffer (stream_out (rx n)) = [] ->
  _next_seqno (tx n) <= ack_number (rx n) + rcap -> in_reach h (rx n).
Proof.
  intros L Hb Hr k seg Hin. destruct (read_all_window _ _ _ _ _ L Hb) as [_ ->].
  destruct (contiguous_In _ _ _ _ _ (h_seqnos _ _ _ (lk_history _ _ _ _ _ _ _ _ L)) Hin) as [_ Hk].
  destruct (linked_tracks _ _ _ _ _ _ _ _ L) as (S & evs & synced & fn & qr & _ & _ & [T _ _ _]).
  pose proof (written_range _ _ _ _ _ _ _ _ T).
  unfold ack_number in *. destruct (_isn_set (rx n)) eqn:Hset; [|lia].
  destruct (ByteStream.input_ended (stream_out (rx n))) eqn:He; [|lia]. left.
  destruct (ended_all _ _ _ _ _ _ _ n L He Hset) as [E1 E2]. unfold ack_number in E1. rewrite Hset, He in E1. lia.
Qed.

(** The whole stream is delivered and acknowledged. *)
Record complete (n : link) : Prop := {
  cm_got : got n = w;
  cm_ended : ByteStream.input_ended (stream_out (rx n)) = true;
  cm_flight : bytes_in_flight (tx n) = 0;
  cm_probe : get_zero_seg_send (tx n) = false;
}.

Lemma all_acked c q fins h n :
  linked w c rcap isn q fins h n -> len w + 2 <= ack_number (rx n) ->
  ack_number (rx n) = len w + 2 /\ _isn_set (rx n) = true /\ ByteStream.input_ended (stream_out (rx n)) = true.
Proof.
  intros L Ha. pose proof (len_nonneg w).
  destruct (linked_tracks _ _ _ _ _ _ _ _ L) as (S & evs & synced & fn & qr & HS & _ & [T _ _ _]).
  pose proof (written_range _ _ _ _ _ _ _ _ T) as Hw. rewrite HS in Hw. unfold ack_number in *.
  destruct (_isn_set (rx n)); [|lia]. destruct (ByteStream.input_ended _); [|lia]. split; [lia|done].
Qed.

Lemma ready_next n : ready n -> _next_seqno (tx n) <= len w + 2 /\ 0 <= ack_number (rx n) <= _next_seqno (tx n).
Proof.
  intros [T _ _]. destruct (transfer_linked _ _ _ _ _ _ _ T) as (q & fins & h & L).
  pose proof (next_seqno_range _ _ _ (lk_sender _ _ _ _ _ _ _ _ L)). destruct (lk_stream _ _ _ _ _ _ _ _ L) as [E _].
  pose proof (linked_ack _ _ _ _ _ _ _ _ L). rewrite E in *. lia.
Qed.

(** The timer expires and the queue arrives. *)
Lemma expire_arrives n :
  answered n -> ByteStream._buffer (stream_out (rx n)) = [] ->
  exists n', arrive (_segments_out (tx (expire n))) (expire n) = Ok n' /\ ready n' /\ got n' = got n /\
    _outstanding_segs (tx n') = _outstanding_segs (tx n) /\ _zero_win_seg_send (tx n') = _zero_win_seg_send (tx n) /\
    ack_number (rx n) <= ack_number (rx n') /\
    (ack_number (rx n) < _next_seqno (tx n) -> ack_number (rx n) < ack_number (rx n')).
Proof.
  intros An Hb. pose proof An as [T Hr Hu Hp _]. destruct (transfer_linked _ _ _ _ _ _ _ T) as (q & fins & h & L).
  destruct (tick_keeps (tx n) (_rx_time_left (tx n))) as (_ & K2 & K3 & K4).
  destruct (arrive_spec w true rcap isn q fins h cap rto (_segments_out (tx (expire n))) (expire n))
    as (n' & Hok & T' & L' & Etx & Eg & Hm & Hp'); [by apply t_tick|by apply expire_linked|exact (answered_in_reach _ _ _ _ L Hb Hr)|done|].
  change (rx (expire n)) with (rx n) in Hm, Hp'.
  assert (E1 : _next_seqno (tx n') = _next_seqno (tx n)) by (by rewrite Etx, <- K3).
  assert (E2 : _outstanding_segs (tx n') = _outstanding_segs (tx n)) by (by rewrite Etx, <- K4).
  assert (E3 : _zero_win_seg_send (tx n') = _zero_win_seg_send (tx n)) by (by rewrite Etx, <- K2).
  exists n'. split_and!; try done.
  - split; [done|lia|]. rewrite E2, E3. by intros [? _]%Hp.
  - intros Hlt. destruct (expire_resends _ _ _ n An L Hlt) as (k & seg & Hin & Hh & Hk).
    specialize (Hp' k seg Hin Hh ltac:(lia)). lia.
Qed.

Lemma round_spec n :
  ready n -> exists n', round n = Ok n' /\ ready n' /\ ack_number (rx n) <= ack_number (rx n') /\
    (ack_number (rx n) < ack_number (rx n') \/ ack_number (rx n) = len w + 2) /\
    (len w + 2 <= ack_number (rx n) -> complete n').
Proof.
  intros Rd. pose proof Rd as [T Hr Hp]. pose proof (read_all_run _ _ T) as T1. pose proof (read_all_buffer n) as Hb.
  assert (Rd1 : ready (read_all n)) by (by split). unfold round. set (n1 := read_all n) in *.
  assert (HA : ack_number (rx n1) = ack_number (rx n)) by done.
  destruct (answer_answered n1 Rd1 Hb) as (An & Erx & Egot). set (n2 := answer n1) in *.
  destruct (fill_answered n2 An) as (s & Hf & An3 & Hdone). unfold fill. rewrite Hf. cbn [res_bind].
  set (n3 := n2 <| tx := s |>) in *. assert (E3 : rx n3 = rx n1) by done. change s with (tx n3) in Hdone.
  rewrite Erx, HA in Hdone.
  destruct (expire_arrives n3 An3) as (n' & Hok & Rd' & Eg & Eo & Ez & Hm & Hlt); [by rewrite E3|].
  rewrite E3, HA in Hm, Hlt. destruct (transfer_linked _ _ _ _ _ _ _ (an_run _ An3)) as (q & fins & h & L3).
  pose proof (linked_ack _ _ _ _ _ _ _ _ L3) as Ha3. rewrite E3, HA in Ha3.
  exists n'. split; [done|]. split; [done|]. split; [done|]. split.
  - destruct (Z.eq_dec (_next_seqno (tx n3)) (ack_number (rx n))); [right; auto|left; apply Hlt; lia].
  - intros Hall. destruct (transfer_linked _ _ _ _ _ _ _ T1) as (q1 & fins1 & h1 & L1).
    destruct (all_acked _ _ _ _ _ L1 ltac:(lia)) as (E & _ & He).
    destruct (linked_delivers _ _ _ _ _ (transfer_linked _ _ _ _ _ _ _ T1)) as (_ & Hend & _). destruct (Hend He) as [_ Hgot].
    rewrite Hb, app_nil_r in Hgot. pose proof (next_seqno_range _ _ _ (lk_sender _ _ _ _ _ _ _ _ L3)).
    destruct (lk_stream _ _ _ _ _ _ _ _ L3) as [Es _]. rewrite Es in *.
    pose proof (idle_flight _ _ _ (ack_number (rx n3)) (lk_sender _ _ _ _ _ _ _ _ L3) ltac:(rewrite E3; lia) (an_unacked _ An3)) as Ho.
    destruct (transfer_linked _ _ _ _ _ _ _ (rd_run _ Rd')) as (q' & fins' & h' & L').
    split.
    + rewrite Eg. change (got n3) with (got n2). by rewrite Egot.
    + by apply (all_acked _ _ _ _ _ L'); lia.
    + unfold bytes_in_flight. by rewrite Eo, Ho.
    + unfold get_zero_seg_send. rewrite Ez. apply not_true_iff_false. intros Hz. destruct (an_probe _ An3 Hz). rewrite E3 in *. lia.
Qed.

Lemma rounds_complete k : forall n,
  ready n -> len w + 3 <= ack_number (rx n) + Z.of_nat k -> (0 < k)%nat ->
  exists n', rounds k n = Ok n' /\ ready n' /\ complete n'.
Proof.
  induction k as [|k IH]; [lia|]. intros n Rd Hk _. destruct (round_spec n Rd) as (n' & Hok & Rd' & Hle & Hpr & Hc).
  cbn [rounds]. rewrite Hok. cbn [res_bind]. destruct k as [|k].
  - exists n'. split_and!; try done. apply Hc. lia.
  - destruct (IH n' Rd') as (n2 & H1 & H2 & H3); [|lia|by eauto]. pose proof (ready_next _ Rd'). pose proof (ready_next _ Rd). lia.
Qed.

End round.

(** ** Properties *)

(** C5: eventual delivery. Take any state of a transfer in the sense of [transfer]: over a
    network that loses, repeats and reorders, where the delivered payloads fitted the
    receiver's window or lay behind it and no second FIN was sent; with a receive capacity
    from 1 to 65535. Let the writer have ended its stream, nothing be sent behind the
    receiver's capacity, and no probe of a closed window be out beside segments in flight.
    If from then on what is sent arrives, then after at most as many rounds as the stream
    has bytes, plus three, the reader has got the whole stream and seen its end, nothing
    is in flight, and no segment was refused on the way. *)
Theorem transfer_completes cap rto rcap isn w n :
  transfer cap rto rcap isn w true n -> 1 <= rcap < 65536 ->
  next_seqno_absolute (tx n) <= ack_number (rx n) + rcap ->
  (get_zero_seg_send (tx n) = true -> _outstanding_segs (tx n) = []) ->
  exists n', rounds (length w + 3) n = Ok n' /\ transfer cap rto rcap isn w true n' /\
    got n' = w /\ ByteStream.input_ended (stream_out (rx n')) = true /\
    bytes_in_flight (tx n') = 0 /\ get_zero_seg_send (tx n') = false.
Proof.
  intros T Hcap Hr Hp. assert (Rd : ready cap rto rcap isn w n) by (by split). pose proof (ready_next _ _ _ _ _ _ Rd).
  destruct (rounds_complete cap rto rcap isn w Hcap (length w + 3) n Rd) as (n' & H1 & [T' _ _] & [C1 C2 C3 C4]);
    [unfold len; lia|lia|]. by exists n'.
Qed.

(** ** Witness *)

(** "abc" and the FIN are sent and lost. *)
Lemma transfer_completes_witness :
  exists n', rounds 6 link_sent = Ok n' /\ got n' = [x61; x62; x63] /\ bytes_in_flight (tx n') = 0.
Proof.
  destruct (transfer_completes 16 1000 8 link_isn link_text link_sent link_sent_run) as (n' & H & _ & Hg & _ & Hf & _);
    [lia|vm_compute; discriminate|vm_compute; discriminate|]. exists n'. split; [exact H|]. split; [exact Hg|exact Hf].
Defined.

(** ** A stale closed window *)

(** Why no probe may be out beside segments in flight: [tick] then resends the probe
    only.  The receiver holds 4 bytes; "abcd" fills it, its window closes, the reader
    reads and the window opens again; "ef" is sent and lost; the acknowledgment with
    the closed window arrives once more, and the sender probes with "g". *)
Definition starve_isn : WrappingInt32 := mkWrappingInt32 0.
Definition starve_write (n : link) (d : bytes) : link :=
  n <| tx := (tx n) <| _stream := (ByteStream.write (_stream (tx n)) d).1 |> |>.
Definition starve_open : link :=
  let n := on_send (on_fill (mkLink (TCPSender.new 16 1000 (Some starve_isn) 0) (TCPReceiver.new 4) [] [] [])) in
  on_acked (on_ack (on_deliver n (last_sent n))).
Definition starve_full : link :=
  let n := on_send (on_fill (starve_write starve_open [x61; x62; x63; x64; x65; x66])) in
  on_acked (on_ack (on_deliver n (last_sent n))).
Definition starve_lost : link := on_send (on_fill (answer (read_all starve_full))).
Definition starve_ended : link :=
  let n := starve_write starve_lost [x67] in n <| tx := (tx n) <| _stream := ByteStream.end_input (_stream (tx n)) |> |>.
Definition starve_stale : link := starve_ended <| tx := ack_received (tx starve_ended) (wrap 5 starve_isn) 0 |>.
Definition starve_probe : link := on_fill starve_stale.
Definition starve_text : bytes := [x61; x62; x63; x64; x65; x66; x67].

Lemma starve_run : transfer 16 1000 4 starve_isn starve_text true starve_probe.
Proof.
  apply fill_eq; [|vm_compute; reflexivity..].
  refine (t_acked _ _ _ _ _ _ starve_ended _ _ _ _); [|vm_compute; right; by left].
  refine (t_end _ _ _ _ _ false (starve_write starve_lost [x67]) _).
  refine (t_write _ _ _ _ [x61; x62; x63; x64; x65; x66] starve_lost [x67] _ _); [|by vm_compute].
  eapply send_eq; [|vm_compute; reflexivity]. apply fill_eq; [|vm_compute; reflexivity..].
  apply answer_run, read_all_run.
  apply (ack_eq _ _ _ _ _ _ _ (wrap 5 starve_isn) 0); [|by vm_compute].
  apply deliver_eq; [|vm_compute; right; by left|right; left; by vm_compute|vm_compute; reflexivity].
  eapply send_eq; [|vm_compute; reflexivity]. apply fill_eq; [|vm_compute; reflexivity..].
  refine (t_write _ _ _ _ [] starve_open [x61; x62; x63; x64; x65; x66] _ _); [|by vm_compute].
  apply (ack_eq _ _ _ _ _ _ _ (wrap 1 starve_isn) 4); [|by vm_compute].
  apply deliver_eq; [|vm_compute; by left|by left|vm_compute; reflexivity].
  eapply send_eq; [|vm_compute; reflexivity]. apply fill_eq; [|vm_compute; reflexivity..].
  apply t_start; by vm_compute.
Qed.

(** A round depends on the two ends only, not on what the network keeps. *)
Definition same_ends (n m : link) : Prop := tx n = tx m /\ rx n = rx m.

Lemma arrive_same queue : forall n m n', same_ends n m -> arrive queue n = Ok n' -> exists m', arrive queue m = Ok m' /\ same_ends n' m'.
Proof.
  induction queue as [|seg queue IH]; intros n m n' [E1 E2]; cbn [arrive]; [intros [= <-]; by exists m|]. simpl. rewrite E2.
  destruct (segment_received (rx m) seg) as [r|e]; [|done]. apply IH. split; [|done]. simpl. by rewrite E1.
Qed.

Lemma round_same n m n' : same_ends n m -> round n = Ok n' -> exists m', round m = Ok m' /\ same_ends n' m'.
Proof.
  intros [E1 E2]. assert (Ha : same_ends (answer (read_all n)) (answer (read_all m))).
  { unfold answer, read_all. simpl. rewrite E2. destruct (TCPReceiver.ackno _); split; simpl; by rewrite ?E1, ?E2. }
  unfold round, fill. destruct Ha as [-> H2]. destruct (fill_window (tx (answer (read_all m)))) as [s|e]; [|done].
  cbn [res_bind]. apply arrive_same. by split.
Qed.

(** A round that changes neither end is repeated for ever. *)
Lemma rounds_fixed x m k :
  round x = Ok m -> same_ends m x -> forall n, same_ends x n -> exists n', rounds k n = Ok n' /\ same_ends x n'.
Proof.
  intros Hm E. induction k as [|k IH]; intros n Hs; [by exists n|]. cbn [rounds].
  destruct (round_same x n m Hs Hm) as (n1 & -> & E1). cbn [res_bind]. apply IH. destruct E, E1. split; congruence.
Qed.

Definition starve_next : link := res_or (round starve_probe) starve_probe.

(** A stale acknowledgment can stop a transfer for good: on a run of the system the
    sender probes a window it believes closed while other segments are in flight
    and lost.  From then on everything arrives, but [tick] resends the probe only, and
    after any number of rounds the receiver still waits for the same byte. *)
Theorem stale_window_starves :
  transfer 16 1000 4 starve_isn starve_text true starve_probe /\
  next_seqno_absolute (tx starve_probe) <= ack_number (rx starve_probe) + 4 /\
  forall k, exists n', rounds k starve_probe = Ok n' /\ ack_number (rx n') = 5 /\ bytes_in_flight (tx n') = 2.
Proof.
  split; [exact starve_run|]. split; [vm_compute; discriminate|]. intros [|k].
  - exists starve_probe. split; [done|]. split; vm_compute; reflexivity.
  - assert (Hfix : exists m, round starve_next = Ok m /\ same_ends m starve_next).
    { eexists. split; [vm_compute; reflexivity|split; vm_compute; reflexivity]. }
    destruct Hfix as (m & Hm & E). destruct (rounds_fixed starve_next m k Hm E starve_next (conj eq_refl eq_refl)) as (n' & Hn & E1 & E2).
    exists n'. split; [|rewrite <- E1, <- E2; split; vm_compute; reflexivity]. rewrite <- Hn. cbn [rounds].
    replace (round starve_probe) with (Ok starve_next) by (vm_compute; reflexivity). reflexivity.
Qed.
