(* ===== verification/Ordered.v ===== *)
(** * Acknowledgments in order

    The transfer of [Transfer.v] when acknowledgments keep their order: they may be
    lost and repeated, but an old one does not arrive behind a newer one.  Segments
    still travel in any order.  Then nothing has to be assumed of the deliveries:
    every segment fits the receiver's window, the sender never sends a second FIN and
    never probes beside segments in flight.  So every such run is a transfer, with no
    side conditions, and it can always be completed. *)

From stdpp Require Import base list numbers option.
From Stdlib Require Import ZArith Lia Strings.Byte.
From S2P Require Import Prelude.
From S2P Require Import OMap.
From S2P Require Import ByteStream.
From S2P Require Import StreamReassembler.
From S2P Require Import Reassembly.
From S2P Require Import WrappingIntegers.
From S2P Require Import Buffer.
From S2P Require Import TCPHeader.
From S2P Require Import TCPSegment.
From S2P Require Import TCPReceiver.
From S2P Require Import TCPConfig.
From S2P Require Import TCPSender.
From S2P Require Import Sending.
From S2P Require Import Transfer.
From S2P Require Import Completion.
#[local] Open Scope Z_scope.

(** ** The system *)

(** [pend] are the acknowledgments on their way, oldest first.  The first one may
    arrive any number of times; any of them may be lost. *)
Inductive ordered (cap rto rcap : Z) (isn : WrappingInt32) : bytes -> bool -> link -> list (WrappingInt32 * Z) -> Prop :=
| o_start :
    0 <= cap < 18446744073709551616 -> 0 <= rto < 65536 -> 0 <= rcap < 65536 -> wi_ok isn ->
    ordered cap rto rcap isn [] false (mkLink (TCPSender.new cap rto (Some isn) 0) (TCPReceiver.new rcap) [] [] []) []
| o_write w n pend d :
    ordered cap rto rcap isn w false n pend -> len w + len d + 2 < 2147483648 ->
    ordered cap rto rcap isn (w ++ prefix_str d (ByteStream.remaining_capacity (stream_in (tx n)))) false
      (n <| tx := (tx n) <| _stream := (ByteStream.write (_stream (tx n)) d).1 |> |>) pend
| o_end w c n pend :
    ordered cap rto rcap isn w c n pend ->
    ordered cap rto rcap isn w true (n <| tx := (tx n) <| _stream := ByteStream.end_input (_stream (tx n)) |> |>) pend
| o_fill w c n pend s :
    ordered cap rto rcap isn w c n pend -> fill_window (tx n) = Ok s ->
    ordered cap rto rcap isn w c (n <| tx := s |>) pend
| o_tick w c n pend ms :
    ordered cap rto rcap isn w c n pend -> ordered cap rto rcap isn w c (n <| tx := tick (tx n) ms |>) pend
| o_empty w c n pend :
    ordered cap rto rcap isn w c n pend -> ordered cap rto rcap isn w c (n <| tx := send_empty_segment (tx n) |>) pend
| o_send w c n pend seg rest :
    ordered cap rto rcap isn w c n pend -> _segments_out (tx n) = seg :: rest ->
    ordered cap rto rcap isn w c (n <| tx := (tx n) <| _segments_out := rest |> |> <| wire := wire n ++ [seg] |>) pend
| o_deliver w c n pend seg r :
    ordered cap rto rcap isn w c n pend -> In seg (wire n) -> segment_received (rx n) seg = Ok r ->
    ordered cap rto rcap isn w c (n <| rx := r |>) pend
| o_read w c n pend k :
    ordered cap rto rcap isn w c n pend -> 0 <= k ->
    ordered cap rto rcap isn w c
      (n <| rx := read_out (rx n) k |> <| got := got n ++ ByteStream.peek_output (stream_out (rx n)) k |>) pend
| o_ack w c n pend a win :
    ordered cap rto rcap isn w c n pend -> advertises (rx n) a win ->
    ordered cap rto rcap isn w c (n <| acks := acks n ++ [(a, win)] |>) (pend ++ [(a, win)])
| o_acked w c n pend a win :
    ordered cap rto rcap isn w c n ((a, win) :: pend) ->
    ordered cap rto rcap isn w c (n <| tx := ack_received (tx n) a win |>) ((a, win) :: pend)
| o_lost w c n before p after :
    ordered cap rto rcap isn w c n (before ++ p :: after) -> ordered cap rto rcap isn w c n (before ++ after).

(** ** The edge of the window *)

(** The first sequence number behind the receiver's window, the FIN counted. *)
Definition edge (r : TCPReceiver) : Z :=
  if _isn_set r then window (_reassembler r) + (if ByteStream.input_ended (stream_out r) then 2 else 1) else 0.

(** The end of the stream has arrived, perhaps before the bytes in front of it. *)
Definition end_known (r : TCPReceiver) : Prop :=
  ByteStream.input_ended (stream_out r) = true \/ has_eof (_substrs (_reassembler r)).

Lemma tracks_end_known s isn cap evs synced fn q r : tracks s isn cap evs synced fn q r -> end_known r <-> fn = true.
Proof.
  intros T. pose proof (tr_abs _ _ _ _ _ _ _ _ T) as A. rewrite <- (ab_end _ _ _ _ _ _ A). unfold end_known, end_received.
  unfold ByteStream.input_ended, stream_out, StreamReassembler.stream_out.
  by rewrite (ref_closed _ _ (inv_out _ _ _ (ab_inv _ _ _ _ _ _ A))).
Qed.

Lemma linked_edge w c rcap isn q fins h n :
  linked w c rcap isn q fins h n -> _isn_set (rx n) = true -> ack_number (rx n) + window_size (rx n) = edge (rx n).
Proof.
  intros L Hset. destruct (linked_tracks _ _ _ _ _ _ _ _ L) as (S & evs & synced & fn & qr & _ & _ & [T _ _ _]).
  unfold ack_number, edge. rewrite Hset, (tracks_window _ _ _ _ _ _ _ _ T), (tracks_reassembler_window _ _ _ _ _ _ _ _ T).
  destruct (ByteStream.input_ended _); lia.
Qed.

(** ** Acknowledgments on their way *)

(** Numbers and right edges only grow, from the last one that arrived to what the
    receiver would send now. *)
Fixpoint chain (a e : Z) (l : list (Z * Z)) (A E : Z) : Prop :=
  match l with
  | [] => a <= A /\ e <= E
  | (x, v) :: l' => a <= x /\ e <= x + v /\ chain x (x + v) l' A E
  end.

Lemma chain_top a e l A E A' E' : chain a e l A E -> A <= A' -> E <= E' -> chain a e l A' E'.
Proof. revert a e. induction l as [|[x v] l IH]; intros a e; simpl; [lia|]. intros (? & ? & ?) ? ?. auto. Qed.

Lemma chain_bottom a e l A E a' e' : chain a e l A E -> a' <= a -> e' <= e -> chain a' e' l A E.
Proof. destruct l as [|[x v] l]; simpl; [lia|]. intros (? & ? & ?) ? ?. split_and!; [lia|lia|done]. Qed.

Lemma chain_le a e l A E : chain a e l A E -> a <= A /\ e <= E.
Proof. revert a e. induction l as [|[x v] l IH]; intros a e; simpl; [done|]. intros (? & ? & H%IH). lia. Qed.

Lemma chain_snoc a e l A E : chain a e l A E -> chain a e (l ++ [(A, E - A)]) A E.
Proof. revert a e. induction l as [|[x v] l IH]; intros a e; simpl; [lia|]. intros (? & ? & ?). auto. Qed.

Lemma chain_lost a e l1 p l2 A E : chain a e (l1 ++ p :: l2) A E -> chain a e (l1 ++ l2) A E.
Proof.
  revert a e. induction l1 as [|[x v] l1 IH]; intros a e; simpl.
  - destruct p as [x v]. intros (? & ? & H). by eapply chain_bottom.
  - intros (? & ? & ?). auto.
Qed.

(** ** The sender *)

(** The last acknowledgment the sender has taken is of [a] ([0]: none yet).  Without
    a probe, what is in flight has no gaps, starts at [a] or before, and stays inside
    the window that came with [a]; a probe is alone, and is the number [a] itself. *)
Record paced (a : Z) (s : TCPSender) : Prop := {
  pc_first : 0 <= a;
  pc_unasked : a = 0 -> _win_size s = 0;
  pc_probe : _zero_win_seg_send s = true ->
             _outstanding_segs s = [] /\ _zero_win_seg_seq s = a /\ _next_seqno s = a + 1 /\ 1 <= a;
  pc_flow : _zero_win_seg_send s = false ->
            (exists u, contiguous u (_next_seqno s) (_outstanding_segs s) /\ u <= a) /\
            (forall p, In p (_outstanding_segs s) -> unacked a p = true) /\
            _next_seqno s <= Z.max 1 (a + _win_size s);
}.

Lemma paced_same a s s' :
  paced a s -> _win_size s' = _win_size s -> _outstanding_segs s' = _outstanding_segs s -> _next_seqno s' = _next_seqno s ->
  same_probe s s' -> paced a s'.
Proof. intros [P1 P2 P3 P4] E1 E2 E3 (E4 & _ & E5). split; rewrite ?E1, ?E2, ?E3, ?E4, ?E5; done. Qed.

(** The acknowledged segments were at the front. *)
Lemma contiguous_filter a u hi l :
  contiguous u hi l -> u <= a -> exists u', contiguous u' hi (List.filter (unacked a) l) /\ u' <= a.
Proof.
  revert u. induction l as [|[k seg] l IH]; intros u; [intros H ?; by exists u|]. cbn [contiguous List.filter].
  intros [-> H] Hu. destruct (unacked a (u, seg)) eqn:E; unfold unacked in E; cbn [fst snd] in E.
  - apply Z.ltb_lt in E. exists u. split; [|done]. split; [done|].
    replace (List.filter (unacked a) l) with l; [done|]. symmetry. clear IH.
    assert (Hall : forall p, In p l -> unacked a p = true).
    { intros [k' seg'] Hin. destruct (contiguous_In _ _ _ _ _ H Hin). apply Z.ltb_lt. simpl.
      assert (0 <= length_in_sequence_space seg') by apply u64_range. lia. }
    clear H E. induction l as [|p l IH]; [done|]. cbn [List.filter]. rewrite (Hall p) by (by left). f_equal. apply IH.
    intros p' ?. apply Hall. by right.
  - apply Z.ltb_ge in E. by apply (IH _ H).
Qed.

Lemma paced_ack q fins a s x v :
  sender_ok q fins s -> paced a s -> a <= x <= _next_seqno s -> 1 <= x -> a + _win_size s <= x + v -> 0 <= v ->
  _next_seqno s < 4294967296 -> paced x (ack_received s (wrap x (_isn s)) v).
Proof.
  intros Hs [P1 P2 P3 P4] Hx Hx1 He Hv Hlt.
  pose proof (ack_received_spec q fins s (wrap x (_isn s)) v Hs (wrap_ok _ _)) as K. cbv zeta in K.
  rewrite last_ack_wrap, (proj2 (Z.ltb_ge _ _)) in K by (apply Hs || lia).
  destruct K as [K1 [K2 _] (_ & _ & K3 & _) (K4 & _ & K5) _ _]. split; [lia|lia|rewrite K4, K5, K3, K1|rewrite K4, K3, K2, K1].
  - destruct (Z.ltb_spec (_zero_win_seg_seq s) x); [done|]. intros Hz. destruct (P3 Hz) as (-> & E1 & E2 & ?). split; [done|]. lia.
  - intros Hz. assert (Hu : exists u, contiguous u (_next_seqno s) (_outstanding_segs s) /\ u <= x).
    { destruct (_zero_win_seg_send s).
      - destruct (P3 eq_refl) as (E0 & E1 & E2 & ?). rewrite E0. exists (_next_seqno s). split; [done|].
        destruct (Z.ltb_spec (_zero_win_seg_seq s) x); [lia|done].
      - destruct (P4 eq_refl) as ((u & ? & ?) & _). exists u. split; [done|lia]. }
    destruct Hu as (u & Hu & Hux). split; [by eapply contiguous_filter|]. split; [by intros p [_ ?]%filter_In|].
    destruct (_zero_win_seg_send s); [|destruct (P4 eq_refl) as (_ & _ & ?); lia].
    destruct (P3 eq_refl) as (_ & E1 & E2 & ?). destruct (Z.ltb_spec (_zero_win_seg_seq s) x); [lia|done].
Qed.

Lemma paced_launched q fins a s new s' :
  sender_ok q fins s' -> paced a s -> launched s new s' -> _win_size s' = _win_size s -> _zero_win_seg_send s = false ->
  a <= _next_seqno s -> _next_seqno s' <= Z.max 1 (a + _win_size s) -> paced a s'.
Proof.
  intros Hs' [P1 P2 P3 P4] L Ew Hz Ha Hn. destruct (P4 Hz) as ((u & Hu & Hua) & Hall & _).
  pose proof L as [_ L2 L3 (L4 & _ & _)]. split; rewrite ?Ew; [done|done|congruence|]. intros _. split_and!; [|by eapply launched_unacked|done].
  exists u. split; [|done]. rewrite L2. by eapply contiguous_app.
Qed.

Lemma paced_fill q fins a s s' :
  sender_ok q fins s -> no_second_fin fins s -> paced a s -> a <= _next_seqno s -> fill_window s = Ok s' -> paced a s'.
Proof.
  intros Hs Hg P Ha Hf. pose proof (so_win _ _ _ Hs). pose proof P as [P1 P2 P3 P4].
  destruct (_zero_win_seg_send s) eqn:Hz.
  { destruct (P3 eq_refl) as (_ & _ & ? & ?). rewrite fill_probing in Hf by (done || lia). by injection Hf as <-. }
  destruct (P4 eq_refl) as ((u & Hu & Hua) & Hall & Hn).
  assert (Hfl : bytes_in_flight s = _next_seqno s - u) by (rewrite (flight_total _ _ _ Hs); by apply contiguous_total).
  destruct (Z.eq_dec (_next_seqno s) 0) as [E|Hn0].
  { destruct (syn_advanced q fins s Hs E) as [A1 _ _ [A2 _] A3]. unfold fill_window, next_seqno_absolute in Hf.
    rewrite (proj2 (Z.eqb_eq _ _)) in Hf by done. injection Hf as <-.
    change (paced a (send_new s (syn_segment s))). destruct (send_new_seqno s (syn_segment s)) as [E1 (E2 & _)].
    destruct A3 as [[new L]|[z B]]; [|destruct (b_probe _ _ _ B); congruence].
    eapply paced_launched; try done. rewrite E1, E. change (u64 (0 + length_in_sequence_space (syn_segment s))) with 1. lia. }
  destruct (Z.lt_ge_cases (bytes_in_flight s) (_win_size s)) as [Hw|Hw].
  { destruct (fill_open_spec q fins s Hs Hn0 Hw Hz) as (q' & fins' & s1 & Hf' & [F1 _ (F3 & F3' & _) _ [new L] F6 _ _]).
    rewrite Hf in Hf'. injection Hf' as <-. eapply paced_launched; try done.
    assert (Hc : contiguous u (_next_seqno s') (_outstanding_segs s')).
    { rewrite (l_flight _ _ _ L). eapply contiguous_app; [exact Hu|apply L]. }
    specialize (F6 ltac:(lia)). rewrite (flight_total _ _ _ F1), (contiguous_total _ _ _ Hc) in F6. lia. }
  destruct (Z.eq_dec (_win_size s) 0) as [Hw0|Hw0].
  2: { rewrite fill_full in Hf by (done || lia). by injection Hf as <-. }
  destruct (Z.lt_ge_cases (bytes_in_flight s) (_next_seqno s)) as [Hlt|Hge].
  2: { unfold fill_window, next_seqno_absolute in Hf. rewrite (proj2 (Z.eqb_neq (_next_seqno s) 0)) in Hf by done.
       rewrite (proj2 (Z.ltb_ge (bytes_in_flight s) (_win_size s))), (proj2 (Z.ltb_ge (bytes_in_flight s) (_next_seqno s))) in Hf by lia.
       rewrite andb_false_r in Hf. by injection Hf as <-. }
  destruct (fill_closed_spec q fins s Hs Hg Hn0 Hw0 Hlt Hz) as (q' & fins' & s1 & Hf' & [A1 _ _ [A2 _] _] & Hor).
  rewrite Hf in Hf'. injection Hf' as <-. destruct Hor as [->|[z [B1 B2 B3 B4 B5 (B6 & _ & B7)]]]; [done|].
  assert (En : _next_seqno s = a) by lia. pose proof (idle_flight _ _ _ a Hs ltac:(lia) Hall) as Ho.
  split; [done|congruence| |congruence]. intros _. rewrite B2, B7, B3, B4, Ho. split_and!; try done; lia.
Qed.

(** ** The invariant *)

(** A window is closed only before the end of the stream is acknowledged. *)
Definition sane (w : bytes) (p : Z * Z) : Prop := 0 <= p.2 < 65536 /\ (p.2 = 0 -> p.1 <= len w + 1).

Record in_order (isn : WrappingInt32) (w : bytes) (n : link) (pend : list (WrappingInt32 * Z)) (a : Z) (xs : list (Z * Z)) : Prop := {
  io_paced : paced a (tx n);
  io_pend : pend = map (fun p => (wrap p.1 isn, p.2)) xs;
  io_chain : chain a (a + _win_size (tx n)) xs (ack_number (rx n)) (edge (rx n));
  io_sane : Forall (sane w) ((a, _win_size (tx n)) :: xs);
  io_some : Forall (fun p => 1 <= p.1) xs;
  io_end : end_known (rx n) -> len w < window (_reassembler (rx n));
  io_acks : incl pend (acks n);
}.

Section derived.
Context (cap rto rcap : Z) (isn : WrappingInt32) (w : bytes) (c : bool) (n : link).
Context (pend : list (WrappingInt32 * Z)) (a : Z) (xs : list (Z * Z)).
Context (T : transfer cap rto rcap isn w c n) (I : in_order isn w n pend a xs).

(** No second FIN *)
Lemma in_order_no_risk : second_fin_risk (tx n) = false.
Proof.
  destruct (transfer_linked _ _ _ _ _ _ _ T) as (q & fins & h & L). pose proof (lk_sender _ _ _ _ _ _ _ _ L) as Hs.
  apply not_true_iff_false. unfold second_fin_risk. rewrite !andb_true_iff, !Z.eqb_eq, negb_true_iff, (sender_written _ _ _ Hs).
  destruct (lk_stream _ _ _ _ _ _ _ _ L) as [-> _]. pose proof (lk_len _ _ _ _ _ _ _ _ L). pose proof (len_nonneg w).
  rewrite u64_small by lia. intros [[Hn Hw] Hz]. destruct (pc_flow _ _ (io_paced _ _ _ _ _ _ I) Hz) as (_ & _ & Hm).
  pose proof (Forall_inv (io_sane _ _ _ _ _ _ I)) as [_ Hsane]. cbn [fst snd] in Hsane. specialize (Hsane Hw). lia.
Qed.

(** What is sent and not a probe stays before the edge. *)
Lemma in_order_bound h q fins k seg :
  linked w c rcap isn q fins h n -> In (k, seg) h -> 1 <= length_in_sequence_space seg -> 2 <= k + length_in_sequence_space seg ->
  k + length_in_sequence_space seg <= edge (rx n) \/
  (_zero_win_seg_send (tx n) = true /\ k = _zero_win_seg_seq (tx n) /\ length_in_sequence_space seg = 1 /\ k <= edge (rx n)).
Proof.
  intros L Hin Hl H2. destruct (chain_le _ _ _ _ _ (io_chain _ _ _ _ _ _ I)) as [_ He].
  pose proof (lk_history _ _ _ _ _ _ _ _ L) as Hh. destruct (contiguous_In _ _ _ _ _ (h_seqnos _ _ _ Hh) Hin) as [_ Hk].
  pose proof (so_win _ _ _ (lk_sender _ _ _ _ _ _ _ _ L)).
  destruct (_zero_win_seg_send (tx n)) eqn:Hz.
  - destruct (pc_probe _ _ (io_paced _ _ _ _ _ _ I) Hz) as (_ & E1 & E2 & _). destruct (h_probe _ _ _ Hh Hz) as [Hp Hpl].
    destruct (Z.le_gt_cases (k + length_in_sequence_space seg) a) as [?|Hgt]; [left; lia|right].
    assert ((k, seg) = (_zero_win_seg_seq (tx n), _zero_win_seg (tx n))) as [= -> ->].
    { apply (contiguous_end _ _ _ _ _ _ _ (h_seqnos _ _ _ Hh) Hin Hp) with (x := a); lia. }
    split_and!; [done|done|done|lia].
  - destruct (pc_flow _ _ (io_paced _ _ _ _ _ _ I) Hz) as (_ & _ & Hm). left. lia.
Qed.

Lemma in_order_fits seg : In seg (wire n) -> fits isn (rx n) seg.
Proof.
  intros Hw. destruct (transfer_linked _ _ _ _ _ _ _ T) as (q & fins & h & L). pose proof L as [L1 [L2 L2'] L3 L4 L5 L6 _ _ _ _].
  destruct (L6 seg (or_intror Hw)) as [[k Hin]|(k & _ & [_ Hd _])]; [|by left].
  destruct (linked_tracks _ _ _ _ _ _ _ _ L) as (S & evs & synced & fn & qr & HS & X & [Tr _ _ _]).
  unfold fits. cbv zeta. rewrite <- L3, (history_position _ _ _ _ _ L1 L5 X k seg Hin).
  pose proof (h_carries _ _ _ L5) as Hc. rewrite List.Forall_forall in Hc. specialize (Hc _ Hin). simpl in Hc.
  pose proof (carries_length _ _ _ _ Hc) as Hl. pose proof (c_data _ _ _ _ Hc) as Hd.
  destruct (syn (header seg)); [left; by destruct Hd as (_ & ? & _)|]. destruct Hd as (Hk1 & Hk2 & _).
  pose proof (len_nonneg (str (payload seg))). destruct (Z.eq_dec (len (str (payload seg))) 0) as [E|Hne]; [left; by apply len_zero_nil|right].
  pose proof (written_range _ _ _ _ _ _ _ _ Tr) as Hwr. rewrite HS in Hwr. pose proof (sender_taken _ _ _ L1) as Ht. rewrite L2 in Ht.
  pose proof (read_le_written _ _ _ _ _ _ _ _ Tr) as Hrd. pose proof (tracks_reassembler_window _ _ _ _ _ _ _ _ Tr) as Hwin.
  pose proof (in_order_bound h q fins k seg L Hin ltac:(destruct (fin _); lia) ltac:(destruct (fin _); lia)) as B. unfold edge in B.
  destruct (_isn_set (rx n)) eqn:Hset; [|destruct (fin _); lia].
  destruct (ByteStream.input_ended (stream_out (rx n))) eqn:He.
  - left. destruct (ended_all _ _ _ _ _ _ _ n L He Hset) as [Ea _]. unfold ack_number in Ea. rewrite Hset, He in Ea. lia.
  - destruct B as [?|(_ & _ & Hone & ?)]; [left; destruct (fin _); lia|].
    destruct (Z.eq_dec (k - 1) (window (_reassembler (rx n)))); [right; lia|left; destruct (fin _); lia].
Qed.


Lemma edge_mono s evs synced fn qr evs' synced' fn' qr' r r' :
  tracks s isn rcap evs synced fn qr r -> tracks s isn rcap evs' synced' fn' qr' r' ->
  (forall j, was_pushed evs j -> was_pushed evs' j) -> (synced = true -> synced' = true) -> (fn = true -> fn' = true) ->
  window (_reassembler r) <= window (_reassembler r') -> edge r <= edge r'.
Proof.
  intros Tr Tr' He Hs Hf Hw. pose proof (tracks_mono _ _ _ _ _ _ _ _ _ _ _ _ _ Tr Tr' He).
  pose proof (written_range _ _ _ _ _ _ _ _ Tr). pose proof (written_range _ _ _ _ _ _ _ _ Tr').
  pose proof (read_le_written _ _ _ _ _ _ _ _ Tr'). unfold edge.
  rewrite (tr_synced _ _ _ _ _ _ _ _ Tr), (tr_synced _ _ _ _ _ _ _ _ Tr'), (tracks_ended _ _ _ _ _ _ _ _ Tr), (tracks_ended _ _ _ _ _ _ _ _ Tr').
  rewrite (tracks_reassembler_window _ _ _ _ _ _ _ _ Tr') in *. destruct synced; [rewrite (Hs eq_refl)|destruct synced'; [destruct (fn' && _)|]; lia].
  destruct fn; [rewrite (Hf eq_refl)|destruct (fn' && _); simpl; lia].
  destruct (Z.eqb_spec (ByteStream.bytes_written (stream_out r)) (len s)),
    (Z.eqb_spec (ByteStream.bytes_written (stream_out r')) (len s)); simpl; lia.
Qed.

(** The FIN is taken only inside the window. *)
Lemma in_order_fin q fins h k seg :
  linked w c rcap isn q fins h n -> In (k, seg) h -> fin (header seg) = true ->
  len w - len (str (payload seg)) < window (_reassembler (rx n)) -> ~ end_known (rx n) -> len w < window (_reassembler (rx n)).
Proof.
  intros L Hin Hf Hi Hn. pose proof L as [L1 [L2 L2'] L3 L4 L5 L6 _ _ _ _].
  pose proof (h_carries _ _ _ L5) as Hc. rewrite List.Forall_forall in Hc. specialize (Hc _ Hin). simpl in Hc.
  pose proof (carries_length _ _ _ _ Hc) as Hl. destruct (c_fin _ _ _ _ Hc Hf) as [_ Hend]. rewrite Hf in Hl. rewrite L2 in Hend.
  pose proof (len_nonneg (str (payload seg))). pose proof (len_nonneg w).
  destruct (Z.eq_dec (len (str (payload seg))) 0) as [E|Hne]; [lia|].
  destruct (in_order_bound h q fins k seg L Hin) as [B|(_ & _ & ? & _)]; [destruct (syn _); lia|destruct (syn _); lia| |destruct (syn _); lia].
  unfold edge in B. destruct (_isn_set (rx n)); [|destruct (syn _); lia].
  destruct (ByteStream.input_ended (stream_out (rx n))) eqn:He; [by destruct Hn; left|].
  pose proof (c_data _ _ _ _ Hc) as Hd. destruct (syn (header seg)); [by destruct Hd as (_ & E & _); rewrite E in Hne|lia].
Qed.

Lemma in_order_deliver seg r :
  In seg (wire n) -> segment_received (rx n) seg = Ok r -> in_order isn w (n <| rx := r |>) pend a xs.
Proof.
  intros Hw Hok. pose proof (in_order_fits seg Hw) as Hfit. destruct (transfer_linked _ _ _ _ _ _ _ T) as (q & fins & h & L).
  pose proof L as [L1 [L2 L2'] L3 L4 L5 L6 _ _ _ _]. pose proof (L6 seg (or_intror Hw)) as Hkn.
  destruct (linked_tracks _ _ _ _ _ _ _ _ L) as (S & evs & synced & fn & qr & HS & X & R). rewrite <- L3 in R, Hkn, Hfit.
  destruct (deliver_known _ _ _ _ _ _ L1 L5 X _ _ _ _ _ _ R seg Hkn Hfit) as (evs' & synced' & fn' & qr' & r' & Hok' & R' & He & Hs & Hf & Hfn).
  rewrite Hok in Hok'. injection Hok' as <-. pose proof (received_window _ _ _ _ _ _ _ _ _ _ _ _ _ _ _ _ _ R R') as Ew.
  rewrite L3 in R, R'. destruct R as [Tr _ _ _], R' as [Tr' _ _ _].
  pose proof (ack_number_mono _ _ _ _ _ _ _ _ _ _ _ _ _ Tr Tr' He Hs Hf) as Ha.
  pose proof (edge_mono _ _ _ _ _ _ _ _ _ _ _ Tr Tr' He Hs Hf ltac:(lia)) as Hedge.
  destruct I as [I1 I2 I3 I4 I5 I6 I7]. split; try done; simpl.
  - by eapply chain_top.
  - intros Hk. rewrite Ew. apply (tracks_end_known _ _ _ _ _ _ _ _ Tr') in Hk. rewrite HS in Hfn.
    destruct (bool_dec fn true) as [Hfn0|Hfn0]; [apply I6; by apply (tracks_end_known _ _ _ _ _ _ _ _ Tr)|].
    destruct (Hfn Hk) as [?|[Hfi Hi]]; [done|]. destruct Hkn as [[k Hin]|(k & _ & [_ _ [_ ?]])]; [|congruence].
    apply (in_order_fin q fins h k seg); try done. by rewrite (tracks_end_known _ _ _ _ _ _ _ _ Tr).
Qed.

Lemma in_order_read k :
  0 <= k -> in_order isn w (n <| rx := read_out (rx n) k |> <| got := got n ++ ByteStream.peek_output (stream_out (rx n)) k |>) pend a xs.
Proof.
  intros Hk. destruct (transfer_linked _ _ _ _ _ _ _ T) as (q & fins & h & L).
  destruct (linked_tracks _ _ _ _ _ _ _ _ L) as (S & evs & synced & fn & qr & HS & X & [Tr _ _ _]).
  assert (Tr' : tracks S isn rcap (evs ++ [Pop k]) synced fn (Spec.pop qr k) (read_out (rx n) k)).
  { destruct Tr. split; [by apply pop_abstracts|done..]. }
  assert (Hw : window (_reassembler (rx n)) <= window (_reassembler (read_out (rx n) k))).
  { rewrite (tracks_reassembler_window _ _ _ _ _ _ _ _ Tr), (tracks_reassembler_window _ _ _ _ _ _ _ _ Tr').
    rewrite (tracks_read _ _ _ _ _ _ _ _ Tr), (tracks_read _ _ _ _ _ _ _ _ Tr'). simpl.
    pose proof (ref_taken _ _ (inv_out _ _ _ (ab_inv _ _ _ _ _ _ (tr_abs _ _ _ _ _ _ _ _ Tr)))). lia. }
  assert (He : edge (rx n) <= edge (read_out (rx n) k)).
  { by eapply (edge_mono S _ _ _ _ _ _ _ _ _ _ Tr Tr'); [intros; rewrite was_pushed_snoc; left|..]. }
  destruct I as [I1 I2 I3 I4 I5 I6 I7]. split; try done; simpl.
  - eapply chain_top; [exact I3|done|done].
  - intros Hkn. eapply Z.lt_le_trans; [by apply I6|exact Hw].
Qed.

(** An acknowledgment of the receiver joins the others. *)
Lemma in_order_ack b win :
  0 <= rcap < 65536 -> advertises (rx n) b win ->
  in_order isn w (n <| acks := acks n ++ [(b, win)] |>) (pend ++ [(b, win)]) a (xs ++ [(ack_number (rx n), edge (rx n) - ack_number (rx n))]).
Proof.
  intros Hcap [Hb ->]. destruct (transfer_linked _ _ _ _ _ _ _ T) as (q & fins & h & L).
  rewrite (linked_ackno _ _ _ _ _ _ _ _ L) in Hb. destruct (_isn_set (rx n)) eqn:Hset; [|done]. injection Hb as <-.
  pose proof (linked_edge _ _ _ _ _ _ _ _ L Hset) as He.
  destruct (linked_tracks _ _ _ _ _ _ _ _ L) as (S & evs & synced & fn & qr & HS & X & [Tr _ _ _]).
  pose proof (read_le_written _ _ _ _ _ _ _ _ Tr). pose proof (tracks_window _ _ _ _ _ _ _ _ Tr) as Hw.
  pose proof (written_range _ _ _ _ _ _ _ _ Tr) as Hwr. rewrite HS in Hwr.
  replace (u16 (window_size (rx n))) with (edge (rx n) - ack_number (rx n)) by (rewrite u16_small; lia).
  destruct I as [I1 I2 I3 I4 I5 I6 I7]. split; try done; simpl.
  - by rewrite I2, map_app.
  - by apply chain_snoc.
  - rewrite app_comm_cons. apply Forall_app. split; [done|]. apply Forall_singleton. unfold sane. cbn [fst snd]. split; [lia|]. intros Hz.
    assert (Hw0 : window_size (rx n) = 0) by lia. unfold ack_number. rewrite Hset.
    destruct (ByteStream.input_ended (stream_out (rx n))) eqn:Hend; [|lia].
    specialize (I6 (or_introl Hend)). rewrite (tracks_reassembler_window _ _ _ _ _ _ _ _ Tr) in I6. lia.
  - apply Forall_app. split; [done|]. apply Forall_singleton. cbn [fst]. unfold ack_number. rewrite Hset. destruct (ByteStream.input_ended _); lia.
  - apply incl_app; [by apply incl_appl|apply incl_appr, incl_refl].
Qed.

End derived.

(** The first acknowledgment arrives. *)
Lemma in_order_acked cap rto rcap isn w c n pend b win a xs :
  transfer cap rto rcap isn w c n -> in_order isn w n ((b, win) :: pend) a xs ->
  exists a', in_order isn w (n <| tx := ack_received (tx n) b win |>) ((b, win) :: pend) a' xs.
Proof.
  intros T [I1 I2 I3 I4 I5 I6 I7]. destruct (transfer_linked _ _ _ _ _ _ _ T) as (q & fins & h & L).
  pose proof (lk_sender _ _ _ _ _ _ _ _ L) as Hs. pose proof (linked_ack _ _ _ _ _ _ _ _ L) as Ha.
  pose proof (next_seqno_range _ _ _ Hs). destruct (lk_stream _ _ _ _ _ _ _ _ L) as [E _]. pose proof (lk_len _ _ _ _ _ _ _ _ L).
  destruct xs as [|[x v] xs]; [done|]. injection I2 as E1 E2 E3. cbn [fst snd] in E1, E2. subst b win. destruct I3 as (C1 & C2 & C3).
  apply chain_le in C3 as Hx. inversion_clear I4 as [|? ? _ I4']. pose proof (Forall_inv I4') as [Hv _]. pose proof (Forall_inv I5) as Hx1. cbn [fst snd] in Hv, Hx1.
  rewrite E in *. assert (P : paced x (ack_received (tx n) (wrap x isn) v)).
  { rewrite <- (lk_isn _ _ _ _ _ _ _ _ L). apply (paced_ack q fins a); try done; lia. }
  assert (Ew : _win_size (ack_received (tx n) (wrap x isn) v) = v).
  { pose proof (ack_received_spec q fins (tx n) (wrap x isn) v Hs (wrap_ok _ _)) as K. cbv zeta in K.
    rewrite (lk_isn _ _ _ _ _ _ _ _ L), last_ack_wrap, (proj2 (Z.ltb_ge _ _)) in K
      by (lia || (rewrite <- (lk_isn _ _ _ _ _ _ _ _ L); apply Hs)). by destruct K as [_ [? _] _ _ _ _]. }
  exists x. split; try done; simpl; rewrite ?Ew.
  - by rewrite E3.
  - split_and!; [lia|lia|done].
  - constructor; [by apply (Forall_inv I4')|done].
Qed.

Lemma in_order_lost isn w n before p after a xs :
  in_order isn w n (before ++ p :: after) a xs -> exists xs', in_order isn w n (before ++ after) a xs'.
Proof.
  intros [I1 I2 I3 I4 I5 I6 I7]. symmetry in I2. apply List.map_eq_app in I2 as (l1 & l2 & -> & <- & H2).
  destruct l2 as [|x l2]; [done|]. injection H2 as <- <-. exists (l1 ++ l2).
  rewrite List.Forall_cons_iff, Forall_app, List.Forall_cons_iff in I4. rewrite Forall_app, List.Forall_cons_iff in I5.
  destruct I4 as (I4 & J1 & _ & J2), I5 as (K1 & _ & K2). split; try done.
  - by rewrite map_app.
  - by eapply chain_lost.
  - constructor; [done|]. by apply Forall_app.
  - by apply Forall_app.
  - intros y [?|?]%in_app_or; apply I7, in_or_app; [by left|right; by right].
Qed.

(** ** Runs *)

Lemma tick_same_probe s ms : same_probe s (tick s ms).
Proof. unfold tick, resend, back_off. repeat case_match; done. Qed.

(** The sender changes, its window does not. *)
Lemma in_order_sender isn w w' n pend a xs s :
  in_order isn w n pend a xs -> paced a s -> _win_size s = _win_size (tx n) -> len w <= len w' ->
  (end_known (rx n) -> len w' = len w) -> in_order isn w' (n <| tx := s |>) pend a xs.
Proof.
  intros [I1 I2 I3 I4 I5 I6 I7] P E Hl He. split; try done; simpl; rewrite ?E.
  - done.
  - eapply List.Forall_impl; [|exact I4]. intros p [? Hp]. split; [done|]. intros ?%Hp. lia.
  - intros Hk. specialize (He Hk). specialize (I6 Hk). lia.
Qed.

Lemma in_order_write cap rto rcap isn w n pend a xs d b :
  transfer cap rto rcap isn w false n -> in_order isn w n pend a xs ->
  in_order isn (w ++ d) (n <| tx := (tx n) <| _stream := b |> |>) pend a xs.
Proof.
  intros T I. eapply in_order_sender; [exact I|by apply (paced_same a (tx n)); [apply I|..]|done| |].
  - rewrite len_app. pose proof (len_nonneg d). lia.
  - intros Hk. exfalso. destruct (transfer_linked _ _ _ _ _ _ _ T) as (q & fins & h & L).
    destruct (linked_tracks _ _ _ _ _ _ _ _ L) as (S & evs & synced & fn & qr & _ & _ & R).
    apply (tracks_end_known _ _ _ _ _ _ _ _ (rf_tracks _ _ _ _ _ _ _ _ _ _ _ R)) in Hk.
    apply (rf_fin _ _ _ _ _ _ _ _ _ _ _ R) in Hk. subst fins.
    destruct (so_fins _ _ _ (lk_sender _ _ _ _ _ _ _ _ L) eq_refl) as [Hc _].
    destruct (lk_stream _ _ _ _ _ _ _ _ L) as [_ E]. congruence.
Qed.

Lemma in_order_fill cap rto rcap isn w c n pend a xs s :
  transfer cap rto rcap isn w c n -> in_order isn w n pend a xs -> fill_window (tx n) = Ok s ->
  in_order isn w (n <| tx := s |>) pend a xs.
Proof.
  intros T I Hf. destruct (transfer_linked _ _ _ _ _ _ _ T) as (q & fins & h & L). pose proof (lk_sender _ _ _ _ _ _ _ _ L) as Hs.
  pose proof (risk_guard _ _ _ Hs (in_order_no_risk _ _ _ _ _ _ _ _ _ _ T I)) as Hg.
  destruct (fill_window_spec q fins (tx n) Hs Hg) as (q' & fins' & s' & Hf' & [_ _ _ [Ew _] _]). rewrite Hf in Hf'. injection Hf' as <-.
  destruct (chain_le _ _ _ _ _ (io_chain _ _ _ _ _ _ I)) as [Ha _]. pose proof (linked_ack _ _ _ _ _ _ _ _ L).
  eapply in_order_sender; [exact I| |done|lia|done]. eapply paced_fill; [exact Hs|done|apply I|lia|done].
Qed.

Lemma ordered_in_order cap rto rcap isn w c n pend :
  ordered cap rto rcap isn w c n pend ->
  0 <= rcap < 65536 /\ transfer cap rto rcap isn w c n /\ exists a xs, in_order isn w n pend a xs.
Proof.
  induction 1 as [|w n pend d _ (Hc & T & a & xs & I) Hl|w c n pend _ (Hc & T & a & xs & I)|w c n pend s _ (Hc & T & a & xs & I) Hf
    |w c n pend ms _ (Hc & T & a & xs & I)|w c n pend _ (Hc & T & a & xs & I)|w c n pend seg rest _ (Hc & T & a & xs & I) Hq
    |w c n pend seg r _ (Hc & T & a & xs & I) Hin Hok|w c n pend k _ (Hc & T & a & xs & I) Hk
    |w c n pend b win _ (Hc & T & a & xs & I) Ha|w c n pend b win _ (Hc & T & a & xs & I)|w c n before p after _ (Hc & T & a & xs & I)];
    (split; [done|]).
  - split; [apply t_start; lia || done|]. exists 0, [].
    split; try done; [|by repeat constructor|by intros [?|(? & ? & [] & _)]|apply incl_refl].
    split; try done. intros _. split; [by exists 0|]. split; [by intros ? []|simpl; lia].
  - split; [by apply t_write|]. exists a, xs. by eapply in_order_write.
  - split; [by eapply t_end|]. exists a, xs. eapply in_order_sender; [exact I|by apply (paced_same a (tx n)); [apply I|..]|done..].
  - split; [by apply t_fill; [|eapply in_order_no_risk|]|]. exists a, xs. by eapply in_order_fill.
  - split; [by apply t_tick|]. exists a, xs. destruct (tick_keeps (tx n) ms) as (E1 & _ & E3 & E4).
    eapply in_order_sender; [exact I|apply (paced_same a (tx n)); [apply I|done..|apply tick_same_probe]|done..].
  - split; [by apply t_empty|]. exists a, xs. eapply in_order_sender; [exact I|by apply (paced_same a (tx n)); [apply I|..]|done..].
  - split; [by apply t_send|]. exists a, xs. destruct I as [I1 I2 I3 I4 I5 I6 I7]. split; try done. by apply (paced_same a (tx n)).
  - split; [by eapply t_deliver; [| |eapply in_order_fits|]|]. exists a, xs. by eapply in_order_deliver.
  - split; [by apply t_read|]. exists a, xs. by eapply in_order_read.
  - split; [by apply t_ack|]. do 2 eexists. by eapply in_order_ack.
  - split; [apply t_acked; [done|]; apply (io_acks _ _ _ _ _ _ I); by left|].
    destruct (in_order_acked _ _ _ _ _ _ _ _ _ _ _ _ T I) as [a' ?]. by exists a', xs.
  - split; [done|]. destruct (in_order_lost _ _ _ _ _ _ _ _ I) as [xs' ?]. by exists a, xs'.
Qed.

(** ** Properties *)


Lemma ordered_ready cap rto rcap isn w n pend :
  ordered cap rto rcap isn w true n pend -> 1 <= rcap -> ready cap rto rcap isn w n.
Proof.
  intros (_ & T & a & xs & I)%ordered_in_order Hcap. pose proof (transfer_linked _ _ _ _ _ _ _ T) as (q & fins & h & L).
  destruct (chain_le _ _ _ _ _ (io_chain _ _ _ _ _ _ I)) as [Ha He]. split; [done| |].
  - destruct (_zero_win_seg_send (tx n)) eqn:Hz.
    + destruct (pc_probe _ _ (io_paced _ _ _ _ _ _ I) Hz) as (_ & _ & ? & _). lia.
    + destruct (pc_flow _ _ (io_paced _ _ _ _ _ _ I) Hz) as (_ & _ & Hn).
      destruct (linked_tracks _ _ _ _ _ _ _ _ L) as (S & evs & synced & fn & qr & HS & _ & [Tr _ _ _]).
      pose proof (read_le_written _ _ _ _ _ _ _ _ Tr). pose proof (tracks_reassembler_window _ _ _ _ _ _ _ _ Tr) as Hw.
      unfold edge, ack_number in *. destruct (_isn_set (rx n)); [|lia]. destruct (ByteStream.input_ended (stream_out (rx n))); lia.
  - intros Hz. by destruct (pc_probe _ _ (io_paced _ _ _ _ _ _ I) Hz).
Qed.


(** ** Witnesses *)

(** The receiver holds 4 bytes.  "abcd" fills it and its acknowledgment closes the
    window; the sender probes with "e", which does not fit and is dropped. *)
Definition tight_isn : WrappingInt32 := mkWrappingInt32 4294967295.
Definition tight_text : bytes := [x61; x62; x63; x64; x65; x66].
Definition tight0 : link := mkLink (TCPSender.new 16 1000 (Some tight_isn) 0) (TCPReceiver.new 4) [] [] [].
Definition tight_syn : link := on_send (on_fill tight0).
Definition tight_heard : link := on_deliver tight_syn (last_sent tight_syn).
Definition tight_open : link := answer tight_heard.
Definition tight_ended : link :=
  let n := tight_open <| tx := (tx tight_open) <| _stream := (ByteStream.write (_stream (tx tight_open)) tight_text).1 |> |> in
  n <| tx := (tx n) <| _stream := ByteStream.end_input (_stream (tx n)) |> |>.
Definition tight_sent : link := on_send (on_fill tight_ended).
Definition tight_full : link := answer (on_deliver tight_sent (last_sent tight_sent)).
Definition tight_probe : link := on_send (on_fill tight_full).
Definition tight_dropped : link := on_deliver tight_probe (last_sent tight_probe).

Section steps.
Context (cap rto rcap : Z) (isn : WrappingInt32) (w : bytes) (c : bool).

Lemma ordered_fill n : ordered cap rto rcap isn w c n [] -> ordered cap rto rcap isn w c (on_fill n) [].
Proof.
  intros O. unfold on_fill. destruct (fill_window (tx n)) as [s|e] eqn:E; [by apply o_fill|]. by destruct n.
Qed.

Lemma ordered_send n : ordered cap rto rcap isn w c n [] -> ordered cap rto rcap isn w c (on_send n) [].
Proof. intros O. unfold on_send. destruct (_segments_out (tx n)) as [|seg rest] eqn:E; [done|]. by apply o_send. Qed.

Lemma ordered_deliver n seg : ordered cap rto rcap isn w c n [] -> In seg (wire n) -> ordered cap rto rcap isn w c (on_deliver n seg) [].
Proof.
  intros O Hin. unfold on_deliver. destruct (segment_received (rx n) seg) as [r|e] eqn:E; [by eapply o_deliver|]. by destruct n.
Qed.

Lemma ordered_answer n : ordered cap rto rcap isn w c n [] -> ordered cap rto rcap isn w c (answer n) [].
Proof.
  intros O. unfold answer. destruct (TCPReceiver.ackno (rx n)) as [a|] eqn:E; [|done].
  pose proof (o_ack cap rto rcap isn w c n [] a (u16 (window_size (rx n))) O (conj E eq_refl)) as H1.
  pose proof (o_acked cap rto rcap isn w c _ [] a (u16 (window_size (rx n))) H1) as H2.
  exact (o_lost cap rto rcap isn w c _ [] (a, u16 (window_size (rx n))) [] H2).
Qed.

End steps.

Lemma tight_run : ordered 16 1000 4 tight_isn tight_text true tight_dropped [].
Proof.
  apply ordered_deliver; [|vm_compute; tauto]. apply ordered_send, ordered_fill, ordered_answer, ordered_deliver; [|vm_compute; tauto].
  apply ordered_send, ordered_fill.
  refine (o_end _ _ _ _ _ false (tight_open <| tx := (tx tight_open) <| _stream := (ByteStream.write (_stream (tx tight_open)) tight_text).1 |> |>) [] _).
  refine (o_write _ _ _ _ [] tight_open [] tight_text _ _); [|by vm_compute].
  apply ordered_answer, ordered_deliver; [|vm_compute; tauto]. apply ordered_send, ordered_fill. apply o_start; by vm_compute.
Qed.


