(* ===== verification/TCPState.v ===== *)
(** * TCPState

    The summary of a connection's state and the official state names of TCP
    (libsponge/tcp_helpers/tcp_state.{hh,cc}). *)

From stdpp Require Import base list numbers option strings.
From Stdlib Require Import ZArith Lia.
From S2P Require Import Prelude.
From S2P Require Import ByteStream.
From S2P Require Import TCPReceiver.
From S2P Require Import TCPSender.
#[local] Open Scope Z_scope.

(** The strings of the two namespaces of summaries. *)
Module TCPReceiverStateSummary.
Definition ERROR : string := "error (connection was reset)".
Definition LISTEN : string := "waiting for SYN: ackno is empty".
Definition SYN_RECV : string := "SYN received (ackno exists), and input to stream hasn't ended".
Definition FIN_RECV : string := "input to stream has ended".
End TCPReceiverStateSummary.

Module TCPSenderStateSummary.
Definition ERROR : string := "error (connection was reset)".
Definition CLOSED : string := "waiting for stream to begin (no SYN sent)".
Definition SYN_SENT : string := "stream started but nothing acknowledged".
Definition SYN_ACKED : string := "stream ongoing".
Definition FIN_SENT : string := "stream finished (FIN sent) but not fully acknowledged".
Definition FIN_ACKED : string := "stream finished and fully acknowledged".
End TCPSenderStateSummary.

Module R := TCPReceiverStateSummary.
Module S := TCPSenderStateSummary.

Record TCPState := mkTCPState {
  _sender : string;
  _receiver : string;
  _active : bool;
  _linger_after_streams_finish : bool;
}.

Inductive State :=
| LISTEN
| SYN_RCVD
| SYN_SENT
| ESTABLISHED
| CLOSE_WAIT
| LAST_ACK
| FIN_WAIT_1
| FIN_WAIT_2
| CLOSING
| TIME_WAIT
| CLOSED
| RESET.

(** [operator==] and [operator!=] *)
(** [std::to_string] of a [bool] *)
Definition bool_string (b : bool) : string := if b then "1" else "0".

Definition name (t : TCPState) : string :=
  String.append "sender=`" (String.append (_sender t) (String.append "`, receiver=`" (String.append (_receiver t)
    (String.append "`, active=" (String.append (bool_string (_active t))
      (String.append ", linger_after_streams_finish=" (bool_string (_linger_after_streams_finish t)))))))).

Definition state_eqb (a b : TCPState) : bool :=
  Bool.eqb (_active a) (_active b) && Bool.eqb (_linger_after_streams_finish a) (_linger_after_streams_finish b) &&
  String.eqb (_sender a) (_sender b) && String.eqb (_receiver a) (_receiver b).
Definition state_neqb (a b : TCPState) : bool := negb (state_eqb a b).

(** The constructor from an official state. *)
Definition of_state (state : State) : TCPState :=
  match state with
  | LISTEN => mkTCPState S.CLOSED R.LISTEN true true
  | SYN_RCVD => mkTCPState S.SYN_SENT R.SYN_RECV true true
  | SYN_SENT => mkTCPState S.SYN_SENT R.LISTEN true true
  | ESTABLISHED => mkTCPState S.SYN_ACKED R.SYN_RECV true true
  | CLOSE_WAIT => mkTCPState S.SYN_ACKED R.FIN_RECV true false
  | LAST_ACK => mkTCPState S.FIN_SENT R.FIN_RECV true false
  | CLOSING => mkTCPState S.FIN_SENT R.FIN_RECV true true
  | FIN_WAIT_1 => mkTCPState S.FIN_SENT R.SYN_RECV true true
  | FIN_WAIT_2 => mkTCPState S.FIN_ACKED R.SYN_RECV true true
  | TIME_WAIT => mkTCPState S.FIN_ACKED R.FIN_RECV true true
  | RESET => mkTCPState S.ERROR R.ERROR false false
  | CLOSED => mkTCPState S.FIN_ACKED R.FIN_RECV false false
  end.

Definition receiver_summary (receiver : TCPReceiver) : string :=
  if ByteStream.error (TCPReceiver.stream_out receiver) then R.ERROR
  else if negb (bool_decide (is_Some (TCPReceiver.ackno receiver))) then R.LISTEN
  else if ByteStream.input_ended (TCPReceiver.stream_out receiver) then R.FIN_RECV
  else R.SYN_RECV.

Definition sender_summary (sender : TCPSender) : string :=
  if ByteStream.error (stream_in sender) then S.ERROR
  else if next_seqno_absolute sender =? 0 then S.CLOSED
  else if next_seqno_absolute sender =? bytes_in_flight sender then S.SYN_SENT
  else if negb (ByteStream.eof (stream_in sender)) then S.SYN_ACKED
  else if next_seqno_absolute sender <? u64 (ByteStream.bytes_written (stream_in sender) + 2) then S.SYN_ACKED
  else if negb (bytes_in_flight sender =? 0) then S.FIN_SENT
  else S.FIN_ACKED.

(** The constructor from the parts of a connection. *)
Definition of_parts (sender : TCPSender) (receiver : TCPReceiver) (active linger : bool) : TCPState :=
  mkTCPState (sender_summary sender) (receiver_summary receiver) active (if active then linger else false).

(** ** Lemmas *)

Lemma state_eqb_eq a b : state_eqb a b = true <-> a = b.
Proof.
  unfold state_eqb. rewrite !andb_true_iff, !eqb_true_iff, !String.eqb_eq. destruct a, b; simpl. naive_solver.
Qed.

(** ** Properties *)

(** The twelve official states are told apart by their summaries: two of them
    compare equal exactly when they are the same, so a connection is in at most
    one official state. *)
Theorem official_states_distinct a b : state_eqb (of_state a) (of_state b) = true <-> a = b.
Proof. split; [|intros ->; by destruct b]. destruct a, b; intros H; (reflexivity || (vm_compute in H; discriminate H)). Qed.
