(* ===== verification/TCPConnection.v ===== *)
(** * TCPConnection: the model

    An endpoint: a sender, a receiver, the queue of outgoing segments and the
    rules for acknowledging, lingering and resetting
    (libsponge/tcp_connection.{hh,cc}).  The commented-out debugging output and the
    warning the destructor prints are left out. *)

From stdpp Require Import base list numbers option.
From Stdlib Require Import ZArith Lia Strings.Byte.
From S2P Require Import Prelude.
From S2P Require Import ByteStream.
From S2P Require Import StreamReassembler.
From S2P Require Import WrappingIntegers.
From S2P Require Import Buffer.
From S2P Require Import TCPHeader.
From S2P Require Import TCPSegment.
From S2P Require Import TCPConfig.
From S2P Require Import TCPReceiver.
From S2P Require Import TCPSender.
From S2P Require Import TCPState.
#[local] Open Scope Z_scope.

Record TCPConnection := mkTCPConnection {
  _cfg : TCPConfig;
  _receiver : TCPReceiver;
  _sender : TCPSender;
  _segments_out : list TCPSegment;
  _linger_after_streams_finish : bool;
  _time_since_last_seg_rec : Z;
}.
#[global] Instance TCPConnection_eta : RecordEta TCPConnection := fun c =>
  mkTCPConnection (_cfg c) (_receiver c) (_sender c) (_segments_out c) (_linger_after_streams_finish c)
    (_time_since_last_seg_rec c).

(** The constructor; [random] is for the sender's initial sequence number. *)
Definition new (cfg : TCPConfig) (random : Z) : TCPConnection :=
  {| _cfg := cfg;
     _receiver := TCPReceiver.new (recv_capacity cfg);
     _sender := TCPSender.new (send_capacity cfg) (rt_timeout cfg) (fixed_isn cfg) random;
     _segments_out := [];
     _linger_after_streams_finish := true;
     _time_since_last_seg_rec := 0 |}.

(** ** Private helpers *)

(** Fills in the fields that belong to the receiver. *)
Definition stamp (c : TCPConnection) (seg : TCPSegment) : TCPSegment :=
  match TCPReceiver.ackno (_receiver c) with
  | Some a => seg <| header := header seg <| ack := true |> <| TCPHeader.ackno := a |>
                               <| win := u16 (TCPReceiver.window_size (_receiver c)) |> |>
  | None => seg
  end.

Definition send_common_seg (c : TCPConnection) : res TCPConnection :=
  match TCPSender._segments_out (_sender c) with
  | [] => Throw UndefinedBehaviour
  | seg :: rest =>
      let c := c <| _sender := (_sender c) <| TCPSender._segments_out := rest |> |> in
      Ok (c <| _segments_out := _segments_out c ++ [stamp c seg] |>)
  end.

(** One iteration per queued segment. *)
Fixpoint send_all_fuel (fuel : nat) (c : TCPConnection) : res TCPConnection :=
  match TCPSender._segments_out (_sender c) with
  | [] => Ok c
  | _ =>
      match fuel with
      | O => Throw NoFuel
      | S fuel' => let* c := send_common_seg c in send_all_fuel fuel' c
      end
  end.

Definition send_all_segs (c : TCPConnection) : res TCPConnection :=
  send_all_fuel (length (TCPSender._segments_out (_sender c))) c.

Definition send_rst_seg (c : TCPConnection) : res TCPConnection :=
  let c := match TCPSender._segments_out (_sender c) with
           | [] => c <| _sender := send_empty_segment (_sender c) |>
           | _ => c
           end in
  match TCPSender._segments_out (_sender c) with
  | [] => Throw UndefinedBehaviour
  | seg :: _ =>
      let seg := seg <| header := header seg <| rst := true |> |> in
      Ok (c <| _segments_out := _segments_out c ++ [stamp c seg] |>)
  end.

Definition time_wait_state (c : TCPConnection) : bool :=
  ByteStream.eof (TCPReceiver.stream_out (_receiver c)) && ByteStream.eof (stream_in (_sender c)) &&
  (TCPSender.bytes_in_flight (_sender c) =? 0) &&
  (u64 (ByteStream.bytes_written (stream_in (_sender c)) + 2) =? next_seqno_absolute (_sender c)) &&
  negb (get_zero_seg_send (_sender c)).
Definition closing_state (c : TCPConnection) : bool := time_wait_state c.

Definition connection_establish (c : TCPConnection) : bool :=
  bool_decide (is_Some (TCPReceiver.ackno (_receiver c))) &&
  (TCPSender.bytes_in_flight (_sender c) <? next_seqno_absolute (_sender c)).

(** [_sender.stream_in().set_error(); _receiver.stream_out().set_error();] *)
Definition set_errors (c : TCPConnection) : TCPConnection :=
  let s := _sender c in
  let r := _receiver c in
  let ra := TCPReceiver._reassembler r in
  c <| _sender := s <| _stream := ByteStream.set_error (_stream s) |> |>
    <| _receiver := r <| TCPReceiver._reassembler :=
         ra <| StreamReassembler._output := ByteStream.set_error (StreamReassembler._output ra) |> |> |>.

(** ** Public interface *)

Definition remaining_outbound_capacity (c : TCPConnection) : Z := ByteStream.remaining_capacity (stream_in (_sender c)).
Definition bytes_in_flight (c : TCPConnection) : Z := TCPSender.bytes_in_flight (_sender c).
Definition unassembled_bytes (c : TCPConnection) : Z := TCPReceiver.unassembled_bytes (_receiver c).
Definition time_since_last_segment_received (c : TCPConnection) : Z := _time_since_last_seg_rec c.
Definition inbound_stream (c : TCPConnection) : ByteStream := TCPReceiver.stream_out (_receiver c).
Definition segments_out (c : TCPConnection) : list TCPSegment := _segments_out c.

Definition active (c : TCPConnection) : bool :=
  if ByteStream.error (stream_in (_sender c)) && ByteStream.error (TCPReceiver.stream_out (_receiver c)) then false
  else if negb (_linger_after_streams_finish c) then negb (closing_state c)
  else negb (time_wait_state c && (10 * rt_timeout (_cfg c) <=? _time_since_last_seg_rec c)).

Definition state (c : TCPConnection) : TCPState :=
  of_parts (_sender c) (_receiver c) (active c) (_linger_after_streams_finish c).

(** [_sender.fill_window()] *)
Definition sender_fill (c : TCPConnection) : res TCPConnection :=
  let* s := fill_window (_sender c) in
  Ok (c <| _sender := s |>).

(** The acknowledgment a segment carries goes to the sender. *)
Definition take_ack (c : TCPConnection) (seg : TCPSegment) : res TCPConnection :=
  if ack (header seg) then
    let c := c <| _sender := ack_received (_sender c) (TCPHeader.ackno (header seg)) (win (header seg)) |> in
    if negb (next_seqno_absolute (_sender c) =? 0) then sender_fill c else Ok c
  else Ok c.

(** The two tests on the ends of the streams. *)
Definition note_ends (c : TCPConnection) : TCPConnection :=
  let c := if time_wait_state c then c <| _time_since_last_seg_rec := 0 |> else c in
  if ByteStream.input_ended (TCPReceiver.stream_out (_receiver c)) && negb (ByteStream.input_ended (stream_in (_sender c)))
  then c <| _linger_after_streams_finish := false |> else c.

(** A segment that occupies sequence numbers is answered. *)
Definition answer (c : TCPConnection) (seg : TCPSegment) : res TCPConnection :=
  if negb (length_in_sequence_space seg =? 0) && bool_decide (is_Some (TCPReceiver.ackno (_receiver c))) then
    let* c := if next_seqno_absolute (_sender c) =? 0 then sender_fill c else Ok c in
    let c := match TCPSender._segments_out (_sender c) with
             | [] => c <| _sender := send_empty_segment (_sender c) |>
             | _ => c
             end in
    send_common_seg c
  else Ok c.

(** So is a keep-alive, which repeats the sequence number before the expected one. *)
Definition answer_keep_alive (c : TCPConnection) (seg : TCPSegment) : res TCPConnection :=
  match TCPReceiver.ackno (_receiver c) with
  | Some a =>
      if (length_in_sequence_space seg =? 0) && wi_eqb (seqno (header seg)) (wi_sub a 1)
      then send_common_seg (c <| _sender := send_empty_segment (_sender c) |>)
      else Ok c
  | None => Ok c
  end.

Definition segment_received (c : TCPConnection) (seg : TCPSegment) : res TCPConnection :=
  if negb (active c) then Ok c
  else if rst (header seg) then Ok (set_errors c)
  else
    let* r := TCPReceiver.segment_received (_receiver c) seg in
    let c := c <| _receiver := r |> in
    let* c := take_ack c seg in
    let c := note_ends c in
    let* c := answer c seg in
    let* c := send_all_segs c in
    answer_keep_alive c seg.

Definition write (c : TCPConnection) (data : bytes) : res (TCPConnection * Z) :=
  let '(stream, write_size) := ByteStream.write (_stream (_sender c)) data in
  let c := c <| _sender := (_sender c) <| _stream := stream |> |> in
  if connection_establish c then
    let* c := sender_fill c in
    let* c := send_all_segs c in
    Ok (c, write_size)
  else Ok (c, write_size).

Definition tick (c : TCPConnection) (ms_since_last_tick : Z) : res TCPConnection :=
  if active c then
    let c := c <| _sender := TCPSender.tick (_sender c) ms_since_last_tick |> in
    let c := if time_wait_state c
             then c <| _time_since_last_seg_rec := u64 (_time_since_last_seg_rec c + ms_since_last_tick) |> else c in
    let* c := if MAX_RETX_ATTEMPTS <? consecutive_retransmissions (_sender c)
              then send_rst_seg (set_errors c) else Ok c in
    if active c then send_all_segs c else Ok c
  else Ok c.

Definition end_input_stream (c : TCPConnection) : res TCPConnection :=
  let s := _sender c in
  let c := c <| _sender := s <| _stream := ByteStream.end_input (_stream s) |> |> in
  let* c := sender_fill c in
  send_all_segs c.

Definition connect (c : TCPConnection) : res TCPConnection :=
  let* c := sender_fill c in
  match TCPSender._segments_out (_sender c) with
  | [] => Throw UndefinedBehaviour
  | seg :: rest =>
      let c := c <| _segments_out := _segments_out c ++ [seg] |> in
      Ok (c <| _sender := (_sender c) <| TCPSender._segments_out := rest |> |>)
  end.

(** The destructor: the state of the connection when it is gone. *)
Definition destroy (c : TCPConnection) : res TCPConnection :=
  if active c then send_rst_seg (set_errors c) else Ok c.

(** The owner takes the segments to send. *)
Definition take_segments (c : TCPConnection) : TCPConnection := c <| _segments_out := [] |>.
