(* ===== verification/Endpoint.v ===== *)
(** * TCPConnection: acknowledging, resetting and closing

    The theorems on an endpoint: what it answers, when it resets, and how it
    closes, with a complete run of two endpoints. *)

From stdpp Require Import base list numbers option.
From Stdlib Require Import ZArith Lia Strings.Byte.
From S2P Require Import Prelude.
From S2P Require Import OMap.
From S2P Require Import ByteStream.
From S2P Require Import StreamReassembler.
From S2P Require Import WrappingIntegers.
From S2P Require Import Buffer.
From S2P Require Import TCPHeader.
From S2P Require Import TCPSegment.
From S2P Require Import TCPConfig.
From S2P Require Import TCPReceiver.
From S2P Require Import TCPSender.
From S2P Require Import Sending.
From S2P Require Import TCPState.
From S2P Require Import TCPConnection.
#[local] Open Scope Z_scope.

(** ** Sending what the sender queued *)

(** [c'] is [c] after some segments went out; the receiver is the same. *)
Record sent_on (c : TCPConnection) (new : list TCPSegment) (c' : TCPConnection) : Prop := {
  so_receiver : _receiver c' = _receiver c;
  so_out : _segments_out c' = _segments_out c ++ map (stamp c) new;
  so_cfg : _cfg c' = _cfg c;
}.

Lemma stamp_receiver c c' seg : _receiver c' = _receiver c -> stamp c' seg = stamp c seg.
Proof. intros E. unfold stamp. by rewrite E. Qed.

Lemma sent_on_refl c : sent_on c [] c.
Proof. split; [done| |done]. by rewrite app_nil_r. Qed.

Lemma sent_on_trans c1 c2 c3 n1 n2 : sent_on c1 n1 c2 -> sent_on c2 n2 c3 -> sent_on c1 (n1 ++ n2) c3.
Proof.
  intros [R1 O1 C1] [R2 O2 C2]. split; [congruence| |congruence].
  rewrite O2, O1, map_app, <- app_assoc. do 2 f_equal. apply map_ext. intros seg. by apply stamp_receiver.
Qed.

Lemma send_common_spec c seg rest :
  TCPSender._segments_out (_sender c) = seg :: rest ->
  exists c', send_common_seg c = Ok c' /\ sent_on c [seg] c' /\ TCPSender._segments_out (_sender c') = rest /\
    _sender c' = (_sender c) <| TCPSender._segments_out := rest |> /\
    _linger_after_streams_finish c' = _linger_after_streams_finish c /\
    _time_since_last_seg_rec c' = _time_since_last_seg_rec c.
Proof. intros E. unfold send_common_seg. rewrite E. eexists. split; [done|]. by split_and!. Qed.

Lemma send_all_fuel_spec fuel : forall c,
  (length (TCPSender._segments_out (_sender c)) <= fuel)%nat ->
  exists c', send_all_fuel fuel c = Ok c' /\ sent_on c (TCPSender._segments_out (_sender c)) c' /\
    TCPSender._segments_out (_sender c') = [].
Proof.
  induction fuel as [|fuel IH]; intros c Hl; cbn [send_all_fuel];
    (destruct (TCPSender._segments_out (_sender c)) as [|seg rest] eqn:E;
      [exists c; split; [done|]; split; [apply sent_on_refl|done]|]); [simpl in Hl; lia|].
  destruct (send_common_spec c seg rest E) as (c1 & -> & H1 & H2 & _). cbn [res_bind].
  destruct (IH c1) as (c2 & -> & H3 & H4); [rewrite H2; simpl in Hl; lia|].
  exists c2. split; [done|]. split; [|done]. rewrite H2 in H3. exact (sent_on_trans _ _ _ [seg] rest H1 H3).
Qed.

Lemma send_all_spec c :
  exists c', send_all_segs c = Ok c' /\ sent_on c (TCPSender._segments_out (_sender c)) c' /\
    TCPSender._segments_out (_sender c') = [].
Proof. by apply send_all_fuel_spec. Qed.

(** ** The phases of [segment_received] *)

Lemma sender_fill_keeps c c' :
  sender_fill c = Ok c' ->
  _receiver c' = _receiver c /\ _segments_out c' = _segments_out c /\ _cfg c' = _cfg c.
Proof. unfold sender_fill. destruct (fill_window (_sender c)); [|done]. by intros [= <-]. Qed.

Lemma take_ack_keeps c seg c' : take_ack c seg = Ok c' -> sent_on c [] c'.
Proof.
  unfold take_ack. destruct (ack (header seg)); [|intros [= <-]; apply sent_on_refl]. cbv zeta.
  destruct (negb _); [|intros [= <-]; split; [done|by rewrite app_nil_r|done]].
  intros (H1 & H2 & H3)%sender_fill_keeps. split; [done|by rewrite app_nil_r|done].
Qed.

Lemma note_ends_keeps c : sent_on c [] (note_ends c).
Proof.
  unfold note_ends. destruct (time_wait_state c); cbv zeta;
    destruct (ByteStream.input_ended _ && _); split; try done; by rewrite app_nil_r.
Qed.

Lemma answer_spec c seg c' :
  answer c seg = Ok c' ->
  exists new, sent_on c new c' /\
    (length_in_sequence_space seg <> 0 -> is_Some (TCPReceiver.ackno (_receiver c)) -> new <> []).
Proof.
  unfold answer. destruct (negb _ && _) eqn:Hc.
  - set (fill := if next_seqno_absolute (_sender c) =? 0 then _ else _). destruct fill as [c1|] eqn:Hf; [|done]. cbn [res_bind].
    assert (K : _receiver c1 = _receiver c /\ _segments_out c1 = _segments_out c /\ _cfg c1 = _cfg c).
    { unfold fill in Hf. destruct (next_seqno_absolute (_sender c) =? 0);
        [by apply sender_fill_keeps|by injection Hf as <-]. }
    destruct K as (K1 & K2 & K3).
    set (c2 := match TCPSender._segments_out (_sender c1) with [] => _ | _ => _ end).
    assert (K : sent_on c [] c2).
    { unfold c2. destruct (TCPSender._segments_out (_sender c1)); split; try done; by rewrite app_nil_r. }
    unfold send_common_seg. destruct (TCPSender._segments_out (_sender c2)) as [|s rest]; [done|]. intros [= <-].
    exists [s]. split; [|done]. apply (sent_on_trans _ _ _ [] [s] K). by split.
  - intros [= <-]. exists []. split; [apply sent_on_refl|]. intros Hl Hs.
    rewrite (bool_decide_eq_true_2 _ Hs), andb_true_r, negb_false_iff, Z.eqb_eq in Hc. done.
Qed.

Lemma keep_alive_spec c seg c' :
  answer_keep_alive c seg = Ok c' -> exists new, sent_on c new c'.
Proof.
  unfold answer_keep_alive. destruct (TCPReceiver.ackno (_receiver c)); [|intros [= <-]; exists []; apply sent_on_refl].
  destruct (_ && _); [|intros [= <-]; exists []; apply sent_on_refl]. unfold send_common_seg.
  destruct (TCPSender._segments_out _) as [|s rest]; [done|]. intros [= <-]. exists [s]. by split.
Qed.

(** What an active connection does with a segment that does not reset it. *)
Lemma segment_received_spec c seg c' :
  active c = true -> rst (header seg) = false -> segment_received c seg = Ok c' ->
  TCPReceiver.segment_received (_receiver c) seg = Ok (_receiver c') /\
  exists new, _segments_out c' = _segments_out c ++ map (stamp c') new /\
    (length_in_sequence_space seg <> 0 -> is_Some (TCPReceiver.ackno (_receiver c')) -> new <> []).
Proof.
  intros Ha Hr. unfold segment_received. rewrite Ha, Hr. cbn [negb].
  destruct (TCPReceiver.segment_received (_receiver c) seg) as [r|] eqn:Hrec; [|done]. cbn [res_bind]. cbv zeta.
  set (c0 := c <| _receiver := r |>). destruct (take_ack c0 seg) as [c1|] eqn:H1; [|done]. cbn [res_bind].
  apply take_ack_keeps in H1. pose proof (note_ends_keeps c1) as H2.
  destruct (answer (note_ends c1) seg) as [c2|] eqn:H3; [|done]. cbn [res_bind].
  apply answer_spec in H3 as (n3 & H3 & Hn3).
  destruct (send_all_spec c2) as (c3 & -> & H4 & _). cbn [res_bind]. intros (n5 & H5)%keep_alive_spec.
  pose proof (sent_on_trans _ _ _ _ _ (sent_on_trans _ _ _ _ _ H1 H2) H3) as K3.
  pose proof (sent_on_trans _ _ _ _ _ (sent_on_trans _ _ _ _ _ K3 H4) H5) as [K1 K2 _].
  split; [by rewrite K1|]. eexists. split.
  - rewrite K2. f_equal. apply map_ext. intros s. symmetry. by apply stamp_receiver.
  - intros Hl Hs. rewrite K1 in Hs.
    assert (is_Some (TCPReceiver.ackno (_receiver (note_ends c1)))) as Hs'.
    { by rewrite (so_receiver _ _ _ H2), (so_receiver _ _ _ H1). }
    specialize (Hn3 Hl Hs'). by destruct n3.
Qed.

(** ** Errors *)

Lemma set_errors_inactive c : active (set_errors c) = false.
Proof. done. Qed.

Lemma errors_state c :
  ByteStream.error (stream_in (_sender c)) = true -> ByteStream.error (TCPReceiver.stream_out (_receiver c)) = true ->
  active c = false /\ state c = of_state RESET.
Proof.
  intros H1 H2. assert (Ha : active c = false) by (unfold active; by rewrite H1, H2).
  split; [done|]. unfold state. rewrite Ha. unfold of_parts, sender_summary, receiver_summary. by rewrite H1, H2.
Qed.

Lemma send_rst_spec c :
  exists seg c', send_rst_seg c = Ok c' /\ _segments_out c' = _segments_out c ++ [seg] /\ rst (header seg) = true /\
    _stream (_sender c') = _stream (_sender c) /\ _receiver c' = _receiver c.
Proof.
  unfold send_rst_seg. destruct (TCPSender._segments_out (_sender c)) as [|s0 rest] eqn:E.
  - change (TCPSender._segments_out (_sender (c <| _sender := send_empty_segment (_sender c) |>)))
      with (TCPSender._segments_out (_sender c) ++ [default_segment <| header := default_header <| seqno := next_seqno (_sender c) |> |>]).
    rewrite E. cbn [app]. do 2 eexists. split; [done|]. split; [done|]. split; [|done].
    unfold stamp. by destruct (TCPReceiver.ackno _).
  - rewrite E. do 2 eexists. split; [done|]. split; [done|]. split; [|done].
    unfold stamp. by destruct (TCPReceiver.ackno _).
Qed.

(** ** Closing *)

Lemma flight_zero_nil q fins s : sender_ok q fins s -> TCPSender.bytes_in_flight s = 0 -> _outstanding_segs s = [].
Proof.
  intros Hs H0. rewrite (flight_total _ _ _ Hs) in H0. pose proof (so_flight _ _ _ Hs) as Hf.
  destruct (_outstanding_segs s) as [|[k seg] m]; [done|]. cbn [in_flight OMap.total] in *. destruct Hf as (_ & Hl & _ & _).
  assert (0 <= OMap.total length_in_sequence_space m) by (apply OMap.total_nonneg; intros; apply u64_range). lia.
Qed.

Lemma time_wait_fields c :
  time_wait_state c = true -> TCPSender.bytes_in_flight (_sender c) = 0 /\ _zero_win_seg_send (_sender c) = false.
Proof.
  unfold time_wait_state. rewrite !andb_true_iff, Z.eqb_eq, negb_true_iff. tauto.
Qed.

(** In this state the sender's timer does nothing. *)
Lemma time_wait_tick q fins c ms :
  sender_ok q fins (_sender c) -> time_wait_state c = true ->
  TCPSender.tick (_sender c) ms = (_sender c) <| timer_running := false |>.
Proof.
  intros Hs (H0 & Hz)%time_wait_fields. unfold TCPSender.tick. by rewrite Hz, (flight_zero_nil _ _ _ Hs H0).
Qed.

Lemma sent_all_sender c c' :
  send_all_segs c = Ok c' -> time_wait_state c' = time_wait_state c /\ active c' = active c /\
    _time_since_last_seg_rec c' = _time_since_last_seg_rec c.
Proof.
  unfold send_all_segs. generalize (length (TCPSender._segments_out (_sender c))) as fuel. intros fuel. revert c.
  induction fuel as [|fuel IH]; intros c; cbn [send_all_fuel];
    (destruct (TCPSender._segments_out (_sender c)) as [|seg rest] eqn:E; [by intros [= <-]|]); [done|].
  destruct (send_common_spec c seg rest E) as (c1 & -> & [R1 _ R3] & _ & R4 & R5 & R6). cbn [res_bind].
  intros (H1 & H2 & H3)%IH. rewrite H1, H2, H3, R6. unfold active, closing_state.
  assert (T : time_wait_state c1 = time_wait_state c) by (unfold time_wait_state; rewrite R1, R4; done).
  rewrite T, R1, R3, R4, R5, R6. done.
Qed.

(** ** Segments are processed to the end *)

(** A fill that the connection asks for succeeds. *)
Lemma fill_returns q fins s : sender_ok q fins s -> second_fin_risk s = false -> exists q' fins' s', fill_window s = Ok s' /\ sender_ok q' fins' s'.
Proof.
  intros Hs Hr. destruct (fill_window_spec q fins s Hs (risk_guard _ _ _ Hs Hr)) as (q' & fins' & s' & Hf & [A _ _ _ _]). by exists q', fins', s'.
Qed.

Lemma take_ack_returns c seg q fins :
  sender_ok q fins (_sender c) ->
  (ack (header seg) = true -> exists q' fins',
    sender_ok q' fins' (ack_received (_sender c) (TCPHeader.ackno (header seg)) (win (header seg))) /\
    second_fin_risk (ack_received (_sender c) (TCPHeader.ackno (header seg)) (win (header seg))) = false) ->
  exists c1 q1 fins1, take_ack c seg = Ok c1 /\ sender_ok q1 fins1 (_sender c1).
Proof.
  intros Hs Ha. unfold take_ack. destruct (ack (header seg)); [|by exists c, q, fins].
  destruct (Ha eq_refl) as (q1 & fins1 & H1 & Hr). cbv zeta. set (s1 := ack_received (_sender c) _ _) in *.
  change (_sender (c <| _sender := s1 |>)) with s1. destruct (negb _); [|by eexists _, q1, fins1].
  destruct (fill_returns _ _ _ H1 Hr) as (q2 & fins2 & s2 & Hf & H2). unfold sender_fill.
  change (_sender (c <| _sender := s1 |>)) with s1. rewrite Hf. by eexists _, q2, fins2.
Qed.

Lemma common_returns c : TCPSender._segments_out (_sender c) <> [] -> exists c', send_common_seg c = Ok c'.
Proof. intros H. unfold send_common_seg. destruct (TCPSender._segments_out (_sender c)); [done|]. by eexists. Qed.

Lemma empty_queued c : TCPSender._segments_out (_sender (c <| _sender := send_empty_segment (_sender c) |>)) <> [].
Proof. cbn. by destruct (TCPSender._segments_out (_sender c)). Qed.

Lemma answer_returns c seg q fins : sender_ok q fins (_sender c) -> exists c', answer c seg = Ok c'.
Proof.
  intros Hs. unfold answer. destruct (_ && _); [|by eexists].
  assert (F : exists c1, (if next_seqno_absolute (_sender c) =? 0 then sender_fill c else Ok c) = Ok c1).
  { destruct (Z.eqb_spec (next_seqno_absolute (_sender c)) 0) as [E|]; [|by eexists].
    destruct (fill_returns _ _ _ Hs (sender_no_risk _ _ _ Hs (or_intror E))) as (_ & _ & s' & Hf & _).
    unfold sender_fill. rewrite Hf. by eexists. }
  destruct F as [c1 ->]. cbn [res_bind]. apply common_returns.
  destruct (TCPSender._segments_out (_sender c1)) eqn:E; [apply empty_queued|by rewrite E].
Qed.

Lemma keep_alive_returns c seg : exists c', answer_keep_alive c seg = Ok c'.
Proof.
  unfold answer_keep_alive. destruct (TCPReceiver.ackno _); [|by eexists]. destruct (_ && _); [|by eexists].
  apply common_returns, empty_queued.
Qed.

Lemma receive_returns c seg r q fins :
  rst (header seg) = false -> TCPReceiver.segment_received (_receiver c) seg = Ok r -> sender_ok q fins (_sender c) ->
  (ack (header seg) = true -> exists q' fins',
    sender_ok q' fins' (ack_received (_sender c) (TCPHeader.ackno (header seg)) (win (header seg))) /\
    second_fin_risk (ack_received (_sender c) (TCPHeader.ackno (header seg)) (win (header seg))) = false) ->
  exists c', segment_received c seg = Ok c'.
Proof.
  intros Hr Hrec Hs Ha. unfold segment_received. destruct (negb (active c)); [by eexists|]. rewrite Hr, Hrec. cbn [res_bind]. cbv zeta.
  set (c0 := c <| _receiver := r |>). destruct (take_ack_returns c0 seg q fins Hs Ha) as (c1 & q1 & fins1 & -> & H1). cbn [res_bind].
  assert (N : _sender (note_ends c1) = _sender c1).
  { unfold note_ends. destruct (time_wait_state c1); cbv zeta; by destruct (ByteStream.input_ended _ && _). }
  rewrite <- N in H1. destruct (answer_returns _ seg _ _ H1) as [c2 ->]. cbn [res_bind].
  destruct (send_all_spec c2) as (c3 & -> & _). cbn [res_bind]. apply keep_alive_returns.
Qed.

(** ** Properties *)

(** C24: an active connection answers a segment by passing it to its receiver; every
    segment it then sends carries the acknowledgment number and the (16-bit)
    window of that receiver, and a segment that occupies sequence numbers is
    always answered once the peer's SYN is known. *)
Theorem segments_acknowledged c seg c' :
  active c = true -> rst (header seg) = false -> segment_received c seg = Ok c' ->
  TCPReceiver.segment_received (_receiver c) seg = Ok (_receiver c') /\
  exists new, segments_out c' = segments_out c ++ new /\
    (forall a, TCPReceiver.ackno (_receiver c') = Some a ->
      Forall (fun s => ack (header s) = true /\ TCPHeader.ackno (header s) = a /\
        win (header s) = u16 (TCPReceiver.window_size (_receiver c'))) new /\
      (length_in_sequence_space seg <> 0 -> new <> [])).
Proof.
  intros Ha Hr Hok. destruct (segment_received_spec c seg c' Ha Hr Hok) as (H1 & new & H2 & H3).
  split; [done|]. exists (map (stamp c') new). split; [done|]. intros a E. split.
  - apply List.Forall_forall. intros s (s0 & <- & _)%in_map_iff.
    unfold stamp. by rewrite E.
  - intros Hl Hn. apply (H3 Hl); [by rewrite E|]. by apply map_eq_nil in Hn.
Qed.

(** A segment is processed to the end (no exception, no endless loop) whenever
    the receiver accepts it, for every state of the sender reached by its own
    operations, unless the acknowledgment it carries leads to the second FIN. *)
Theorem segment_received_returns c seg r cap rto isn w closed :
  rst (header seg) = false ->
  TCPReceiver.segment_received (_receiver c) seg = Ok r ->
  srun cap rto isn w closed (_sender c) ->
  wi_ok (TCPHeader.ackno (header seg)) -> 0 <= win (header seg) < 65536 ->
  second_fin_risk (ack_received (_sender c) (TCPHeader.ackno (header seg)) (win (header seg))) = false ->
  exists c', segment_received c seg = Ok c'.
Proof.
  intros Hr Hrec Hrun Hack Hwin Hrisk. destruct (srun_ok _ _ _ _ _ _ Hrun) as (q & fins & Hs & _).
  apply (receive_returns c seg r q fins Hr Hrec Hs). intros _.
  destruct (srun_ok _ _ _ _ _ _ (sr_ack _ _ _ _ _ _ _ _ Hrun Hack Hwin)) as (q' & fins' & Hs' & _). by exists q', fins'.
Qed.

(** C27: a reset that an active connection takes, or decides on after more than
    [MAX_RETX_ATTEMPTS] retransmissions, puts both streams in error and the connection in
    the official state RESET, in which it is inactive and ignores segments and time; a
    received reset is not answered, and a decided one sends exactly one segment, marked
    RST.  The code takes every segment marked RST, whatever its sequence number and the
    state: also those that tests/fsm_ack_rst.cc wants ignored
    ([stray_resets_accepted]). *)
Theorem reset_is_final c seg ms :
  active c = true ->
  (rst (header seg) = true ->
    exists c', segment_received c seg = Ok c' /\ segments_out c' = segments_out c /\ state c' = of_state RESET /\
      forall seg' ms', segment_received c' seg' = Ok c' /\ TCPConnection.tick c' ms' = Ok c') /\
  (MAX_RETX_ATTEMPTS < consecutive_retransmissions (TCPSender.tick (_sender c) ms) ->
    exists c' r, TCPConnection.tick c ms = Ok c' /\ segments_out c' = segments_out c ++ [r] /\ rst (header r) = true /\
      state c' = of_state RESET /\
      forall seg' ms', segment_received c' seg' = Ok c' /\ TCPConnection.tick c' ms' = Ok c').
Proof.
  intros Ha.
  assert (I : forall c', active c' = false -> forall seg' ms', segment_received c' seg' = Ok c' /\ TCPConnection.tick c' ms' = Ok c').
  { intros c' E seg' ms'. unfold segment_received, TCPConnection.tick. by rewrite E. }
  split.
  - intros Hr. exists (set_errors c). unfold segment_received. rewrite Ha, Hr. cbn [negb].
    split; [done|]. split; [done|]. split; [by apply errors_state|]. by apply I.
  - intros Hm. unfold TCPConnection.tick. rewrite Ha. cbv zeta.
    set (c1 := c <| _sender := TCPSender.tick (_sender c) ms |>).
    set (c2 := if time_wait_state c1 then _ else c1).
    assert (H2 : _sender c2 = TCPSender.tick (_sender c) ms /\ _segments_out c2 = _segments_out c)
      by (unfold c2; by destruct (time_wait_state c1)).
    destruct H2 as [H2 H3]. rewrite H2, (proj2 (Z.ltb_lt _ _)) by done.
    destruct (send_rst_spec (set_errors c2)) as (r & c' & -> & Ho & Hr & Hst & Hrec). cbn [res_bind].
    destruct (errors_state c') as [Hina Hres]; [unfold stream_in; by rewrite Hst|by rewrite Hrec|].
    rewrite Hina. exists c', r. split; [done|]. split; [|split; [done|split; [done|by apply I]]].
    unfold segments_out. rewrite Ho. change (_segments_out (set_errors c2)) with (_segments_out c2). by rewrite H3.
Qed.

(** C28: once both streams have ended and everything is acknowledged, an endpoint
    that need not linger is inactive at once; one that lingers counts the time and
    becomes inactive exactly when ten times the initial timeout has passed. *)
Theorem linger_then_close c cap rto isn w closed ms :
  srun cap rto isn w closed (_sender c) -> time_wait_state c = true ->
  ByteStream.error (stream_in (_sender c)) = false ->
  _rx_times (_sender c) <= MAX_RETX_ATTEMPTS -> 0 <= ms -> 0 <= _time_since_last_seg_rec c ->
  _time_since_last_seg_rec c + ms < 18446744073709551616 ->
  (_linger_after_streams_finish c = false -> active c = false) /\
  (_linger_after_streams_finish c = true -> active c = true ->
    exists c', TCPConnection.tick c ms = Ok c' /\ time_wait_state c' = true /\
      time_since_last_segment_received c' = _time_since_last_seg_rec c + ms /\
      active c' = (_time_since_last_seg_rec c + ms <? 10 * rt_timeout (_cfg c))).
Proof.
  intros Hrun Ht He Hrx Hms H0 Hb. split.
  { intros Hl. unfold active, closing_state. by rewrite He, Hl, Ht. }
  intros Hl Ha. destruct (srun_ok _ _ _ _ _ _ Hrun) as (q & fins & Hs & _).
  destruct (srun_rto _ _ _ _ _ _ Hrun) as [_ [Hr _]].
  unfold TCPConnection.tick. rewrite Ha. cbv zeta. rewrite (time_wait_tick q fins c ms Hs Ht).
  set (c1 := c <| _sender := (_sender c) <| timer_running := false |> |>).
  assert (Ht1 : time_wait_state c1 = true) by exact Ht. rewrite Ht1.
  change (_time_since_last_seg_rec c1) with (_time_since_last_seg_rec c). rewrite u64_small by lia.
  set (c2 := c1 <| _time_since_last_seg_rec := _time_since_last_seg_rec c + ms |>).
  change (consecutive_retransmissions (_sender c2)) with (consecutive_retransmissions (_sender c)).
  unfold consecutive_retransmissions at 1. unfold MAX_RETX_ATTEMPTS in *.
  rewrite u32_small, (proj2 (Z.ltb_ge 8 _)) by lia. cbn [res_bind].
  assert (Ha2 : active c2 = (_time_since_last_seg_rec c + ms <? 10 * rt_timeout (_cfg c))).
  { unfold active. change (stream_in (_sender c2)) with (stream_in (_sender c)). rewrite He. cbn [andb].
    change (_linger_after_streams_finish c2) with (_linger_after_streams_finish c). rewrite Hl. cbn [negb].
    change (time_wait_state c2) with (time_wait_state c). rewrite Ht. cbn [andb].
    change (_cfg c2) with (_cfg c). change (_time_since_last_seg_rec c2) with (_time_since_last_seg_rec c + ms).
    rewrite Z.leb_antisym. apply negb_involutive. }
  destruct (active c2) eqn:E.
  - destruct (send_all_spec c2) as (c3 & H3 & _). rewrite H3.
    destruct (sent_all_sender _ _ H3) as (S1 & S2 & S3). exists c3. split; [done|].
    rewrite S1, S2, E. unfold time_since_last_segment_received. by rewrite S3.
  - exists c2. split; [done|]. by rewrite E.
Qed.

(** The window field of a segment has 16 bits and [window_size()] is a
    [size_t]: a receiver with room for 65536 bytes or more advertises its window
    modulo 65536, which for 65536 is a closed window. *)
Theorem window_truncated c seg a :
  TCPReceiver.ackno (_receiver c) = Some a -> 65536 <= TCPReceiver.window_size (_receiver c) ->
  win (header (stamp c seg)) < TCPReceiver.window_size (_receiver c) /\
  (TCPReceiver.window_size (_receiver c) = 65536 -> win (header (stamp c seg)) = 0).
Proof.
  intros Ha Hw. unfold stamp. rewrite Ha. change (win (header _)) with (u16 (TCPReceiver.window_size (_receiver c))).
  pose proof (u16_range (TCPReceiver.window_size (_receiver c))). split; [lia|]. by intros ->.
Qed.

(** The time since the last segment, which is documented as the milliseconds
    since the last segment was received, is counted only while the connection
    waits to close: outside of that state any amount of time leaves it unchanged. *)
Theorem time_not_counted c ms c' :
  time_wait_state (c <| _sender := TCPSender.tick (_sender c) ms |>) = false ->
  TCPConnection.tick c ms = Ok c' -> time_since_last_segment_received c' = time_since_last_segment_received c.
Proof.
  intros Ht. unfold TCPConnection.tick. destruct (active c); [|by intros [= <-]]. cbv zeta. rewrite Ht.
  set (c1 := c <| _sender := TCPSender.tick (_sender c) ms |>).
  destruct (MAX_RETX_ATTEMPTS <? _).
  - destruct (send_rst_spec (set_errors c1)) as (r & c2 & Hc2 & _ & _ & Hst & Hrec). rewrite Hc2. cbn [res_bind].
    destruct (errors_state c2) as [-> _]; [unfold stream_in; by rewrite Hst|by rewrite Hrec|]. intros [= <-].
    unfold send_rst_seg in Hc2. destruct (TCPSender._segments_out (_sender (set_errors c1)));
      destruct (TCPSender._segments_out _); try done; by injection Hc2 as <-.
  - cbn [res_bind]. destruct (active c1); [|by intros [= <-]]. intros (_ & _ & H)%sent_all_sender. exact H.
Qed.

(** ** A complete connection *)

(** All segments [a] wants to send reach [b]. *)
Definition deliver (a b : TCPConnection) : res (TCPConnection * TCPConnection) :=
  let* b := fold_left (fun r seg => let* b := r in segment_received b seg) (segments_out a) (Ok b) in
  Ok (take_segments a, b).

(** The application reads everything that arrived. *)
Definition read_all (c : TCPConnection) : TCPConnection :=
  c <| _receiver := read_out (_receiver c) (ByteStream.buffer_size (inbound_stream c)) |>.

Definition client_isn : WrappingInt32 := mkWrappingInt32 4294967290.
Definition server_isn : WrappingInt32 := mkWrappingInt32 7.
Definition client0 : TCPConnection := new (mkTCPConfig 1000 100 100 (Some client_isn)) 0.
Definition server0 : TCPConnection := new (mkTCPConfig 1000 100 100 (Some server_isn)) 0.
Definition greeting : bytes := [x68; x65; x6c; x6c; x6f].

(** The client opens, sends five bytes and closes; the server answers, reads and
    closes; the states of both after each step. *)
Definition lifecycle : res (list (TCPState * TCPState) * bytes) :=
  let* c := connect client0 in
  let s := server0 in
  let t1 := (state c, state s) in
  let* (c, s) := deliver c s in
  let t2 := (state c, state s) in
  let* (s, c) := deliver s c in
  let* (c, s) := deliver c s in
  let t3 := (state c, state s) in
  let* (c, _) := write c greeting in
  let* (c, s) := deliver c s in
  let* (s, c) := deliver s c in
  let got := ByteStream._buffer (inbound_stream s) in
  let s := read_all s in
  let* c := end_input_stream c in
  let t4 := (state c, state s) in
  let* (c, s) := deliver c s in
  let* (s, c) := deliver s c in
  let t5 := (state c, state s) in
  let* s := end_input_stream s in
  let t6 := (state c, state s) in
  let* (s, c) := deliver s c in
  let* (c, s) := deliver c s in
  let t7 := (state c, state s) in
  let* c := TCPConnection.tick c 9999 in
  let t8 := (state c, state s) in
  let* c := TCPConnection.tick c 1 in
  Ok ([t1; t2; t3; t4; t5; t6; t7; t8; (state c, state s)], got).

(** Two endpoints run through the official states of TCP: handshake, transfer,
    a close by the client (which lingers for ten timeouts) and then by the server
    (which closes at once), with the bytes delivered; the client's sequence
    numbers wrap around on the way. *)
Theorem connection_lifecycle :
  lifecycle = Ok (map (fun p => (of_state p.1, of_state p.2))
    [(SYN_SENT, LISTEN); (SYN_SENT, SYN_RCVD); (ESTABLISHED, ESTABLISHED); (FIN_WAIT_1, ESTABLISHED);
     (FIN_WAIT_2, CLOSE_WAIT); (FIN_WAIT_2, LAST_ACK); (TIME_WAIT, CLOSED); (TIME_WAIT, CLOSED); (CLOSED, CLOSED)],
    greeting).
Proof. vm_compute. reflexivity. Qed.

(** ** Witnesses *)

Definition syn_of_client : TCPSegment :=
  mkTCPSegment (TCPHeader.default_header <| syn := true |> <| seqno := client_isn |>) empty_buffer.
Definition rst_of_client : TCPSegment :=
  mkTCPSegment (TCPHeader.default_header <| rst := true |>) empty_buffer.

Lemma server0_run : srun 100 1000 server_isn [] false (_sender server0).
Proof. apply sr_new; [lia..|vm_compute; split; congruence]. Qed.

Lemma segments_acknowledged_witness :
  exists c', segment_received server0 syn_of_client = Ok c' /\
  exists new, segments_out c' = segments_out server0 ++ new /\
    (forall a, TCPReceiver.ackno (_receiver c') = Some a -> new <> []).
Proof.
  destruct (segment_received server0 syn_of_client) as [c'|] eqn:E; [|vm_compute in E; discriminate E].
  exists c'. split; [reflexivity|].
  destruct (segments_acknowledged server0 syn_of_client c' eq_refl eq_refl E) as (_ & new & Ho & Hn).
  exists new. split; [exact Ho|]. intros a Ha. apply (Hn a Ha). vm_compute. congruence.
Defined.

Lemma segment_received_returns_witness : exists c', segment_received server0 syn_of_client = Ok c'.
Proof.
  destruct (TCPReceiver.segment_received (_receiver server0) syn_of_client) as [r|] eqn:E; [|vm_compute in E; discriminate E].
  apply (segment_received_returns server0 syn_of_client r 100 1000 server_isn [] false eq_refl E server0_run).
  - vm_compute. split; congruence.
  - vm_compute. split; congruence.
  - vm_compute. reflexivity.
Defined.

(** An established connection: the handshake of client and server is done. *)
Definition established : TCPConnection :=
  res_or (let* c := connect client0 in
          let* (c, s) := deliver c server0 in
          let* (s, c) := deliver s c in
          let* (_, s) := deliver c s in
          Ok s) server0.

(** A reset with the sequence number that is expected next *)
Definition rst_expected : TCPSegment :=
  mkTCPSegment (TCPHeader.default_header <| rst := true |> <| seqno := wrap 1 client_isn |>) empty_buffer.

Lemma reset_is_final_witness :
  state established = of_state ESTABLISHED /\ TCPReceiver.ackno (_receiver established) = Some (wrap 1 client_isn) /\
  exists c', segment_received established rst_expected = Ok c' /\ segments_out c' = segments_out established /\ state c' = of_state RESET.
Proof.
  split; [vm_compute; reflexivity|]. split; [vm_compute; reflexivity|].
  assert (Ha : active established = true) by (vm_compute; reflexivity).
  destruct (proj1 (reset_is_final established rst_expected 0 Ha) eq_refl) as (c' & H1 & H2 & H3 & _).
  exists c'. split; [exact H1|]. split; [exact H2|exact H3].
Defined.

(** Resets that tests/fsm_ack_rst.cc wants ignored and that are taken: any in the state
    LISTEN, one without ACK in SYN_SENT, and one far outside the window in ESTABLISHED. *)
Theorem stray_resets_accepted :
  let far := rst_of_client <| header := header rst_of_client <| seqno := wrap 1000 client_isn |> |> in
  let syn_sent := res_or (connect client0) client0 in
  let reset c seg := match segment_received c seg with Ok c' => state_eqb (state c') (of_state RESET) | Throw _ => false end in
  state server0 = of_state LISTEN /\ reset server0 rst_of_client = true /\
  state syn_sent = of_state SYN_SENT /\ ack (header rst_of_client) = false /\ reset syn_sent rst_of_client = true /\
  state established = of_state ESTABLISHED /\ reset established far = true.
Proof. cbv zeta. split_and!; vm_compute; reflexivity. Qed.

(** A server in TIME_WAIT: its SYN and FIN are acknowledged, and the client's FIN is in. *)
Definition opened : TCPSender := res_or (fill_window (_sender server0)) (_sender server0).
Definition opened_acked : TCPSender := ack_received opened (wrap 1 server_isn) 10.
Definition ended : TCPSender := opened_acked <| _stream := ByteStream.end_input (_stream opened_acked) |>.
Definition fin_sent : TCPSender := res_or (fill_window ended) ended.
Definition closed_sender : TCPSender := ack_received fin_sent (wrap 2 server_isn) 10.
Definition closed_receiver : TCPReceiver :=
  res_or (TCPReceiver.segment_received (TCPReceiver.new 100)
    (syn_of_client <| header := header syn_of_client <| fin := true |> |>)) (TCPReceiver.new 100).
Definition waiting : TCPConnection :=
  server0 <| _sender := closed_sender |> <| _receiver := closed_receiver |>.

Lemma closed_sender_run : srun 100 1000 server_isn [] true closed_sender.
Proof.
  assert (H0 : srun 100 1000 server_isn [] false opened).
  { apply (sr_fill _ _ _ _ _ (_sender server0)); [apply server0_run|reflexivity|vm_compute; reflexivity]. }
  assert (H1 : srun 100 1000 server_isn [] true fin_sent).
  { apply (sr_fill _ _ _ _ _ ended); [|vm_compute; reflexivity|vm_compute; reflexivity].
    apply (sr_end _ _ _ _ false). apply sr_ack; [done|vm_compute; split; congruence|lia]. }
  apply sr_ack; [done|vm_compute; split; congruence|lia].
Qed.

Lemma linger_then_close_witness :
  exists c', TCPConnection.tick waiting 10000 = Ok c' /\ active c' = false.
Proof.
  assert (H1 : time_wait_state waiting = true) by (vm_compute; reflexivity).
  assert (H2 : _rx_times (_sender waiting) <= MAX_RETX_ATTEMPTS) by (vm_compute; congruence).
  assert (H3 : active waiting = true) by (vm_compute; reflexivity).
  destruct (linger_then_close waiting 100 1000 server_isn [] true 10000 closed_sender_run H1 eq_refl H2
    ltac:(lia) ltac:(vm_compute; congruence) ltac:(vm_compute; reflexivity)) as [_ Hl].
  destruct (Hl eq_refl H3) as (c' & Hc & _ & _ & Ha). exists c'. split; [exact Hc|]. rewrite Ha. vm_compute. reflexivity.
Defined.

Definition wide_server : TCPConnection :=
  res_or (segment_received (new (mkTCPConfig 1000 65536 100 (Some server_isn)) 0) syn_of_client) server0.

Lemma window_truncated_witness : win (header (stamp wide_server default_segment)) = 0.
Proof.
  assert (Ha : TCPReceiver.ackno (_receiver wide_server) = Some (wrap 1 client_isn)) by (vm_compute; reflexivity).
  assert (Hw : TCPReceiver.window_size (_receiver wide_server) = 65536) by (vm_compute; reflexivity).
  apply (window_truncated wide_server default_segment (wrap 1 client_isn) Ha); [rewrite Hw; lia|exact Hw].
Defined.

Lemma time_not_counted_witness :
  exists c', TCPConnection.tick server0 5 = Ok c' /\ time_since_last_segment_received c' = 0.
Proof.
  destruct (TCPConnection.tick server0 5) as [c'|] eqn:E; [|vm_compute in E; discriminate E].
  exists c'. split; [reflexivity|]. exact (time_not_counted server0 5 c' eq_refl E).
Defined.
