(* ===== verification/Typing.v ===== *)
(** * Well-typed segments

    Every field of a C++ header has a width that the model writes out as a range
    ([header_ok], [segment_ok]).  This file shows that a connection never leaves these
    types: whatever it is given, each segment it queues has fields that fit, a payload
    that fits a datagram, and can therefore be serialized and parsed again.  The
    operations are handled uniformly: [Typed] is the class of types with a typing
    predicate, and an operation that may throw is typed when its result is. *)

From stdpp Require Import base numbers option list.
From Stdlib Require Import ZArith Lia Strings.Byte.
From S2P Require Import Prelude.
From S2P Require Import OMap.
From S2P Require Import ByteStream.
From S2P Require Import WrappingIntegers.
From S2P Require Import Buffer.
From S2P Require Import Parser.
From S2P Require Import TCPHeader.
From S2P Require Import TCPSegment.
From S2P Require Import TCPConfig.
From S2P Require Import TCPReceiver.
From S2P Require Import TCPSender.
From S2P Require Import TCPConnection.
#[local] Open Scope Z_scope.

Class Typed (A : Type) := typed : A -> Prop.

#[global] Instance typed_list {A} `{Typed A} : Typed (list A) := Forall typed.
#[global] Instance typed_res {A} `{Typed A} : Typed (res A) := fun r =>
  match r with Ok a => typed a | Throw _ => True end.

Create HintDb typed.

Lemma typed_cons {A} `{Typed A} a (l : list A) : typed (a :: l) <-> typed a /\ typed l.
Proof. apply Forall_cons. Qed.

Lemma typed_snoc {A} `{Typed A} (l : list A) a : typed l -> typed a -> typed (l ++ [a]).
Proof. intros Hl Ha. apply Forall_app. by repeat constructor. Qed.
#[export] Hint Resolve typed_snoc : typed.

(** A step keeps types when it is followed by steps that do. *)
Lemma typed_bind {A B} `{Typed A, Typed B} (r : res A) (f : A -> res B) :
  typed r -> (forall a, typed a -> typed (f a)) -> typed (let* a := r in f a).
Proof. destruct r as [a|]; [|done]. intros Ha Hf. by apply Hf. Qed.

(** ** The sender *)

(** What the sender makes its segments of: a type of segments has the default one and
    is kept by what the sender fills in. *)
Class Fillable (good : TCPSegment -> Prop) := {
  good_default : good default_segment;
  good_seqno seg w : good seg -> wi_ok w -> good (seg <| header := header seg <| seqno := w |> |>);
  good_syn seg : good seg -> good (seg <| header := header seg <| syn := true |> |>);
  good_fin seg : good seg -> good (seg <| header := header seg <| fin := true |> |>);
  good_payload seg (d : bytes) : good seg -> len d <= 65535 -> good (seg <| payload := of_string d |>);
}.

Section Sender.

Context {good : TCPSegment -> Prop} `{!Fillable good}.

#[local] Instance typed_good : Typed TCPSegment := good.
#[local] Instance sender_typed : Typed TCPSender := fun s =>
  wi_ok (_isn s) /\ typed (TCPSender._segments_out s) /\ typed (map snd (_outstanding_segs s)) /\ typed (_zero_win_seg s).

Lemma typed_assign k (seg : TCPSegment) m : typed (map snd m) -> typed seg -> typed (map snd (OMap.assign Z.ltb k seg m)).
Proof.
  intros Hm Hs. induction m as [|[k' v] m IH]; simpl in *; [by rewrite typed_cons|].
  apply typed_cons in Hm as [Hv Hm]. repeat case_bool; simpl; rewrite !typed_cons; auto.
Qed.

Lemma typed_drop_acked a (m : list (Z * TCPSegment)) : typed (map snd m) -> typed (map snd (drop_acked a m)).
Proof.
  induction m as [|[k v] m IH]; intros Hm; [done|]. simpl in *. apply typed_cons in Hm as [Hv Hm].
  repeat case_bool; auto; simpl; rewrite typed_cons; auto.
Qed.

Lemma typed_start_timer s : typed s -> typed (start_timer s).
Proof. unfold start_timer. by case_bool. Qed.

Lemma typed_send_new s seg : typed s -> typed seg -> typed (send_new s seg).
Proof.
  intros (Hi & Hq & Ho & Hz) Hs. apply typed_start_timer. split_and!; sponge_simpl; auto using typed_snoc, typed_assign.
Qed.

Lemma typed_send_probe s : typed s -> typed (send_probe s).
Proof. intros (Hi & Hq & Ho & Hz). apply typed_start_timer. split_and!; simpl; auto using typed_snoc. Qed.

Lemma typed_set_probe s (z : TCPSegment) : typed s -> typed z -> typed (s <| _zero_win_seg := z |>).
Proof. intros (Hi & Hq & Ho & Hz) H. by split_and!. Qed.
Lemma typed_set_stream s b : typed s -> typed (s <| _stream := b |>).
Proof. done. Qed.
Lemma typed_set_send s b : typed s -> typed (s <| _zero_win_seg_send := b |>).
Proof. done. Qed.

Lemma read_length b n b' d : ByteStream.read b n = (b', d) -> 0 <= n -> len d <= n.
Proof. intros [= _ <-] Hn. pose proof (len_nonneg (ByteStream._buffer b)). unfold peek_output. rewrite len_prefix_str by lia. lia. Qed.

Lemma typed_data (s : TCPSender) d : len d <= 65535 ->
  typed (default_segment <| header := header default_segment <| seqno := next_seqno s |> |> <| payload := of_string d |>).
Proof. intros Hd. apply good_payload; [|done]. apply (good_seqno default_segment); [apply good_default|apply wrap_ok]. Qed.

Lemma typed_fin (seg : TCPSegment) : typed seg -> typed (seg <| header := header seg <| fin := true |> |>).
Proof. apply good_fin. Qed.

Lemma typed_fill_loop fuel : forall s, typed s -> typed (fill_loop fuel s).
Proof.
  induction fuel as [|fuel IH]; intros s Hs; cbn [fill_loop]; destruct (negb _ && _); try done.
  cbv zeta. match goal with |- context [ByteStream.read _ (u16 ?z)] => pose proof (u16_range z); set (n := u16 z) in * end.
  destruct (ByteStream.read _ n) as [b d] eqn:Hr. apply read_length in Hr; [|lia].
  apply IH, typed_send_new; [done|]. destruct (_ && ByteStream.eof _); [apply typed_fin|]; apply typed_data; lia.
Qed.

Lemma typed_syn (s : TCPSender) :
  wi_ok (_isn s) -> typed (default_segment <| header := header default_segment <| syn := true |> <| seqno := _isn s |> |>).
Proof.
  intros Hi. assert (H := good_syn default_segment (good_default (good := good))).
  exact (good_seqno (good := good) _ (_isn s) H Hi).
Qed.

Lemma typed_seqno (s : TCPSender) (seg : TCPSegment) :
  typed seg -> typed (seg <| header := header seg <| seqno := next_seqno s |> |>).
Proof. intros Hs. apply good_seqno; [done|apply wrap_ok]. Qed.

Lemma typed_seqno_fin (s : TCPSender) (seg : TCPSegment) :
  typed seg -> typed (seg <| header := header seg <| seqno := next_seqno s |> <| fin := true |> |>).
Proof. intros Hs. apply (typed_seqno s) in Hs. exact (good_fin (good := good) _ Hs). Qed.

Lemma typed_byte_probe s : typed s ->
  typed (if negb (ByteStream.buffer_empty (stream_in s)) && negb (_zero_win_seg_send s) then
    let s := s <| _zero_win_seg_send := true |> in
    let '(stream, d) := ByteStream.read (_stream s) 1 in
    let z := _zero_win_seg s in
    let z := z <| header := header z <| seqno := next_seqno s |> |> in
    let z := z <| payload := of_string d |> in
    send_probe (s <| _stream := stream |> <| _zero_win_seg := z |>)
  else s).
Proof.
  intros Hs. destruct (_ && _); [|done]. cbv zeta. destruct (ByteStream.read _ 1) as [b d] eqn:Hr.
  apply read_length in Hr; [|lia]. apply typed_send_probe, typed_set_probe; [done|]. apply good_payload; [|lia].
  apply typed_seqno, Hs.
Qed.

Lemma typed_fin_probe s : typed s ->
  typed (if ByteStream.eof (stream_in s) && negb (_zero_win_seg_send s) then
    let s := s <| _zero_win_seg_send := true |> in
    let z := _zero_win_seg s in
    let z := z <| header := header z <| seqno := next_seqno s |> <| fin := true |> |> in
    let z := z <| payload := of_string [] |> in
    send_probe (s <| _zero_win_seg := z |>)
  else s).
Proof.
  intros Hs. destruct (_ && _); [|done]. cbv zeta.
  apply typed_send_probe, typed_set_probe; [done|].
  apply good_payload; [|unfold len; simpl; lia]. apply typed_seqno_fin, Hs.
Qed.

Lemma typed_fill_window s : typed s -> typed (fill_window s).
Proof.
  intros Hs. unfold fill_window. case_bool; [apply typed_send_new; [done|]; apply typed_syn, Hs|].
  destruct (_ && negb (_zero_win_seg_send s)).
  - apply typed_fill_loop. destruct (_ && _); [|done]. apply typed_send_new; [done|].
    apply typed_seqno_fin, good_default.
  - case_bool; [|done]. exact (typed_fin_probe _ (typed_byte_probe s Hs)).
Qed.

Lemma typed_ack_steps s a (ackno : WrappingInt32) :
  typed s -> typed (ack_reset_timeout (ack_stop_timer (ack_segments (ack_probe s a) a)) ackno).
Proof.
  intros (Hi & Hq & Ho & Hz). unfold ack_reset_timeout, ack_stop_timer, ack_segments, ack_probe.
  repeat case_bool; split_and!; simpl; auto using typed_drop_acked.
Qed.

Lemma typed_ack_received s ackno w : typed s -> typed (ack_received s ackno w).
Proof. intros Hs. unfold ack_received. destruct (_ && _); [done|]. cbv zeta. by apply typed_ack_steps. Qed.

Lemma typed_resend s (seg : TCPSegment) : typed s -> typed seg -> typed (resend s seg).
Proof. intros (Hi & Hq & Ho & Hz) Hs. split_and!; simpl; auto using typed_snoc. Qed.

Lemma typed_sender_tick s ms : typed s -> typed (TCPSender.tick s ms).
Proof.
  intros Hs. pose proof Hs as (_ & _ & Ho & Hz). unfold TCPSender.tick.
  destruct (_zero_win_seg_send s); [case_bool; [by apply typed_resend|done]|].
  destruct (_outstanding_segs s) as [|[k first] m]; [done|]. apply typed_cons in Ho as [Hf _].
  destruct (negb _); [done|]. case_bool; [|done]. apply typed_resend; [|done]. unfold back_off. by case_bool.
Qed.

Lemma typed_empty s : typed s -> typed (send_empty_segment s).
Proof. intros Hs. destruct Hs as (Hi & Hq & Ho & Hz). split_and!; simpl; auto. apply typed_snoc; [done|]. apply (typed_seqno s default_segment), good_default. Qed.

Lemma typed_new_sender cap rto isn random :
  (forall i, isn = Some i -> wi_ok i) -> 0 <= random < 4294967296 -> typed (TCPSender.new cap rto isn random).
Proof.
  intros Hi Hr. split_and!; [|by constructor|by constructor|apply good_default].
  destruct isn as [i|]; simpl; [by apply Hi|done].
Qed.

Lemma typed_dequeue s (seg : TCPSegment) rest :
  TCPSender._segments_out s = seg :: rest -> typed s -> typed seg /\ typed (s <| TCPSender._segments_out := rest |>).
Proof. intros E (Hi & Hq & Ho & Hz). rewrite E in Hq. apply typed_cons in Hq as [Hseg Hq]. by split_and!. Qed.

End Sender.

(** ** Segments *)

#[global] Instance typed_segment : Typed TCPSegment := segment_ok.
#[global] Instance typed_sender : Typed TCPSender := sender_typed (good := segment_ok).
#[global] Instance typed_connection : Typed TCPConnection := fun c =>
  typed (_sender c) /\ typed (TCPConnection._segments_out c).

Lemma typed_default : typed default_segment.
Proof. split; [split; vm_compute; repeat split; congruence|]. split; vm_compute; repeat split; congruence. Qed.

Lemma typed_header (seg : TCPSegment) h : typed seg -> header_ok h -> typed (seg <| header := h |>).
Proof. intros (_ & Hp) Hh. by split. Qed.

Lemma typed_payload (seg : TCPSegment) (d : bytes) :
  typed seg -> len d <= 65535 -> typed (seg <| payload := of_string d |>).
Proof. intros (Hh & _) Hd. split; [done|]. split; [apply of_string_wf; lia|]. sponge_simpl. by rewrite of_string_str. Qed.

Lemma typed_header_of (seg : TCPSegment) : typed seg -> header_ok (header seg).
Proof. by intros [H _]. Qed.

Lemma ok_set_seqno h w : header_ok h -> wi_ok w -> header_ok (h <| seqno := w |>).
Proof. intros [] ?. by split. Qed.
Lemma ok_set_syn h b : header_ok h -> header_ok (h <| syn := b |>).
Proof. intros []. by split. Qed.
Lemma ok_set_fin h b : header_ok h -> header_ok (h <| fin := b |>).
Proof. intros []. by split. Qed.
Lemma ok_set_rst h b : header_ok h -> header_ok (h <| rst := b |>).
Proof. intros []. by split. Qed.
Lemma ok_set_ack h w z :
  header_ok h -> wi_ok w -> header_ok (h <| ack := true |> <| TCPHeader.ackno := w |> <| win := u16 z |>).
Proof. intros [] ?. split; try done. apply u16_range. Qed.

#[export] Hint Resolve typed_default typed_header typed_payload typed_header_of ok_set_seqno ok_set_syn ok_set_fin ok_set_rst
  ok_set_ack wrap_ok : typed.

#[global] Instance fillable_ok : Fillable segment_ok.
Proof.
  split; [apply typed_default|intros seg w|intros seg|intros seg|apply typed_payload]; intros Hs; intros;
    (apply typed_header; [done|]); auto with typed.
Qed.

(** Segments of the sender are not acknowledgments yet and never resets. *)
Definition plain (seg : TCPSegment) : Prop := ack (header seg) = false /\ rst (header seg) = false.

#[global] Instance fillable_plain : Fillable plain.
Proof. by split. Qed.

(** ** The connection *)

Lemma typed_set_sender (c : TCPConnection) s : typed c -> typed s -> typed (c <| _sender := s |>).
Proof. intros [_ Hq] Hs. by split. Qed.

Lemma typed_stamp c (seg : TCPSegment) : typed seg -> typed (stamp c seg).
Proof.
  intros Hs. unfold stamp, TCPReceiver.ackno. repeat case_match; simplify_eq; try done;
    (apply typed_header; [done|]; apply ok_set_ack; [by apply typed_header_of|apply wrap_ok]).
Qed.

Lemma typed_common c : typed c -> typed (send_common_seg c).
Proof.
  intros [Hs Hq]. unfold send_common_seg. destruct (TCPSender._segments_out (_sender c)) as [|seg rest] eqn:E; [done|].
  destruct (typed_dequeue _ _ _ E Hs) as [Hseg Hs']. split; [done|]. apply typed_snoc; [done|]. by apply typed_stamp.
Qed.

Lemma typed_send_all_fuel fuel : forall c, typed c -> typed (send_all_fuel fuel c).
Proof.
  induction fuel as [|fuel IH]; intros c Hc; cbn [send_all_fuel]; destruct (TCPSender._segments_out (_sender c)); try done.
  apply typed_bind; [by apply typed_common|done].
Qed.

Lemma typed_send_all c : typed c -> typed (send_all_segs c).
Proof. apply typed_send_all_fuel. Qed.

Lemma typed_sender_fill c : typed c -> typed (sender_fill c).
Proof.
  intros Hc. apply typed_bind; [apply typed_fill_window, Hc|]. intros s Hs. by apply (typed_set_sender c s).
Qed.

Lemma typed_ensure_segment c : typed c ->
  typed (match TCPSender._segments_out (_sender c) with [] => c <| _sender := send_empty_segment (_sender c) |> | _ => c end).
Proof. intros Hc. case_match; [|done]. apply (typed_set_sender c); [done|]. apply typed_empty, Hc. Qed.

Lemma typed_set_errors c : typed c -> typed (set_errors c).
Proof. done. Qed.

Lemma typed_rst c : typed c -> typed (send_rst_seg c).
Proof.
  intros Hc. apply typed_ensure_segment in Hc. unfold send_rst_seg. cbv zeta.
  set (c1 := match TCPSender._segments_out (_sender c) with [] => _ | _ => _ end) in *.
  clearbody c1. destruct (TCPSender._segments_out (_sender c1)) as [|seg rest] eqn:E; [done|].
  destruct Hc as [Hs Hq]. destruct (typed_dequeue _ _ _ E Hs) as [Hseg _]. split; [done|].
  apply typed_snoc; [done|]. apply typed_stamp, typed_header; [done|]. by apply ok_set_rst, typed_header_of.
Qed.

Lemma typed_take_ack c seg : typed c -> typed (take_ack c seg).
Proof.
  intros Hc. unfold take_ack. case_bool; [|done].
  assert (typed (c <| _sender := ack_received (_sender c) (TCPHeader.ackno (header seg)) (win (header seg)) |>))
    by (apply typed_set_sender; [done|apply typed_ack_received, Hc]).
  case_bool; [by apply typed_sender_fill|done].
Qed.

Lemma typed_note_ends c : typed c -> typed (note_ends c).
Proof. intros Hc. unfold note_ends. by repeat case_bool. Qed.

Lemma typed_answer c seg : typed c -> typed (answer c seg).
Proof.
  intros Hc. unfold answer. destruct (_ && _); [|done]. apply typed_bind; [case_bool; [by apply typed_sender_fill|done]|].
  intros c1 Hc1. by apply typed_common, typed_ensure_segment.
Qed.

Lemma typed_keep_alive c seg : typed c -> typed (answer_keep_alive c seg).
Proof.
  intros Hc. unfold answer_keep_alive. case_match; [|done]. destruct (_ && _); [|done].
  apply typed_common, (typed_set_sender c); [done|]. apply typed_empty, Hc.
Qed.

Lemma typed_segment_received c seg : typed c -> typed (segment_received c seg).
Proof.
  intros Hc. unfold segment_received. do 2 (case_bool; [done|]).
  destruct (TCPReceiver.segment_received (_receiver c) seg) as [r|]; [|done]. cbn [res_bind].
  apply typed_bind; [by apply (typed_take_ack (c <| _receiver := r |>))|]. intros c1 Hc1.
  apply typed_bind; [by apply typed_answer, typed_note_ends|]. intros c2 Hc2.
  apply typed_bind; [by apply typed_send_all|]. intros c3 Hc3. by apply typed_keep_alive.
Qed.

Lemma typed_tick c ms : typed c -> typed (tick c ms).
Proof.
  intros Hc. unfold tick. destruct (active c); [|done].
  assert (Ht : typed (c <| _sender := TCPSender.tick (_sender c) ms |>))
    by (apply typed_set_sender; [done|apply typed_sender_tick, Hc]).
  set (c1 := c <| _sender := _ |>) in *. clearbody c1.
  apply typed_bind.
  - destruct (time_wait_state c1); case_bool; (done || by apply typed_rst, typed_set_errors).
  - intros c2 Hc2. destruct (active c2); [by apply typed_send_all|done].
Qed.

Lemma typed_with_stream c b : typed c -> typed (c <| _sender := (_sender c) <| _stream := b |> |>).
Proof. done. Qed.

Lemma typed_write c data c' n : typed c -> write c data = Ok (c', n) -> typed c'.
Proof.
  intros Hc. unfold write. destruct (ByteStream.write _ data) as [b m].
  apply (typed_with_stream c b) in Hc. set (c1 := c <| _sender := _ |>) in *. clearbody c1.
  destruct (connection_establish c1); [|by intros [= <- _]].
  pose proof (typed_bind (sender_fill c1) send_all_segs (typed_sender_fill c1 Hc) (fun c => typed_send_all c)) as H.
  destruct (sender_fill c1) as [c2|]; [|done]. cbn [res_bind] in *.
  destruct (send_all_segs c2) as [c3|]; [|done]. by intros [= <- _].
Qed.

Lemma typed_end_input c : typed c -> typed (end_input_stream c).
Proof.
  intros Hc. unfold end_input_stream. apply typed_bind; [by apply typed_sender_fill, typed_with_stream|].
  intros c1. apply typed_send_all.
Qed.

Lemma typed_connect c : typed c -> typed (connect c).
Proof.
  intros Hc. unfold connect. apply typed_bind; [by apply typed_sender_fill|]. intros c1 [Hs Hq].
  destruct (TCPSender._segments_out (_sender c1)) as [|seg rest] eqn:E; [done|].
  destruct (typed_dequeue _ _ _ E Hs) as [Hseg Hs']. split; [done|]. by apply typed_snoc.
Qed.

Lemma typed_destroy c : typed c -> typed (destroy c).
Proof. intros Hc. unfold destroy. destruct (active c); [|done]. by apply typed_rst, typed_set_errors. Qed.

(** ** Runs of a connection *)

(** The reader takes [n] bytes of the inbound stream. *)
Definition read_inbound (c : TCPConnection) (n : Z) : TCPConnection := c <| _receiver := read_out (_receiver c) n |>.

(** The connections that any sequence of calls leads to: the owner writes, reads, ends
    the stream, lets time pass and takes the segments; the peer, or anybody, sends any
    segments. *)
Inductive crun (cfg : TCPConfig) : TCPConnection -> Prop :=
| crun_new random :
    (forall isn, fixed_isn cfg = Some isn -> wi_ok isn) -> 0 <= random < 4294967296 -> crun cfg (new cfg random)
| crun_connect c c' : crun cfg c -> connect c = Ok c' -> crun cfg c'
| crun_segment c seg c' : crun cfg c -> segment_received c seg = Ok c' -> crun cfg c'
| crun_write c data c' n : crun cfg c -> write c data = Ok (c', n) -> crun cfg c'
| crun_end c c' : crun cfg c -> end_input_stream c = Ok c' -> crun cfg c'
| crun_tick c ms c' : crun cfg c -> tick c ms = Ok c' -> crun cfg c'
| crun_read c n : crun cfg c -> crun cfg (read_inbound c n)
| crun_take c : crun cfg c -> crun cfg (take_segments c)
| crun_destroy c c' : crun cfg c -> destroy c = Ok c' -> crun cfg c'.

Lemma typed_ok {A} `{Typed A} (r : res A) a : typed r -> r = Ok a -> typed a.
Proof. by intros Hr ->. Qed.

Lemma crun_typed cfg c : crun cfg c -> typed c.
Proof.
  induction 1 as [random Hi Hr|c c' _ IH E|c seg c' _ IH E|c data c' n _ IH E|c c' _ IH E|c ms c' _ IH E|c n _ IH|c _ IH|c c' _ IH E].
  - split; [by apply typed_new_sender|by constructor].
  - by eapply typed_ok, E; apply typed_connect.
  - by eapply typed_ok, E; apply typed_segment_received.
  - by eapply typed_write.
  - by eapply typed_ok, E; apply typed_end_input.
  - by eapply typed_ok, E; apply typed_tick.
  - done.
  - destruct IH. split; [done|by constructor].
  - by eapply typed_ok, E; apply typed_destroy.
Qed.

(** ** Properties *)

(** C25: on every run of a connection, whatever segments it receives and whatever is
    done with it, each segment it queues is well-typed: all fields of the header fit
    their widths and the payload a datagram.  Serialization of it does not throw, and
    the receiving side parses header and payload back. *)
Theorem connection_well_typed cfg c seg dlc old :
  crun cfg c -> In seg (segments_out c) -> 0 <= dlc <= 1000000 ->
  segment_ok seg /\
  exists bl cksum out, serialize seg dlc = Ok bl /\ parse old (of_string (concatenate bl)) dlc = Ok (NoError, out) /\
    header out = header seg <| TCPHeader.cksum := cksum |> /\ str (payload out) = str (payload seg).
Proof.
  intros Hrun Hin Hd. destruct (crun_typed _ _ Hrun) as [_ Hq].
  assert (Hs : segment_ok seg) by (by eapply Forall_forall in Hq; [|apply list_elem_of_In]).
  split; [done|]. destruct (seg_serialize_parts seg dlc Hs Hd) as (_ & Hb & _).
  destruct (segment_reparsed seg dlc old _ Hs Hd Hb) as (_ & c' & out & ?). eexists _, c', out. by split.
Qed.

(** ** Witnesses *)

Definition typed_cfg : TCPConfig := mkTCPConfig 1000 100 100 None.
Definition dialing : TCPConnection := res_or (connect (new typed_cfg 4294967295)) (new typed_cfg 0).

Lemma connection_well_typed_witness :
  exists seg, In seg (segments_out dialing) /\ segment_ok seg /\ exists bl, serialize seg 0 = Ok bl.
Proof.
  exists (default_segment <| header := default_header <| syn := true |> <| seqno := mkWrappingInt32 4294967295 |> |>).
  assert (Hin : In (default_segment <| header := default_header <| syn := true |> <| seqno := mkWrappingInt32 4294967295 |> |>)
                  (segments_out dialing)) by (left; vm_compute; reflexivity).
  split; [exact Hin|].
  destruct (connection_well_typed typed_cfg dialing _ 0 default_segment
    (crun_connect _ (new typed_cfg 4294967295) dialing
       (crun_new typed_cfg 4294967295 ltac:(discriminate) ltac:(lia)) ltac:(vm_compute; reflexivity)) Hin ltac:(lia)) as [H (bl & c & out & Hb & _)].
  split; [exact H|]. exists bl. exact Hb.
Defined.
