(* ===== verification/Dialog.v ===== *)
(** * Two connections over an unreliable network

    Two whole [TCPConnection]s, their owners and a network that loses, repeats and
    reorders segments, interleaved in any way ([dialog]).  Every dialog is a pair of
    transfers ([Transfer.transfer]), one in each direction: the segments of one side
    carry the data of its sender and the acknowledgments of its receiver.  So what
    holds of a sender and a receiver holds of both directions of the connection. *)

From stdpp Require Import base numbers option list.
From Stdlib Require Import ZArith Lia Strings.Byte.
From S2P Require Import Prelude.
From S2P Require Import ByteStream.
From S2P Require Import StreamReassembler.
From S2P Require Import WrappingIntegers.
From S2P Require Import Buffer.
From S2P Require Import TCPHeader.
From S2P Require Import TCPSegment.
From S2P Require Import TCPConfig.
From S2P Require Import TCPReceiver.
From S2P Require Import TCPSender.
From S2P Require Import Sending.
From S2P Require Import Transfer.
From S2P Require Import TCPConnection.
From S2P Require Import Endpoint.
From S2P Require Import Typing.
#[local] Open Scope Z_scope.

(** ** The system *)

(** One side: its connection, the segments the network was given, what its owner has
    read, what its owner has written and whether the owner ended the stream *)
Record party := mkParty {
  conn : TCPConnection;
  posted : list TCPSegment;
  heard : bytes;
  said : bytes;
  hung_up : bool;
}.
#[global] Instance party_eta : RecordEta party := fun p => mkParty (conn p) (posted p) (heard p) (said p) (hung_up p).

Definition with_conn (p : party) (c : TCPConnection) : party := p <| conn := c |>.

Record config_ok (cfg : TCPConfig) : Prop := {
  co_send : 0 <= send_capacity cfg < 18446744073709551616;
  co_recv : 0 <= recv_capacity cfg < 9223372036854775808;
  co_rto : 0 <= rt_timeout cfg < 65536;
  co_isn : forall isn, fixed_isn cfg = Some isn -> wi_ok isn;
}.

Definition new_party (cfg : TCPConfig) (random : Z) : party := mkParty (new cfg random) [] [] [] false.

(** A segment that [p] may be given now: its payload fits the window of [p], and its
    acknowledgment does not make the sender of [p] send a second FIN. *)
Definition acceptable (p q : party) (seg : TCPSegment) : Prop :=
  fits (TCPSender._isn (_sender (conn q))) (_receiver (conn p)) seg /\
  (ack (header seg) = true ->
    second_fin_risk (ack_received (_sender (conn p)) (TCPHeader.ackno (header seg)) (win (header seg))) = false).

(** The steps are those of the first side; [d_other] makes it the turn of the second.
    The run ends when a side gives up retransmitting. *)
Inductive dialog : party -> party -> Prop :=
| d_start cfg1 cfg2 random1 random2 :
    config_ok cfg1 -> config_ok cfg2 -> 0 <= random1 < 4294967296 -> 0 <= random2 < 4294967296 ->
    dialog (new_party cfg1 random1) (new_party cfg2 random2)
| d_other p q : dialog p q -> dialog q p
| d_connect p q c : dialog p q -> hung_up p = false -> connect (conn p) = Ok c -> dialog (with_conn p c) q
| d_write p q d c n :
    dialog p q -> hung_up p = false -> len (said p) + len d + 2 < 2147483648 -> write (conn p) d = Ok (c, n) ->
    dialog (with_conn p c <| said := said p ++ prefix_str d n |>) q
| d_end p q c :
    dialog p q -> hung_up p = false -> end_input_stream (conn p) = Ok c -> dialog (with_conn p c <| hung_up := true |>) q
| d_tick p q ms c :
    dialog p q -> consecutive_retransmissions (TCPSender.tick (_sender (conn p)) ms) <= MAX_RETX_ATTEMPTS ->
    tick (conn p) ms = Ok c -> dialog (with_conn p c) q
| d_post p q seg rest :
    dialog p q -> segments_out (conn p) = seg :: rest ->
    dialog (with_conn p ((conn p) <| TCPConnection._segments_out := rest |>) <| posted := posted p ++ [seg] |>) q
| d_receive p q seg c :
    dialog p q -> In seg (posted q) -> acceptable p q seg -> segment_received (conn p) seg = Ok c ->
    dialog (with_conn p c) q
| d_read p q n :
    dialog p q -> 0 <= n ->
    dialog (with_conn p (read_inbound (conn p) n) <| heard := heard p ++ ByteStream.peek_output (inbound_stream (conn p)) n |>) q.

(** ** What a network promises *)

(** The part of a segment that belongs to the sender *)
Record same_data (seg0 seg : TCPSegment) : Prop := {
  sd_seqno : seqno (header seg) = seqno (header seg0);
  sd_syn : syn (header seg) = syn (header seg0);
  sd_fin : fin (header seg) = fin (header seg0);
  sd_payload : payload seg = payload seg0;
}.

Lemma same_data_length seg0 seg : same_data seg0 seg -> length_in_sequence_space seg = length_in_sequence_space seg0.
Proof. intros [_ E2 E3 E4]. unfold length_in_sequence_space. by rewrite E2, E3, E4. Qed.

Lemma same_data_received r seg0 seg :
  same_data seg0 seg -> TCPReceiver.segment_received r seg = TCPReceiver.segment_received r seg0.
Proof. intros [E1 E2 E3 E4]. unfold TCPReceiver.segment_received. by rewrite E1, E2, E3, E4. Qed.

Lemma same_data_fits isn r seg0 seg : same_data seg0 seg -> fits isn r seg -> fits isn r seg0.
Proof. intros [E1 _ _ E4]. unfold fits, position. by rewrite E1, E4. Qed.

Lemma same_data_stamp c seg : same_data seg (stamp c seg).
Proof. unfold stamp. by destruct (TCPReceiver.ackno _). Qed.

(** The acknowledgment a segment carries *)
Definition ack_of (seg : TCPSegment) : list (WrappingInt32 * Z) :=
  if ack (header seg) then [(TCPHeader.ackno (header seg), win (header seg))] else [].

(** [way w c s r wire acks got]: one direction, with the sender [s] of one side and the
    receiver [r] of the other, [acks] being the acknowledgments of [r].  [covers l acks]:
    they include those of the segments [l].  [turn l seg]: of the segments [l], [seg]
    may arrive now.  Each call of the sender and the receiver is a step of the way. *)
Class Network (way : bytes -> bool -> TCPSender -> TCPReceiver -> list TCPSegment -> list (WrappingInt32 * Z) -> bytes -> Prop)
    (covers : list TCPSegment -> list (WrappingInt32 * Z) -> Prop) (turn : list TCPSegment -> TCPSegment -> Prop) := {
  net_linked w c s r wr a g : way w c s r wr a g -> exists rcap isn ha, linked_some w c rcap isn (mkLink s r wr ha g);
  net_fill w c s r wr a g s' : way w c s r wr a g -> second_fin_risk s = false -> fill_window s = Ok s' -> way w c s' r wr a g;
  net_tick w c s r wr a g ms : way w c s r wr a g -> way w c (TCPSender.tick s ms) r wr a g;
  net_empty w c s r wr a g : way w c s r wr a g -> way w c (send_empty_segment s) r wr a g;
  net_send w c s r wr a g seg rest :
    way w c s r wr a g -> TCPSender._segments_out s = seg :: rest ->
    way w c (s <| TCPSender._segments_out := rest |>) r (wr ++ [seg]) a g;
  net_write w s r wr a g d :
    way w false s r wr a g -> len w + len d + 2 < 2147483648 ->
    way (w ++ prefix_str d (ByteStream.remaining_capacity (stream_in s))) false
      (s <| _stream := (ByteStream.write (_stream s) d).1 |>) r wr a g;
  net_end w c s r wr a g : way w c s r wr a g -> way w true (s <| _stream := ByteStream.end_input (_stream s) |>) r wr a g;
  net_deliver w c s r wr a g seg r' :
    way w c s r wr a g -> In seg wr -> fits (TCPSender._isn s) r seg -> TCPReceiver.segment_received r seg = Ok r' ->
    way w c s r' wr a g;
  net_read w c s r wr a g k :
    way w c s r wr a g -> 0 <= k -> way w c s (read_out r k) wr a (g ++ ByteStream.peek_output (stream_out r) k);
  net_ack w c s r wr a g x v : way w c s r wr a g -> advertises r x v -> way w c s r wr (a ++ [(x, v)]) g;
  net_acked w c s r wr a g l seg :
    way w c s r wr a g -> covers l a -> turn l seg -> ack (header seg) = true ->
    way w c (ack_received s (TCPHeader.ackno (header seg)) (win (header seg))) r wr a g;
  net_snoc l a seg : covers l a -> covers (l ++ [seg]) (a ++ ack_of seg);
  net_turn l seg : turn l seg -> In seg l;
}.

(** ** Two directions *)

(** A segment on its way carries data of the sender. *)
Record carried (w : list TCPSegment) (seg : TCPSegment) : Prop := {
  ca_rst : rst (header seg) = false;
  ca_data : exists seg0, In seg0 w /\ same_data seg0 seg;
}.

Lemma carried_more w w' seg : carried w seg -> carried (w ++ w') seg.
Proof. intros [Hr (seg0 & Hin & Hs)]. split; [done|exists seg0; split; [apply in_or_app; by left|done]]. Qed.

Definition on_the_way (p : party) : list TCPSegment := posted p ++ segments_out (conn p).

Definition plain_sender : TCPSender -> Prop := sender_typed (good := plain).

Section Simulation.

Context `{Net : Network way covers turn}.

Record sim (p q : party) (w1 : list TCPSegment) (a1 : list (WrappingInt32 * Z)) (w2 : list TCPSegment)
    (a2 : list (WrappingInt32 * Z)) : Prop := {
  sm_out : way (said p) (hung_up p) (_sender (conn p)) (_receiver (conn q)) w1 a1 (heard q);
  sm_in : way (said q) (hung_up q) (_sender (conn q)) (_receiver (conn p)) w2 a2 (heard p);
  sm_plain1 : plain_sender (_sender (conn p));
  sm_plain2 : plain_sender (_sender (conn q));
  sm_queue1 : Forall (carried w1) (on_the_way p) /\ covers (on_the_way p) a2;
  sm_queue2 : Forall (carried w2) (on_the_way q) /\ covers (on_the_way q) a1;
}.

Definition simulated (p q : party) : Prop := exists w1 a1 w2 a2, sim p q w1 a1 w2 a2.

Lemma simulated_other p q : simulated p q -> simulated q p.
Proof. intros (w1 & a1 & w2 & a2 & []). by exists w2, a2, w1, a1. Qed.

(** A change of the sender of [p] that is a step of its way *)
Lemma sim_tx p p' q w1 a1 w2 a2 :
  sim p q w1 a1 w2 a2 -> way (said p') (hung_up p') (_sender (conn p')) (_receiver (conn q)) w1 a1 (heard q) ->
  plain_sender (_sender (conn p')) ->
  _receiver (conn p') = _receiver (conn p) -> heard p' = heard p -> on_the_way p' = on_the_way p -> sim p' q w1 a1 w2 a2.
Proof. intros [] W P Er Eh Eo. split; try done; by rewrite ?Eo, ?Er, ?Eh. Qed.

(** ** The steps of a side *)

Section Side.

Context (p q : party).

Definition fine (c : TCPConnection) : Prop := simulated (with_conn p c) q.

(** Nothing but the timer of the connection changes. *)
Lemma fine_same c c' :
  fine c -> _sender c' = _sender c -> _receiver c' = _receiver c -> TCPConnection._segments_out c' = TCPConnection._segments_out c ->
  fine c'.
Proof.
  intros (w1 & a1 & w2 & a2 & S) E1 E2 E3. exists w1, a1, w2, a2. pose proof S as [W _ P _ _ _].
  eapply (sim_tx _ (with_conn p c')); [exact S| |..]; try done; cbn.
  - by rewrite E1.
  - by rewrite E1.
  - unfold on_the_way, segments_out. cbn. by rewrite E3.
Qed.

Lemma fine_risk c :
  fine c -> hung_up p = false \/ _next_seqno (_sender c) = 0 -> second_fin_risk (_sender c) = false.
Proof.
  intros (w1 & a1 & w2 & a2 & [W _ _ _ _ _]) Hc. destruct (net_linked _ _ _ _ _ _ _ W) as (rcap & isn & ha & n & fins & h & L).
  apply sender_no_risk with (1 := lk_sender _ _ _ _ _ _ _ _ L). destruct Hc as [Hc|Hc]; [left|by right].
  rewrite (proj2 (lk_stream _ _ _ _ _ _ _ _ L)). exact Hc.
Qed.

Lemma fine_fill c c' : fine c -> second_fin_risk (_sender c) = false -> sender_fill c = Ok c' -> fine c'.
Proof.
  intros (w1 & a1 & w2 & a2 & S) Hr (s & Hf & [= <-])%res_bind_ok. exists w1, a1, w2, a2.
  pose proof S as [W _ P _ _ _].
  eapply (sim_tx _ (with_conn p _)); [exact S| |..]; try done.
  - exact (net_fill _ _ _ _ _ _ _ s W Hr Hf).
  - pose proof (typed_fill_window (_sender c) P) as H. rewrite Hf in H. exact H.
Qed.

Lemma fine_empty c : fine c -> fine (c <| _sender := send_empty_segment (_sender c) |>).
Proof.
  intros (w1 & a1 & w2 & a2 & S). exists w1, a1, w2, a2. pose proof S as [W _ P _ _ _].
  eapply (sim_tx _ (with_conn p _)); [exact S| |..]; try done.
  - exact (net_empty _ _ _ _ _ _ _ W).
  - exact (typed_empty _ P).
Qed.

Lemma fine_tick c ms : fine c -> fine (c <| _sender := TCPSender.tick (_sender c) ms |>).
Proof.
  intros (w1 & a1 & w2 & a2 & S). exists w1, a1, w2, a2. pose proof S as [W _ P _ _ _].
  eapply (sim_tx _ (with_conn p _)); [exact S| |..]; try done.
  - exact (net_tick _ _ _ _ _ _ _ ms W).
  - exact (typed_sender_tick _ ms P).
Qed.

(** What the connection makes of a segment of the sender *)
Definition made_of (c : TCPConnection) (seg0 seg : TCPSegment) : Prop :=
  same_data seg0 seg /\ rst (header seg) = rst (header seg0) /\
  (ack (header seg) = true -> ack (header seg0) = true \/ advertises (_receiver c) (TCPHeader.ackno (header seg)) (win (header seg))).

Lemma made_plain c seg : made_of c seg seg.
Proof. split; [done|]. split; [done|]. by left. Qed.

Lemma made_stamp c seg : made_of c seg (stamp c seg).
Proof.
  split; [apply same_data_stamp|]. unfold stamp, advertises. destruct (TCPReceiver.ackno (_receiver c)); [|auto].
  split; [done|]. by right.
Qed.

(** A segment leaves the sender: a step of this direction, and, if it carries an
    acknowledgment, one of the other. *)
Lemma fine_dequeue c seg0 rest seg :
  fine c -> TCPSender._segments_out (_sender c) = seg0 :: rest -> made_of c seg0 seg ->
  fine (c <| _sender := (_sender c) <| TCPSender._segments_out := rest |> |>
          <| TCPConnection._segments_out := TCPConnection._segments_out c ++ [seg] |>).
Proof.
  intros (w1 & a1 & w2 & a2 & S) E (Hd & Hrst & Hack). pose proof S as [W W' P P' [Q1 Q2] Q'].
  destruct (typed_dequeue _ _ _ E P) as [[Ha Hr] P1]. pose proof (net_send _ _ _ _ _ _ _ seg0 rest W E) as W1.
  exists (w1 ++ [seg0]), a1, w2, (a2 ++ ack_of seg). split; try done.
  - unfold ack_of. destruct (ack (header seg)) eqn:Ek; [|by rewrite app_nil_r].
    destruct (Hack eq_refl) as [?|A]; [congruence|]. exact (net_ack _ _ _ _ _ _ _ _ _ W' A).
  - unfold on_the_way, segments_out in *. cbn in *. rewrite app_assoc. split; [|by apply net_snoc].
    apply Forall_app. split; [by eapply Forall_impl; [exact Q1|]; intros; apply carried_more|]. apply Forall_singleton.
    split; [congruence|]. exists seg0. split; [apply in_or_app; right; by left|done].
Qed.

Lemma fine_common c c' : fine c -> send_common_seg c = Ok c' -> fine c'.
Proof.
  intros Hc. unfold send_common_seg. destruct (TCPSender._segments_out (_sender c)) as [|seg rest] eqn:E; [done|].
  intros [= <-]. exact (fine_dequeue c seg rest _ Hc E (made_stamp c seg)).
Qed.

Lemma fine_all c c' : fine c -> send_all_segs c = Ok c' -> fine c'.
Proof.
  unfold send_all_segs. generalize (length (TCPSender._segments_out (_sender c))) as fuel. intros fuel. revert c.
  induction fuel as [|fuel IH]; intros c Hc; cbn [send_all_fuel];
    (destruct (TCPSender._segments_out (_sender c)); [by intros [= <-]|]); [done|].
  intros (c1 & H1 & H2)%res_bind_ok. eapply IH; [|exact H2]. by eapply fine_common.
Qed.

(** ** The calls of the connection *)

Lemma fine_connect c c' : fine c -> hung_up p = false -> connect c = Ok c' -> fine c'.
Proof.
  intros Hc Hh. unfold connect. intros (c1 & Hf & H)%res_bind_ok. revert H.
  apply fine_fill in Hf; [|done|apply fine_risk; [done|by left]].
  destruct (TCPSender._segments_out (_sender c1)) as [|seg rest] eqn:E; [done|]. intros [= <-].
  exact (fine_dequeue c1 seg rest seg Hf E (made_plain c1 seg)).
Qed.

Lemma fine_clock c c' ms :
  fine c -> consecutive_retransmissions (TCPSender.tick (_sender c) ms) <= MAX_RETX_ATTEMPTS -> tick c ms = Ok c' -> fine c'.
Proof.
  intros Hc Hr. unfold tick. destruct (active c); [|by intros [= <-]]. apply (fine_tick c ms) in Hc.
  set (c1 := c <| _sender := _ |>) in *. set (c2 := if time_wait_state c1 then _ else c1).
  assert (E : _sender c2 = _sender c1 /\ _receiver c2 = _receiver c1 /\ TCPConnection._segments_out c2 = TCPConnection._segments_out c1)
    by (unfold c2; by destruct (time_wait_state c1)).
  destruct E as (E1 & E2 & E3). cbv zeta. rewrite E1, (proj2 (Z.ltb_ge _ _)) by done. cbn [res_bind].
  assert (fine c2) by (by eapply fine_same). destruct (active c2); [by apply fine_all|by intros [= <-]].
Qed.

(** The other direction advances: the receiver takes a segment. *)
Lemma sim_rx c seg r w1 a1 w2 a2 :
  sim (with_conn p c) q w1 a1 w2 a2 -> carried w2 seg -> fits (TCPSender._isn (_sender (conn q))) (_receiver c) seg ->
  TCPReceiver.segment_received (_receiver c) seg = Ok r -> sim (with_conn p (c <| _receiver := r |>)) q w1 a1 w2 a2.
Proof.
  intros [S1 S2 S3 S4 S5 S6] [_ (seg0 & Hin & Hd)] Hf Hr. split; try done.
  rewrite (same_data_received _ _ _ Hd) in Hr.
  exact (net_deliver _ _ _ _ _ _ _ seg0 r S2 Hin (same_data_fits _ _ _ _ Hd Hf) Hr).
Qed.

Lemma fine_take_ack c c' seg w1 a1 w2 a2 :
  sim (with_conn p c) q w1 a1 w2 a2 -> turn (on_the_way q) seg ->
  (ack (header seg) = true -> second_fin_risk (ack_received (_sender c) (TCPHeader.ackno (header seg)) (win (header seg))) = false) ->
  take_ack c seg = Ok c' -> fine c'.
Proof.
  intros S Hturn Hr. unfold take_ack. destruct (ack (header seg)) eqn:Ha; [|intros [= <-]; by exists w1, a1, w2, a2].
  set (c1 := c <| _sender := _ |>). assert (F : fine c1).
  { exists w1, a1, w2, a2. pose proof S as [W _ P _ _ [_ Q]]. eapply (sim_tx _ (with_conn p c1)); [exact S| |..]; try done.
    - exact (net_acked _ _ _ _ _ _ _ _ seg W Q Hturn Ha).
    - exact (typed_ack_received _ _ _ P). }
  destruct (negb _); [|by intros [= <-]]. apply fine_fill; [done|by apply Hr].
Qed.

Lemma fine_answer c c' seg : fine c -> answer c seg = Ok c' -> fine c'.
Proof.
  intros Hc. unfold answer. destruct (_ && _); [|by intros [= <-]]. intros (c1 & H1 & H2)%res_bind_ok.
  assert (F1 : fine c1).
  { revert H1. destruct (Z.eqb_spec (next_seqno_absolute (_sender c)) 0) as [E|]; [|by intros [= <-]].
    apply fine_fill; [done|]. apply fine_risk; [done|by right]. }
  eapply fine_common; [|exact H2]. destruct (TCPSender._segments_out (_sender c1)); [by apply fine_empty|done].
Qed.

Lemma fine_keep_alive c c' seg : fine c -> answer_keep_alive c seg = Ok c' -> fine c'.
Proof.
  intros Hc. unfold answer_keep_alive. destruct (TCPReceiver.ackno _); [|by intros [= <-]].
  destruct (_ && _); [|by intros [= <-]]. by apply fine_common, fine_empty.
Qed.

Lemma fine_receive c c' seg :
  fine c -> turn (on_the_way q) seg -> acceptable (with_conn p c) q seg -> segment_received c seg = Ok c' -> fine c'.
Proof.
  intros (w1 & a1 & w2 & a2 & S) Hturn [Hf Hr].
  assert (Hca : carried w2 seg).
  { pose proof (proj1 (sm_queue2 _ _ _ _ _ _ S)) as Q. rewrite List.Forall_forall in Q. by apply Q, net_turn. }
  unfold segment_received. destruct (negb (active c)); [intros [= <-]; by exists w1, a1, w2, a2|].
  rewrite (ca_rst _ _ Hca). intros (r & H1 & H)%res_bind_ok. cbv zeta in H.
  apply (sim_rx c seg r) in S; [|done..]. apply res_bind_ok in H as (c1 & H2 & (c2 & H3 & (c3 & H4 & H5)%res_bind_ok)%res_bind_ok).
  apply (fine_take_ack _ _ _ _ _ _ _ S Hturn Hr) in H2.
  eapply fine_keep_alive; [|exact H5]. eapply fine_all; [|exact H4]. eapply fine_answer; [|exact H3].
  apply (fine_same c1); [done|..]; unfold note_ends; destruct (time_wait_state c1); cbv zeta; by destruct (_ && _).
Qed.

End Side.

(** ** The calls of the owner and the network *)

Lemma write_count b d b' m :
  ByteStream.write b d = (b', m) -> prefix_str d m = prefix_str d (ByteStream.remaining_capacity b).
Proof.
  intros [= _ <-]. unfold prefix_str. set (n := ByteStream.remaining_capacity b).
  destruct (Z.le_gt_cases n (len d)); [by rewrite Z.min_l by lia|]. rewrite Z.min_r by lia.
  rewrite !take_ge; [done|unfold len in *; lia..].
Qed.

(** The owner writes; the sender has more to send. *)
Lemma simulated_write p q d c n :
  simulated p q -> hung_up p = false -> len (said p) + len d + 2 < 2147483648 -> write (conn p) d = Ok (c, n) ->
  simulated (with_conn p c <| said := said p ++ prefix_str d n |>) q.
Proof.
  intros (w1 & a1 & w2 & a2 & S) Hh Hl. unfold write.
  destruct (ByteStream.write (_stream (_sender (conn p))) d) as [b m] eqn:E.
  set (c1 := (conn p) <| _sender := _ |>). set (p1 := p <| said := said p ++ prefix_str d m |>).
  assert (F : fine p1 q c1).
  { exists w1, a1, w2, a2. pose proof S as [W _ P _ _ _].
    eapply (sim_tx _ (with_conn p1 c1)); [exact S| |..]; try done. rewrite Hh in W.
    pose proof (net_write _ _ _ _ _ _ d W Hl) as W1. rewrite E in W1. cbn [fst] in W1. apply write_count in E.
    unfold p1, c1, with_conn. cbn. by rewrite Hh, E. }
  destruct (connection_establish c1).
  - intros (c2 & H2 & (c3 & H3 & [= <- <-])%res_bind_ok)%res_bind_ok.
    apply fine_fill with (1 := F) in H2; [|apply (fine_risk p1 q); [done|by left]].
    exact (fine_all p1 q _ _ H2 H3).
  - intros [= <- <-]. exact F.
Qed.

Lemma simulated_end p q c :
  simulated p q -> hung_up p = false -> end_input_stream (conn p) = Ok c ->
  simulated (with_conn p c <| hung_up := true |>) q.
Proof.
  intros (w1 & a1 & w2 & a2 & S) Hh. unfold end_input_stream. cbv zeta.
  set (c1 := (conn p) <| _sender := _ |>). set (p1 := p <| hung_up := true |>).
  intros (c2 & H2 & H3)%res_bind_ok. pose proof S as [W _ P _ _ _].
  assert (F : fine p1 q c1).
  { exists w1, a1, w2, a2. eapply (sim_tx _ (with_conn p1 c1)); [exact S| |..]; try done. exact (net_end _ _ _ _ _ _ _ W). }
  assert (R : second_fin_risk (_sender c1) = false).
  { change (second_fin_risk (_sender (conn p)) = false). apply (fine_risk p q); [|by left].
    exists w1, a1, w2, a2. by destruct p. }
  exact (fine_all p1 q _ _ (fine_fill _ _ _ _ F R H2) H3).
Qed.

Lemma simulated_post p q seg rest :
  simulated p q -> segments_out (conn p) = seg :: rest ->
  simulated (with_conn p ((conn p) <| TCPConnection._segments_out := rest |>) <| posted := posted p ++ [seg] |>) q.
Proof.
  intros (w1 & a1 & w2 & a2 & []) E. exists w1, a1, w2, a2. split; try done.
  unfold on_the_way in *. rewrite E in sm_queue3. cbn in *. by rewrite <- app_assoc.
Qed.

Lemma simulated_read p q n :
  simulated p q -> 0 <= n ->
  simulated (with_conn p (read_inbound (conn p) n) <| heard := heard p ++ ByteStream.peek_output (inbound_stream (conn p)) n |>) q.
Proof.
  intros (w1 & a1 & w2 & a2 & [S1 W S3 S4 S5 S6]) Hn. exists w1, a1, w2, a2. split; try done.
  exact (net_read _ _ _ _ _ _ _ n W Hn).
Qed.

Lemma fine_self p q : simulated p q -> fine p q (conn p).
Proof. by destruct p. Qed.

(** A segment that is acceptable is processed to its end. *)
Lemma acceptable_returns p q seg :
  simulated p q -> turn (on_the_way q) seg -> acceptable p q seg -> exists c, segment_received (conn p) seg = Ok c.
Proof.
  intros (w1 & a1 & w2 & a2 & [W1 W2 _ _ _ [Q Qc]]) Hturn [Hf Hr]. rewrite List.Forall_forall in Q.
  destruct (Q seg (net_turn _ _ Hturn)) as [Hrst (seg0 & Hin0 & Hd)].
  destruct (net_linked _ _ _ _ _ _ _ W2) as (rcap2 & isn2 & ha2 & L2). pose proof (linked_delivers _ _ _ _ _ L2) as (_ & _ & _ & D).
  destruct L2 as (q2 & f2 & h2 & L2). apply lk_isn in L2. cbn in L2. subst isn2.
  destruct (D seg0 Hin0 (same_data_fits _ _ _ _ Hd Hf)) as [r Hok]. cbn in Hok. rewrite <- (same_data_received _ _ _ Hd) in Hok.
  destruct (net_linked _ _ _ _ _ _ _ W1) as (rcap1 & isn1 & ha1 & q1 & f1 & h1 & L1).
  apply (receive_returns _ seg r q1 f1 Hrst Hok (lk_sender _ _ _ _ _ _ _ _ L1)). intros Ha.
  destruct (net_linked _ _ _ _ _ _ _ (net_acked _ _ _ _ _ _ _ _ seg W1 Qc Hturn Ha)) as (? & ? & ? & q3 & f3 & h3 & L3).
  exists q3, f3. split; [exact (lk_sender _ _ _ _ _ _ _ _ L3)|by apply Hr].
Qed.

End Simulation.

(** ** Dialogs *)

(** Each direction is a transfer; any segment may arrive at any time. *)
Definition transfer_way (w : bytes) (c : bool) (s : TCPSender) (r : TCPReceiver) (wr : list TCPSegment)
    (a : list (WrappingInt32 * Z)) (g : bytes) : Prop :=
  exists cap rto rcap isn, transfer cap rto rcap isn w c (mkLink s r wr a g).
Definition all_acks (l : list TCPSegment) (a : list (WrappingInt32 * Z)) : Prop := forall seg, In seg l -> incl (ack_of seg) a.
Definition any_turn (l : list TCPSegment) (seg : TCPSegment) : Prop := In seg l.

#[global] Instance transfer_network : Network transfer_way all_acks any_turn.
Proof.
  split.
  - intros w c s r wr a g (cap & rto & rcap & isn & T). exists rcap, isn, a. by eapply transfer_linked.
  - intros w c s r wr a g s' (cap & rto & rcap & isn & T) Hr Hf. exists cap, rto, rcap, isn. exact (t_fill _ _ _ _ _ _ _ s' T Hr Hf).
  - intros w c s r wr a g ms (cap & rto & rcap & isn & T). exists cap, rto, rcap, isn. exact (t_tick _ _ _ _ _ _ _ ms T).
  - intros w c s r wr a g (cap & rto & rcap & isn & T). exists cap, rto, rcap, isn. exact (t_empty _ _ _ _ _ _ _ T).
  - intros w c s r wr a g seg rest (cap & rto & rcap & isn & T) E. exists cap, rto, rcap, isn. exact (t_send _ _ _ _ _ _ _ seg rest T E).
  - intros w s r wr a g d (cap & rto & rcap & isn & T) Hl. exists cap, rto, rcap, isn. exact (t_write _ _ _ _ _ _ d T Hl).
  - intros w c s r wr a g (cap & rto & rcap & isn & T). exists cap, rto, rcap, isn. exact (t_end _ _ _ _ _ _ _ T).
  - intros w c s r wr a g seg r' (cap & rto & rcap & isn & T) Hin Hf Hok. exists cap, rto, rcap, isn.
    destruct (transfer_linked _ _ _ _ _ _ _ T) as (q & f & h & L). apply lk_isn in L. cbn in L. subst isn.
    exact (t_deliver _ _ _ _ _ _ _ seg r' T Hin Hf Hok).
  - intros w c s r wr a g k (cap & rto & rcap & isn & T) Hk. exists cap, rto, rcap, isn. exact (t_read _ _ _ _ _ _ _ k T Hk).
  - intros w c s r wr a g x v (cap & rto & rcap & isn & T) A. exists cap, rto, rcap, isn. exact (t_ack _ _ _ _ _ _ _ x v T A).
  - intros w c s r wr a g l seg (cap & rto & rcap & isn & T) Hc Hin Ha. exists cap, rto, rcap, isn.
    refine (t_acked _ _ _ _ _ _ _ _ _ T (Hc seg Hin _ _)). unfold ack_of. rewrite Ha. by left.
  - intros l a seg Hc seg' [Hin|[<-|[]]]%in_app_or; [by apply incl_appl, Hc|apply incl_appr, incl_refl].
  - done.
Qed.

(** Two new connections *)
Lemma simulated_start way covers cfg1 cfg2 random1 random2 :
  (forall cfg cfg' r, config_ok cfg -> config_ok cfg' -> 0 <= r < 4294967296 ->
    way [] false (_sender (new cfg r)) (TCPReceiver.new (recv_capacity cfg')) [] [] []) -> covers [] [] ->
  config_ok cfg1 -> config_ok cfg2 -> 0 <= random1 < 4294967296 -> 0 <= random2 < 4294967296 ->
  simulated (way := way) (covers := covers) (new_party cfg1 random1) (new_party cfg2 random2).
Proof.
  intros W Hcov C1 C2 H1 H2. exists [], [], [], [].
  split; try done; [by apply W|by apply W|apply typed_new_sender; [apply C1|done]|apply typed_new_sender; [apply C2|done]].
Qed.

Lemma transfer_start cfg cfg' r :
  config_ok cfg -> config_ok cfg' -> 0 <= r < 4294967296 ->
  transfer_way [] false (_sender (new cfg r)) (TCPReceiver.new (recv_capacity cfg')) [] [] [].
Proof.
  intros C C' Hr. exists (send_capacity cfg), (rt_timeout cfg), (recv_capacity cfg'), (default (mkWrappingInt32 r) (fixed_isn cfg)).
  apply (t_start (send_capacity cfg) (rt_timeout cfg) (recv_capacity cfg')); [apply C|apply C|apply C'|].
  destruct (fixed_isn cfg) as [i|] eqn:E; [by apply (co_isn _ C)|exact Hr].
Qed.

(** Every dialog is a pair of transfers. *)
Lemma dialog_simulated p q : dialog p q -> simulated (way := transfer_way) (covers := all_acks) p q.
Proof.
  induction 1 as [|p q _ IH|p q c _ IH Hh Hc|p q d c n _ IH Hh Hl Hw|p q c _ IH Hh He|p q ms c _ IH Hr Ht|p q seg rest _ IH Hs
    |p q seg c _ IH Hin Ha Hc|p q n _ IH Hn].
  - apply simulated_start; try done; [apply transfer_start|by intros ? []].
  - by apply simulated_other.
  - apply fine_self in IH. by eapply (fine_connect p q (conn p)).
  - by eapply simulated_write.
  - by apply simulated_end.
  - apply fine_self in IH. by eapply (fine_clock p q (conn p)).
  - by apply simulated_post.
  - apply fine_self in IH. eapply (fine_receive p q (conn p)); [done| | |exact Hc]; [apply in_or_app; by left|by destruct p].
  - by apply simulated_read.
Qed.

(** ** Properties *)

(** C2: two whole connections over a network that loses, repeats and reorders segments,
    whatever their owners write (below 2^31 bytes), read and end and whenever they do,
    until a side gives up retransmitting, and as long as every segment is [acceptable]
    when it is delivered: its payload fits the window of its receiver or lies behind all
    of it, and its acknowledgment does not bring a sender whose FIN is out to a closed
    window, where it would send a second FIN. (Without the first condition the end can
    come early, [stale_ack_truncates_stream].) In both directions: what one owner has read
    and can still read is a prefix of what the other one wrote; the end of input is
    signalled only when the other has ended its stream and all of it is there; when a
    sender has nothing in flight, all that it took has arrived, and its FIN if it was
    sent; and an acceptable segment is processed without exception or endless loop. *)
Theorem dialog_delivers p q :
  dialog p q ->
  let r := inbound_stream (conn q) in
  let s := _sender (conn p) in
  (exists rest, said p = heard q ++ ByteStream._buffer r ++ rest) /\
  (ByteStream.input_ended r = true -> hung_up p = true /\ said p = heard q ++ ByteStream._buffer r) /\
  (TCPSender.bytes_in_flight s = 0 -> get_zero_seg_send s = false ->
    heard q ++ ByteStream._buffer r = prefix_str (said p) (ByteStream.bytes_read (stream_in s)) /\
    (next_seqno_absolute s = len (said p) + 2 -> ByteStream.input_ended r = true)) /\
  (forall seg, In seg (posted p) -> acceptable q p seg -> exists c, segment_received (conn q) seg = Ok c).
Proof.
  intros H%dialog_simulated r s. pose proof H as (w1 & a1 & w2 & a2 & [W _ _ _ _ _]).
  destruct (net_linked _ _ _ _ _ _ _ W) as (rcap & isn & ha & L). destruct (linked_delivers _ _ _ _ _ L) as (D1 & D2 & D3 & _).
  split; [exact D1|]. split; [exact D2|]. split; [exact D3|]. intros seg Hin.
  apply acceptable_returns; [by apply simulated_other|]. apply in_or_app. by left.
Qed.

(** ** Witness *)

(** A client connects and writes three bytes, and the server has received
    them. *)
Definition on_connect (p : party) : party := with_conn p (res_or (connect (conn p)) (conn p)).
Definition on_post (p : party) : party :=
  match segments_out (conn p) with
  | seg :: rest => with_conn p ((conn p) <| TCPConnection._segments_out := rest |>) <| posted := posted p ++ [seg] |>
  | [] => p
  end.
Definition on_receive (p : party) (seg : TCPSegment) : party := with_conn p (res_or (segment_received (conn p) seg) (conn p)).
Definition on_write (p : party) (d : bytes) : party :=
  match write (conn p) d with
  | Ok (c, n) => with_conn p c <| said := said p ++ prefix_str d n |>
  | Throw _ => p
  end.
Definition newest (p : party) : TCPSegment := List.last (posted p) default_segment.

Lemma connect_run p q c : dialog p q -> hung_up p = false -> connect (conn p) = Ok c -> dialog (on_connect p) q.
Proof. intros D H E. unfold on_connect. rewrite E. by apply d_connect. Qed.
Lemma post_run p q seg rest : dialog p q -> segments_out (conn p) = seg :: rest -> dialog (on_post p) q.
Proof. intros D E. unfold on_post. rewrite E. by apply d_post. Qed.
Lemma receive_run p q seg c :
  dialog p q -> In seg (posted q) -> acceptable p q seg -> segment_received (conn p) seg = Ok c -> dialog (on_receive p seg) q.
Proof. intros D H A E. unfold on_receive. rewrite E. by eapply d_receive. Qed.
Lemma write_run p q d c n :
  dialog p q -> hung_up p = false -> len (said p) + len d + 2 < 2147483648 -> write (conn p) d = Ok (c, n) -> dialog (on_write p d) q.
Proof. intros D H L E. unfold on_write. rewrite E. by apply d_write. Qed.

Definition dialog_cfg (isn : Z) : TCPConfig := mkTCPConfig 1000 100 100 (Some (mkWrappingInt32 isn)).
Lemma dialog_cfg_ok isn : 0 <= isn < 4294967296 -> config_ok (dialog_cfg isn).
Proof. intros H. split; try done. by intros ? [= <-]. Qed.

Definition caller0 : party := new_party (dialog_cfg 4294967295) 0.
Definition callee0 : party := new_party (dialog_cfg 7) 0.
Definition caller1 : party := on_post (on_connect caller0).
Definition callee1 : party := on_post (on_receive callee0 (newest caller1)).
Definition caller2 : party := on_receive caller1 (newest callee1).
Definition caller3 : party := on_post (on_post (on_write caller2 [x61; x62; x63])).
Definition callee3 : party := on_receive callee1 (newest caller3).

Lemma dialing_run : dialog caller1 callee0.
Proof.
  eapply post_run; [|vm_compute; reflexivity]. eapply connect_run; [|reflexivity|vm_compute; reflexivity].
  apply d_start; try apply dialog_cfg_ok; lia.
Qed.

Lemma answered_run : dialog callee1 caller1.
Proof.
  eapply post_run; [|vm_compute; reflexivity]. eapply receive_run; [apply d_other, dialing_run|vm_compute; by left| |vm_compute; reflexivity].
  split; [by left|vm_compute; discriminate].
Qed.

Lemma talking_run : dialog caller3 callee1.
Proof.
  eapply post_run; [|vm_compute; reflexivity]. eapply post_run; [|vm_compute; reflexivity].
  eapply write_run; [|reflexivity|vm_compute; reflexivity|vm_compute; reflexivity].
  eapply receive_run; [apply d_other, answered_run|vm_compute; by left| |vm_compute; reflexivity].
  split; [by left|by vm_compute].
Qed.

Lemma heard_run : dialog caller3 callee3.
Proof.
  apply d_other. eapply receive_run; [apply d_other, talking_run|vm_compute; tauto| |vm_compute; reflexivity].
  split; [right; left; vm_compute; discriminate|by vm_compute].
Qed.

Lemma dialog_delivers_witness :
  ByteStream._buffer (inbound_stream (conn callee3)) = [x61; x62; x63] /\
  exists rest, said caller3 = heard callee3 ++ ByteStream._buffer (inbound_stream (conn callee3)) ++ rest.
Proof. split; [vm_compute; reflexivity|]. exact (proj1 (dialog_delivers caller3 callee3 heard_run)). Defined.
