(* ===== verification/Session.v ===== *)
(** * Two connections over a network that keeps order

    Two whole [TCPConnection]s and their owners, as in [Dialog.v], over a network
    that may lose and repeat segments but delivers them in the order they were sent
    ([session]).  Then the acknowledgments of both sides keep their order, each
    direction is a run of [Ordered.ordered], and nothing has to be assumed of the
    segments that arrive: every call of both connections returns. *)

From stdpp Require Import base numbers option list.
From Stdlib Require Import ZArith Lia Strings.Byte.
From S2P Require Import Prelude.
From S2P Require Import ByteStream.
From S2P Require Import StreamReassembler.
From S2P Require Import WrappingIntegers.
From S2P Require Import Buffer.
From S2P Require Import TCPHeader.
From S2P Require Import TCPSegment.
From S2P Require Import TCPConfig.
From S2P Require Import TCPReceiver.
From S2P Require Import TCPSender.
From S2P Require Import Sending.
From S2P Require Import Transfer.
From S2P Require Import Ordered.
From S2P Require Import TCPConnection.
From S2P Require Import Endpoint.
From S2P Require Import Typing.
From S2P Require Import Dialog.
#[local] Open Scope Z_scope.

(** ** The system *)

(** [posted p] are the segments of [p] on their way, oldest first: the first one may
    arrive, as often as the network likes, and any of them may be dropped.  The run
    ends when a side gives up retransmitting. *)
Inductive session : party -> party -> Prop :=
| s_start cfg1 cfg2 random1 random2 :
    config_ok cfg1 -> config_ok cfg2 -> recv_capacity cfg1 < 65536 -> recv_capacity cfg2 < 65536 ->
    0 <= random1 < 4294967296 -> 0 <= random2 < 4294967296 ->
    session (new_party cfg1 random1) (new_party cfg2 random2)
| s_other p q : session p q -> session q p
| s_connect p q c : session p q -> hung_up p = false -> connect (conn p) = Ok c -> session (with_conn p c) q
| s_write p q d c n :
    session p q -> hung_up p = false -> len (said p) + len d + 2 < 2147483648 -> write (conn p) d = Ok (c, n) ->
    session (with_conn p c <| said := said p ++ prefix_str d n |>) q
| s_end p q c :
    session p q -> hung_up p = false -> end_input_stream (conn p) = Ok c -> session (with_conn p c <| hung_up := true |>) q
| s_tick p q ms c :
    session p q -> consecutive_retransmissions (TCPSender.tick (_sender (conn p)) ms) <= MAX_RETX_ATTEMPTS ->
    tick (conn p) ms = Ok c -> session (with_conn p c) q
| s_post p q seg rest :
    session p q -> segments_out (conn p) = seg :: rest ->
    session (with_conn p ((conn p) <| TCPConnection._segments_out := rest |>) <| posted := posted p ++ [seg] |>) q
| s_receive p q seg rest c :
    session p q -> posted q = seg :: rest -> segment_received (conn p) seg = Ok c -> session (with_conn p c) q
| s_drop p q before seg after :
    session p q -> posted p = before ++ seg :: after -> session (p <| posted := before ++ after |>) q
| s_read p q n :
    session p q -> 0 <= n ->
    session (with_conn p (read_inbound (conn p) n) <| heard := heard p ++ ByteStream.peek_output (inbound_stream (conn p)) n |>) q.

(** ** A direction is a run with ordered acknowledgments *)

Definition ordered_way (w : bytes) (c : bool) (s : TCPSender) (r : TCPReceiver) (wr : list TCPSegment)
    (a : list (WrappingInt32 * Z)) (g : bytes) : Prop :=
  exists cap rto rcap isn ha, ordered cap rto rcap isn w c (mkLink s r wr ha g) a.
Definition acks_of (l : list TCPSegment) : list (WrappingInt32 * Z) := List.concat (map ack_of l).
Definition same_acks (l : list TCPSegment) (a : list (WrappingInt32 * Z)) : Prop := a = acks_of l.
Definition first_turn (l : list TCPSegment) (seg : TCPSegment) : Prop := exists rest, l = seg :: rest.

Lemma acks_of_app l1 l2 : acks_of (l1 ++ l2) = acks_of l1 ++ acks_of l2.
Proof. unfold acks_of. by rewrite map_app, concat_app. Qed.

#[global] Instance ordered_network : Network ordered_way same_acks first_turn.
Proof.
  split.
  - intros w c s r wr a g (cap & rto & rcap & isn & ha & O). exists rcap, isn, ha.
    destruct (ordered_in_order _ _ _ _ _ _ _ _ O) as (_ & T & _). by eapply transfer_linked.
  - intros w c s r wr a g s' (cap & rto & rcap & isn & ha & O) _ Hf. exists cap, rto, rcap, isn, ha. exact (o_fill _ _ _ _ _ _ _ _ s' O Hf).
  - intros w c s r wr a g ms (cap & rto & rcap & isn & ha & O). exists cap, rto, rcap, isn, ha. exact (o_tick _ _ _ _ _ _ _ _ ms O).
  - intros w c s r wr a g (cap & rto & rcap & isn & ha & O). exists cap, rto, rcap, isn, ha. exact (o_empty _ _ _ _ _ _ _ _ O).
  - intros w c s r wr a g seg rest (cap & rto & rcap & isn & ha & O) E. exists cap, rto, rcap, isn, ha. exact (o_send _ _ _ _ _ _ _ _ seg rest O E).
  - intros w s r wr a g d (cap & rto & rcap & isn & ha & O) Hl. exists cap, rto, rcap, isn, ha. exact (o_write _ _ _ _ _ _ _ d O Hl).
  - intros w c s r wr a g (cap & rto & rcap & isn & ha & O). exists cap, rto, rcap, isn, ha. exact (o_end _ _ _ _ _ _ _ _ O).
  - intros w c s r wr a g seg r' (cap & rto & rcap & isn & ha & O) Hin _ Hok. exists cap, rto, rcap, isn, ha.
    exact (o_deliver _ _ _ _ _ _ _ _ seg r' O Hin Hok).
  - intros w c s r wr a g k (cap & rto & rcap & isn & ha & O) Hk. exists cap, rto, rcap, isn, ha. exact (o_read _ _ _ _ _ _ _ _ k O Hk).
  - intros w c s r wr a g x v (cap & rto & rcap & isn & ha & O) A. exists cap, rto, rcap, isn, (ha ++ [(x, v)]).
    exact (o_ack _ _ _ _ _ _ _ _ x v O A).
  - intros w c s r wr a g l seg (cap & rto & rcap & isn & ha & O) -> [rest ->] Ha. exists cap, rto, rcap, isn, ha.
    unfold acks_of in *. cbn [map List.concat] in *. unfold ack_of in * at 1. rewrite Ha in *. exact (o_acked _ _ _ _ _ _ _ _ _ _ O).
  - intros l a seg ->. unfold same_acks. rewrite acks_of_app. unfold acks_of at 3. cbn [map List.concat]. by rewrite app_nil_r.
  - intros l seg [rest ->]. by left.
Qed.

Definition in_session : party -> party -> Prop := simulated (way := ordered_way) (covers := same_acks).

(** ** What arrives is acceptable *)

Lemma same_data_sym seg0 seg : same_data seg0 seg -> same_data seg seg0.
Proof. intros []. by split. Qed.

Lemma ordered_way_risk w c s r wr a g : ordered_way w c s r wr a g -> second_fin_risk s = false.
Proof.
  intros (cap & rto & rcap & isn & ha & O). destruct (ordered_in_order _ _ _ _ _ _ _ _ O) as (_ & T & b & xs & I).
  exact (in_order_no_risk _ _ _ _ _ _ _ _ _ _ T I).
Qed.

Lemma ordered_way_fits w c s r wr a g seg : ordered_way w c s r wr a g -> In seg wr -> fits (TCPSender._isn s) r seg.
Proof.
  intros (cap & rto & rcap & isn & ha & O) Hin. destruct (ordered_in_order _ _ _ _ _ _ _ _ O) as (_ & T & b & xs & I).
  destruct (transfer_linked _ _ _ _ _ _ _ T) as (q & f & h & L). apply lk_isn in L. cbn in L. subst isn.
  exact (in_order_fits _ _ _ _ _ _ _ _ _ _ T I seg Hin).
Qed.

Lemma session_acceptable p q seg : in_session p q -> first_turn (on_the_way q) seg -> acceptable p q seg.
Proof.
  intros (w1 & a1 & w2 & a2 & [W1 W2 _ _ _ [Q Qc]]) Hturn. split.
  - rewrite List.Forall_forall in Q. destruct (Q seg (net_turn _ _ Hturn)) as [_ (seg0 & Hin & Hd)].
    apply (same_data_fits _ _ seg seg0); [by apply same_data_sym|]. by eapply ordered_way_fits.
  - intros Ha. eapply ordered_way_risk. exact (net_acked _ _ _ _ _ _ _ _ seg W1 Qc Hturn Ha).
Qed.

(** A segment is dropped, and its acknowledgment with it. *)
Lemma ordered_drop cap rto rcap isn w c n l1 seg l2 :
  ordered cap rto rcap isn w c n (acks_of (l1 ++ seg :: l2)) -> ordered cap rto rcap isn w c n (acks_of (l1 ++ l2)).
Proof.
  change (seg :: l2) with ([seg] ++ l2). rewrite !acks_of_app. unfold acks_of at 2. cbn [map List.concat]. unfold ack_of.
  destruct (ack (header seg)); [|done]. apply o_lost.
Qed.

Lemma session_drop p q before seg after :
  in_session p q -> posted p = before ++ seg :: after -> in_session (p <| posted := before ++ after |>) q.
Proof.
  intros (w1 & a1 & w2 & a2 & [W1 W2 P1 P2 [Q Qc] Q2]) E. set (p' := p <| posted := _ |>).
  assert (E1 : on_the_way p = before ++ seg :: (after ++ segments_out (conn p))).
  { unfold on_the_way. by rewrite E, <- app_assoc. }
  assert (E2 : on_the_way p' = before ++ (after ++ segments_out (conn p))).
  { unfold on_the_way. cbn. by rewrite <- app_assoc. }
  exists w1, a1, w2, (acks_of (on_the_way p')). split; try done.
  - destruct W2 as (cap & rto & rcap & isn & ha & O). exists cap, rto, rcap, isn, ha. rewrite Qc, E1 in O. rewrite E2. by eapply ordered_drop.
  - split; [|done]. rewrite E1, Forall_app, Forall_cons in Q. rewrite E2, Forall_app. tauto.
Qed.

Lemma session_start cfg cfg' r :
  config_ok cfg -> config_ok cfg' -> recv_capacity cfg' < 65536 -> 0 <= r < 4294967296 ->
  ordered_way [] false (_sender (new cfg r)) (TCPReceiver.new (recv_capacity cfg')) [] [] [].
Proof.
  intros C C' Hc Hr. exists (send_capacity cfg), (rt_timeout cfg), (recv_capacity cfg'), (default (mkWrappingInt32 r) (fixed_isn cfg)), [].
  apply (o_start (send_capacity cfg) (rt_timeout cfg) (recv_capacity cfg')); [apply C|apply C|pose proof (co_recv _ C'); lia|].
  destruct (fixed_isn cfg) as [i|] eqn:E; [by apply (co_isn _ C)|exact Hr].
Qed.

Lemma session_simulated p q : session p q -> in_session p q.
Proof.
  induction 1 as [cfg1 cfg2 r1 r2 C1 C2 K1 K2 H1 H2|p q _ IH|p q c _ IH Hh Hc|p q d c n _ IH Hh Hl Hw|p q c _ IH Hh He|p q ms c _ IH Hr Ht
    |p q seg rest _ IH Hs|p q seg rest c _ IH Hp Hc|p q before seg after _ IH Hp|p q n _ IH Hn].
  - exists [], [], [], []. split; try done; [by apply session_start|by apply session_start|apply typed_new_sender; [apply C1|done]|
      apply typed_new_sender; [apply C2|done]].
  - by apply simulated_other.
  - apply fine_self in IH. by eapply (fine_connect p q (conn p)).
  - by eapply simulated_write.
  - by apply simulated_end.
  - apply fine_self in IH. by eapply (fine_clock p q (conn p)).
  - by apply simulated_post.
  - assert (Hturn : first_turn (on_the_way q) seg) by (unfold on_the_way; rewrite Hp; by eexists).
    pose proof (session_acceptable p q seg IH Hturn) as Ha. apply fine_self in IH.
    eapply (fine_receive p q (conn p)); [done|exact Hturn| |exact Hc]. by destruct p.
  - by eapply session_drop.
  - by apply simulated_read.
Qed.

(** ** Every call returns *)

Lemma way_fill_returns w c s r wr a g : ordered_way w c s r wr a g -> exists s', fill_window s = Ok s'.
Proof.
  intros W. destruct (net_linked _ _ _ _ _ _ _ W) as (rcap & isn & ha & q & f & h & L).
  destruct (fill_returns q f s (lk_sender _ _ _ _ _ _ _ _ L) (ordered_way_risk _ _ _ _ _ _ _ W)) as (_ & _ & s' & Hf & _). by exists s'.
Qed.

Lemma session_write_returns p q d :
  in_session p q -> hung_up p = false -> len (said p) + len d + 2 < 2147483648 -> exists c n, write (conn p) d = Ok (c, n).
Proof.
  intros (w1 & a1 & w2 & a2 & [W _ _ _ _ _]) Hh Hl. rewrite Hh in W. apply (net_write _ _ _ _ _ _ d) in W; [|done].
  unfold write. destruct (ByteStream.write (_stream (_sender (conn p))) d) as [b n] eqn:E. cbn [fst] in W.
  destruct (connection_establish _); [|by do 2 eexists]. destruct (way_fill_returns _ _ _ _ _ _ _ W) as [s' Hf].
  unfold sender_fill. change (_sender (conn p <| _sender := ?s |>)) with s. rewrite Hf. cbn [res_bind].
  destruct (send_all_spec (conn p <| _sender := (_sender (conn p)) <| _stream := b |> |> <| _sender := s' |>)) as (c' & -> & _). by do 2 eexists.
Qed.

Lemma session_end_returns p q : in_session p q -> exists c, end_input_stream (conn p) = Ok c.
Proof.
  intros (w1 & a1 & w2 & a2 & [W _ _ _ _ _]). apply net_end in W. unfold end_input_stream. cbv zeta.
  destruct (way_fill_returns _ _ _ _ _ _ _ W) as [s' Hf]. unfold sender_fill. change (_sender (conn p <| _sender := ?s |>)) with s.
  rewrite Hf. cbn [res_bind]. set (c := _ <| _sender := s' |>). destruct (send_all_spec c) as (c' & -> & _). by eexists.
Qed.

Lemma tick_returns c ms : exists c', tick c ms = Ok c'.
Proof.
  unfold tick. destruct (active c); [|by eexists]. cbv zeta. set (c2 := if time_wait_state _ then _ else _).
  assert (H : exists c3, (if MAX_RETX_ATTEMPTS <? consecutive_retransmissions (_sender c2) then send_rst_seg (set_errors c2) else Ok c2) = Ok c3).
  { destruct (_ <? _); [|by eexists]. destruct (send_rst_spec (set_errors c2)) as (_ & c3 & H & _). by exists c3. }
  destruct H as [c3 ->]. cbn [res_bind]. destruct (active c3); [|by eexists].
  destruct (send_all_spec c3) as (c4 & -> & _). by eexists.
Qed.

Lemma session_receive_returns p q seg rest :
  in_session p q -> posted q = seg :: rest -> exists c, segment_received (conn p) seg = Ok c.
Proof.
  intros S E. assert (Hturn : first_turn (on_the_way q) seg) by (unfold on_the_way; rewrite E; by eexists).
  apply (acceptable_returns p q seg S Hturn). by apply session_acceptable.
Qed.

(** C3: two whole connections with receive capacities below 65536, so that windows fit the
    16 bits of the header, and streams below 2^31 bytes, over a network that may lose and
    repeat segments but keeps their order, until a side gives up retransmitting. In both
    directions what one owner has read and can still read is a prefix of what the other
    wrote, the end is signalled only behind all of it, and what is no longer in flight has
    arrived. And, with no condition on the segments, every call returns: the next segment
    is processed, the owner's writes and the end of its stream are taken, the timers
    advance, and no second FIN can be sent. *)
Theorem session_delivers p q :
  session p q ->
  let r := inbound_stream (conn q) in
  let s := _sender (conn p) in
  (exists rest, said p = heard q ++ ByteStream._buffer r ++ rest) /\
  (ByteStream.input_ended r = true -> hung_up p = true /\ said p = heard q ++ ByteStream._buffer r) /\
  (TCPSender.bytes_in_flight s = 0 -> get_zero_seg_send s = false ->
    heard q ++ ByteStream._buffer r = prefix_str (said p) (ByteStream.bytes_read (stream_in s)) /\
    (next_seqno_absolute s = len (said p) + 2 -> ByteStream.input_ended r = true)) /\
  (forall seg rest, posted p = seg :: rest -> exists c, segment_received (conn q) seg = Ok c) /\
  (forall d, hung_up p = false -> len (said p) + len d + 2 < 2147483648 -> exists c n, write (conn p) d = Ok (c, n)) /\
  (exists c, end_input_stream (conn p) = Ok c) /\ (forall ms, exists c, tick (conn p) ms = Ok c) /\
  second_fin_risk s = false.
Proof.
  intros H%session_simulated r s. pose proof H as (w1 & a1 & w2 & a2 & [W _ _ _ _ _]).
  destruct (net_linked _ _ _ _ _ _ _ W) as (rcap & isn & ha & L). destruct (linked_delivers _ _ _ _ _ L) as (D1 & D2 & D3 & _).
  split; [exact D1|]. split; [exact D2|]. split; [exact D3|]. split_and!.
  - intros seg rest. apply session_receive_returns. by apply simulated_other.
  - intros d. by eapply session_write_returns.
  - by eapply session_end_returns.
  - intros ms. apply tick_returns.
  - exact (ordered_way_risk _ _ _ _ _ _ _ W).
Qed.

(** ** Witness *)

(** The first segments of [Dialog]'s caller and callee, in order and not dropped *)
Lemma session_connect p q c : session p q -> hung_up p = false -> connect (conn p) = Ok c -> session (on_connect p) q.
Proof. intros D H E. unfold on_connect. rewrite E. by apply s_connect. Qed.
Lemma session_post p q seg rest : session p q -> segments_out (conn p) = seg :: rest -> session (on_post p) q.
Proof. intros D E. unfold on_post. rewrite E. by apply s_post. Qed.
Lemma session_receive p q seg rest c :
  session p q -> posted q = seg :: rest -> segment_received (conn p) seg = Ok c -> session (on_receive p seg) q.
Proof. intros D H E. unfold on_receive. rewrite E. by eapply s_receive. Qed.

Lemma call_run : session callee1 caller1.
Proof.
  eapply session_post; [|vm_compute; reflexivity]. eapply session_receive; [|vm_compute; reflexivity..]. apply s_other.
  eapply session_post; [|vm_compute; reflexivity]. eapply session_connect; [|reflexivity|vm_compute; reflexivity].
  apply s_start; try apply dialog_cfg_ok; by vm_compute.
Qed.

Lemma session_delivers_witness : exists c, segment_received (conn caller1) (newest callee1) = Ok c.
Proof.
  destruct (session_delivers callee1 caller1 call_run) as (_ & _ & _ & H & _). apply (H _ []). vm_compute. reflexivity.
Defined.
