(* ===== verification/Benchmark.v ===== *)
(** * tcp_benchmark: two connections joined in memory

    apps/tcp_benchmark.cc.  [main_loop] sends a string from one connection to another
    in the same process, each pass of its loop exchanging all queued segments, and
    throws when what arrives is not what was sent.  The string and the initial sequence
    numbers, both random, are arguments; the clock and the printed throughput are left
    out. *)

From stdpp Require Import base list numbers option.
From Stdlib Require Import ZArith Lia Strings.Byte.
From S2P Require Import Prelude.
From S2P Require Import ByteStream.
From S2P Require Import StreamReassembler.
From S2P Require Import Buffer.
From S2P Require Import TCPSegment.
From S2P Require Import TCPConfig.
From S2P Require Import TCPReceiver.
From S2P Require Import TCPSender.
From S2P Require Import TCPConnection.
From S2P Require Import Typing.
#[local] Open Scope Z_scope.

(** ** The program *)

Fixpoint receive_all (y : TCPConnection) (segments : list TCPSegment) : res TCPConnection :=
  match segments with
  | [] => Ok y
  | seg :: rest => let* y := segment_received y seg in receive_all y rest
  end.

(** All segments of [x] go to [y]; [segments] is empty before and after. *)
Definition move_segments (x y : TCPConnection) (segments : list TCPSegment) (reorder : bool) : res (TCPConnection * TCPConnection) :=
  let segments := segments ++ segments_out x in
  let x := x <| _segments_out := [] |> in
  let* y := receive_all y (if reorder then rev segments else segments) in
  Ok (x, y).

(** The variables of [main_loop] *)
Record Bench := mkBench {
  x : TCPConnection;
  y : TCPConnection;
  bytes_to_send : Buffer;
  x_closed : bool;
  string_received : bytes;
}.
#[global] Instance Bench_eta : RecordEta Bench := fun b =>
  mkBench (x b) (y b) (bytes_to_send b) (x_closed b) (string_received b).

(** The inner [while]: an iteration writes at least one byte. *)
Fixpoint write_input (fuel : nat) (b : Bench) : res Bench :=
  if negb (size (bytes_to_send b) =? 0) && negb (remaining_outbound_capacity (x b) =? 0) then
    match fuel with
    | O => Throw NoFuel
    | S fuel' =>
        let want := Z.min (remaining_outbound_capacity (x b)) (size (bytes_to_send b)) in
        let* (x', written) := write (x b) (prefix_str (str (bytes_to_send b)) want) in
        if negb (want =? written) then Throw runtime_error
        else
          let* rest := remove_prefix (bytes_to_send b) written in
          write_input fuel' (b <| x := x' |> <| bytes_to_send := rest |>)
    end
  else Ok b.

Definition close_x (b : Bench) : res Bench :=
  if (size (bytes_to_send b) =? 0) && negb (x_closed b) then
    let* x' := end_input_stream (x b) in
    Ok (b <| x := x' |> <| x_closed := true |>)
  else Ok b.

Definition read_output (b : Bench) : Bench :=
  let available_output := ByteStream.buffer_size (inbound_stream (y b)) in
  if 0 <? available_output then
    let d := ByteStream.peek_output (inbound_stream (y b)) available_output in
    b <| y := read_inbound (y b) available_output |> <| string_received := string_received b ++ d |>
  else b.

(** One call of [loop] *)
Definition loop (reorder : bool) (b : Bench) : res Bench :=
  let* b := write_input (length (str (bytes_to_send b))) b in
  let* b := close_x b in
  let* (x', y') := move_segments (x b) (y b) [] reorder in
  let* (y', x') := move_segments y' x' [] false in
  let b := read_output (b <| x := x' |> <| y := y' |>) in
  let* x' := tick (x b) 1000 in
  let* y' := tick (y b) 1000 in
  Ok (b <| x := x' |> <| y := y' |>).

Fixpoint loop_while (passes : nat) (test : Bench -> bool) (reorder : bool) (b : Bench) : res Bench :=
  if test b then
    match passes with
    | O => Throw NoFuel
    | S passes' => let* b := loop reorder b in loop_while passes' test reorder b
    end
  else Ok b.

Definition start (string_to_send : bytes) (random1 random2 : Z) : res Bench :=
  let* x := connect (new default_config random1) in
  let* y := end_input_stream (new default_config random2) in
  Ok (mkBench x y (of_string string_to_send) false []).

Definition not_received (b : Bench) : bool := negb (ByteStream.eof (inbound_stream (y b))).
Definition still_active (b : Bench) : bool := active (x b) || active (y b).

(** At most [passes] passes of each of the two loops *)
Definition main_loop (passes : nat) (string_to_send : bytes) (random1 random2 : Z) (reorder : bool) : res Bench :=
  let* b := start string_to_send random1 random2 in
  let* b := loop_while passes not_received reorder b in
  if bool_decide (string_received b <> string_to_send) then Throw runtime_error
  else loop_while passes still_active reorder b.

Definition main (passes : nat) (string1 string2 : bytes) (randoms1 randoms2 : Z * Z) : Z :=
  match (let* _ := main_loop passes string1 randoms1.1 randoms1.2 false in
         main_loop passes string2 randoms2.1 randoms2.2 true) with
  | Ok _ => 0
  | Throw _ => 1
  end.

(** ** A run *)

(** Both connections are closed and the string has arrived. *)
Definition transferred (string_to_send : bytes) (o : res Bench) : bool :=
  match o with
  | Ok b => bool_decide (string_received b = string_to_send) && negb (still_active b)
  | Throw _ => false
  end.

Definition demo_string (n : nat) : bytes := List.concat (List.repeat [x61; x62; x63; x64; x65; x66; x67] n).

(** 7000 bytes, seven segments, with sequence numbers that wrap around: the program
    ends in order and reordered, and exits with 0. *)
Example benchmark_run :
  transferred (demo_string 1000) (main_loop 20 (demo_string 1000) 4294967290 5 false) = true /\
  transferred (demo_string 1000) (main_loop 20 (demo_string 1000) 4294967290 5 true) = true /\
  main 20 (demo_string 3) [] (5, 4294967295) (0, 1) = 0.
Proof. split_and!; vm_compute; reflexivity. Qed.
