(* ===== verification/BenchmarkRun.v ===== *)
(** * tcp_benchmark: runs in order

    The passes of [Benchmark.loop] without reordering are sessions ([Session.session]):
    what one connection queues the other receives, in order and once.  So every call
    of the loop returns and what is received is at any time a prefix of the string. *)

From stdpp Require Import base numbers option list.
From Stdlib Require Import ZArith Lia Strings.Byte.
From S2P Require Import Prelude.
From S2P Require Import ByteStream.
From S2P Require Import StreamReassembler.
From S2P Require Import WrappingIntegers.
From S2P Require Import Buffer.
From S2P Require Import TCPSegment.
From S2P Require Import TCPConfig.
From S2P Require Import TCPReceiver.
From S2P Require Import TCPSender.
From S2P Require Import TCPConnection.
From S2P Require Import Endpoint.
From S2P Require Import Typing.
From S2P Require Import Dialog.
From S2P Require Import Session.
From S2P Require Import Benchmark.
#[local] Open Scope Z_scope.

(** ** States of the program *)

(** The string is what has been written and what is left of it; all that was queued
    has arrived. *)
Record running (s : bytes) (b : Bench) (p q : party) : Prop := {
  rn_session : session p q;
  rn_x : conn p = x b;
  rn_y : conn q = y b;
  rn_posted : posted p = [] /\ posted q = [];
  rn_said : s = said p ++ str (bytes_to_send b);
  rn_left : buf_wf (bytes_to_send b);
  rn_closed : hung_up p = x_closed b /\ (x_closed b = true -> str (bytes_to_send b) = []);
  rn_heard : heard q = string_received b;
  rn_len : len s + 2 < 2147483648;
}.

Definition in_progress (s : bytes) (b : Bench) : Prop := exists p q, running s b p q.

(** ** The steps of a pass *)

(** The queue of one side goes to the other. *)
Lemma session_move p q :
  session p q -> posted p = [] ->
  exists c, receive_all (conn q) (segments_out (conn p)) = Ok c /\
    session (with_conn p ((conn p) <| TCPConnection._segments_out := [] |>)) (with_conn q c).
Proof.
  intros S E. remember (segments_out (conn p)) as l eqn:El. revert p q S E El.
  induction l as [|seg l IH]; intros p q S E El; cbn [receive_all].
  - exists (conn q). split; [done|]. destruct p as [c0 ? ? ? ?], q, c0. unfold segments_out in El. cbn in *. subst. exact S.
  - pose proof (s_post p q seg l S (eq_sym El)) as S1. set (p1 := with_conn p _ <| posted := _ |>) in *.
    assert (Ep : posted p1 = [seg]) by (unfold p1; cbn; by rewrite E).
    destruct (session_receive_returns q p1 seg [] (session_simulated _ _ (s_other _ _ S1)) Ep) as [c Hc]. rewrite Hc. cbn [res_bind].
    pose proof (s_other _ _ (s_receive q p1 seg [] c (s_other _ _ S1) Ep Hc)) as S2.
    pose proof (s_drop p1 (with_conn q c) [] seg [] S2 Ep) as S3.
    destruct (IH (p1 <| posted := [] |>) (with_conn q c) S3 eq_refl eq_refl) as (c' & Hr & S4). exists c'. split; [exact Hr|].
    destruct p, q. cbn in *. subst. exact S4.
Qed.

Lemma move_runs p q :
  session p q -> posted p = [] ->
  exists c, move_segments (conn p) (conn q) [] false = Ok ((conn p) <| TCPConnection._segments_out := [] |>, c) /\
    session (with_conn p ((conn p) <| TCPConnection._segments_out := [] |>)) (with_conn q c).
Proof.
  intros S E. destruct (session_move p q S E) as (c & Hr & S'). exists c. split; [|done].
  unfold move_segments. cbn [app]. by rewrite Hr.
Qed.

Lemma write_runs s b p q :
  running s b p q -> 0 < size (bytes_to_send b) -> remaining_outbound_capacity (x b) <> 0 ->
  let want := Z.min (remaining_outbound_capacity (x b)) (size (bytes_to_send b)) in
  1 <= want /\ exists x' rest, write (x b) (prefix_str (str (bytes_to_send b)) want) = Ok (x', want) /\
    remove_prefix (bytes_to_send b) want = Ok rest /\ size rest = size (bytes_to_send b) - want /\
    in_progress s (b <| x := x' |> <| bytes_to_send := rest |>).
Proof.
  intros [R1 R2 R3 [R4 R4'] R5 R6 [R7 R7'] R8 R9] Hs Hc want. set (d := prefix_str (str (bytes_to_send b)) want).
  assert (Hcap : 0 <= remaining_outbound_capacity (x b)) by apply u64_range.
  assert (Hw : 1 <= want) by lia. split; [done|].
  assert (Hd : len d = want). { unfold d, prefix_str. rewrite len_take. unfold size in *. lia. }
  assert (Hh : hung_up p = false).
  { rewrite R7. destruct (x_closed b); [|done]. unfold size in Hs. rewrite R7' in Hs by done. by change (len []) with 0 in Hs. }
  pose proof (len_nonneg (said p)). assert (Hl : len (said p) + len d + 2 < 2147483648).
  { rewrite R5, len_app in R9. unfold size in *. lia. }
  destruct (session_write_returns p q d (session_simulated _ _ R1) Hh Hl) as (x' & n & Hx). rewrite R2 in Hx.
  assert (n = want) as ->.
  { unfold write in Hx. destruct (ByteStream.write (_stream (_sender (x b))) d) as [st m] eqn:E. injection E as _ E2.
    change (ByteStream.remaining_capacity (_stream (_sender (x b)))) with (remaining_outbound_capacity (x b)) in E2.
    assert (m = want) as -> by lia. destruct (connection_establish _); [|by injection Hx].
    apply res_bind_ok in Hx as (c2 & _ & (c3 & _ & Hx)%res_bind_ok). by injection Hx. }
  destruct (remove_prefix_ok (bytes_to_send b) want R6 ltac:(lia)) as (rest & Hr & Hstr & Hwf).
  exists x', rest. split; [done|]. split; [done|]. split; [unfold size in *; rewrite Hstr, len_drop; lia|].
  exists (with_conn p x' <| said := said p ++ prefix_str d want |>), q. rewrite <- R2 in Hx.
  split; try done; [by apply s_write| |].
  - cbn. rewrite R5, <- app_assoc. f_equal. rewrite Hstr. unfold d, prefix_str. rewrite take_take, Nat.min_id. by rewrite take_drop.
  - cbn. split; [done|]. intros Hcl. congruence.
Qed.

Lemma write_input_runs fuel : forall s b,
  in_progress s b -> size (bytes_to_send b) <= Z.of_nat fuel ->
  exists b', write_input fuel b = Ok b' /\ in_progress s b' /\ y b' = y b /\ string_received b' = string_received b.
Proof.
  induction fuel as [|fuel IH]; intros s b (p & q & R) Hf; cbn [write_input];
    pose proof (len_nonneg (str (bytes_to_send b))) as Hn; fold (size (bytes_to_send b)) in Hn;
    (destruct (Z.eqb_spec (size (bytes_to_send b)) 0) as [E|E]; [exists b; split; [done|]; split; [by exists p, q|done]|]); [lia|].
  destruct (Z.eqb_spec (remaining_outbound_capacity (x b)) 0) as [E'|E'];
    [exists b; split; [done|]; split; [by exists p, q|done]|]. cbn [negb andb].
  destruct (write_runs s b p q R ltac:(lia) E') as (Hw & x' & rest & -> & Hr & Hsz & R'). cbn [res_bind].
  rewrite Z.eqb_refl. cbn [negb]. rewrite Hr. cbn [res_bind].
  destruct (IH s _ R' ltac:(change (size rest <= Z.of_nat fuel); lia)) as (b' & Hb & Rb & Ey & Es). by exists b'.
Qed.

Lemma close_runs s b :
  in_progress s b -> exists b', close_x b = Ok b' /\ in_progress s b' /\ y b' = y b /\ string_received b' = string_received b.
Proof.
  intros (p & q & R). unfold close_x. destruct (_ && _) eqn:E; [|exists b; split; [done|]; split; [by exists p, q|done]].
  apply andb_true_iff in E as [E1%Z.eqb_eq E2%negb_true_iff]. pose proof R as [R1 R2 R3 R4 R5 R6 [R7 R7'] R8 R9].
  destruct (session_end_returns p q (session_simulated _ _ R1)) as [x' Hx]. rewrite <- R2, Hx. cbn [res_bind].
  eexists. split; [done|]. split; [|done]. exists (with_conn p x' <| hung_up := true |>), q. split; try done.
  - apply s_end; [done|congruence|done].
  - cbn. split; [done|]. intros _. by apply len_zero_nil.
Qed.

Lemma read_runs s b :
  in_progress s b -> in_progress s (read_output b) /\ x (read_output b) = x b.
Proof.
  intros (p & q & R). unfold read_output. destruct (0 <? _) eqn:E; [|split; [by exists p, q|done]]. split; [|done].
  pose proof R as [R1 R2 R3 R4 R5 R6 R7 R8 R9]. set (k := ByteStream.buffer_size (inbound_stream (y b))).
  exists p, (with_conn q (read_inbound (conn q) k) <| heard := heard q ++ ByteStream.peek_output (inbound_stream (conn q)) k |>).
  rewrite R3, R8. split; try done. apply s_other. rewrite <- R3, <- R8. apply s_read; [by apply s_other|apply len_nonneg].
Qed.

(** The exchange of the queues *)
Lemma exchange_runs s b :
  in_progress s b ->
  exists x1 y1 x2 y2, move_segments (x b) (y b) [] false = Ok (x1, y1) /\ move_segments y1 x1 [] false = Ok (y2, x2) /\
    in_progress s (b <| x := x2 |> <| y := y2 |>).
Proof.
  intros (p & q & R). pose proof R as [R1 R2 R3 [R4 R4'] R5 R6 R7 R8 R9].
  destruct (move_runs p q R1 R4) as (cy & H1 & S1).
  destruct (move_runs _ _ (s_other _ _ S1) R4') as (cx & H2 & S2). cbn [conn with_conn] in H2.
  rewrite R2, R3 in H1. do 4 eexists. split; [exact H1|]. rewrite R2 in H2. split; [exact H2|].
  eexists _, _. split; [exact (s_other _ _ S2)|..]; try done.
Qed.

(** No side has given up. *)
Definition patient (b : Bench) : bool :=
  (consecutive_retransmissions (_sender (x b)) <=? MAX_RETX_ATTEMPTS) && (consecutive_retransmissions (_sender (y b)) <=? MAX_RETX_ATTEMPTS).

Lemma tick_retransmissions c ms c' :
  tick c ms = Ok c' -> active c = true -> _rx_times (_sender c') = _rx_times (TCPSender.tick (_sender c) ms).
Proof.
  unfold tick. intros H Ha. rewrite Ha in H. cbv zeta in H. set (c2 := if time_wait_state _ then _ else _) in H.
  assert (E2 : _sender c2 = TCPSender.tick (_sender c) ms) by (unfold c2; by destruct (time_wait_state _)). rewrite E2 in H.
  apply res_bind_ok in H as (c3 & H3 & H4).
  assert (E3 : _rx_times (_sender c3) = _rx_times (_sender c2)).
  { destruct (_ <? _); [|by injection H3 as <-]. unfold send_rst_seg in H3. revert H3.
    set (c4 := match TCPSender._segments_out (_sender (set_errors c2)) with [] => _ | _ => _ end).
    assert (E4 : _rx_times (_sender c4) = _rx_times (_sender c2)) by (unfold c4; by destruct (TCPSender._segments_out _)).
    destruct (TCPSender._segments_out (_sender c4)); [done|]. by intros [= <-]. }
  rewrite <- E2, <- E3. destruct (active c3); [|by injection H4 as <-].
  unfold send_all_segs in H4. revert H4. generalize (length (TCPSender._segments_out (_sender c3))) as fuel. intros fuel. clear.
  revert c3. induction fuel as [|fuel IH]; intros c3; cbn [send_all_fuel]; destruct (TCPSender._segments_out (_sender c3)) eqn:E; try done;
    [by intros [= <-]..|]. unfold send_common_seg. rewrite E. cbn [res_bind]. intros H%IH. rewrite H. done.
Qed.

Lemma tick_runs p q ms c :
  session p q -> tick (conn p) ms = Ok c -> consecutive_retransmissions (_sender c) <= MAX_RETX_ATTEMPTS -> session (with_conn p c) q.
Proof.
  intros S Ht Hc. destruct (active (conn p)) eqn:Ha.
  - apply (s_tick p q ms c S); [|done]. unfold consecutive_retransmissions in *. by rewrite <- (tick_retransmissions _ _ _ Ht Ha).
  - unfold tick in Ht. rewrite Ha in Ht. injection Ht as <-. by destruct p.
Qed.

(** One pass *)
Lemma loop_runs s b : in_progress s b -> exists b', loop false b = Ok b' /\ (patient b' = true -> in_progress s b').
Proof.
  intros R. unfold loop.
  destruct (write_input_runs (length (str (bytes_to_send b))) s b R) as (b1 & -> & R1 & _); [unfold size, len; lia|]. cbn [res_bind].
  destruct (close_runs s b1 R1) as (b2 & -> & R2 & _). cbn [res_bind].
  destruct (exchange_runs s b2 R2) as (x1 & y1 & x2 & y2 & H1 & H2 & R3). rewrite H1. cbn [res_bind]. rewrite H2. cbn [res_bind]. cbv zeta.
  destruct (read_runs s _ R3) as [R4 _]. set (b4 := read_output _) in *.
  destruct (tick_returns (x b4) 1000) as [x5 Hx], (tick_returns (y b4) 1000) as [y5 Hy]. rewrite Hx. cbn [res_bind]. rewrite Hy. cbn [res_bind].
  eexists. split; [done|]. intros [Px%Z.leb_le Py%Z.leb_le]%andb_true_iff. cbn in Px, Py. destruct R4 as (p & q & [S E1 E2 E3 E4 E5 E6 E7 E8]).
  rewrite <- E1 in Hx. rewrite <- E2 in Hy. pose proof (tick_runs p q 1000 x5 S Hx Px) as S1.
  pose proof (s_other _ _ (tick_runs q (with_conn p x5) 1000 y5 (s_other _ _ S1) Hy Py)) as S2.
  exists (with_conn p x5), (with_conn q y5). by split.
Qed.

(** [k] passes in order *)
Fixpoint loops (k : nat) (b : Bench) : res Bench :=
  match k with
  | O => Ok b
  | S k => let* b := loop false b in loops k b
  end.

Lemma fresh_connect random : exists c, connect (new default_config random) = Ok c.
Proof. eexists. vm_compute. reflexivity. Qed.

Lemma fresh_end random : exists c, end_input_stream (new default_config random) = Ok c.
Proof. eexists. vm_compute. reflexivity. Qed.

Lemma start_runs s random1 random2 :
  len s + 2 < 2147483648 -> 0 <= random1 < 4294967296 -> 0 <= random2 < 4294967296 ->
  exists b, start s random1 random2 = Ok b /\ in_progress s b.
Proof.
  intros Hl H1 H2. assert (C : config_ok default_config) by (by split).
  assert (S0 : session (new_party default_config random1) (new_party default_config random2)) by (by apply s_start).
  destruct (fresh_connect random1) as (c1 & Hc1). pose proof (s_other _ _ (s_connect _ _ c1 S0 eq_refl Hc1)) as S1.
  destruct (fresh_end random2) as (c2 & Hc2). pose proof (s_other _ _ (s_end _ _ c2 S1 eq_refl Hc2)) as S2.
  unfold start. rewrite Hc1. cbn [res_bind]. rewrite Hc2. cbn [res_bind]. eexists. split; [done|].
  eexists _, _. split; [exact S2|..]; try done. cbn. apply of_string_wf. lia.
Qed.

Lemma received_prefix s b :
  in_progress s b -> (exists rest, s = string_received b ++ rest) /\ (not_received b = false -> string_received b = s).
Proof.
  intros (p & q & [S E1 E2 _ E4 _ [E6 E6'] E7 _]). pose proof (session_simulated _ _ S) as (w1 & a1 & w2 & a2 & [W _ _ _ _ _]).
  destruct (net_linked _ _ _ _ _ _ _ W) as (rcap & isn & ha & L). destruct (Transfer.linked_delivers _ _ _ _ _ L) as ((rest & D1) & D2 & _).
  cbn in D1, D2. rewrite E7 in *. split.
  - exists ((ByteStream._buffer (inbound_stream (conn q)) ++ rest) ++ str (bytes_to_send b)).
    rewrite app_assoc. unfold inbound_stream. by rewrite <- D1.
  - unfold not_received. rewrite <- E2, negb_false_iff. unfold ByteStream.eof. destruct (_ && _) eqn:E; [|done]. apply andb_true_iff in E as [He Hb]. intros _.
    destruct (D2 He) as [Hh D3]. rewrite E6 in Hh. rewrite E6' in E4 by done. rewrite app_nil_r in E4. rewrite E4, D3.
    apply Z.eqb_eq, len_zero_nil in Hb. unfold inbound_stream in Hb. by rewrite Hb, app_nil_r.
Qed.

Lemma loops_run k : forall s b,
  in_progress s b -> (forall j b', (j <= k)%nat -> loops j b = Ok b' -> patient b' = true) ->
  exists b', loops k b = Ok b' /\ in_progress s b'.
Proof.
  induction k as [|k IH]; intros s b R Hp; [by exists b|]. destruct (loop_runs s b R) as (b1 & H1 & R1). cbn [loops] in *.
  assert (P1 : patient b1 = true) by (apply (Hp 1%nat); [lia|cbn [loops]; by rewrite H1]). rewrite H1. cbn [res_bind].
  apply IH; [by apply R1|]. intros j b' Hj Hb. apply (Hp (S j)); [lia|]. cbn [loops]. by rewrite H1.
Qed.

(** ** Properties *)

(** C26: tcp_benchmark without reordering, for any string of less than 2^31 - 2 bytes
    and any initial sequence numbers: as long as no side has given up retransmitting,
    every call of every pass returns, what has been received is a prefix of the
    string, and when the receiving side sees the end it is the whole string, so that
    the program never reports a mismatch. *)
Theorem benchmark_in_order k s random1 random2 :
  len s + 2 < 2147483648 -> 0 <= random1 < 4294967296 -> 0 <= random2 < 4294967296 ->
  (forall j b, (j <= k)%nat -> (let* b0 := start s random1 random2 in loops j b0) = Ok b -> patient b = true) ->
  exists b, (let* b0 := start s random1 random2 in loops k b0) = Ok b /\
    (exists rest, s = string_received b ++ rest) /\ (not_received b = false -> string_received b = s).
Proof.
  intros Hl H1 H2 Hp. destruct (start_runs s random1 random2 Hl H1 H2) as (b0 & E0 & R0). rewrite E0 in *. cbn [res_bind] in *.
  destruct (loops_run k s b0 R0 Hp) as (b & Hb & R). exists b. split; [done|]. by apply received_prefix.
Qed.

(** ** Witness *)

(** A property of the state a run ends in, as a test *)
Definition holds (P : Bench -> bool) (r : res Bench) : bool :=
  match r with
  | Ok b => P b
  | _ => false
  end.

Lemma holds_ok P r b : holds P r = true -> r = Ok b -> P b = true.
Proof. intros H ->. exact H. Qed.

Lemma benchmark_in_order_witness :
  exists b, (let* b0 := start [x61; x62; x63] 4294967290 7 in loops 3 b0) = Ok b /\ string_received b = [x61; x62; x63].
Proof.
  destruct (benchmark_in_order 3 [x61; x62; x63] 4294967290 7) as (b & Hb & _ & He); [reflexivity|lia|lia| |].
  - intros j b Hj. do 4 (destruct j as [|j]; [apply holds_ok; vm_compute; reflexivity|]). lia.
  - exists b. split; [exact Hb|]. apply He, negb_true_iff. revert Hb. apply (holds_ok (fun b => negb (not_received b))). vm_compute. reflexivity.
Defined.
