(* ===== verification/NetworkInterface.v ===== *)
(** * NetworkInterface

    Sends IPv4 datagrams in Ethernet frames, resolving next hops with ARP
    (libsponge/network_interface.{hh,cc}).  The five [std::map]s are finite maps.
    An [Address] is used only through its IPv4 number.  The debugging output of
    the constructor is left out. *)

From stdpp Require Import base list numbers option gmap fin_maps.
From Stdlib Require Import ZArith Lia Strings.Byte.
From S2P Require Import Prelude.
From S2P Require Import Buffer.
From S2P Require Import Parser.
From S2P Require Import IPv4Header.
From S2P Require Import IPv4Datagram.
From S2P Require Import EthernetHeader.
From S2P Require Import EthernetFrame.
From S2P Require Import ARPMessage.
#[local] Open Scope Z_scope.

Definition MAX_REQ_TIME : Z := 5000.
Definition MAX_CACHE_TIME : Z := 30000.

(** The value of [Address::ipv4_numeric()]. *)
Abbreviation Address := Z (only parsing).

Record NetworkInterface := mkNetworkInterface {
  _ethernet_address : EthernetAddress;
  _ip_address : Address;
  _frames_out : list EthernetFrame;
  _IP_MAC_cache : gmap Z EthernetAddress;
  _time_since_cache : gmap Z Z;
  _waiting_list : gmap Z IPv4Datagram;
  _time_since_req_send : gmap Z Z;
  _reqs : gmap Z EthernetFrame;
}.
#[global] Instance NetworkInterface_eta : RecordEta NetworkInterface := fun n =>
  mkNetworkInterface (_ethernet_address n) (_ip_address n) (_frames_out n) (_IP_MAC_cache n)
    (_time_since_cache n) (_waiting_list n) (_time_since_req_send n) (_reqs n).

Definition new (ethernet_address : EthernetAddress) (ip_address : Address) : NetworkInterface :=
  mkNetworkInterface ethernet_address ip_address [] ∅ ∅ ∅ ∅ ∅.

Definition frames_out (n : NetworkInterface) : list EthernetFrame := _frames_out n.

Definition push_frame (n : NetworkInterface) (f : EthernetFrame) : NetworkInterface :=
  n <| _frames_out := _frames_out n ++ [f] |>.

(** An IPv4 frame to [dst] with the serialized datagram. *)
Definition ip_frame (n : NetworkInterface) (dst : EthernetAddress) (dgram : IPv4Datagram) : res EthernetFrame :=
  let* bl := IPv4Datagram.serialize dgram in
  Ok (mkEthernetFrame (mkEthernetHeader dst (_ethernet_address n) TYPE_IPv4) bl).

(** The ARP request for [ip]; the target Ethernet address is not set. *)
Definition arp_request (n : NetworkInterface) (ip : Z) : ARPMessage :=
  default_message <| opcode := OPCODE_REQUEST |> <| sender_ethernet_address := _ethernet_address n |>
    <| sender_ip_address := _ip_address n |> <| target_ip_address := ip |>.

(** The reply to [m]. *)
Definition arp_reply (n : NetworkInterface) (m : ARPMessage) : ARPMessage :=
  default_message <| opcode := OPCODE_REPLY |> <| target_ip_address := sender_ip_address m |>
    <| sender_ip_address := _ip_address n |> <| target_ethernet_address := sender_ethernet_address m |>
    <| sender_ethernet_address := _ethernet_address n |>.

Definition arp_frame (n : NetworkInterface) (dst : EthernetAddress) (m : ARPMessage) : res EthernetFrame :=
  let* s := ARPMessage.serialize m in
  Ok (mkEthernetFrame (mkEthernetHeader dst (_ethernet_address n) TYPE_ARP) [of_string s]).

(** [m[k]] inserts a default value for a missing key. *)
Definition touch {V : Type} (d : V) (k : Z) (m : gmap Z V) : gmap Z V := <[k := default d (m !! k)]> m.

Definition send_datagram (n : NetworkInterface) (dgram : IPv4Datagram) (next_hop : Address) : res NetworkInterface :=
  let next_hop_ip := next_hop in
  match _IP_MAC_cache n !! next_hop_ip with
  | None =>
      match _waiting_list n !! next_hop_ip with
      | Some _ =>
          let n := n <| _time_since_req_send := touch 0 next_hop_ip (_time_since_req_send n) |> in
          if MAX_REQ_TIME <=? default 0 (_time_since_req_send n !! next_hop_ip) then
            let n := n <| _time_since_req_send := <[next_hop_ip := 0]> (_time_since_req_send n) |> in
            let n := n <| _reqs := touch default_frame next_hop_ip (_reqs n) |> in
            Ok (push_frame n (default default_frame (_reqs n !! next_hop_ip)))
          else Ok n
      | None =>
          let n := n <| _waiting_list := <[next_hop_ip := dgram]> (_waiting_list n) |> in
          let* f := arp_frame n ETHERNET_BROADCAST (arp_request n next_hop_ip) in
          let n := push_frame n f in
          let n := n <| _time_since_req_send := <[next_hop_ip := 0]> (_time_since_req_send n) |> in
          Ok (n <| _reqs := <[next_hop_ip := f]> (_reqs n) |>)
      end
  | Some dest_mac =>
      let* f := ip_frame n dest_mac dgram in
      Ok (push_frame n f)
  end.

(** The mapping of the sender fields is learned from every ARP message. *)
Definition learn (n : NetworkInterface) (m : ARPMessage) : NetworkInterface :=
  n <| _IP_MAC_cache := <[sender_ip_address m := sender_ethernet_address m]> (_IP_MAC_cache n) |>
    <| _time_since_cache := <[sender_ip_address m := 0]> (_time_since_cache n) |>.

(** A reply sends the waiting datagram. *)
Definition recv_reply (n : NetworkInterface) (m : ARPMessage) : res NetworkInterface :=
  match _waiting_list n !! sender_ip_address m with
  | Some datagram =>
      let n := n <| _waiting_list := delete (sender_ip_address m) (_waiting_list n) |> in
      let n := n <| _time_since_req_send := delete (sender_ip_address m) (_time_since_req_send n) |> in
      let n := n <| _reqs := delete (sender_ip_address m) (_reqs n) |> in
      let* f := ip_frame n (sender_ethernet_address m) datagram in
      Ok (push_frame n f)
  | None => Ok n
  end.

(** A request for our address is answered. *)
Definition recv_request (n : NetworkInterface) (frame : EthernetFrame) (m : ARPMessage) : res NetworkInterface :=
  if target_ip_address m =? _ip_address n then
    let* f := arp_frame n (src (EthernetFrame.header frame)) (arp_reply n m) in
    Ok (push_frame n f)
  else Ok n.

(** [frame.payload().buffers().front()] *)
Definition first_buffer (frame : EthernetFrame) : res Buffer :=
  match EthernetFrame.payload frame with
  | [] => Throw UndefinedBehaviour
  | b :: _ => Ok b
  end.

Definition recv_frame (n : NetworkInterface) (frame : EthernetFrame) : res (NetworkInterface * option IPv4Datagram) :=
  let h := EthernetFrame.header frame in
  if bool_decide (dst h <> ETHERNET_BROADCAST) && bool_decide (dst h <> _ethernet_address n) then Ok (n, None)
  else if type h =? TYPE_IPv4 then
    let* b := first_buffer frame in
    let* (r, datagram) := IPv4Datagram.parse default_datagram b in
    if bool_decide (r = NoError) then Ok (n, Some datagram) else Ok (n, None)
  else if type h =? TYPE_ARP then
    let* b := first_buffer frame in
    let* (r, m) := ARPMessage.parse default_message b in
    if bool_decide (r <> NoError) then Ok (n, None)
    else
      let* n := if opcode m =? OPCODE_REPLY then recv_reply n m else recv_request n frame m in
      Ok (learn n m, None)
  else Ok (n, None).

(** The cache entries that the passing of [ms] milliseconds removes. *)
Definition expired (ms : Z) (times : gmap Z Z) : gmap Z Z :=
  filter (fun p => MAX_CACHE_TIME <= u64 (p.2 + ms)) times.

Definition tick (n : NetworkInterface) (ms_since_last_tick : Z) : NetworkInterface :=
  let add := fun t => u32 (t + ms_since_last_tick) in
  let n := n <| _time_since_req_send := add <$> _time_since_req_send n |> in
  let dead := expired ms_since_last_tick (_time_since_cache n) in
  n <| _IP_MAC_cache := _IP_MAC_cache n ∖ (const zero_address <$> dead) |>
    <| _time_since_cache := add <$> (_time_since_cache n ∖ dead) |>.
