(* ===== verification/Resolution.v ===== *)
(** * NetworkInterface: the ARP cache, the rate of requests and delivery

    Timed runs of an interface with the history of what it learned, asked and was
    answered; the cache and the pending requests are functions of that history. *)

From stdpp Require Import base list numbers option gmap fin_maps.
From Stdlib Require Import ZArith Lia Strings.Byte.
From S2P Require Import Prelude.
From S2P Require Import Buffer.
From S2P Require Import Parser.
From S2P Require Import IPv4Header.
From S2P Require Import IPv4Datagram.
From S2P Require Import EthernetHeader.
From S2P Require Import EthernetFrame.
From S2P Require Import ARPMessage.
From S2P Require Import NetworkInterface.
#[local] Open Scope Z_scope.

(** ** Histories *)

(** Times are in milliseconds; a history has its newest event first. *)
Inductive event :=
| Learned (t ip : Z) (mac : EthernetAddress)
| Requested (t ip : Z)
| Replied (t ip : Z).

(** The last mapping learned for [ip]. *)
Fixpoint last_learned (ip : Z) (h : list event) : option (Z * EthernetAddress) :=
  match h with
  | [] => None
  | Learned t ip' mac :: h' => if ip =? ip' then Some (t, mac) else last_learned ip h'
  | _ :: h' => last_learned ip h'
  end.

(** The time of the last request for [ip] that was not answered since. *)
Fixpoint last_requested (ip : Z) (h : list event) : option Z :=
  match h with
  | [] => None
  | Requested t ip' :: h' => if ip =? ip' then Some t else last_requested ip h'
  | Replied _ ip' :: h' => if ip =? ip' then None else last_requested ip h'
  | _ :: h' => last_requested ip h'
  end.

(** A request that was not answered is repeated only after [MAX_REQ_TIME]. *)
Fixpoint spaced (h : list event) : Prop :=
  match h with
  | [] => True
  | Requested t ip :: h' =>
      match last_requested ip h' with Some t' => MAX_REQ_TIME <= t - t' | None => True end /\ spaced h'
  | _ :: h' => spaced h'
  end.

(** The ARP message in a frame for this interface. *)
Definition arp_received (n : NetworkInterface) (frame : EthernetFrame) : option ARPMessage :=
  let h := EthernetFrame.header frame in
  if bool_decide (dst h <> ETHERNET_BROADCAST) && bool_decide (dst h <> _ethernet_address n) then None
  else if type h =? TYPE_ARP then
    match first_buffer frame with
    | Ok b => match ARPMessage.parse default_message b with
              | Ok (r, m) => if bool_decide (r = NoError) then Some m else None
              | Throw _ => None
              end
    | Throw _ => None
    end
  else None.

Definition recv_events (now : Z) (n : NetworkInterface) (frame : EthernetFrame) : list event :=
  match arp_received n frame with
  | Some m =>
      Learned now (sender_ip_address m) (sender_ethernet_address m) ::
      (if opcode m =? OPCODE_REPLY then [Replied now (sender_ip_address m)] else [])
  | None => []
  end.

(** Sending put an ARP frame into the queue. *)
Definition send_events (now ip : Z) (n n' : NetworkInterface) : list event :=
  if existsb (fun f => type (EthernetFrame.header f) =? TYPE_ARP) (drop (length (frames_out n)) (frames_out n'))
  then [Requested now ip] else [].

Inductive irun (mac : EthernetAddress) (ip : Z) : Z -> list event -> NetworkInterface -> Prop :=
| ir_new : irun mac ip 0 [] (NetworkInterface.new mac ip)
| ir_send now h n d hop n' :
    irun mac ip now h n -> send_datagram n d hop = Ok n' -> irun mac ip now (send_events now hop n n' ++ h) n'
| ir_recv now h n f n' r :
    irun mac ip now h n -> recv_frame n f = Ok (n', r) -> irun mac ip now (recv_events now n f ++ h) n'
| ir_tick now h n ms :
    irun mac ip now h n -> 0 <= ms < 9223372036854775808 -> irun mac ip (now + ms) h (NetworkInterface.tick n ms)
| ir_take now h n : irun mac ip now h n -> irun mac ip now h (n <| _frames_out := [] |>).

(** ** The invariant *)

Definition fresh (now t : Z) : Prop := now - t < MAX_CACHE_TIME.

Record iinv (now : Z) (h : list event) (n : NetworkInterface) : Prop := {
  ii_cache ip mac : _IP_MAC_cache n !! ip = Some mac <-> exists t, last_learned ip h = Some (t, mac) /\ fresh now t;
  ii_age ip x : _time_since_cache n !! ip = Some x <->
    exists t mac, last_learned ip h = Some (t, mac) /\ fresh now t /\ x = now - t;
  ii_past ip t mac : last_learned ip h = Some (t, mac) -> t <= now;
  ii_waiting ip : is_Some (_waiting_list n !! ip) <-> is_Some (last_requested ip h);
  ii_req_age ip x : _time_since_req_send n !! ip = Some x <->
    exists t, last_requested ip h = Some t /\ x = u32 (now - t);
  ii_req_past ip t : last_requested ip h = Some t -> t <= now;
  ii_reqs ip : is_Some (last_requested ip h) ->
    exists f, _reqs n !! ip = Some f /\ type (EthernetFrame.header f) = TYPE_ARP;
  ii_spaced : spaced h;
}.

Lemma new_iinv mac ip : iinv 0 [] (NetworkInterface.new mac ip).
Proof.
  split; simpl; try done; intros.
  - rewrite lookup_empty. split; [done|naive_solver].
  - rewrite lookup_empty. split; [done|naive_solver].
  - rewrite lookup_empty. split; by intros [? ?].
  - rewrite lookup_empty. split; [done|naive_solver].
Qed.

(** ** Time *)

Lemma lookup_expired ms (times : gmap Z Z) ip :
  is_Some (expired ms times !! ip) <-> exists x, times !! ip = Some x /\ MAX_CACHE_TIME <= u64 (x + ms).
Proof.
  unfold expired. split.
  - intros [x [Hx Hle]%map_lookup_filter_Some]. eauto.
  - intros (x & Hx & Hle). exists x. apply map_lookup_filter_Some. done.
Qed.

(** A mapping in the cache is removed exactly when it is no longer fresh. *)
Lemma expired_learned now h n ms ip t mac :
  iinv now h n -> 0 <= ms < 9223372036854775808 -> last_learned ip h = Some (t, mac) -> fresh now t ->
  expired ms (_time_since_cache n) !! ip = None <-> fresh (now + ms) t.
Proof.
  intros [C A P _ _ _ _ _] Hms Hl Hf. pose proof (P _ _ _ Hl). pose proof (lookup_expired ms (_time_since_cache n) ip) as He.
  assert (Ha : _time_since_cache n !! ip = Some (now - t)) by (apply A; eauto).
  rewrite Ha in He. unfold fresh, MAX_CACHE_TIME in *. rewrite eq_None_not_Some, He. split.
  - intros Hn. destruct (Z.lt_ge_cases (now + ms - t) 30000); [done|]. exfalso. apply Hn. exists (now - t).
    split; [done|]. rewrite u64_small; lia.
  - intros Hlt (x & [= <-] & Hx). rewrite u64_small in Hx; lia.
Qed.

Lemma tick_iinv now h n ms :
  iinv now h n -> 0 <= ms < 9223372036854775808 -> iinv (now + ms) h (NetworkInterface.tick n ms).
Proof.
  intros I Hms. pose proof (fun ip t mac => expired_learned now h n ms ip t mac I Hms) as Hexp.
  pose proof I as [C A P W R RP Q S].
  assert (Hold : forall t, fresh (now + ms) t -> fresh now t) by (unfold fresh; intros; lia). split; try done.
  - intros ip mac. change (_IP_MAC_cache (NetworkInterface.tick n ms))
      with (_IP_MAC_cache n ∖ (const zero_address <$> expired ms (_time_since_cache n))).
    rewrite lookup_difference_Some, C, lookup_fmap, fmap_None. split.
    + intros ((t & H1 & H2) & H3). exists t. split; [done|]. by apply (Hexp ip t mac).
    + intros (t & H1 & H2). split; [by eauto|]. apply (Hexp ip t mac); auto.
  - intros ip x. change (_time_since_cache (NetworkInterface.tick n ms))
      with ((fun t => u32 (t + ms)) <$> (_time_since_cache n ∖ expired ms (_time_since_cache n))).
    rewrite lookup_fmap, fmap_Some. setoid_rewrite lookup_difference_Some. setoid_rewrite A.
    assert (Hage : forall t mac, last_learned ip h = Some (t, mac) -> fresh (now + ms) t -> u32 (now - t + ms) = now + ms - t).
    { intros t mac H1 H2. specialize (P _ _ _ H1). unfold fresh, MAX_CACHE_TIME in *. rewrite u32_small; lia. }
    split.
    + intros (y & ((t & mac & H1 & H2 & ->) & H3) & ->). apply (Hexp ip t mac H1 H2) in H3. exists t, mac. eauto.
    + intros (t & mac & H1 & H2 & ->). exists (now - t). split; [split; [by eauto 6|]|by erewrite Hage].
      apply (Hexp ip t mac); auto.
  - intros ip t mac H1. specialize (P _ _ _ H1). lia.
  - intros ip x. change (_time_since_req_send (NetworkInterface.tick n ms)) with
      ((fun t => u32 (t + ms)) <$> _time_since_req_send n).
    rewrite lookup_fmap, fmap_Some. setoid_rewrite R. split.
    + intros (y & (t & H1 & ->) & ->). exists t. split; [done|]. unfold u32. rewrite Zplus_mod_idemp_l. f_equal. lia.
    + intros (t & H1 & ->). eexists. split; [by exists t|]. unfold u32. rewrite Zplus_mod_idemp_l. f_equal. lia.
  - intros ip t H1. specialize (RP _ _ H1). lia.
Qed.

(** ** Sending *)

Lemma last_learned_requested ip t hop h : last_learned ip (Requested t hop :: h) = last_learned ip h.
Proof. done. Qed.

(** A request for [hop] goes out now. *)
Lemma request_iinv now h n n' hop f :
  iinv now h n ->
  match last_requested hop h with Some t => MAX_REQ_TIME <= now - t | None => True end ->
  _IP_MAC_cache n' = _IP_MAC_cache n -> _time_since_cache n' = _time_since_cache n ->
  (forall ip, is_Some (_waiting_list n' !! ip) <-> ip = hop \/ is_Some (_waiting_list n !! ip)) ->
  (forall ip, _time_since_req_send n' !! ip = if ip =? hop then Some 0 else _time_since_req_send n !! ip) ->
  type (EthernetFrame.header f) = TYPE_ARP ->
  (forall ip, _reqs n' !! ip = if ip =? hop then Some f else _reqs n !! ip) ->
  iinv now (Requested now hop :: h) n'.
Proof.
  intros [C A P W R RP Q S] Hsp E1 E2 E3 E4 Hf E5.
  split; rewrite ?E1, ?E2; try done; intros ip; cbn [last_requested].
  - rewrite E3. destruct (Z.eqb_spec ip hop) as [->|Hne]; [split; [by eexists|by left]|]. rewrite W. intuition.
  - intros x. rewrite E4. destruct (Z.eqb_spec ip hop) as [->|Hne]; [|by apply R].
    split; [intros [= <-]; exists now; rewrite Z.sub_diag; done|]. intros (t & [= <-] & ->). by rewrite Z.sub_diag.
  - intros t. destruct (Z.eqb_spec ip hop) as [->|Hne]; [|by apply RP]. by intros [= <-].
  - rewrite E5. destruct (Z.eqb_spec ip hop); [by exists f|apply Q].
Qed.

Lemma send_events_push now ip n n' f :
  frames_out n' = frames_out n ++ [f] ->
  send_events now ip n n' = if type (EthernetFrame.header f) =? TYPE_ARP then [Requested now ip] else [].
Proof. intros E. unfold send_events. rewrite E, drop_app_length. simpl. by rewrite orb_false_r. Qed.

Lemma send_events_same now ip n n' : frames_out n' = frames_out n -> send_events now ip n n' = [].
Proof. intros E. unfold send_events. by rewrite E, drop_all. Qed.

Lemma touch_same {V} (d : V) k m v : m !! k = Some v -> touch d k m = m.
Proof. intros E. unfold touch. rewrite E. by apply insert_id. Qed.

Lemma u32_le x : 0 <= x -> u32 x <= x.
Proof. intros. unfold u32. apply Z.mod_le; lia. Qed.

Lemma iinv_maps now h n n' :
  _IP_MAC_cache n' = _IP_MAC_cache n -> _time_since_cache n' = _time_since_cache n ->
  _waiting_list n' = _waiting_list n -> _time_since_req_send n' = _time_since_req_send n -> _reqs n' = _reqs n ->
  iinv now h n -> iinv now h n'.
Proof. intros E1 E2 E3 E4 E5 []. split; by rewrite ?E1, ?E2, ?E3, ?E4, ?E5. Qed.

Lemma arp_frame_ok n dst m :
  supported m = true ->
  arp_frame n dst m =
    Ok (mkEthernetFrame (mkEthernetHeader dst (_ethernet_address n) TYPE_ARP) [of_string (message_bytes m)]).
Proof. intros Hs. unfold arp_frame. by rewrite (arp_serialize_bytes _ Hs). Qed.

Lemma send_iinv now h n d hop n' :
  iinv now h n -> send_datagram n d hop = Ok n' -> iinv now (send_events now hop n n' ++ h) n'.
Proof.
  intros I. pose proof I as [C A P W R RP Q S]. unfold send_datagram.
  destruct (_IP_MAC_cache n !! hop) as [mac|] eqn:Ec.
  { unfold ip_frame. destruct (IPv4Datagram.serialize d); [|done]. cbn [res_bind]. intros [= <-].
    erewrite send_events_push by done. by eapply iinv_maps; [..|exact I]. }
  destruct (_waiting_list n !! hop) as [d0|] eqn:Ew.
  - destruct (proj1 (W hop) ltac:(by rewrite Ew)) as [t Ht].
    assert (Er : _time_since_req_send n !! hop = Some (u32 (now - t))) by (apply R; by exists t).
    destruct (Q hop ltac:(by rewrite Ht)) as (f & Ef & Hf). cbv zeta.
    rewrite (touch_same _ _ _ _ Er). change (_time_since_req_send (n <| _time_since_req_send := _time_since_req_send n |>))
      with (_time_since_req_send n). rewrite Er. cbn [from_option Datatypes.id].
    destruct (Z.leb_spec MAX_REQ_TIME (u32 (now - t))) as [Hle|Hle].
    + change (_reqs (n <| _time_since_req_send := _time_since_req_send n |> <| _time_since_req_send := <[hop:=0]> (_time_since_req_send n) |>))
        with (_reqs n). rewrite (touch_same _ _ _ _ Ef).
      change (_reqs (n <| _time_since_req_send := _time_since_req_send n |> <| _time_since_req_send := <[hop:=0]> (_time_since_req_send n) |> <| _reqs := _reqs n |>))
        with (_reqs n). rewrite Ef. cbn [from_option Datatypes.id]. intros [= <-].
      erewrite send_events_push by done. rewrite Hf. cbn [Z.eqb app]. rewrite Z.eqb_refl.
      apply (request_iinv now h n _ hop f I); [|done|done| | |done|].
      * rewrite Ht. specialize (RP _ _ Ht). pose proof (u32_le (now - t)). lia.
      * intros ip. change (is_Some (_waiting_list n !! ip) <-> ip = hop \/ is_Some (_waiting_list n !! ip)).
        split; [by right|]. intros [->|?]; [by rewrite Ew|done].
      * intros ip. change (<[hop:=0]> (_time_since_req_send n) !! ip = if ip =? hop then Some 0 else _time_since_req_send n !! ip).
        destruct (Z.eqb_spec ip hop) as [->|?]; [by rewrite lookup_insert_eq|by rewrite lookup_insert_ne].
      * intros ip. change (_reqs n !! ip = if ip =? hop then Some f else _reqs n !! ip).
        by destruct (Z.eqb_spec ip hop) as [->|?].
    + intros [= <-]. rewrite send_events_same by done. by eapply iinv_maps; [..|exact I].
  - cbv zeta. rewrite arp_frame_ok by done. cbn [res_bind]. intros [= <-].
    erewrite send_events_push by done. cbn [EthernetFrame.header type]. rewrite Z.eqb_refl.
    set (f := mkEthernetFrame _ _).
    apply (request_iinv now h n _ hop f I); [|done|done| | |done|].
    + destruct (last_requested hop h) eqn:El; [|done]. destruct (proj2 (W hop) ltac:(by rewrite El)). congruence.
    + intros ip. change (is_Some (<[hop:=d]> (_waiting_list n) !! ip) <-> ip = hop \/ is_Some (_waiting_list n !! ip)).
      rewrite lookup_insert_is_Some'. intuition.
    + intros ip. change (<[hop:=0]> (_time_since_req_send n) !! ip = if ip =? hop then Some 0 else _time_since_req_send n !! ip).
      destruct (Z.eqb_spec ip hop) as [->|?]; [by rewrite lookup_insert_eq|by rewrite lookup_insert_ne].
    + intros ip. change (<[hop:=f]> (_reqs n) !! ip = if ip =? hop then Some f else _reqs n !! ip).
      destruct (Z.eqb_spec ip hop) as [->|?]; [by rewrite lookup_insert_eq|by rewrite lookup_insert_ne].
Qed.

(** ** Receiving *)

Lemma recv_frame_cases n f n' r :
  recv_frame n f = Ok (n', r) ->
  match arp_received n f with
  | Some m => r = None /\ exists n1,
      (if opcode m =? OPCODE_REPLY then recv_reply n m else recv_request n f m) = Ok n1 /\ n' = learn n1 m
  | None => n' = n
  end.
Proof.
  unfold recv_frame, arp_received. destruct (_ && _); [by intros [= <- <-]|].
  destruct (Z.eqb_spec (type (EthernetFrame.header f)) TYPE_IPv4) as [->|_].
  - cbn. destruct (first_buffer f); [|done]. cbn [res_bind].
    destruct (IPv4Datagram.parse default_datagram _) as [[pr d]|]; [|done]. cbn [res_bind].
    destruct (bool_decide _); by intros [= <- <-].
  - destruct (type (EthernetFrame.header f) =? TYPE_ARP); [|by intros [= <- <-]].
    destruct (first_buffer f); [|done]. cbn [res_bind].
    destruct (ARPMessage.parse default_message _) as [[pr m]|]; [|done]. cbn [res_bind].
    destruct (decide (pr = NoError)) as [->|Hne].
    + rewrite (bool_decide_eq_false_2 (NoError <> NoError)), bool_decide_eq_true_2 by naive_solver.
      destruct (if opcode m =? OPCODE_REPLY then _ else _) as [n1|]; [|done]. cbn [res_bind].
      intros [= <- <-]. split; [done|]. by exists n1.
    + rewrite (bool_decide_eq_true_2 (pr <> NoError)), bool_decide_eq_false_2 by done. by intros [= <- <-].
Qed.

Lemma learn_iinv now h n m :
  iinv now h n -> iinv now (Learned now (sender_ip_address m) (sender_ethernet_address m) :: h) (learn n m).
Proof.
  intros [C A P W R RP Q S]. set (ip0 := sender_ip_address m). set (mac0 := sender_ethernet_address m).
  assert (Hf : fresh now now) by (unfold fresh, MAX_CACHE_TIME; lia).
  split; try done; intros ip; cbn [last_learned].
  - intros mac. change (_IP_MAC_cache (learn n m)) with (<[ip0 := mac0]> (_IP_MAC_cache n)).
    destruct (Z.eqb_spec ip ip0) as [->|Hne]; [rewrite lookup_insert_eq|rewrite lookup_insert_ne by done; apply C].
    split; [intros [= <-]; by exists now|]. by intros (t & [= _ <-] & _).
  - intros x. change (_time_since_cache (learn n m)) with (<[ip0 := 0]> (_time_since_cache n)).
    destruct (Z.eqb_spec ip ip0) as [->|Hne]; [rewrite lookup_insert_eq|rewrite lookup_insert_ne by done; apply A].
    split; [intros [= <-]; exists now, mac0; by rewrite Z.sub_diag|]. intros (t & mac & [= <- _] & _ & ->). by rewrite Z.sub_diag.
  - intros t mac. destruct (ip =? ip0); [by intros [= <- _]|apply P].
Qed.

(** The three maps of pending requests lose the key [ip0]. *)
Lemma replied_iinv now h n n' ip0 :
  iinv now h n ->
  _IP_MAC_cache n' = _IP_MAC_cache n -> _time_since_cache n' = _time_since_cache n ->
  _waiting_list n' = delete ip0 (_waiting_list n) -> _time_since_req_send n' = delete ip0 (_time_since_req_send n) ->
  _reqs n' = delete ip0 (_reqs n) ->
  iinv now (Replied now ip0 :: h) n'.
Proof.
  intros [C A P W R RP Q S] E1 E2 E3 E4 E5.
  split; rewrite ?E1, ?E2, ?E3, ?E4, ?E5; try done; intros ip; cbn [last_requested].
  - destruct (Z.eqb_spec ip ip0) as [->|Hne]; [rewrite lookup_delete_eq|by rewrite lookup_delete_ne].
    split; by intros [? ?].
  - intros x. destruct (Z.eqb_spec ip ip0) as [->|Hne]; [rewrite lookup_delete_eq|by rewrite lookup_delete_ne].
    split; [done|by intros (? & ? & _)].
  - intros t. destruct (ip =? ip0); [done|apply RP].
  - destruct (Z.eqb_spec ip ip0); [by intros [? ?]|]. rewrite lookup_delete_ne by done. apply Q.
Qed.

Lemma reply_iinv now h n m n1 :
  iinv now h n -> recv_reply n m = Ok n1 -> iinv now (Replied now (sender_ip_address m) :: h) n1.
Proof.
  intros I. unfold recv_reply. destruct (_waiting_list n !! sender_ip_address m) as [d|] eqn:Ew.
  - cbv zeta. unfold ip_frame. destruct (IPv4Datagram.serialize d); [|done]. cbn [res_bind]. intros [= <-].
    by apply (replied_iinv now h n).
  - intros [= <-]. destruct I as [C A P W R RP Q S].
    assert (Hl : last_requested (sender_ip_address m) h = None).
    { destruct (last_requested _ h) eqn:E; [|done]. destruct (proj2 (W (sender_ip_address m)) ltac:(by rewrite E)). congruence. }
    assert (He : forall ip, last_requested ip (Replied now (sender_ip_address m) :: h) = last_requested ip h).
    { intros ip. cbn [last_requested]. by destruct (Z.eqb_spec ip (sender_ip_address m)) as [->|]. }
    split; try done; intros ip; [|intros x|intros t|]; rewrite He; [apply W|apply R|apply RP|apply Q].
Qed.

Lemma recv_iinv now h n f n' r :
  iinv now h n -> recv_frame n f = Ok (n', r) -> iinv now (recv_events now n f ++ h) n'.
Proof.
  intros I Hr%recv_frame_cases. unfold recv_events. destruct (arp_received n f) as [m|]; [|by subst].
  destruct Hr as (_ & n1 & H1 & ->). cbn [app]. apply learn_iinv. destruct (opcode m =? OPCODE_REPLY).
  - cbn [app]. by eapply reply_iinv.
  - cbn [app]. unfold recv_request in H1. destruct (_ =? _); [|by injection H1 as <-].
    destruct (arp_frame _ _ _); [|done]. injection H1 as <-. by eapply iinv_maps; [..|exact I].
Qed.

Lemma irun_iinv mac ip now h n : irun mac ip now h n -> iinv now h n.
Proof.
  induction 1; [apply new_iinv|by eapply send_iinv|by eapply recv_iinv|by apply tick_iinv|].
  by eapply iinv_maps; [..|eassumption].
Qed.

(** ** Delivery over the wire *)

(** A frame as bytes on the wire, parsed by the other side. *)
Definition wire (f : EthernetFrame) : res EthernetFrame :=
  let* (r, f') := EthernetFrame.parse default_frame (of_string (concatenate (EthernetFrame.serialize f))) in
  if bool_decide (r = NoError) then Ok f' else Throw runtime_error.

Lemma wire_ok h pl :
  EthernetHeader.header_ok h -> len (concatenate pl) < 4294967296 ->
  exists b, wire (mkEthernetFrame h pl) = Ok (mkEthernetFrame h [b]) /\ buf_wf b /\ str b = concatenate pl.
Proof.
  intros Hh Hl. unfold wire, EthernetFrame.parse.
  destruct (eth_parse_serialized h (EthernetFrame.header default_frame)
    (parser_of (of_string (concatenate (EthernetFrame.serialize (mkEthernetFrame h pl))))) (concatenate pl) Hh)
    as (q & Hq & He & Hwf & Hs).
  { apply parses_of_string. change (concatenate (EthernetFrame.serialize (mkEthernetFrame h pl)))
      with (EthernetHeader.serialize h ++ concatenate pl).
    destruct Hh as (H1 & H2 & _). unfold address_ok in *. rewrite eth_serialize_bytes, !len_app, len_be_bytes.
    unfold len in *. lia. }
  rewrite Hq. cbn [res_bind]. unfold get_error. rewrite He. exists (_buffer q). done.
Qed.

(** However the frame [f] with header [h] is carried, in one buffer with its bytes,
    the payload has the property [P]. *)
Record arrives (f : EthernetFrame) (h : EthernetHeader) (P : Buffer -> Prop) : Prop := {
  ar_header : EthernetFrame.header f = h;
  ar_ok : EthernetHeader.header_ok h;
  ar_len : len (concatenate (EthernetFrame.payload f)) < 4294967296;
  ar_payload : forall b, buf_wf b -> str b = concatenate (EthernetFrame.payload f) -> P b;
}.

Lemma arrives_wire f h P : arrives f h P -> exists b, wire f = Ok (mkEthernetFrame h [b]) /\ P b.
Proof.
  intros [Hh Hok Hl Hp]. destruct f as [h' pl]. cbn [EthernetFrame.header EthernetFrame.payload] in *. subst h'.
  destruct (wire_ok h pl Hok Hl) as (b & Hw & Hb & Hs). eauto.
Qed.

Lemma arp_arrives n dst m :
  address_ok dst -> address_ok (_ethernet_address n) -> message_ok m -> supported m = true ->
  exists f, arp_frame n dst m = Ok f /\
    arrives f (mkEthernetHeader dst (_ethernet_address n) TYPE_ARP) (fun b => ARPMessage.parse default_message b = Ok (NoError, m)).
Proof.
  intros Hd Hn Hm Hs. rewrite (arp_frame_ok n dst m Hs). eexists. split; [done|].
  assert (Hc : concatenate [of_string (message_bytes m)] = message_bytes m) by (by rewrite concatenate_one, of_string_str).
  split; [done|by split_and!| |]; cbn [EthernetFrame.payload]; rewrite Hc.
  - by rewrite (len_message_bytes m Hm).
  - intros b Hb Hst. apply (arp_parse_serialized m default_message b []); [done|done|done|]. by rewrite app_nil_r.
Qed.

(** The datagram [d], with its checksum filled in. *)
Definition reads_datagram (d : IPv4Datagram) (b : Buffer) : Prop :=
  exists c out, IPv4Datagram.parse default_datagram b = Ok (NoError, out) /\ Forall buf_wf (IPv4Datagram.payload out) /\
    IPv4Datagram.header out = IPv4Datagram.header d <| cksum := c |> /\
    concatenate (IPv4Datagram.payload out) = concatenate (IPv4Datagram.payload d) /\ 0 <= c < 65536.

Lemma ip_arrives n dst d :
  address_ok dst -> address_ok (_ethernet_address n) -> datagram_ok d ->
  exists f, ip_frame n dst d = Ok f /\
    arrives f (mkEthernetHeader dst (_ethernet_address n) TYPE_IPv4) (reads_datagram d).
Proof.
  intros Hd Hn Hok. unfold ip_frame. rewrite (dgram_serialize_parts d Hok). cbn [res_bind]. eexists. split; [done|].
  pose proof Hok as (Hh & _ & Hl). destruct (header_checksum_ok _ Hh) as [Hc _].
  split; [done|by split_and!| |]; cbn [EthernetFrame.payload]; rewrite concatenate_cons, of_string_str.
  - rewrite len_app. pose proof (len_header_bytes _ (ip_header_ok_cksum _ _ Hh Hc)) as Hlen. sponge_simpl. destruct Hh. lia.
  - intros b Hb Hst. destruct (parse_of_serialized d default_datagram b Hok Hb Hst) as (out & Hp & Ho & Hwf & Hcat).
    exists (header_checksum (IPv4Datagram.header d)), out. split_and!; by (done || apply Hc).
Qed.

(** A frame for this interface, with one buffer. *)
Lemma recv_arp n d s b m :
  d = ETHERNET_BROADCAST \/ d = _ethernet_address n -> ARPMessage.parse default_message b = Ok (NoError, m) ->
  recv_frame n (mkEthernetFrame (mkEthernetHeader d s TYPE_ARP) [b]) =
    (let* n1 := if opcode m =? OPCODE_REPLY then recv_reply n m
                else recv_request n (mkEthernetFrame (mkEthernetHeader d s TYPE_ARP) [b]) m in
     Ok (learn n1 m, None)).
Proof.
  intros Hd Hp. unfold recv_frame. cbn [EthernetFrame.header EthernetHeader.dst type].
  replace (_ && _) with false.
  2: { symmetry. apply andb_false_iff. rewrite !bool_decide_eq_false. destruct Hd as [->| ->]; [left|right]; intros H; by apply H. }
  cbn. by rewrite Hp.
Qed.

Lemma recv_ip n s b d :
  IPv4Datagram.parse default_datagram b = Ok (NoError, d) ->
  recv_frame n (mkEthernetFrame (mkEthernetHeader (_ethernet_address n) s TYPE_IPv4) [b]) = Ok (n, Some d).
Proof.
  intros Hp. unfold recv_frame. cbn [EthernetFrame.header EthernetHeader.dst type].
  rewrite (bool_decide_eq_false_2 (_ethernet_address n <> _ethernet_address n)), andb_false_r by (intros H; by apply H).
  cbn. by rewrite Hp.
Qed.

(** The steps of an exchange, for interfaces in any state. *)
Lemma send_asks a d hop :
  address_ok (_ethernet_address a) -> 0 <= _ip_address a < 4294967296 -> 0 <= hop < 4294967296 ->
  _IP_MAC_cache a !! hop = None -> _waiting_list a !! hop = None ->
  exists a1 req, send_datagram a d hop = Ok a1 /\ frames_out a1 = frames_out a ++ [req] /\
    arrives req (mkEthernetHeader ETHERNET_BROADCAST (_ethernet_address a) TYPE_ARP)
      (fun b => ARPMessage.parse default_message b = Ok (NoError, arp_request a hop)) /\
    _waiting_list a1 !! hop = Some d /\ _ethernet_address a1 = _ethernet_address a /\ _ip_address a1 = _ip_address a.
Proof.
  intros Ha Hia Hh Hc Hw.
  destruct (arp_arrives a ETHERNET_BROADCAST (arp_request a hop)) as (req & Fq & Aq); [done..|].
  unfold send_datagram. rewrite Hc, Hw. cbv zeta.
  change (arp_frame (a <| _waiting_list := <[hop:=d]> (_waiting_list a) |>) ETHERNET_BROADCAST
    (arp_request (a <| _waiting_list := <[hop:=d]> (_waiting_list a) |>) hop))
    with (arp_frame a ETHERNET_BROADCAST (arp_request a hop)).
  rewrite Fq. cbn [res_bind]. do 2 eexists. split; [done|]. split; [done|]. split; [done|].
  split; [|done]. apply lookup_insert_eq.
Qed.

Lemma owner_answers b m bq :
  ARPMessage.parse default_message bq = Ok (NoError, m) -> opcode m = OPCODE_REQUEST ->
  target_ip_address m = _ip_address b -> address_ok (_ethernet_address b) -> 0 <= _ip_address b < 4294967296 ->
  address_ok (sender_ethernet_address m) -> 0 <= sender_ip_address m < 4294967296 ->
  exists b1 rep,
    recv_frame b (mkEthernetFrame (mkEthernetHeader ETHERNET_BROADCAST (sender_ethernet_address m) TYPE_ARP) [bq]) = Ok (b1, None) /\
    frames_out b1 = frames_out b ++ [rep] /\
    arrives rep (mkEthernetHeader (sender_ethernet_address m) (_ethernet_address b) TYPE_ARP)
      (fun bp => ARPMessage.parse default_message bp = Ok (NoError, arp_reply b m)) /\
    _ethernet_address b1 = _ethernet_address b /\ _ip_address b1 = _ip_address b.
Proof.
  intros Pq Ho Ht Hb Hib Hs His.
  destruct (arp_arrives b (sender_ethernet_address m) (arp_reply b m)) as (rep & Fp & Ap); [done..|].
  rewrite (recv_arp b _ _ bq _ (or_introl eq_refl) Pq), Ho. change (OPCODE_REQUEST =? OPCODE_REPLY) with false.
  cbv iota. unfold recv_request. rewrite Ht, Z.eqb_refl.
  change (src (EthernetFrame.header _)) with (sender_ethernet_address m). rewrite Fp. cbn [res_bind].
  do 2 eexists. split; [done|]. split; [done|]. by split.
Qed.

Lemma answer_releases a m bp s d :
  ARPMessage.parse default_message bp = Ok (NoError, m) -> opcode m = OPCODE_REPLY ->
  _waiting_list a !! sender_ip_address m = Some d -> datagram_ok d ->
  address_ok (_ethernet_address a) -> address_ok (sender_ethernet_address m) ->
  exists a1 dat,
    recv_frame a (mkEthernetFrame (mkEthernetHeader (_ethernet_address a) s TYPE_ARP) [bp]) = Ok (a1, None) /\
    frames_out a1 = frames_out a ++ [dat] /\
    arrives dat (mkEthernetHeader (sender_ethernet_address m) (_ethernet_address a) TYPE_IPv4) (reads_datagram d) /\
    _IP_MAC_cache a1 !! sender_ip_address m = Some (sender_ethernet_address m) /\
    _ethernet_address a1 = _ethernet_address a /\ _ip_address a1 = _ip_address a.
Proof.
  intros Pp Ho Hw Hd Ha Hs.
  destruct (ip_arrives a (sender_ethernet_address m) d Hs Ha Hd) as (dat & Fd & Ad).
  rewrite (recv_arp a _ _ bp _ (or_intror eq_refl) Pp), Ho, Z.eqb_refl. unfold recv_reply. rewrite Hw. cbv zeta.
  unfold ip_frame in *. sponge_simpl. rewrite Fd. cbn [res_bind].
  do 2 eexists. split; [done|]. split; [done|]. split; [done|]. split; [|done]. apply lookup_insert_eq.
Qed.

(** ** Properties *)

(** C30: at every point of every run, the cache maps an address to a MAC exactly when
    that is the last mapping learned for it from an ARP message and it was learned
    less than 30 seconds ago. *)
Theorem arp_cache_exact mac ip now h n :
  irun mac ip now h n ->
  forall a m, _IP_MAC_cache n !! a = Some m <->
    exists t, last_learned a h = Some (t, m) /\ now - t < 30000.
Proof. intros H%irun_iinv a m. apply H. Qed.

(** C31: on every run, a request for an address that was not answered is repeated
    only after at least 5 seconds. *)
Theorem arp_request_rate mac ip now h n : irun mac ip now h n -> spaced h.
Proof. intros H%irun_iinv. apply H. Qed.

(** Sending to an unresolved next hop ends in delivery: the interface broadcasts
    a request, the owner of the address answers it, the answer releases the
    datagram, and what the owner then receives is the datagram, with the header
    checksum filled in and the same payload.  Every frame goes over the wire as
    bytes. *)
Theorem resolution_delivers a b d :
  address_ok (_ethernet_address a) -> address_ok (_ethernet_address b) ->
  0 <= _ip_address a < 4294967296 -> 0 <= _ip_address b < 4294967296 -> datagram_ok d ->
  _IP_MAC_cache a !! _ip_address b = None -> _waiting_list a !! _ip_address b = None ->
  exists a1 a2 b1 req rep dat req' rep' dat' c out,
    send_datagram a d (_ip_address b) = Ok a1 /\ frames_out a1 = frames_out a ++ [req] /\ wire req = Ok req' /\
    recv_frame b req' = Ok (b1, None) /\ frames_out b1 = frames_out b ++ [rep] /\ wire rep = Ok rep' /\
    recv_frame a1 rep' = Ok (a2, None) /\ frames_out a2 = frames_out a1 ++ [dat] /\ wire dat = Ok dat' /\
    recv_frame b1 dat' = Ok (b1, Some out) /\
    IPv4Datagram.header out = IPv4Datagram.header d <| cksum := c |> /\
    concatenate (IPv4Datagram.payload out) = concatenate (IPv4Datagram.payload d).
Proof.
  intros Ha Hb Hia Hib Hd Hc Hw.
  destruct (send_asks a d (_ip_address b)) as (a1 & req & Hs & Hf1 & Aq & Hwait & Hmac & _); [done..|].
  destruct (arrives_wire _ _ _ Aq) as (bq & Wq & Pq).
  destruct (owner_answers b _ bq Pq) as (b1 & rep & Hr1 & Hf2 & Ap & Hmacb & _); [done..|].
  destruct (arrives_wire _ _ _ Ap) as (bp & Wp & Pp).
  destruct (answer_releases a1 _ bp (_ethernet_address b) d Pp) as (a2 & dat & Hr2 & Hf3 & Ad & _);
    [done|done|done|by rewrite Hmac|done|].
  destruct (arrives_wire _ _ _ Ad) as (bd & Wd & (c & out & Pd & _ & Ho & Hcat & _)).
  exists a1, a2, b1, req, rep, dat. do 3 eexists. exists c, out.
  rewrite Hmac in Hr2. split_and!; try done.
  change (sender_ethernet_address (arp_reply _ _)) with (_ethernet_address b). rewrite <- Hmacb. by apply recv_ip.
Qed.

(** Only one datagram waits per next hop: another one sent before the address
    is resolved and within 5 seconds of the request leaves the interface as it was,
    so it is lost without a trace. *)
Theorem second_datagram_lost n d d0 hop t :
  _IP_MAC_cache n !! hop = None -> _waiting_list n !! hop = Some d0 ->
  _time_since_req_send n !! hop = Some t -> t < MAX_REQ_TIME ->
  send_datagram n d hop = Ok n.
Proof.
  intros Hc Hw Ht Hlt. unfold send_datagram. rewrite Hc, Hw. cbv zeta. rewrite (touch_same _ _ _ _ Ht).
  change (_time_since_req_send (n <| _time_since_req_send := _time_since_req_send n |>)) with (_time_since_req_send n).
  rewrite Ht. cbn [from_option Datatypes.id]. rewrite (proj2 (Z.leb_gt _ _)) by done. by destruct n.
Qed.

(** An ARP request from the awaited host teaches its address but releases
    nothing: the datagram keeps waiting for a reply although its next hop is
    now in the cache. *)
Theorem request_releases_nothing n f n' r m d0 :
  recv_frame n f = Ok (n', r) -> arp_received n f = Some m -> opcode m = OPCODE_REQUEST ->
  _waiting_list n !! sender_ip_address m = Some d0 ->
  _IP_MAC_cache n' !! sender_ip_address m = Some (sender_ethernet_address m) /\
  _waiting_list n' !! sender_ip_address m = Some d0 /\
  Forall (fun g => type (EthernetFrame.header g) = TYPE_ARP) (drop (length (frames_out n)) (frames_out n')).
Proof.
  intros Hr%recv_frame_cases Hm Ho Hw. rewrite Hm in Hr. destruct Hr as (_ & n1 & H1 & ->).
  rewrite Ho in H1. cbn in H1. unfold recv_request in H1.
  assert (K : _waiting_list n1 = _waiting_list n /\
    Forall (fun g => type (EthernetFrame.header g) = TYPE_ARP) (drop (length (frames_out n)) (frames_out n1))).
  { destruct (_ =? _); [|injection H1 as <-; by rewrite drop_all].
    unfold arp_frame in H1. destruct (ARPMessage.serialize _); [|done]. injection H1 as <-.
    split; [done|]. change (frames_out (push_frame n ?g)) with (frames_out n ++ [g]).
    unfold frames_out at 2, push_frame. sponge_simpl. unfold frames_out. rewrite drop_app_length. by repeat constructor. }
  destruct K as [K1 K2]. split; [apply lookup_insert_eq|]. split; [by rewrite <- Hw, <- K1|done].
Qed.

(** ** Witnesses *)

Definition mac_a : EthernetAddress := [x02; x00; x00; x00; x00; x01].
Definition mac_b : EthernetAddress := [x02; x00; x00; x00; x00; x02].
Definition ip_a : Z := 167772161.
Definition ip_b : Z := 167772162.
Definition host_a : NetworkInterface := NetworkInterface.new mac_a ip_a.
Definition host_b : NetworkInterface := NetworkInterface.new mac_b ip_b.

(** What [host_a] receives when [host_b] asks for it. *)
Definition asked : EthernetFrame :=
  mkEthernetFrame (mkEthernetHeader ETHERNET_BROADCAST mac_b TYPE_ARP) [of_string (message_bytes (arp_request host_b ip_a))].
Definition asked_a : NetworkInterface := (res_or (recv_frame host_a asked) (host_a, None)).1.

(** [host_a] sends a datagram to [host_b]. *)
Definition sent_a : NetworkInterface := res_or (send_datagram host_a example_datagram ip_b) host_a.

Lemma asked_run : irun mac_a ip_a 29999 [Learned 0 ip_b mac_b] (NetworkInterface.tick asked_a 29999).
Proof.
  apply (ir_tick mac_a ip_a 0 [Learned 0 ip_b mac_b] asked_a 29999); [|lia].
  apply (ir_recv mac_a ip_a 0 [] host_a asked asked_a None); [apply ir_new|vm_compute; reflexivity].
Qed.

Lemma arp_cache_exact_witness : _IP_MAC_cache (NetworkInterface.tick asked_a 29999) !! ip_b = Some mac_b.
Proof.
  apply (arp_cache_exact mac_a ip_a 29999 [Learned 0 ip_b mac_b] _ asked_run).
  exists 0. split; [reflexivity|lia].
Defined.

Lemma sent_run : irun mac_a ip_a 0 [Requested 0 ip_b] sent_a.
Proof.
  apply (ir_send mac_a ip_a 0 [] host_a example_datagram ip_b sent_a); [apply ir_new|vm_compute; reflexivity].
Qed.

(** Datagrams for the same address after 3 seconds, which asks nothing, and after 2 more,
    which asks again. *)
Definition early_a : NetworkInterface :=
  let n := NetworkInterface.tick sent_a 3000 in res_or (send_datagram n example_datagram ip_b) n.
Definition again_a : NetworkInterface :=
  let n := NetworkInterface.tick early_a 2000 in res_or (send_datagram n example_datagram ip_b) n.

Lemma again_run : irun mac_a ip_a 5000 [Requested 5000 ip_b; Requested 0 ip_b] again_a.
Proof.
  apply (ir_send mac_a ip_a 5000 [Requested 0 ip_b] (NetworkInterface.tick early_a 2000) example_datagram ip_b again_a);
    [|vm_compute; reflexivity].
  apply (ir_tick mac_a ip_a 3000 [Requested 0 ip_b] early_a 2000); [|lia].
  apply (ir_send mac_a ip_a 3000 [Requested 0 ip_b] (NetworkInterface.tick sent_a 3000) example_datagram ip_b early_a);
    [|vm_compute; reflexivity].
  apply (ir_tick mac_a ip_a 0 [Requested 0 ip_b] sent_a 3000); [exact sent_run|lia].
Qed.

Lemma arp_request_rate_witness :
  irun mac_a ip_a 5000 [Requested 5000 ip_b; Requested 0 ip_b] again_a /\ length (frames_out again_a) = 2%nat /\
  last_requested ip_b [Requested 0 ip_b] = Some 0 /\ MAX_REQ_TIME <= 5000 - 0.
Proof.
  split; [exact again_run|]. split; [vm_compute; reflexivity|]. split; [reflexivity|].
  exact (proj1 (arp_request_rate mac_a ip_a 5000 [Requested 5000 ip_b; Requested 0 ip_b] again_a again_run)).
Defined.

Lemma resolution_delivers_witness :
  exists a1 b1 dat' c out, send_datagram host_a example_datagram (_ip_address host_b) = Ok a1 /\
    recv_frame b1 dat' = Ok (b1, Some out) /\
    IPv4Datagram.header out = IPv4Datagram.header example_datagram <| cksum := c |>.
Proof.
  destruct (resolution_delivers host_a host_b example_datagram eq_refl eq_refl) as
    (a1 & a2 & b1 & req & rep & dat & req' & rep' & dat' & c & out & H1 & _ & _ & _ & _ & _ & _ & _ & _ & H2 & H3 & _).
  - vm_compute. split; congruence.
  - vm_compute. split; congruence.
  - exact example_datagram_ok.
  - reflexivity.
  - reflexivity.
  - exists a1, b1, dat', c, out. split; [exact H1|]. split; [exact H2|exact H3].
Defined.

Lemma second_datagram_lost_witness : send_datagram sent_a default_datagram ip_b = Ok sent_a.
Proof.
  apply (second_datagram_lost sent_a default_datagram example_datagram ip_b 0); vm_compute; reflexivity.
Defined.

Lemma request_releases_nothing_witness :
  exists n' r, recv_frame sent_a asked = Ok (n', r) /\ _waiting_list n' !! ip_b = Some example_datagram.
Proof.
  destruct (recv_frame sent_a asked) as [[n' r]|] eqn:E; [|vm_compute in E; discriminate E].
  exists n', r. split; [reflexivity|].
  apply (request_releases_nothing sent_a asked n' r (arp_request host_b ip_a) example_datagram E); vm_compute; reflexivity.
Defined.
