(* ===== verification/Router.v ===== *)
(** * Router

    Interfaces that queue the datagrams they receive, and the longest-prefix-match
    forwarding between them (libsponge/router.{hh,cc}).  The debugging output of
    [add_route] is left out. *)

From stdpp Require Import base list numbers option gmap.
From Stdlib Require Import ZArith Lia Strings.Byte.
From S2P Require Import Prelude.
From S2P Require Import Buffer.
From S2P Require Import Parser.
From S2P Require Import IPv4Header.
From S2P Require Import IPv4Datagram.
From S2P Require Import EthernetFrame.
From S2P Require Import NetworkInterface.
#[local] Open Scope Z_scope.

Record AsyncNetworkInterface := mkAsyncNetworkInterface {
  base_interface : NetworkInterface;
  _datagrams_out : list IPv4Datagram;
}.
#[global] Instance AsyncNetworkInterface_eta : RecordEta AsyncNetworkInterface := fun a =>
  mkAsyncNetworkInterface (base_interface a) (_datagrams_out a).

Definition of_interface (n : NetworkInterface) : AsyncNetworkInterface := mkAsyncNetworkInterface n [].

Definition async_recv_frame (a : AsyncNetworkInterface) (frame : EthernetFrame) : res AsyncNetworkInterface :=
  let* (n, optional_dgram) := NetworkInterface.recv_frame (base_interface a) frame in
  let a := a <| base_interface := n |> in
  Ok (match optional_dgram with
      | Some d => a <| _datagrams_out := _datagrams_out a ++ [d] |>
      | None => a
      end).

Definition datagrams_out (a : AsyncNetworkInterface) : list IPv4Datagram := _datagrams_out a.

Record RoutingTableEntry := mkRoutingTableEntry {
  _route_prefix : Z;
  _prefix_length : Z;
  _next_hop : option Address;
  _interface_num : Z;
}.

(** [RoutingTableEntry entry;] *)
Definition default_entry : RoutingTableEntry := mkRoutingTableEntry 0 0 None 0.

Record Router := mkRouter {
  _interfaces : list AsyncNetworkInterface;
  _routing_table : list RoutingTableEntry;
}.
#[global] Instance Router_eta : RecordEta Router := fun r => mkRouter (_interfaces r) (_routing_table r).

Definition new : Router := mkRouter [] [].

Definition add_interface (r : Router) (interface : AsyncNetworkInterface) : Router * Z :=
  let r := r <| _interfaces := _interfaces r ++ [interface] |> in
  (r, u64 (len (_interfaces r) - 1)).

(** [_interfaces.at(N)] *)
Definition interface (r : Router) (N : Z) : res AsyncNetworkInterface :=
  match _interfaces r !! Z.to_nat N with
  | Some i => Ok i
  | None => Throw out_of_range
  end.

(** Assignment through the reference [interface(N)]. *)
Definition set_interface (r : Router) (N : Z) (i : AsyncNetworkInterface) : Router :=
  r <| _interfaces := <[Z.to_nat N := i]> (_interfaces r) |>.

Definition add_route (r : Router) (route_prefix prefix_length : Z) (next_hop : option Address) (interface_num : Z) : Router :=
  r <| _routing_table := _routing_table r ++ [mkRoutingTableEntry route_prefix prefix_length next_hop interface_num] |>.

Fixpoint match_loop (n : nat) (dst entry_dst mask : Z) : bool :=
  match n with
  | O => true
  | S n' =>
      if negb (Z.land dst mask =? Z.land entry_dst mask) then false
      else match_loop n' dst entry_dst (Z.shiftr mask 1)
  end.

Definition match_ (dst entry_dst pre_len : Z) : bool := match_loop (Z.to_nat pre_len) dst entry_dst (Z.shiftl 1 31).

(** The loop over the routing table, with its [found] and [entry]. *)
Fixpoint find_route (dest_ip : Z) (table : list RoutingTableEntry) (found : bool) (entry : RoutingTableEntry)
  : bool * RoutingTableEntry :=
  match table with
  | [] => (found, entry)
  | e :: table' =>
      if match_ dest_ip (_route_prefix e) (_prefix_length e) then
        let (found, entry) := if negb found then (true, e) else (found, entry) in
        let entry := if _prefix_length entry <? _prefix_length e then e else entry in
        find_route dest_ip table' found entry
      else find_route dest_ip table' found entry
  end.

Definition decrement_ttl (dgram : IPv4Datagram) : IPv4Datagram :=
  dgram <| IPv4Datagram.header := IPv4Datagram.header dgram <| ttl := u8 (ttl (IPv4Datagram.header dgram) - 1) |> |>.

(** [interface(N).send_datagram(dgram, next_hop)] *)
Definition send_on (r : Router) (N : Z) (dgram : IPv4Datagram) (next_hop : Address) : res Router :=
  let* i := interface r N in
  let* n := send_datagram (base_interface i) dgram next_hop in
  Ok (set_interface r N (i <| base_interface := n |>)).

Definition route_one_datagram (r : Router) (dgram : IPv4Datagram) : res Router :=
  if ttl (IPv4Datagram.header dgram) <=? 1 then Ok r
  else
    let dest_ip := IPv4Header.dst (IPv4Datagram.header dgram) in
    let (found, entry) := find_route dest_ip (_routing_table r) false default_entry in
    if negb found then Ok r
    else
      let dgram := decrement_ttl dgram in
      match _next_hop entry with
      | Some hop => send_on r (_interface_num entry) dgram hop
      | None => send_on r (_interface_num entry) dgram (IPv4Header.dst (IPv4Datagram.header dgram))
      end.

(** [queue.pop()] on the queue of interface [i] *)
Definition pop_datagram (r : Router) (i : nat) : Router :=
  r <| _interfaces := alter (fun a => a <| _datagrams_out := tail (_datagrams_out a) |>) i (_interfaces r) |>.

(** [while (not queue.empty())] on the queue of interface [i] *)
Fixpoint route_queue (fuel : nat) (i : nat) (r : Router) : res Router :=
  match _interfaces r !! i with
  | None => Ok r
  | Some a =>
      match datagrams_out a with
      | [] => Ok r
      | dgram :: _ =>
          match fuel with
          | O => Throw NoFuel
          | S fuel' =>
              let* r := route_one_datagram r dgram in
              route_queue fuel' i (pop_datagram r i)
          end
      end
  end.

(** The loop over the interfaces [i], [i + 1], ..., [i + n - 1]. *)
Fixpoint route_from (i n : nat) (r : Router) : res Router :=
  match n with
  | O => Ok r
  | S n' =>
      let queued := match _interfaces r !! i with Some a => length (datagrams_out a) | None => O end in
      let* r := route_queue queued i r in
      route_from (S i) n' r
  end.

Definition route (r : Router) : res Router := route_from 0 (length (_interfaces r)) r.
