(* ===== verification/Forwarding.v ===== *)
(** * Router: longest-prefix match and forwarding

    The routing decision is specified by the prefixes of addresses, and the
    forwarding of [route] by a step relation on the interfaces; the loops of the
    code implement both. *)

From stdpp Require Import base list numbers option gmap.
From Stdlib Require Import ZArith Lia Strings.Byte.
From S2P Require Import Prelude.
From S2P Require Import Buffer.
From S2P Require Import Parser.
From S2P Require Import IPv4Header.
From S2P Require Import IPv4Datagram.
From S2P Require Import EthernetHeader.
From S2P Require Import EthernetFrame.
From S2P Require Import ARPMessage.
From S2P Require Import NetworkInterface.
From S2P Require Import Resolution.
From S2P Require Import Router.
#[local] Open Scope Z_scope.

(** ** Specification *)

(** The high-order bits of an address, the first [n] of 32. *)
Definition prefix (n addr : Z) : Z := Z.shiftr addr (32 - Z.min 32 n).

Definition covers (e : RoutingTableEntry) (dst : Z) : Prop :=
  prefix (_prefix_length e) dst = prefix (_prefix_length e) (_route_prefix e).

(** [e] is the entry of the longest prefix that covers [dst], the first of them
    in the table. *)
Definition best_route (table : list RoutingTableEntry) (dst : Z) (e : RoutingTableEntry) : Prop :=
  exists i, table !! i = Some e /\ covers e dst /\
    forall j e', table !! j = Some e' -> covers e' dst ->
      _prefix_length e' < _prefix_length e \/ _prefix_length e' = _prefix_length e /\ (i <= j)%nat.

Definition no_route (table : list RoutingTableEntry) (dst : Z) : Prop := forall e, e ∈ table -> ~ covers e dst.

(** [forwards table ns ds ns']: the interfaces [ns] become [ns'] when the datagrams
    [ds] are forwarded in order. *)
Inductive forwards (table : list RoutingTableEntry) :
  list NetworkInterface -> list IPv4Datagram -> list NetworkInterface -> Prop :=
| fw_done ns : forwards table ns [] ns
| fw_expired ns d ds ns' :
    ttl (IPv4Datagram.header d) <= 1 ->
    forwards table ns ds ns' -> forwards table ns (d :: ds) ns'
| fw_unroutable ns d ds ns' :
    no_route table (IPv4Header.dst (IPv4Datagram.header d)) ->
    forwards table ns ds ns' -> forwards table ns (d :: ds) ns'
| fw_send ns d ds ns' e n n' :
    1 < ttl (IPv4Datagram.header d) ->
    best_route table (IPv4Header.dst (IPv4Datagram.header d)) e ->
    ns !! Z.to_nat (_interface_num e) = Some n ->
    send_datagram n (decrement_ttl d) (default (IPv4Header.dst (IPv4Datagram.header d)) (_next_hop e)) = Ok n' ->
    forwards table (<[Z.to_nat (_interface_num e) := n']> ns) ds ns' ->
    forwards table ns (d :: ds) ns'.

(** ** Well-formed routers *)

Definition entry_ok (e : RoutingTableEntry) : Prop :=
  0 <= _route_prefix e < 4294967296 /\ 0 <= _prefix_length e < 256 /\ 0 <= _interface_num e.

Record router_ok (r : Router) : Prop := {
  rok_table : Forall entry_ok (_routing_table r);
  rok_nums : Forall (fun e => _interface_num e < len (_interfaces r)) (_routing_table r);
  rok_queues : Forall (fun a => Forall datagram_ok (_datagrams_out a)) (_interfaces r);
}.

(** ** The comparison of prefixes *)

Lemma match_loop_zero n x y : match_loop n x y 0 = true.
Proof. induction n; cbn [match_loop]; [done|]. by rewrite !Z.land_0_r. Qed.

Lemma land_pow2 x k : 0 <= k -> Z.land x (2 ^ k) = if Z.testbit x k then 2 ^ k else 0.
Proof.
  intros. apply Z.bits_inj'. intros n Hn. rewrite Z.land_spec, Z.pow2_bits_eqb by lia.
  destruct (Z.eqb_spec k n) as [->|Hne].
  - destruct (Z.testbit x n); [by rewrite Z.pow2_bits_true by lia|by rewrite Z.bits_0].
  - rewrite andb_false_r. destruct (Z.testbit x k); [by rewrite Z.pow2_bits_false by lia|by rewrite Z.bits_0].
Qed.

Lemma match_bit x y k : 0 <= k -> (Z.land x (2 ^ k) =? Z.land y (2 ^ k)) = Bool.eqb (Z.testbit x k) (Z.testbit y k).
Proof.
  intros. rewrite !land_pow2 by done. pose proof (Z.pow_pos_nonneg 2 k ltac:(lia) ltac:(lia)).
  destruct (Z.testbit x k), (Z.testbit y k); cbn [Bool.eqb]; apply Z.eqb_eq || apply Z.eqb_neq; lia.
Qed.

(** The mask has bit [k]; the loop compares the bits [k], ..., [k - n + 1]. *)
Lemma match_loop_bits n x y k :
  0 <= k -> match_loop n x y (2 ^ k) = true <->
  forall j, k - Z.of_nat n < j <= k -> 0 <= j -> Z.testbit x j = Z.testbit y j.
Proof.
  revert k. induction n as [|n IH]; intros k Hk; cbn [match_loop]; [split; [lia|done]|].
  rewrite match_bit by done. destruct (Bool.eqb_spec (Z.testbit x k) (Z.testbit y k)) as [E|E]; cbn [negb].
  - destruct (Z.eq_dec k 0) as [->|].
    { change (Z.shiftr (2 ^ 0) 1) with 0. rewrite match_loop_zero. split; [|done].
      intros _ j ??. by replace j with 0 by lia. }
    rewrite Z.shiftr_div_pow2 by lia. replace (2 ^ k / 2 ^ 1) with (2 ^ (k - 1)) by (by rewrite Z.pow_sub_r by lia).
    rewrite IH by lia. split; intros Hj j ??; [|apply Hj; lia].
    destruct (Z.eq_dec j k) as [->|]; [done|apply Hj; lia].
  - split; [done|]. intros Hj. destruct E. apply Hj; lia.
Qed.

Lemma testbit_above x k : 0 <= x < 4294967296 -> 32 <= k -> Z.testbit x k = false.
Proof.
  intros. destruct (Z.eq_dec x 0) as [->|]; [by rewrite Z.bits_0|].
  apply Z.bits_above_log2; [lia|]. apply Z.log2_lt_pow2; [lia|].
  apply Z.lt_le_trans with (2 ^ 32); [lia|apply Z.pow_le_mono_r; lia].
Qed.

Lemma match_covers x y n :
  0 <= x < 4294967296 -> 0 <= y < 4294967296 -> 0 <= n -> match_ x y n = true <-> prefix n x = prefix n y.
Proof.
  intros Hx Hy Hn. unfold match_, prefix. change (Z.shiftl 1 31) with (2 ^ 31).
  rewrite match_loop_bits by lia. split.
  - intros H. apply Z.bits_inj'. intros j Hj. rewrite !Z.shiftr_spec by lia.
    destruct (Z.le_gt_cases 32 (j + (32 - Z.min 32 n))); [by rewrite !testbit_above|apply H; lia].
  - intros H j Hj Hj0.
    assert (Hb : Z.testbit (Z.shiftr x (32 - Z.min 32 n)) (j - (32 - Z.min 32 n)) =
                 Z.testbit (Z.shiftr y (32 - Z.min 32 n)) (j - (32 - Z.min 32 n))) by (by rewrite H).
    rewrite !Z.shiftr_spec in Hb by lia. by replace (j - (32 - Z.min 32 n) + (32 - Z.min 32 n)) with j in Hb by lia.
Qed.

Lemma match_entry e dst :
  entry_ok e -> 0 <= dst < 4294967296 -> match_ dst (_route_prefix e) (_prefix_length e) = true <-> covers e dst.
Proof. intros (?&?&?) ?. apply match_covers; lia. Qed.

(** ** The search of the table *)

Lemma lookup_snoc_inv {A} (l : list A) x i y :
  (l ++ [x]) !! i = Some y -> l !! i = Some y \/ i = length l /\ y = x.
Proof. intros H. apply lookup_snoc_Some in H. naive_solver. Qed.

(** The state of the search after the entries [seen]. *)
Definition search_inv (dst : Z) (seen : list RoutingTableEntry) (found : bool) (entry : RoutingTableEntry) : Prop :=
  if found then best_route seen dst entry else no_route seen dst.

Lemma search_skip dst seen found entry e :
  ~ covers e dst -> search_inv dst seen found entry -> search_inv dst (seen ++ [e]) found entry.
Proof.
  intros Hc. destruct found; simpl.
  - intros (i & Hi & Hci & Hb). exists i. split; [by apply lookup_app_l_Some|]. split; [done|].
    intros j e' [?|[-> ->]]%lookup_snoc_inv; [by apply Hb|done].
  - intros Hn e'. rewrite elem_of_app, list_elem_of_singleton. intros [?| ->]; [by apply Hn|done].
Qed.

Lemma search_first dst seen e : covers e dst -> no_route seen dst -> best_route (seen ++ [e]) dst e.
Proof.
  intros Hc Hn. exists (length seen). split; [by apply list_lookup_middle|]. split; [done|].
  intros j e' [Hj|[-> ->]]%lookup_snoc_inv; [|by right].
  intros Hc'. destruct (Hn e'); [by eapply list_elem_of_lookup_2|done].
Qed.

Lemma search_better dst seen entry e :
  covers e dst -> best_route seen dst entry ->
  best_route (seen ++ [e]) dst (if _prefix_length entry <? _prefix_length e then e else entry).
Proof.
  intros Hc (i & Hi & Hci & Hb). pose proof (lookup_lt_Some _ _ _ Hi). case_bool.
  - exists (length seen). split; [by apply list_lookup_middle|]. split; [done|].
    intros j e' [Hj|[-> ->]]%lookup_snoc_inv; [|by right].
    intros Hc'. destruct (Hb j e' Hj Hc'); lia.
  - exists i. split; [by apply lookup_app_l_Some|]. split; [done|].
    intros j e' [Hj|[-> ->]]%lookup_snoc_inv; [by apply Hb|].
    intros _. destruct (Z.eq_dec (_prefix_length e) (_prefix_length entry)); [right|left]; lia.
Qed.

Lemma find_route_inv dst table seen found entry :
  0 <= dst < 4294967296 -> Forall entry_ok table -> search_inv dst seen found entry ->
  let (found', entry') := find_route dst table found entry in search_inv dst (seen ++ table) found' entry'.
Proof.
  intros Hd. revert seen found entry. induction table as [|e table IH]; intros seen found entry Hok Hinv.
  { by rewrite app_nil_r. }
  apply Forall_cons in Hok as [He Hok]. pose proof (match_entry e dst He Hd) as Hm.
  cbn [find_route]. rewrite cons_middle, app_assoc.
  destruct (match_ dst (_route_prefix e) (_prefix_length e)).
  - assert (Hc : covers e dst) by (by apply Hm). destruct found; cbn [negb].
    + apply IH; [done|]. by apply search_better.
    + rewrite Z.ltb_irrefl. apply IH; [done|]. by apply search_first.
  - apply IH; [done|]. apply search_skip; [|done]. intros Hc. by apply Hm in Hc.
Qed.

Lemma find_route_spec r dst :
  0 <= dst < 4294967296 -> Forall entry_ok (_routing_table r) ->
  let (found, entry) := find_route dst (_routing_table r) false default_entry in
  search_inv dst (_routing_table r) found entry.
Proof.
  intros Hd Hok. apply (find_route_inv dst (_routing_table r) [] false default_entry Hd Hok).
  intros e He. by apply not_elem_of_nil in He.
Qed.

Lemma best_route_unique table dst e1 e2 : best_route table dst e1 -> best_route table dst e2 -> e1 = e2.
Proof.
  intros (i & Hi & Hc1 & H1) (j & Hj & Hc2 & H2).
  destruct (H1 _ _ Hj Hc2), (H2 _ _ Hi Hc1); try lia. assert (i = j) by lia. subst. congruence.
Qed.

Lemma best_route_elem table dst e : best_route table dst e -> e ∈ table /\ covers e dst.
Proof. intros (i & Hi & Hc & _). split; [by eapply list_elem_of_lookup_2|done]. Qed.

(** ** One datagram *)

Lemma send_datagram_returns n d hop : datagram_ok d -> exists n', send_datagram n d hop = Ok n'.
Proof.
  intros Hd. unfold send_datagram, ip_frame. destruct (_IP_MAC_cache n !! hop).
  - rewrite (dgram_serialize_parts _ Hd). by eexists.
  - destruct (_waiting_list n !! hop); cbv zeta.
    + case_bool; by eexists.
    + rewrite arp_frame_ok by done. by eexists.
Qed.

Lemma decrement_ttl_ok d : 1 < ttl (IPv4Datagram.header d) -> datagram_ok d -> datagram_ok (decrement_ttl d).
Proof.
  intros Ht ([] & Hp & Hl). split; [|by split]. split; try done. sponge_simpl. rewrite u8_small; lia.
Qed.

Lemma route_one_cases r d :
  Forall entry_ok (_routing_table r) -> 0 <= IPv4Header.dst (IPv4Datagram.header d) < 4294967296 ->
  let dst := IPv4Header.dst (IPv4Datagram.header d) in
  (ttl (IPv4Datagram.header d) <= 1 \/ no_route (_routing_table r) dst) /\ route_one_datagram r d = Ok r \/
  1 < ttl (IPv4Datagram.header d) /\
  exists e, best_route (_routing_table r) dst e /\
    route_one_datagram r d = send_on r (_interface_num e) (decrement_ttl d) (default dst (_next_hop e)).
Proof.
  intros Ht Hd. cbv zeta. unfold route_one_datagram. case_bool; [left; auto|].
  pose proof (find_route_spec r _ Hd Ht) as Hf. destruct (find_route _ _ _ _) as [[] e]; simpl in Hf; cbn [negb].
  - right. split; [lia|]. exists e. split; [done|]. by destruct (_next_hop e).
  - left. auto.
Qed.

Definition bases (r : Router) : list NetworkInterface := base_interface <$> _interfaces r.
Definition queues (r : Router) : list (list IPv4Datagram) := datagrams_out <$> _interfaces r.

(** What [route_one_datagram] keeps. *)
Definition same_frame (r r' : Router) : Prop :=
  _routing_table r' = _routing_table r /\ queues r' = queues r.

Lemma send_on_ok r N d hop :
  0 <= N < len (_interfaces r) -> datagram_ok d ->
  exists r' n n', send_on r N d hop = Ok r' /\ same_frame r r' /\
    bases r !! Z.to_nat N = Some n /\ send_datagram n d hop = Ok n' /\ bases r' = <[Z.to_nat N := n']> (bases r).
Proof.
  intros HN Hd. unfold send_on, interface.
  destruct (lookup_lt_is_Some_2 (_interfaces r) (Z.to_nat N)) as [a Ha]; [unfold len in HN; lia|]. rewrite Ha.
  cbn [res_bind]. destruct (send_datagram_returns (base_interface a) d hop Hd) as [n' Hn]. rewrite Hn.
  cbn [res_bind]. do 3 eexists. split; [done|]. split; [split; [done|]|split; [|split; [exact Hn|]]].
  - unfold queues, set_interface. sponge_simpl. rewrite list_fmap_insert. sponge_simpl.
    apply list_insert_id. by rewrite list_lookup_fmap, Ha.
  - unfold bases. by rewrite list_lookup_fmap, Ha.
  - unfold bases, set_interface. sponge_simpl. by rewrite list_fmap_insert.
Qed.

(** ** The loops of [route] *)

Lemma queues_length r : length (queues r) = length (_interfaces r).
Proof. apply length_fmap. Qed.

Lemma router_ok_frame r r' :
  _routing_table r' = _routing_table r -> length (queues r') = length (queues r) ->
  Forall (Forall datagram_ok) (queues r') -> router_ok r -> router_ok r'.
Proof.
  intros Et El Eq [T N Q]. rewrite !queues_length in El. split; rewrite ?Et; [done| |].
  - unfold len in *. by rewrite El.
  - unfold queues in Eq. by rewrite Forall_fmap in Eq.
Qed.

Lemma router_ok_queues r : router_ok r -> Forall (Forall datagram_ok) (queues r).
Proof. intros [_ _ Q]. by apply Forall_fmap. Qed.

Lemma route_one_forwards r d :
  router_ok r -> datagram_ok d ->
  exists r', route_one_datagram r d = Ok r' /\ same_frame r r' /\
    forall ds ns, forwards (_routing_table r) (bases r') ds ns -> forwards (_routing_table r) (bases r) (d :: ds) ns.
Proof.
  intros Hr Hd. pose proof Hr as [T N _].
  destruct (route_one_cases r d T (ok_dst _ (proj1 Hd))) as [[Hdrop E]|(Ht & e & Hb & E)].
  - exists r. split; [done|]. split; [done|]. intros ds ns Hf. destruct Hdrop; by constructor.
  - destruct (best_route_elem _ _ _ Hb) as [[i Hi]%list_elem_of_lookup_1 _].
    pose proof (Forall_lookup_1 _ _ _ _ N Hi) as Hn. destruct (Forall_lookup_1 _ _ _ _ T Hi) as (_ & _ & Hp).
    destruct (send_on_ok r (_interface_num e) (decrement_ttl d)
      (default (IPv4Header.dst (IPv4Datagram.header d)) (_next_hop e)))
      as (r' & n & n' & Hs & Hsame & Hl & Hsend & Hb'); [done|by apply decrement_ttl_ok|].
    exists r'. rewrite E. split; [done|]. split; [done|]. intros ds ns Hf. rewrite Hb' in Hf. by eapply fw_send.
Qed.

Lemma alter_insert {A} (f : A -> A) (l : list A) i x : l !! i = Some x -> alter f i l = <[i := f x]> l.
Proof.
  revert i. induction l as [|y l IH]; intros [|i] Hi; simpl in *; [done|done|by injection Hi as ->|].
  f_equal. by apply IH.
Qed.

Lemma pop_datagram_frame r i d q :
  queues r !! i = Some (d :: q) -> _routing_table (pop_datagram r i) = _routing_table r /\
  bases (pop_datagram r i) = bases r /\ queues (pop_datagram r i) = <[i := q]> (queues r).
Proof.
  intros Hq. split; [done|]. unfold bases, queues, pop_datagram in *. sponge_simpl.
  rewrite list_lookup_fmap in Hq. destruct (_interfaces r !! i) as [a|] eqn:Ha; [|done].
  injection Hq as Hq. unfold datagrams_out in Hq. rewrite (alter_insert _ _ _ _ Ha), !list_fmap_insert. split.
  - apply list_insert_id. by rewrite list_lookup_fmap, Ha.
  - by rewrite Hq.
Qed.

Lemma route_queue_forwards fuel r i q :
  router_ok r -> queues r !! i = Some q -> (length q <= fuel)%nat ->
  exists r', route_queue fuel i r = Ok r' /\ _routing_table r' = _routing_table r /\
    queues r' = <[i := []]> (queues r) /\
    forall ds ns, forwards (_routing_table r) (bases r') ds ns -> forwards (_routing_table r) (bases r) (q ++ ds) ns.
Proof.
  revert fuel r. induction q as [|d q IH]; intros fuel r Hr Hq Hl.
  - exists r. split; [|split; [done|split; [by rewrite list_insert_id|done]]].
    unfold queues in Hq. rewrite list_lookup_fmap in Hq. destruct fuel; cbn [route_queue];
      (destruct (_interfaces r !! i); [by injection Hq as ->|done]).
  - destruct fuel as [|fuel]; [simpl in Hl; lia|].
    pose proof (Forall_lookup_1 _ _ _ _ (router_ok_queues r Hr) Hq) as [Hd Hqs]%Forall_cons.
    destruct (route_one_forwards r d Hr Hd) as (r1 & E1 & [T1 Q1] & F1).
    destruct (pop_datagram_frame r1 i d q) as (T2 & B2 & Q2); [by rewrite Q1|].
    destruct (IH fuel (pop_datagram r1 i)) as (r' & E3 & T3 & Q3 & F3); [| |simpl in Hl; lia|].
    + eapply router_ok_frame; [..|exact Hr]; rewrite ?Q2, ?length_insert, ?Q1; [congruence|done|].
      apply Forall_insert; [by apply router_ok_queues|done].
    + rewrite Q2, Q1, list_lookup_insert_eq; [done|by eapply lookup_lt_Some].
    + exists r'. split; [|split; [congruence|split; [by rewrite Q3, Q2, Q1, list_insert_insert_eq|]]].
      * unfold queues in Hq. rewrite list_lookup_fmap in Hq. cbn [route_queue].
        destruct (_interfaces r !! i); [|done]. injection Hq as ->. by rewrite E1.
      * intros ds ns Hf. apply F1. rewrite <- B2. replace (_routing_table r) with (_routing_table (pop_datagram r1 i)) by congruence.
        apply F3. by replace (_routing_table (pop_datagram r1 i)) with (_routing_table r) by congruence.
Qed.

Lemma route_from_forwards n r i :
  router_ok r -> (i + n = length (queues r))%nat ->
  exists r', route_from i n r = Ok r' /\ _routing_table r' = _routing_table r /\
    queues r' = take i (queues r) ++ replicate n [] /\
    forwards (_routing_table r) (bases r) (mjoin (drop i (queues r))) (bases r').
Proof.
  revert r i. induction n as [|n IH]; intros r i Hr Hn.
  - exists r. split; [done|]. split; [done|]. rewrite app_nil_r, take_ge, drop_ge by lia. split; [done|constructor].
  - destruct (lookup_lt_is_Some_2 (queues r) i) as [q Hq]; [lia|]. cbn [route_from].
    assert (Hlen : match _interfaces r !! i with Some a => length (datagrams_out a) | None => 0%nat end = length q).
    { unfold queues in Hq. rewrite list_lookup_fmap in Hq. destruct (_interfaces r !! i); [by injection Hq as ->|done]. }
    rewrite Hlen. destruct (route_queue_forwards (length q) r i q Hr Hq (le_n _)) as (r1 & -> & T1 & Q1 & F1).
    cbn [res_bind]. destruct (IH r1 (S i)) as (r' & -> & T2 & Q2 & F2).
    + eapply router_ok_frame; [done|by rewrite Q1, length_insert| |exact Hr]. rewrite Q1.
      apply Forall_insert; [by apply router_ok_queues|constructor].
    + rewrite Q1, length_insert. lia.
    + exists r'. split; [done|]. split; [congruence|]. split.
      * rewrite Q2, Q1. rewrite (take_S_r _ i []) by (apply list_lookup_insert_eq; lia).
        by rewrite take_insert_ge, <- app_assoc by lia.
      * rewrite (drop_S _ _ _ Hq). cbn [mjoin list_join]. apply F1. rewrite <- T1.
        by rewrite Q1, drop_insert_lt in F2 by lia.
Qed.

(** ** Properties *)

(** [match] compares the first [pre_len] bits, all 32 of them when [pre_len] is
    larger. *)
Theorem match_spec dst entry_dst pre_len :
  0 <= dst < 4294967296 -> 0 <= entry_dst < 4294967296 -> 0 <= pre_len < 256 ->
  match_ dst entry_dst pre_len = true <-> prefix pre_len dst = prefix pre_len entry_dst.
Proof. intros. apply match_covers; lia. Qed.

Lemma match_spec_witness : prefix 24 3232235777 = prefix 24 3232235776.
Proof. apply (match_spec 3232235777 3232235776 24); [lia|lia|lia|reflexivity]. Defined.

(** C19: a datagram is dropped when its TTL is 0 or 1 or no entry covers its
    destination; otherwise the entry of the longest covering prefix, the first of
    equally long ones, decides: the datagram leaves with its TTL decremented on that
    entry's interface, to its next hop or, when there is none, to the destination,
    and an interface number out of range is an [out_of_range] exception. *)
Theorem route_one_longest_prefix r d :
  Forall entry_ok (_routing_table r) -> 0 <= IPv4Header.dst (IPv4Datagram.header d) < 4294967296 ->
  let dst := IPv4Header.dst (IPv4Datagram.header d) in
  (ttl (IPv4Datagram.header d) <= 1 \/ no_route (_routing_table r) dst) /\ route_one_datagram r d = Ok r \/
  1 < ttl (IPv4Datagram.header d) /\
  exists e, best_route (_routing_table r) dst e /\
    route_one_datagram r d =
      match _interfaces r !! Z.to_nat (_interface_num e) with
      | None => Throw out_of_range
      | Some i =>
          let* n := send_datagram (base_interface i) (decrement_ttl d) (default dst (_next_hop e)) in
          Ok (r <| _interfaces := <[Z.to_nat (_interface_num e) := i <| base_interface := n |>]> (_interfaces r) |>)
      end.
Proof.
  intros Ht Hd. destruct (route_one_cases r d Ht Hd) as [?|(? & e & Hb & E)]; [by left|right].
  split; [done|]. exists e. split; [done|]. rewrite E. unfold send_on, interface.
  by destruct (_interfaces r !! _).
Qed.

(** C11: with a table of well-formed entries for existing interfaces, and when every
    queued datagram is well formed (version 4, a header length and a total length that are
    right), [route] returns, with every queue empty and the table unchanged, and the
    interfaces are those that forwarding each queued datagram in order gives, the queues
    taken in the order of the interfaces. (A datagram that is not well formed can make it
    throw, [bad_version_stops_router].) *)
Theorem route_forwards r :
  router_ok r ->
  exists r', route r = Ok r' /\ _routing_table r' = _routing_table r /\
    Forall (fun a => datagrams_out a = []) (_interfaces r') /\
    forwards (_routing_table r) (bases r) (mjoin (queues r)) (bases r').
Proof.
  intros Hr. destruct (route_from_forwards (length (_interfaces r)) r 0 Hr) as (r' & E & T & Q & F).
  { by rewrite queues_length. }
  exists r'. split; [done|]. split; [done|]. split; [|done].
  assert (He : Forall (fun q => q = []) (queues r')) by (rewrite Q; by apply Forall_replicate).
  unfold queues in He. by rewrite Forall_fmap in He.
Qed.

(** ** Witnesses *)

Definition example_table : list RoutingTableEntry :=
  [mkRoutingTableEntry 0 0 (Some ip_b) 0; mkRoutingTableEntry 3232235776 16 None 1; mkRoutingTableEntry 3232235520 24 (Some ip_b) 0].
Definition expiring_datagram : IPv4Datagram :=
  example_datagram <| IPv4Datagram.header := IPv4Datagram.header example_datagram <| ttl := 1 |> |>.
Definition example_router : Router :=
  mkRouter [of_interface asked_a; mkAsyncNetworkInterface host_b [example_datagram; expiring_datagram]] example_table.

Lemma example_table_ok : Forall entry_ok example_table.
Proof. repeat constructor; simpl; lia. Qed.

Lemma route_one_longest_prefix_witness :
  exists e, best_route example_table 3232235778 e /\
    exists i, _interfaces example_router !! Z.to_nat (_interface_num e) = Some i /\
    route_one_datagram example_router example_datagram =
      let* n := send_datagram (base_interface i) (decrement_ttl example_datagram) (default 3232235778 (_next_hop e)) in
      Ok (set_interface example_router (_interface_num e) (i <| base_interface := n |>)).
Proof.
  destruct (route_one_longest_prefix example_router example_datagram example_table_ok) as [[_ H]|(_ & e & Hb & H)].
  - vm_compute. split; congruence.
  - vm_compute in H. discriminate H.
  - exists e. split; [exact Hb|]. destruct (_interfaces example_router !! Z.to_nat (_interface_num e)) as [i|] eqn:Ei.
    + exists i. split; [reflexivity|exact H].
    + vm_compute in H. discriminate H.
Defined.

Lemma example_router_ok : router_ok example_router.
Proof.
  split; [exact example_table_ok|repeat constructor; vm_compute; reflexivity|].
  assert (datagram_ok expiring_datagram).
  { destruct example_datagram_ok as ([] & Hp & Hl). split; [split; done|]. by split. }
  apply Forall_cons. split; [apply Forall_nil_2|]. apply Forall_singleton.
  apply Forall_cons. split; [exact example_datagram_ok|by apply Forall_singleton].
Qed.

Lemma route_forwards_witness :
  exists r', route example_router = Ok r' /\
    forwards example_table [asked_a; host_b] (mjoin (queues example_router)) (bases r').
Proof.
  destruct (route_forwards example_router example_router_ok) as (r' & E & _ & _ & F).
  exists r'. split; [exact E|exact F].
Defined.

(** A frame to [asked_a] with a datagram of IP version 6. *)
Definition version6_frame : EthernetFrame :=
  mkEthernetFrame (mkEthernetHeader mac_a mac_b TYPE_IPv4)
    [of_string ([x65; x00; x00; x14] ++ repeat x00 4 ++ [x80; x06] ++ repeat x00 6 ++ [x0a; x00; x00; x02])].

(** A datagram of another IP version stops the router: the interface accepts it
    because [IPv4Datagram::parse] drops the verdict on the header, and the
    serialization for the next hop then throws out of [route]. *)
Theorem bad_version_stops_router :
  match async_recv_frame (of_interface asked_a) version6_frame with
  | Ok a =>
      length (datagrams_out a) = 1%nat /\ route (mkRouter [a] [mkRoutingTableEntry 0 0 None 0]) = Throw runtime_error
  | Throw _ => False
  end.
Proof. vm_compute. split; reflexivity. Qed.
