(* ===== verification/NetworkSimulator.v ===== *)
(** * The network simulator

    Hosts and a router joined by simulated cables (apps/network_simulator.cc): what
    hosts send and expect, the exchange of frames, the fixed network, and the
    sequence of tests that [main] runs.  Random numbers are arguments.  Dotted
    addresses are given by their four numbers.  The debugging output is left out. *)

From Stdlib Require Import Strings.String.
From stdpp Require Import base list numbers option gmap strings.
From Stdlib Require Import ZArith Lia Strings.Byte.
From S2P Require Import Prelude.
From S2P Require Import Text.
From S2P Require Import Buffer.
From S2P Require Import Parser.
From S2P Require Import IPv4Header.
From S2P Require Import IPv4Datagram.
From S2P Require Import EthernetHeader.
From S2P Require Import EthernetFrame.
From S2P Require Import NetworkInterface.
From S2P Require Import Router.
#[local] Open Scope Z_scope.

(** ** Addresses *)

(** The six values drawn from [rd] become an address. *)
Definition random_host_ethernet_address (draws : list Z) : EthernetAddress :=
  match map u8 draws with
  | b :: rest => byte_of_Z (Z.land (Z.lor b 2) 254) :: map byte_of_Z rest
  | [] => []
  end.

Definition random_router_ethernet_address (draws : list Z) : EthernetAddress :=
  match map byte_of_Z (map u8 draws) with
  | _ :: _ :: _ :: rest => x02 :: x00 :: x00 :: rest
  | l => l
  end.

Definition ip (a b c d : Z) : Z := ((a * 256 + b) * 256 + c) * 256 + d.

(** ** Hosts *)

Record Host := mkHost {
  _name : string;
  _my_address : Address;
  _interface : AsyncNetworkInterface;
  _next_hop : Address;
  _expecting_to_receive : list IPv4Datagram;
}.
#[global] Instance Host_eta : RecordEta Host := fun h =>
  mkHost (_name h) (_my_address h) (_interface h) (_next_hop h) (_expecting_to_receive h).

Definition new_host (draws : list Z) (name : string) (my_address next_hop : Address) : Host :=
  mkHost name my_address (of_interface (NetworkInterface.new (random_host_ethernet_address draws) my_address)) next_hop [].

(** [dgram.serialize().concatenate()] *)
Definition wire_text (dgram : IPv4Datagram) : res bytes :=
  let* bl := IPv4Datagram.serialize dgram in Ok (concatenate bl).

Fixpoint expecting_loop (l : list IPv4Datagram) (expected : IPv4Datagram) : res bool :=
  match l with
  | [] => Ok false
  | x :: l' =>
      let* sx := wire_text x in
      let* se := wire_text expected in
      if bool_decide (sx = se) then Ok true else expecting_loop l' expected
  end.
Definition expecting (h : Host) (expected : IPv4Datagram) : res bool := expecting_loop (_expecting_to_receive h) expected.

Fixpoint remove_loop (l : list IPv4Datagram) (expected : IPv4Datagram) : res (list IPv4Datagram) :=
  match l with
  | [] => Ok []
  | x :: l' =>
      let* sx := wire_text x in
      let* se := wire_text expected in
      if bool_decide (sx = se) then Ok l' else let* r := remove_loop l' expected in Ok (x :: r)
  end.
Definition remove_expectation (h : Host) (expected : IPv4Datagram) : res Host :=
  let* l := remove_loop (_expecting_to_receive h) expected in Ok (h <| _expecting_to_receive := l |>).

(** [interface.send_datagram(dgram, next_hop)] *)
Definition async_send_datagram (a : AsyncNetworkInterface) (dgram : IPv4Datagram) (next_hop : Address) : res AsyncNetworkInterface :=
  let* n := send_datagram (base_interface a) dgram next_hop in Ok (a <| base_interface := n |>).

(** [draw] is the number in the payload. *)
Definition test_datagram (h : Host) (destination : Address) (time_to_live draw : Z) : IPv4Datagram :=
  let hd := IPv4Header.default_header <| IPv4Header.src := _my_address h |> <| IPv4Header.dst := destination |> in
  let payload := [of_string (txt "random payload: {" ++ to_string draw ++ txt "}")] in
  let hd := hd <| tot_len := u16 (hlen hd * 4 + list_size payload) |> in
  mkIPv4Datagram (hd <| ttl := time_to_live |>) payload.

Definition send_to (h : Host) (destination : Address) (time_to_live draw : Z) : res (Host * IPv4Datagram) :=
  let dgram := test_datagram h destination time_to_live draw in
  let* i := async_send_datagram (_interface h) dgram (_next_hop h) in
  Ok (h <| _interface := i |>, dgram).

Definition expect (h : Host) (expected : IPv4Datagram) : Host :=
  h <| _expecting_to_receive := _expecting_to_receive h ++ [expected] |>.

(** The loop of [check] over the queue of received datagrams *)
Fixpoint check_loop (received : list IPv4Datagram) (h : Host) : res Host :=
  match received with
  | [] => Ok (h <| _interface := (_interface h) <| _datagrams_out := [] |> |>)
  | d :: rest =>
      let* e := expecting h d in
      if negb e then Throw runtime_error
      else
        let* h := remove_expectation h d in
        check_loop rest h
  end.

Definition check (h : Host) : res Host :=
  let* h := check_loop (datagrams_out (_interface h)) h in
  match _expecting_to_receive h with
  | [] => Ok h
  | _ => Throw runtime_error
  end.

(** ** Cables *)

(** [to_send.front().payload() = to_send.front().payload().concatenate()] *)
Definition collapse (f : EthernetFrame) : EthernetFrame :=
  f <| EthernetFrame.payload := [of_string (concatenate (EthernetFrame.payload f))] |>.

Fixpoint deliver (src : list EthernetFrame) (dst : AsyncNetworkInterface) : res AsyncNetworkInterface :=
  match src with
  | [] => Ok dst
  | f :: rest => let* dst := async_recv_frame dst (collapse f) in deliver rest dst
  end.

Definition async_frames_out (a : AsyncNetworkInterface) : list EthernetFrame := frames_out (base_interface a).

(** [clear]: a frame of the second queue is popped for every one of the first. *)
Fixpoint clear {T : Type} (queue1 queue2 : list T) : res (list T) :=
  match queue1, queue2 with
  | [], _ => Ok queue2
  | _ :: q1, _ :: q2 => clear q1 q2
  | _ :: _, [] => Throw UndefinedBehaviour
  end.

Definition clear_frames (sent : list EthernetFrame) (a : AsyncNetworkInterface) : res AsyncNetworkInterface :=
  let* q := clear sent (async_frames_out a) in
  Ok (a <| base_interface := (base_interface a) <| _frames_out := q |> |>).

Definition exchange_frames (x y : AsyncNetworkInterface) : res (AsyncNetworkInterface * AsyncNetworkInterface) :=
  let x_frames := async_frames_out x in
  let y_frames := async_frames_out y in
  let* y := deliver x_frames y in
  let* x := deliver y_frames x in
  let* x := clear_frames x_frames x in
  let* y := clear_frames y_frames y in
  Ok (x, y).

Definition exchange_frames3 (x y z : AsyncNetworkInterface)
    : res (AsyncNetworkInterface * AsyncNetworkInterface * AsyncNetworkInterface) :=
  let x_frames := async_frames_out x in
  let y_frames := async_frames_out y in
  let z_frames := async_frames_out z in
  let* y := deliver x_frames y in
  let* z := deliver x_frames z in
  let* x := deliver y_frames x in
  let* z := deliver y_frames z in
  let* x := deliver z_frames x in
  let* y := deliver z_frames y in
  let* x := clear_frames x_frames x in
  let* y := clear_frames y_frames y in
  let* z := clear_frames z_frames z in
  Ok (x, y, z).

(** ** The network *)

Record Network := mkNetwork {
  _router : Router;
  _hosts : gmap string Host;
}.
#[global] Instance Network_eta : RecordEta Network := fun n => mkNetwork (_router n) (_hosts n).

(** The numbers that [add_interface] returns in the constructor *)
Definition default_id : Z := 0.
Definition eth0_id : Z := 1.
Definition eth1_id : Z := 2.
Definition eth2_id : Z := 3.
Definition uun3_id : Z := 4.
Definition hs4_id : Z := 5.
Definition mit5_id : Z := 6.

Definition host (n : Network) (name : string) : res Host :=
  match _hosts n !! name with
  | None => Throw runtime_error
  | Some h => if negb (String.eqb (_name h) name) then Throw runtime_error else Ok h
  end.

(** Assignment through the reference [host(name)]. *)
Definition set_host (n : Network) (name : string) (h : Host) : Network := n <| _hosts := <[name := h]> (_hosts n) |>.

Definition router_addresses : list Z :=
  [ip 171 67 76 46; ip 10 0 0 1; ip 172 16 0 1; ip 192 168 0 1; ip 198 178 229 1; ip 143 195 0 2; ip 128 30 76 255].

(** Names, addresses and next hops of the hosts. *)
Definition host_table : list (string * Z * Z) :=
  [("applesauce", ip 10 0 0 2, ip 10 0 0 1);
   ("default_router", ip 171 67 76 1, ip 0 0 0 0);
   ("cherrypie", ip 192 168 0 2, ip 192 168 0 1);
   ("hs_router", ip 143 195 0 1, ip 0 0 0 0);
   ("dm42", ip 198 178 229 42, ip 198 178 229 1);
   ("dm43", ip 198 178 229 43, ip 198 178 229 1)]%string.

(** [draws i] are the six values drawn for the [i]-th address. *)
Fixpoint add_interfaces (draws : nat -> list Z) (i : nat) (addresses : list Z) (r : Router) : Router :=
  match addresses with
  | [] => r
  | a :: rest =>
      let iface := of_interface (NetworkInterface.new (random_router_ethernet_address (draws i)) a) in
      add_interfaces draws (S i) rest (add_interface r iface).1
  end.

Fixpoint insert_hosts (draws : nat -> list Z) (i : nat) (l : list (string * Z * Z)) (m : gmap string Host) : gmap string Host :=
  match l with
  | [] => m
  | (name, a, hop) :: rest => insert_hosts draws (S i) rest (<[name := new_host (draws i) name a hop]> m)
  end.

(** The constructor *)
Definition new_network (draws : nat -> list Z) : res Network :=
  let r := add_interfaces draws 0 router_addresses Router.new in
  let n := mkNetwork r (insert_hosts draws 7 host_table ∅) in
  let* dr := host n "default_router" in
  let* hs := host n "hs_router" in
  let r := add_route r (ip 0 0 0 0) 0 (Some (_my_address dr)) default_id in
  let r := add_route r (ip 10 0 0 0) 8 None eth0_id in
  let r := add_route r (ip 172 16 0 0) 16 None eth1_id in
  let r := add_route r (ip 192 168 0 0) 24 None eth2_id in
  let r := add_route r (ip 198 178 229 0) 24 None uun3_id in
  let r := add_route r (ip 143 195 0 0) 17 (Some (_my_address hs)) hs4_id in
  let r := add_route r (ip 143 195 128 0) 18 (Some (_my_address hs)) hs4_id in
  let r := add_route r (ip 143 195 192 0) 19 (Some (_my_address hs)) hs4_id in
  let r := add_route r (ip 128 30 76 255) 16 (Some (ip 128 30 0 1)) mit5_id in
  Ok (n <| _router := r |>).

(** A cable between interface [id] of the router and a host *)
Definition connect2 (n : Network) (id : Z) (name : string) : res Network :=
  let* x := interface (_router n) id in
  let* h := host n name in
  let* (x, y) := exchange_frames x (_interface h) in
  Ok (set_host (n <| _router := set_interface (_router n) id x |>) name (h <| _interface := y |>)).

(** A cable shared by two hosts *)
Definition connect3 (n : Network) (id : Z) (name1 name2 : string) : res Network :=
  let* x := interface (_router n) id in
  let* h1 := host n name1 in
  let* h2 := host n name2 in
  let* (x, y, z) := exchange_frames3 x (_interface h1) (_interface h2) in
  let n := n <| _router := set_interface (_router n) id x |> in
  Ok (set_host (set_host n name1 (h1 <| _interface := y |>)) name2 (h2 <| _interface := z |>)).

Definition simulate_physical_connections (n : Network) : res Network :=
  let* n := connect2 n default_id "default_router" in
  let* n := connect2 n eth0_id "applesauce" in
  let* n := connect2 n eth2_id "cherrypie" in
  let* n := connect2 n hs4_id "hs_router" in
  connect3 n uun3_id "dm42" "dm43".

Fixpoint simulate_loop (i : nat) (n : Network) : res Network :=
  match i with
  | O => Ok n
  | S i' =>
      let* r := route (_router n) in
      let* n := simulate_physical_connections (n <| _router := r |>) in
      simulate_loop i' n
  end.

(** The order of the hosts does not matter: all failures of [check] are alike. *)
Fixpoint check_all (l : list (string * Host)) (n : Network) : res Network :=
  match l with
  | [] => Ok n
  | (name, h) :: rest => let* h := check h in check_all rest (set_host n name h)
  end.

Definition simulate (n : Network) : res Network :=
  let* n := simulate_loop 256 n in
  check_all (map_to_list (_hosts n)) n.

(** ** The tests *)

(** One test: [from] sends to [destination], and the host [to], if any, is to
    receive the datagram with its TTL decremented. *)
Definition test_traffic (n : Network) (from : string) (destination time_to_live draw : Z) (to : option string) : res Network :=
  let* f := host n from in
  let* (f, dgram_sent) := send_to f destination time_to_live draw in
  let n := set_host n from f in
  let* n := match to with
            | Some t => let* h := host n t in Ok (set_host n t (expect h (decrement_ttl dgram_sent)))
            | None => Ok n
            end in
  simulate n.

(** [draws] for the addresses, [draw] for the payloads *)
Definition network_simulator (draws : nat -> list Z) (draw : nat -> Z) : res Network :=
  let* n := new_network draws in
  let* a := host n "applesauce" in
  let* c := host n "cherrypie" in
  let* d := host n "dm43" in
  let* n := test_traffic n "applesauce" (_my_address c) 64 (draw 0%nat) (Some "cherrypie"%string) in
  let* n := test_traffic n "cherrypie" (_my_address a) 64 (draw 1%nat) (Some "applesauce"%string) in
  let* n := test_traffic n "applesauce" (ip 1 2 3 4) 64 (draw 2%nat) (Some "default_router"%string) in
  let* n := test_traffic n "applesauce" (ip 143 195 131 17) 64 (draw 3%nat) (Some "hs_router"%string) in
  let* n := test_traffic n "cherrypie" (ip 143 195 193 52) 64 (draw 4%nat) (Some "hs_router"%string) in
  let* n := test_traffic n "cherrypie" (ip 143 195 223 255) 64 (draw 5%nat) (Some "hs_router"%string) in
  let* n := test_traffic n "cherrypie" (ip 143 195 224 0) 64 (draw 6%nat) (Some "default_router"%string) in
  let* n := test_traffic n "dm42" (_my_address d) 64 (draw 7%nat) (Some "dm43"%string) in
  let* n := test_traffic n "applesauce" (ip 1 2 3 4) 1 (draw 8%nat) None in
  test_traffic n "applesauce" (ip 1 2 3 4) 0 (draw 9%nat) None.
