(* ===== verification/Simulation.v ===== *)
(** * The network simulator delivers

    What a host of apps/network_simulator.cc checks, what a simulated cable does
    with the frames of an unresolved and of a resolved next hop, and the way of a
    datagram from a host through the router to another host. *)

From Stdlib Require Import Strings.String.
From stdpp Require Import base list numbers option gmap strings.
From Stdlib Require Import ZArith Lia Strings.Byte.
From S2P Require Import Prelude.
From S2P Require Import Text.
From S2P Require Import Buffer.
From S2P Require Import Parser.
From S2P Require Import IPv4Header.
From S2P Require Import IPv4Datagram.
From S2P Require Import EthernetHeader.
From S2P Require Import EthernetFrame.
From S2P Require Import ARPMessage.
From S2P Require Import NetworkInterface.
From S2P Require Import Resolution.
From S2P Require Import Router.
From S2P Require Import Forwarding.
From S2P Require Import NetworkSimulator.
#[local] Open Scope Z_scope.

(** ** What a host checks *)

(** [ws] are the bytes of the datagrams [ds]. *)
Abbreviation written := (Forall2 (fun d w => wire_text d = Ok w)).

(** [l] without the first occurrence of [w]. *)
Fixpoint remove_first (w : bytes) (l : list bytes) : list bytes :=
  match l with
  | [] => []
  | x :: l' => if bool_decide (x = w) then l' else x :: remove_first w l'
  end.

Lemma remove_first_perm w l : w ∈ l -> l ≡ₚ w :: remove_first w l.
Proof.
  induction l as [|x l IH]; [by intros ?%not_elem_of_nil|]. cbn [remove_first]. case_bool_decide as E; [by subst|].
  intros [->|Hin]%elem_of_cons; [done|]. rewrite (IH Hin) at 1. constructor.
Qed.

Lemma expecting_spec l es d w :
  written l es -> wire_text d = Ok w -> expecting_loop l d = Ok (bool_decide (w ∈ es)).
Proof.
  intros Hl Hd. induction Hl as [|x e l es Hx Hl IH]; cbn [expecting_loop].
  - by rewrite bool_decide_eq_false_2 by apply not_elem_of_nil.
  - rewrite Hx, Hd. cbn [res_bind]. destruct (bool_decide_reflect (e = w)) as [E|E].
    + rewrite bool_decide_eq_true_2; [done|]. subst. apply list_elem_of_here.
    + rewrite IH. f_equal. apply bool_decide_ext. rewrite elem_of_cons. naive_solver.
Qed.

Lemma remove_spec l es d w :
  written l es -> wire_text d = Ok w ->
  exists l', remove_loop l d = Ok l' /\ written l' (remove_first w es).
Proof.
  intros Hl Hd. induction Hl as [|x e l es Hx Hl (l' & IH & Hw)]; cbn [remove_loop remove_first]; [by exists []|].
  rewrite Hx, Hd. cbn [res_bind]. case_bool_decide; [by exists l|].
  rewrite IH. exists (x :: l'). split; [done|]. by constructor.
Qed.

Lemma check_loop_spec received rs h es :
  written received rs -> written (_expecting_to_receive h) es ->
  check_loop received h = Throw runtime_error /\ ~ rs ⊆+ es \/
  exists l, check_loop received h = Ok (h <| _expecting_to_receive := l |>
      <| _interface := (_interface h) <| _datagrams_out := [] |> |>) /\
    exists es', written l es' /\ es ≡ₚ rs ++ es'.
Proof.
  intros Hr. revert h es. induction Hr as [|d w received rs Hd Hr IH]; intros h es He; cbn [check_loop].
  - right. exists (_expecting_to_receive h). split; [by destruct h|]. by exists es.
  - unfold expecting, remove_expectation. rewrite (expecting_spec _ _ _ _ He Hd). cbn [res_bind].
    case_bool_decide as Hin; cbn [negb].
    + destruct (remove_spec _ _ _ _ He Hd) as (l' & -> & Hw). cbn [res_bind].
      pose proof (remove_first_perm _ _ Hin) as Hp.
      pose (h1 := h <| _expecting_to_receive := l' |>). fold h1. destruct (IH h1 (remove_first w es) Hw) as [[-> Hn]|(l & -> & es' & Hl & Hes)].
      * left. split; [done|]. intros Hs. destruct Hn. apply (submseteq_app_inv_l _ _ [w]). by rewrite <- Hp.
      * right. exists l. split; [done|]. exists es'. split; [done|]. by rewrite Hp, Hes.
    + left. split; [done|]. intros Hs. destruct Hin. eapply elem_of_submseteq; [|exact Hs]. apply list_elem_of_here.
Qed.

(** [check] throws unless the datagrams received are those expected, and forgets both. *)
Lemma check_spec h rs es :
  written (datagrams_out (_interface h)) rs -> written (_expecting_to_receive h) es ->
  check h = if bool_decide (rs ≡ₚ es)
            then Ok (h <| _expecting_to_receive := [] |> <| _interface := (_interface h) <| _datagrams_out := [] |> |>)
            else Throw runtime_error.
Proof.
  intros Hr He. unfold check.
  destruct (check_loop_spec _ _ _ _ Hr He) as [[-> Hn]|(l & -> & es' & Hl & Hes)]; cbn [res_bind].
  - rewrite bool_decide_eq_false_2; [done|]. intros Hp. destruct Hn. by rewrite Hp.
  - change (_expecting_to_receive (?a <| _interface := ?b |>)) with (_expecting_to_receive a).
    change (_expecting_to_receive (?a <| _expecting_to_receive := l |>)) with l.
    inversion Hl as [|d e l' es1]; subst.
    + by rewrite bool_decide_eq_true_2 by (by rewrite Hes, app_nil_r).
    + rewrite bool_decide_eq_false_2; [done|]. intros Hp. apply Permutation_length in Hes, Hp.
      rewrite length_app in Hes. simpl in *. lia.
Qed.

(** ** Datagrams that come out of a network *)

(** [out] is [d], with some checksum in its header and its payload cut differently. *)
Definition carries (d out : IPv4Datagram) : Prop :=
  exists c, 0 <= c < 65536 /\ IPv4Datagram.header out = IPv4Datagram.header d <| cksum := c |> /\
    Forall buf_wf (IPv4Datagram.payload out) /\
    concatenate (IPv4Datagram.payload out) = concatenate (IPv4Datagram.payload d).

Lemma reads_carries d b :
  reads_datagram d b -> exists out, IPv4Datagram.parse default_datagram b = Ok (NoError, out) /\ carries d out.
Proof. intros (c & out & Hp & Hwf & Hh & Hc & Hr). exists out. split; [done|]. by exists c. Qed.

Lemma carries_ok d out : carries d out -> datagram_ok d -> datagram_ok out.
Proof.
  intros (c & Hc & Hh & Hwf & Hcat) (Hok & _ & Hl). unfold datagram_ok. rewrite Hh, Hcat.
  split; [by apply ip_header_ok_cksum|by split].
Qed.

Lemma carries_ttl d out : carries d out -> carries (decrement_ttl d) (decrement_ttl out).
Proof.
  intros (c & Hc & Hh & Hwf & Hcat). exists c. split; [done|]. split; [|done].
  unfold decrement_ttl. sponge_simpl. by rewrite Hh.
Qed.

Lemma carries_trans d1 d2 d3 : carries d1 d2 -> carries d2 d3 -> carries d1 d3.
Proof.
  intros (c1 & _ & H1 & _ & E1) (c2 & Hc & H2 & Hw & E2). exists c2. split; [done|].
  split; [by rewrite H2, H1|]. split; [done|congruence].
Qed.

Lemma carries_wire_text d out : datagram_ok d -> carries d out -> wire_text out = wire_text d.
Proof.
  intros Hd Hc. pose proof (carries_ok _ _ Hc Hd) as Ho. destruct Hc as (c & _ & Hh & _ & Hcat).
  unfold wire_text. rewrite (dgram_serialize_parts _ Hd), (dgram_serialize_parts _ Ho). cbn [res_bind].
  rewrite !concatenate_cons, Hcat, Hh. by rewrite !of_string_str.
Qed.

(** ** Cables *)

Lemma arrives_collapse f h P : arrives f h P -> exists b, collapse f = mkEthernetFrame h [b] /\ P b.
Proof.
  intros [Hh _ Hl Hp]. exists (of_string (concatenate (EthernetFrame.payload f))). split.
  - destruct f. cbn in Hh. by subst.
  - apply Hp; [apply of_string_wf; lia|by rewrite of_string_str].
Qed.

(** An interface with nothing to send. *)
Record idle (a : AsyncNetworkInterface) : Prop := {
  id_mac : address_ok (_ethernet_address (base_interface a));
  id_ip : 0 <= _ip_address (base_interface a) < 4294967296;
  id_frames : async_frames_out a = [];
}.

(** [x] can send to [y]: it knows the address or has not asked for it. *)
Definition can_send (x y : AsyncNetworkInterface) : Prop :=
  _IP_MAC_cache (base_interface x) !! _ip_address (base_interface y) = Some (_ethernet_address (base_interface y)) \/
  _IP_MAC_cache (base_interface x) !! _ip_address (base_interface y) = None /\
  _waiting_list (base_interface x) !! _ip_address (base_interface y) = None.

(** [n] rounds of exchanging frames. *)
Fixpoint cable (n : nat) (x y : AsyncNetworkInterface) : res (AsyncNetworkInterface * AsyncNetworkInterface) :=
  match n with
  | O => Ok (x, y)
  | S n' => let* (x, y) := exchange_frames x y in cable n' x y
  end.

(** The frames [fs] are on their way out of an interface that is otherwise [a]. *)
Definition with_frames (a : AsyncNetworkInterface) (fs : list EthernetFrame) : AsyncNetworkInterface :=
  a <| base_interface := (base_interface a) <| _frames_out := fs |> |>.

Lemma clear_all {T} (q rest : list T) : clear q (q ++ rest) = Ok rest.
Proof. by induction q. Qed.

Lemma clear_frames_prefix a fs rest : async_frames_out a = fs ++ rest -> clear_frames fs a = Ok (with_frames a rest).
Proof. intros H. unfold clear_frames. by rewrite H, clear_all. Qed.

Lemma with_frames_same a : with_frames a (async_frames_out a) = a.
Proof. by destruct a as [[] ?]. Qed.

(** One frame on the cable, in either direction. *)
Lemma exchange_forth x y f y1 :
  async_frames_out x = [f] -> async_frames_out y = [] -> async_recv_frame y (collapse f) = Ok y1 ->
  exchange_frames x y = Ok (with_frames x [], y1).
Proof.
  intros Hx Hy Hr. unfold exchange_frames. rewrite Hx, Hy. cbn [deliver res_bind]. rewrite Hr. cbn [res_bind].
  rewrite (clear_frames_prefix x [f] []) by done. cbn [res_bind].
  by rewrite (clear_frames_prefix y1 [] (async_frames_out y1)), with_frames_same.
Qed.

Lemma exchange_back x y f x1 :
  async_frames_out x = [] -> async_frames_out y = [f] -> async_recv_frame x (collapse f) = Ok x1 ->
  exchange_frames x y = Ok (x1, with_frames y []).
Proof.
  intros Hx Hy Hr. unfold exchange_frames. rewrite Hx, Hy. cbn [deliver res_bind]. rewrite Hr. cbn [res_bind].
  rewrite (clear_frames_prefix x1 [] (async_frames_out x1)), with_frames_same by done. cbn [res_bind].
  by rewrite (clear_frames_prefix y [f] []) by done.
Qed.

Lemma exchange_idle x y : async_frames_out x = [] -> async_frames_out y = [] -> exchange_frames x y = Ok (x, y).
Proof.
  intros Hx Hy. unfold exchange_frames. rewrite Hx, Hy. cbn [deliver res_bind].
  rewrite (clear_frames_prefix x [] []), (clear_frames_prefix y [] []) by done. cbn [res_bind].
  by rewrite <- Hx at 1; rewrite <- Hy; rewrite !with_frames_same.
Qed.

Lemma cable_idle n x y : async_frames_out x = [] -> async_frames_out y = [] -> cable n x y = Ok (x, y).
Proof. intros Hx Hy. induction n as [|n IH]; cbn [cable]; [done|]. by rewrite exchange_idle. Qed.

(** What a delivery over a cable leaves: [y] has one datagram more, [x] knows [y]. *)
Record delivered (x y : AsyncNetworkInterface) (d : IPv4Datagram) (x' y' : AsyncNetworkInterface) : Prop := {
  dv_idle : idle x' /\ idle y';
  dv_sender : datagrams_out x' = datagrams_out x;
  dv_receiver : exists out, datagrams_out y' = datagrams_out y ++ [out] /\ carries d out;
  dv_macs : _ethernet_address (base_interface y') = _ethernet_address (base_interface y);
  dv_ips : _ip_address (base_interface y') = _ip_address (base_interface y);
  dv_knows : _IP_MAC_cache (base_interface x') !! _ip_address (base_interface y) = Some (_ethernet_address (base_interface y));
}.

Lemma async_recv_none a f n : recv_frame (base_interface a) f = Ok (n, None) -> async_recv_frame a f = Ok (a <| base_interface := n |>).
Proof. intros H. unfold async_recv_frame. by rewrite H. Qed.

Lemma async_recv_some a f d :
  recv_frame (base_interface a) f = Ok (base_interface a, Some d) ->
  async_recv_frame a f = Ok (a <| _datagrams_out := datagrams_out a ++ [d] |>).
Proof. intros H. unfold async_recv_frame. rewrite H. by destruct a. Qed.

(** The frame with the datagram is on its way. *)
Lemma exchange_datagram x y d dat :
  idle y -> async_frames_out x = [dat] ->
  arrives dat (mkEthernetHeader (_ethernet_address (base_interface y)) (_ethernet_address (base_interface x)) TYPE_IPv4) (reads_datagram d) ->
  exists out, exchange_frames x y = Ok (with_frames x [], y <| _datagrams_out := datagrams_out y ++ [out] |>) /\ carries d out.
Proof.
  intros [_ _ Hy] Hx (b & Hc & (out & Hp & Hcar)%reads_carries)%arrives_collapse. exists out. split; [|done].
  apply (exchange_forth x y dat); [done|done|]. apply async_recv_some. rewrite Hc. by apply recv_ip.
Qed.

Lemma cable_known x y d :
  idle x -> idle y -> datagram_ok d ->
  _IP_MAC_cache (base_interface x) !! _ip_address (base_interface y) = Some (_ethernet_address (base_interface y)) ->
  exists x1 x' y', async_send_datagram x d (_ip_address (base_interface y)) = Ok x1 /\
    cable 3 x1 y = Ok (x', y') /\ delivered x y d x' y'.
Proof.
  intros [Xm Xi Xf] Yid Hd Hc. pose proof Yid as [Ym Yi Yf].
  destruct (ip_arrives (base_interface x) _ d Ym Xm Hd) as (dat & Fd & Ad).
  set (x1 := with_frames x [dat]). exists x1.
  destruct (exchange_datagram x1 y d dat Yid eq_refl Ad) as (out & He & Hcar).
  exists (with_frames x1 []), (y <| _datagrams_out := datagrams_out y ++ [out] |>). split; [|split].
  - unfold async_send_datagram, send_datagram. rewrite Hc, Fd. cbn [res_bind]. unfold push_frame.
    unfold async_frames_out, frames_out in Xf. by rewrite Xf.
  - change (cable 3 x1 y) with (let* (x, y) := exchange_frames x1 y in cable 2 x y). rewrite He. by apply cable_idle.
  - split; [by split; split|done|by exists out|done|done|done].
Qed.

Lemma cable_unknown x y d :
  idle x -> idle y -> datagram_ok d ->
  _IP_MAC_cache (base_interface x) !! _ip_address (base_interface y) = None ->
  _waiting_list (base_interface x) !! _ip_address (base_interface y) = None ->
  exists x1 x' y', async_send_datagram x d (_ip_address (base_interface y)) = Ok x1 /\
    cable 3 x1 y = Ok (x', y') /\ delivered x y d x' y'.
Proof.
  intros [Xm Xi Xf] Yid Hd Hc Hw. pose proof Yid as [Ym Yi Yf].
  destruct (send_asks _ d _ Xm Xi Yi Hc Hw) as (n1 & req & Hs & Hf1 & (bq & Cq & Pq)%arrives_collapse & Hwait & M1 & I1).
  destruct (owner_answers (base_interface y) _ bq Pq) as (m1 & rep & Hr1 & Hf2 & (bp & Cp & Pp)%arrives_collapse & M2 & I2);
    [done..|].
  set (x1 := x <| base_interface := n1 |>). set (y1 := y <| base_interface := m1 |>).
  assert (E1 : exchange_frames x1 y = Ok (with_frames x1 [], y1)).
  { apply (exchange_forth x1 y req); [|done|].
    - change (async_frames_out x1) with (frames_out n1). rewrite Hf1. unfold async_frames_out in Xf. by rewrite Xf.
    - apply async_recv_none. by rewrite Cq. }
  destruct (answer_releases (base_interface (with_frames x1 [])) _ bp (_ethernet_address (base_interface y)) d Pp)
    as (n2 & dat & Hr2 & Hf3 & Ad & K & M3 & I3); [done|done|done|by cbn; rewrite M1|done|].
  set (x2 := (with_frames x1 []) <| base_interface := n2 |>).
  assert (E2 : exchange_frames (with_frames x1 []) y1 = Ok (x2, with_frames y1 [])).
  { apply (exchange_back _ y1 rep); [done| |].
    - change (async_frames_out y1) with (frames_out m1). rewrite Hf2. unfold async_frames_out in Yf. by rewrite Yf.
    - apply async_recv_none. rewrite Cp. cbn in Hr2, M1 |- *. by rewrite <- M1. }
  assert (Yid1 : idle (with_frames y1 [])) by (by split; cbn; rewrite ?M2, ?I2).
  destruct (exchange_datagram x2 (with_frames y1 []) d dat Yid1) as (out & E3 & Hcar); [done| |].
  { cbn in Ad, M3 |- *. by rewrite M2, M3. }
  exists x1, (with_frames x2 []). eexists. split; [|split].
  - unfold async_send_datagram. by rewrite Hs.
  - cbn [cable]. rewrite E1. cbn [res_bind]. rewrite E2. cbn [res_bind]. rewrite E3. done.
  - split; [|done|by exists out|done|done|done]. split; [|by destruct Yid1; split]. split; [|by cbn in I3 |- *; rewrite I3, I1|done].
    cbn. cbn in M3. by rewrite M3, M1.
Qed.

Lemma cable_delivers x y d :
  idle x -> idle y -> datagram_ok d -> can_send x y ->
  exists x1 x' y', async_send_datagram x d (_ip_address (base_interface y)) = Ok x1 /\
    cable 3 x1 y = Ok (x', y') /\ delivered x y d x' y'.
Proof. intros ??? [?|[??]]; [by apply cable_known|by apply cable_unknown]. Qed.

Lemma exchange_swap x y x' y' : exchange_frames x y = Ok (x', y') -> exchange_frames y x = Ok (y', x').
Proof.
  unfold exchange_frames. intros (y1 & E1 & (x1 & E2 & (x2 & E3 & (y2 & E4 & [= <- <-])%res_bind_ok)%res_bind_ok)%res_bind_ok)%res_bind_ok.
  rewrite E2. cbn [res_bind]. rewrite E1. cbn [res_bind]. rewrite E4. cbn [res_bind]. by rewrite E3.
Qed.

Lemma cable_swap n x y x' y' : cable n x y = Ok (x', y') -> cable n y x = Ok (y', x').
Proof.
  revert x y. induction n as [|n IH]; intros x y; cbn [cable]; [by intros [= <- <-]|].
  intros ([x1 y1] & E & Hn)%res_bind_ok. rewrite (exchange_swap _ _ _ _ E). by apply IH.
Qed.

(** ** The network *)

(** [k] rounds on the cable between interface [id] of the router and the host [name]. *)
Fixpoint connect_rounds (k : nat) (n : Network) (id : Z) (name : string) : res Network :=
  match k with
  | O => Ok n
  | S k' => let* n := connect2 n id name in connect_rounds k' n id name
  end.

(** [n] with another interface [x] and another host [h]. *)
Definition replug (n : Network) (id : Z) (x : AsyncNetworkInterface) (name : string) (h : Host) : Network :=
  set_host (n <| _router := set_interface (_router n) id x |>) name h.

Lemma host_lookup n name h : host n name = Ok h <-> _hosts n !! name = Some h /\ _name h = name.
Proof.
  unfold host. destruct (_hosts n !! name) as [h'|]; [|naive_solver].
  destruct (String.eqb_spec (_name h') name); cbn [negb]; naive_solver.
Qed.

Lemma host_set n name h : _name h = name -> host (set_host n name h) name = Ok h.
Proof. intros. apply host_lookup. split; [apply lookup_insert_eq|done]. Qed.

Lemma host_set_other n name name' h : name <> name' -> host (set_host n name h) name' = host n name'.
Proof. intros. unfold host, set_host. sponge_simpl. by rewrite lookup_insert_ne. Qed.

Lemma interface_lookup r id x : interface r id = Ok x <-> _interfaces r !! Z.to_nat id = Some x.
Proof. unfold interface. destruct (_ !! _); naive_solver. Qed.

Lemma interface_set r id x x' : interface r id = Ok x -> interface (set_interface r id x') id = Ok x'.
Proof.
  rewrite !interface_lookup. intros H%lookup_lt_Some. unfold set_interface. sponge_simpl. by apply list_lookup_insert_eq.
Qed.

Lemma replug_same n id x name h : interface (_router n) id = Ok x -> host n name = Ok h -> replug n id x name h = n.
Proof.
  intros Hx%interface_lookup [Hh _]%host_lookup. destruct n as [[ifs table] hs]. unfold replug, set_host, set_interface.
  sponge_simpl. by rewrite insert_id, list_insert_id.
Qed.

Lemma replug_twice n id x x' name h h' : replug (replug n id x name h) id x' name h' = replug n id x' name h'.
Proof.
  unfold replug, set_host, set_interface. sponge_simpl. by rewrite insert_insert_eq, list_insert_insert_eq.
Qed.

Lemma connect_rounds_cable k n id name x h x' y' :
  interface (_router n) id = Ok x -> host n name = Ok h -> cable k x (_interface h) = Ok (x', y') ->
  connect_rounds k n id name = Ok (replug n id x' name (h <| _interface := y' |>)).
Proof.
  revert n x h. induction k as [|k IH]; intros n x h Hx Hh; cbn [cable connect_rounds].
  - intros [= <- <-]. rewrite replug_same; [done|done|]. by destruct h.
  - intros ([x1 y1] & E & Hk)%res_bind_ok. unfold connect2. rewrite Hx, Hh. cbn [res_bind]. rewrite E. cbn [res_bind].
    fold (replug n id x1 name (h <| _interface := y1 |>)).
    rewrite (IH _ x1 (h <| _interface := y1 |>)).
    + by rewrite replug_twice.
    + by apply (interface_set _ _ x).
    + apply host_set. by apply host_lookup in Hh as [_ ?].
    + done.
Qed.

Lemma digits_length base fuel n acc : (length (digits base fuel n acc) <= fuel + length acc)%nat.
Proof.
  revert n acc. induction fuel as [|fuel IH]; intros n acc; cbn [digits]; [lia|].
  destruct (_ <? _); [cbn [length]; lia|]. specialize (IH (n / base) (digit (n mod base) :: acc)). cbn [length] in IH. lia.
Qed.

Lemma number_length base n : (length (number base n) <= 64)%nat.
Proof. unfold number. etransitivity; [apply digits_length|]. cbn [length]. lia. Qed.

Lemma test_datagram_ok h destination time_to_live draw :
  0 <= _my_address h < 4294967296 -> 0 <= destination < 4294967296 -> 0 <= time_to_live < 256 ->
  datagram_ok (test_datagram h destination time_to_live draw).
Proof.
  intros Hs Hd Ht. unfold test_datagram. cbv zeta.
  assert (Hl : len (txt "random payload: {" ++ to_string draw ++ txt "}") <= 82).
  { rewrite !len_app. change (len (txt "random payload: {")) with 17. change (len (txt "}")) with 1.
    unfold len. pose proof (number_length 10 draw). unfold to_string. lia. }
  set (t := txt _ ++ _) in *. pose proof (len_nonneg t).
  assert (Hb : list_size [of_string t] = len t) by (rewrite list_size_ok; rewrite concatenate_one, of_string_str; [done|lia]).
  rewrite Hb. clearbody t. split; [|split].
  - split; cbn -[u16]; change (IPv4Header.LENGTH / 4) with 5; try lia; [|by unfold PROTO_TCP].
    unfold u16. rewrite Z.mod_small; lia.
  - apply Forall_singleton, of_string_wf. lia.
  - cbn -[u16 concatenate]. rewrite concatenate_one, of_string_str. change (IPv4Header.LENGTH / 4) with 5. unfold u16.
    rewrite Z.mod_small; lia.
Qed.

Lemma mjoin_single {A} (l : list (list A)) i q :
  l !! i = Some q -> (forall k p, k <> i -> l !! k = Some p -> p = []) -> mjoin l = q.
Proof.
  revert i. induction l as [|p l IH]; intros i Hi Ho; [done|]. destruct i as [|i]; cbn [mjoin list_join].
  - injection Hi as ->. replace (mjoin l) with (@nil A); [by rewrite app_nil_r|].
    symmetry. apply join_nil_2. apply Forall_lookup_2. intros k p Hk. by apply (Ho (S k) p).
  - rewrite (Ho 0%nat p (O_S i) eq_refl). apply (IH i Hi). intros k p' Hk. apply (Ho (S k)). congruence.
Qed.

(** The router forwards the only queued datagram. *)
Lemma route_single r i j x y e d n' :
  router_ok r -> i <> j -> _interfaces r !! i = Some x -> _interfaces r !! j = Some y ->
  datagrams_out x = [d] -> (forall k a, k <> i -> _interfaces r !! k = Some a -> datagrams_out a = []) ->
  1 < ttl (IPv4Datagram.header d) -> best_route (_routing_table r) (IPv4Header.dst (IPv4Datagram.header d)) e ->
  Z.to_nat (_interface_num e) = j ->
  send_datagram (base_interface y) (decrement_ttl d) (default (IPv4Header.dst (IPv4Datagram.header d)) (Router._next_hop e)) = Ok n' ->
  exists r', route r = Ok r' /\ _interfaces r' !! j = Some (y <| base_interface := n' |>).
Proof.
  intros Hr Hij Hx Hy Hq Hothers Ht He Hj Hs.
  destruct (route_from_forwards (length (_interfaces r)) r 0 Hr) as (r' & E & _ & Q & F); [by rewrite queues_length|].
  exists r'. split; [done|]. change (drop 0 (queues r)) with (queues r) in F.
  rewrite (mjoin_single (queues r) i [d]) in F.
  2: { unfold queues. by rewrite list_lookup_fmap, Hx, <- Hq. }
  2: { intros k p Hk. unfold queues. rewrite list_lookup_fmap. destruct (_interfaces r !! k) eqn:Ek; [|done].
       intros [= <-]. by apply (Hothers k). }
  inversion F as [|? ? ? ? Hle|? ? ? ? Hno|? ? ? ? e' n n'' _ Hb Hl Hsend Hd]; subst; [lia| |].
  { apply best_route_elem in He as [He Hc]. by destruct (Hno e). }
  rewrite (best_route_unique _ _ _ _ Hb He) in *. unfold bases in Hl. rewrite list_lookup_fmap, Hy in Hl.
  injection Hl as <-. rewrite Hs in Hsend. injection Hsend as <-.
  assert (Eb : <[Z.to_nat (_interface_num e) := n']> (bases r) = bases r') by (by inversion Hd).
  pose proof (lookup_lt_Some _ _ _ Hy) as Hlt.
  assert (Kb : bases r' !! Z.to_nat (_interface_num e) = Some n').
  { rewrite <- Eb. apply list_lookup_insert_eq. unfold bases. by rewrite length_fmap. }
  assert (Kq : queues r' !! Z.to_nat (_interface_num e) = Some []) by (rewrite Q; by apply lookup_replicate_2).
  unfold bases, queues in Kb, Kq. rewrite list_lookup_fmap in Kb. rewrite list_lookup_fmap in Kq.
  destruct (_interfaces r' !! _) as [[b q]|]; [|done]. cbn in Kb, Kq. injection Kb as ->. injection Kq as ->.
  pose proof (Hothers _ y (not_eq_sym Hij) Hy) as Hyq. unfold datagrams_out in Hyq. destruct y as [yb yq]. cbn in Hyq. by subst.
Qed.

(** One test of the program, on the two cables it needs: [from] sends, its cable
    is served, the router routes, the cable of [to] is served, and [to] checks. *)
Definition traffic (n : Network) (from : string) (i j : Z) (to : string) (destination time_to_live draw : Z) : res Network :=
  let* f := host n from in
  let* (f, dgram) := send_to f destination time_to_live draw in
  let* n := connect_rounds 3 (set_host n from f) i from in
  let* r := route (_router n) in
  let* n := connect_rounds 3 (n <| _router := r |>) j to in
  let* t := host n to in
  let* t := check (expect t (decrement_ttl dgram)) in
  Ok (set_host n to t).

(** [from], behind interface [i], can reach [to], behind interface [j], and nothing
    else is going on. *)
Record reaches (n : Network) (from : string) (i j : Z) (to : string) (destination : Z)
    (f t : Host) (x y : AsyncNetworkInterface) : Prop := {
  re_from : host n from = Ok f;
  re_to : host n to = Ok t;
  re_names : from <> to;
  re_x : interface (_router n) i = Ok x;
  re_y : interface (_router n) j = Ok y;
  re_ids : Z.to_nat i <> Z.to_nat j;
  re_router : router_ok (_router n);
  re_calm : forall k a, _interfaces (_router n) !! k = Some a -> datagrams_out a = [];
  re_idle : idle x /\ idle y /\ idle (_interface f) /\ idle (_interface t);
  re_first : can_send (_interface f) x;
  re_second : can_send y (_interface t);
  re_hop : _next_hop f = _ip_address (base_interface x);
  re_route : exists e, best_route (_routing_table (_router n)) destination e /\
    Z.to_nat (_interface_num e) = Z.to_nat j /\
    default destination (Router._next_hop e) = _ip_address (base_interface (_interface t));
  re_address : 0 <= _my_address f < 4294967296;
  re_waiting : datagrams_out (_interface t) = [] /\ _expecting_to_receive t = [];
}.

Lemma router_ok_set r i x :
  router_ok r -> Forall datagram_ok (datagrams_out x) -> router_ok (set_interface r i x).
Proof.
  intros [T N Q] Hx. split; unfold set_interface; sponge_simpl; [done| |].
  - unfold len in *. by rewrite length_insert.
  - by apply Forall_insert.
Qed.

(** The way from the host to the queue of the router. *)
Lemma first_hop n from i j to destination f t x y time_to_live draw :
  reaches n from i j to destination f t x y -> 0 <= destination < 4294967296 -> 0 <= time_to_live < 256 ->
  let dgram := test_datagram f destination time_to_live draw in
  exists f1 f' x' out, send_to f destination time_to_live draw = Ok (f <| _interface := f1 |>, dgram) /\
    connect_rounds 3 (set_host n from (f <| _interface := f1 |>)) i from =
      Ok (set_host (n <| _router := set_interface (_router n) i x' |>) from (f <| _interface := f' |>)) /\
    datagrams_out x' = [out] /\ carries dgram out.
Proof.
  intros [] Hd Ht dgram. destruct re_idle0 as (Ix & _ & If & _).
  pose proof (test_datagram_ok f destination time_to_live draw re_address0 Hd Ht) as Hok. fold dgram in Hok.
  destruct (cable_delivers (_interface f) x dgram If Ix Hok re_first0) as (f1 & f' & x' & Hs & Hc & []).
  destruct dv_receiver0 as (out & Hq & Hcar). exists f1, f', x', out. split_and!.
  - unfold send_to. fold dgram. rewrite re_hop0, Hs. done.
  - rewrite (connect_rounds_cable 3 _ i from x (f <| _interface := f1 |>) x' f'); [| | |by apply cable_swap].
    + unfold replug, set_host. sponge_simpl. by rewrite insert_insert_eq.
    + done.
    + apply host_set. by apply host_lookup in re_from0 as [_ ?].
  - rewrite Hq. apply interface_lookup in re_x0. by rewrite (re_calm0 _ _ re_x0).
  - done.
Qed.

(** The way from the queue of the router to the other host. *)
Lemma second_hop n j to t y d out r i x' e :
  router_ok r -> interface r i = Ok x' -> interface r j = Ok y -> Z.to_nat i <> Z.to_nat j ->
  datagrams_out x' = [out] -> (forall k a, k <> Z.to_nat i -> _interfaces r !! k = Some a -> datagrams_out a = []) ->
  best_route (_routing_table r) (IPv4Header.dst (IPv4Datagram.header d)) e -> Z.to_nat (_interface_num e) = Z.to_nat j ->
  default (IPv4Header.dst (IPv4Datagram.header d)) (Router._next_hop e) = _ip_address (base_interface (_interface t)) ->
  datagram_ok d -> carries d out -> 1 < ttl (IPv4Datagram.header d) ->
  host n to = Ok t -> idle y -> idle (_interface t) -> can_send y (_interface t) ->
  exists r' n' t', route r = Ok r' /\ connect_rounds 3 (n <| _router := r' |>) j to = Ok n' /\
    host n' to = Ok (t <| _interface := t' |>) /\
    exists out', datagrams_out t' = datagrams_out (_interface t) ++ [out'] /\ carries (decrement_ttl d) out'.
Proof.
  intros Hr Hx Hy Hij Hq Hothers He Hej Hhop Hd Hcar Ht Hhost Iy It Hcan.
  pose proof (carries_ok _ _ Hcar Hd) as Ho. pose proof (carries_ttl _ _ Hcar) as Hcar'.
  assert (Eh : IPv4Header.dst (IPv4Datagram.header out) = IPv4Header.dst (IPv4Datagram.header d) /\
               ttl (IPv4Datagram.header out) = ttl (IPv4Datagram.header d)).
  { destruct Hcar as (c & _ & -> & _). done. }
  destruct Eh as [Edst Ettl].
  destruct (cable_delivers y (_interface t) (decrement_ttl out) Iy It) as (y1 & y' & t' & Hs & Hc & []);
    [apply decrement_ttl_ok; [by rewrite Ettl|done]|done|].
  destruct dv_receiver0 as (out' & Hout & Hcar2). apply res_bind_ok in Hs as (n1 & Hs & [= <-]).
  apply interface_lookup in Hx, Hy.
  destruct (route_single r (Z.to_nat i) (Z.to_nat j) x' y e out n1) as (r' & Hroute & Hj);
    [done..|by rewrite Ettl|by rewrite Edst|done|by rewrite Edst, Hhop|].
  exists r'. do 2 eexists. split; [done|]. split; [|split].
  - eapply connect_rounds_cable; [by apply interface_lookup|exact Hhost|exact Hc].
  - apply host_set. by apply host_lookup in Hhost as [_ ?].
  - exists out'. split; [done|]. by eapply carries_trans.
Qed.

(** C14: a datagram that a simulated host sends to an address behind another interface of
    the router arrives, when nothing else is under way: three rounds on the cable of the
    sender, one of the router and three on the cable of the receiver later (a schedule of
    this theorem, [traffic]; the program serves all cables many times before it checks),
    the receiver has got exactly the datagram with its TTL decremented, so that its check
    passes. This holds for all Ethernet addresses, whether or not the next hops are
    resolved yet. *)
Theorem routed_traffic_succeeds n from i j to destination f t x y time_to_live draw :
  reaches n from i j to destination f t x y -> 0 <= destination < 4294967296 -> 1 < time_to_live < 256 ->
  exists n', traffic n from i j to destination time_to_live draw = Ok n'.
Proof.
  intros Hre Hd Ht.
  destruct (first_hop n from i j to destination f t x y time_to_live draw Hre Hd) as (f1 & f' & x' & out & Hs & H3 & Hq & Hcar); [lia|].
  destruct Hre. destruct re_route0 as (e & He & Hej & Hhop). destruct re_idle0 as (_ & Iy & _ & It).
  destruct re_waiting0 as [Hw1 Hw2].
  pose proof (test_datagram_ok f destination time_to_live draw re_address0 Hd ltac:(lia)) as Hok.
  set (dgram := test_datagram f destination time_to_live draw) in *. unfold traffic. rewrite re_from0. cbn [res_bind].
  rewrite Hs. cbn [res_bind]. rewrite H3. cbn [res_bind].
  set (n2 := set_host _ from _). set (r2 := set_interface (_router n) i x'). change (_router n2) with r2.
  destruct (second_hop n2 j to t y dgram out r2 i x' e) as (r' & n' & t' & -> & Hn' & Hh' & out' & Hq' & Hcar');
    try done; try (subst dgram; cbn; lia).
  - apply router_ok_set; [done|]. rewrite Hq. apply Forall_singleton. by eapply carries_ok.
  - by eapply interface_set.
  - apply interface_lookup in re_y0. apply interface_lookup. subst r2. unfold set_interface. sponge_simpl.
    by rewrite list_lookup_insert_ne.
  - intros k a Hk Ha. apply (re_calm0 k). subst r2. unfold set_interface in Ha. sponge_simpl.
    by rewrite list_lookup_insert_ne in Ha.
  - subst n2. by rewrite host_set_other.
  - cbn [res_bind]. rewrite Hn'. cbn [res_bind]. rewrite Hh'. cbn [res_bind].
    assert (Hdec : datagram_ok (decrement_ttl dgram)) by (apply decrement_ttl_ok; [subst dgram; cbn; lia|done]).
    set (w := concatenate (of_string (header_bytes ((IPv4Datagram.header (decrement_ttl dgram)) <| cksum :=
      header_checksum (IPv4Datagram.header (decrement_ttl dgram)) |>)) :: IPv4Datagram.payload (decrement_ttl dgram))).
    assert (Hwire : wire_text (decrement_ttl dgram) = Ok w) by (unfold wire_text; by rewrite (dgram_serialize_parts _ Hdec)).
    rewrite (check_spec _ [w] [w]).
    + rewrite bool_decide_eq_true_2 by done. by eexists.
    + change (datagrams_out (_interface _)) with (datagrams_out t'). rewrite Hq', Hw1. constructor; [|constructor].
      by rewrite (carries_wire_text _ _ Hdec Hcar').
    + change (_expecting_to_receive _) with (_expecting_to_receive t ++ [decrement_ttl dgram]). rewrite Hw2.
      by repeat constructor.
Qed.

(** ** Witnesses *)

(** The network of the program, with some addresses. *)
Definition drawn (i : nat) : list Z := [Z.of_nat i; 1; 2; 3; 4; 256 + Z.of_nat i].
Definition example_network : Network := res_or (new_network drawn) (mkNetwork Router.new ∅).
Definition applesauce : Host := new_host (drawn 7) "applesauce" (ip 10 0 0 2) (ip 10 0 0 1).
Definition cherrypie : Host := new_host (drawn 9) "cherrypie" (ip 192 168 0 2) (ip 192 168 0 1).
Definition eth0 : AsyncNetworkInterface := of_interface (NetworkInterface.new (random_router_ethernet_address (drawn 1)) (ip 10 0 0 1)).
Definition eth2 : AsyncNetworkInterface := of_interface (NetworkInterface.new (random_router_ethernet_address (drawn 3)) (ip 192 168 0 1)).

Lemma example_reaches :
  reaches example_network "applesauce" eth0_id eth2_id "cherrypie" (ip 192 168 0 2) applesauce cherrypie eth0 eth2.
Proof.
  split; try (vm_compute; reflexivity); try done; try (vm_compute; congruence).
  - split; repeat constructor; vm_compute; congruence.
  - intros k a Hk. do 7 (destruct k as [|k]; [vm_compute in Hk; by injection Hk as <-|]). vm_compute in Hk. by destruct k.
  - right. split; vm_compute; reflexivity.
  - right. split; vm_compute; reflexivity.
  - exists (mkRoutingTableEntry (ip 192 168 0 0) 24 None eth2_id). split; [|done].
    assert (T : Forall entry_ok (_routing_table (_router example_network))) by (repeat constructor; vm_compute; congruence).
    pose proof (find_route_spec (_router example_network) (ip 192 168 0 2) ltac:(vm_compute; split; congruence) T) as Hf.
    by vm_compute in Hf |- *.
Qed.

Lemma routed_traffic_succeeds_witness :
  exists n', traffic example_network "applesauce" eth0_id eth2_id "cherrypie" (ip 192 168 0 2) 64 4711 = Ok n'.
Proof.
  apply (routed_traffic_succeeds _ _ _ _ _ _ _ _ _ _ 64 4711 example_reaches).
  - vm_compute. split; congruence.
  - lia.
Defined.

(** The whole program, with these addresses, ends without an exception. *)
Example simulator_succeeds :
  match network_simulator drawn (fun i => 1000 + Z.of_nat i) with Ok _ => true | Throw _ => false end = true.
Proof. vm_compute. reflexivity. Qed.
