(* ===== verification/Adapters.v ===== *)
(** * Adapters between TCP segments and datagram devices

    The datagram side of a TCP socket: segments in IPv4 datagrams on a TUN device,
    in IPv4 datagrams in Ethernet frames on a TAP device, and in UDP payloads
    (libsponge/tcp_helpers/{tcp_over_ip,fd_adapter,lossy_fd_adapter,tuntap_adapter},
    with FdAdapterConfig of tcp_config.hh).

    The devices are not modelled: [read] takes what [_tun.read()], [_tap.read()] or
    [_sock.recv()] returned, and every operation returns the packets it wrote.  An
    [Address] is an IPv4 address and a port. *)

From stdpp Require Import base list numbers option gmap.
From Stdlib Require Import ZArith Lia Strings.Byte.
From S2P Require Import Prelude.
From S2P Require Import Buffer.
From S2P Require Import Parser.
From S2P Require Import TCPHeader.
From S2P Require Import TCPSegment.
From S2P Require Import IPv4Header.
From S2P Require Import IPv4Datagram.
From S2P Require Import EthernetHeader.
From S2P Require Import EthernetFrame.
From S2P Require Import NetworkInterface.
#[local] Open Scope Z_scope.

Record Address := mkAddress {
  ipv4_numeric : Z;
  port : Z;
}.
#[global] Instance Address_eq_dec : EqDecision Address.
Proof. solve_decision. Defined.

Record FdAdapterConfig := mkFdAdapterConfig {
  source : Address;
  destination : Address;
  loss_rate_dn : Z;
  loss_rate_up : Z;
}.
#[global] Instance FdAdapterConfig_eta : RecordEta FdAdapterConfig := fun c =>
  mkFdAdapterConfig (source c) (destination c) (loss_rate_dn c) (loss_rate_up c).

Definition default_config : FdAdapterConfig := mkFdAdapterConfig (mkAddress 0 0) (mkAddress 0 0) 0 0.

Record FdAdapterBase := mkFdAdapterBase {
  _cfg : FdAdapterConfig;
  _listen : bool;
}.
#[global] Instance FdAdapterBase_eta : RecordEta FdAdapterBase := fun b => mkFdAdapterBase (_cfg b) (_listen b).

Definition new_base : FdAdapterBase := mkFdAdapterBase default_config false.
Definition set_listening (b : FdAdapterBase) (l : bool) : FdAdapterBase := b <| _listen := l |>.
Definition listening (b : FdAdapterBase) : bool := _listen b.
Definition config (b : FdAdapterBase) : FdAdapterConfig := _cfg b.

(** Assignment to [config_mut()]. *)
Definition set_config (b : FdAdapterBase) (c : FdAdapterConfig) : FdAdapterBase := b <| _cfg := c |>.

(** ** TCP in IPv4 *)

(** [inet_ntoa] and the constructor of [Address] take a number to its text and back. *)
Definition adopt_peer (b : FdAdapterBase) (ip_dgram : IPv4Datagram) (tcp_seg : TCPSegment) : FdAdapterBase :=
  let b := b <| _cfg := config b <| source := mkAddress (IPv4Header.dst (IPv4Datagram.header ip_dgram)) (port (source (config b))) |> |> in
  let b := b <| _cfg := config b <| destination := mkAddress (IPv4Header.src (IPv4Datagram.header ip_dgram)) (sport (TCPSegment.header tcp_seg)) |> |> in
  set_listening b false.

Definition unwrap_tcp_in_ip (b : FdAdapterBase) (ip_dgram : IPv4Datagram) : res (FdAdapterBase * option TCPSegment) :=
  let h := IPv4Datagram.header ip_dgram in
  if negb (listening b) && negb (IPv4Header.dst h =? ipv4_numeric (source (config b))) then Ok (b, None)
  else if negb (listening b) && negb (IPv4Header.src h =? ipv4_numeric (destination (config b))) then Ok (b, None)
  else if negb (proto h =? PROTO_TCP) then Ok (b, None)
  else
    let* buffer := to_buffer (IPv4Datagram.payload ip_dgram) in
    let* (r, tcp_seg) := TCPSegment.parse default_segment buffer (pseudo_cksum h) in
    if bool_decide (r <> NoError) then Ok (b, None)
    else if negb (dport (TCPSegment.header tcp_seg) =? port (source (config b))) then Ok (b, None)
    else if listening b && negb (syn (TCPSegment.header tcp_seg) && negb (rst (TCPSegment.header tcp_seg))) then Ok (b, None)
    else
      let b := if listening b then adopt_peer b ip_dgram tcp_seg else b in
      if negb (sport (TCPSegment.header tcp_seg) =? port (destination (config b))) then Ok (b, None)
      else Ok (b, Some tcp_seg).

(** [seg] with the port numbers of the connection *)
Definition set_ports (b : FdAdapterBase) (seg : TCPSegment) : TCPSegment :=
  seg <| TCPSegment.header := TCPSegment.header seg <| sport := port (source (config b)) |> <| dport := port (destination (config b)) |> |>.

(** The segment is changed in place: the result has it with its ports. *)
Definition wrap_tcp_in_ip (b : FdAdapterBase) (seg : TCPSegment) : res (TCPSegment * IPv4Datagram) :=
  let seg := set_ports b seg in
  let h := IPv4Header.default_header <| IPv4Header.src := ipv4_numeric (source (config b)) |>
    <| IPv4Header.dst := ipv4_numeric (destination (config b)) |> in
  let h := h <| tot_len := u16 (hlen h * 4 + doff (TCPSegment.header seg) * 4 + len (str (TCPSegment.payload seg))) |> in
  let* payload := TCPSegment.serialize seg (pseudo_cksum h) in
  Ok (seg, mkIPv4Datagram h payload).

(** ** The interface of an adapter *)

(** What [TCPSpongeSocket] and [LossyFdAdapter] use of their template parameter.
    [Packet] is what the device carries. *)
Class FdAdapter (A Packet : Type) := {
  adapter_read : A -> Packet -> res (A * option TCPSegment * list Packet);
  adapter_write : A -> TCPSegment -> res (A * TCPSegment * list Packet);
  adapter_tick : A -> Z -> A * list Packet;
  adapter_base : A -> FdAdapterBase;
  adapter_set_base : A -> FdAdapterBase -> A;
}.

(** ** TUN *)

Record TCPOverIPv4OverTunFdAdapter := mkTun { tun_base : FdAdapterBase }.

Definition tun_read (a : TCPOverIPv4OverTunFdAdapter) (packet : bytes)
    : res (TCPOverIPv4OverTunFdAdapter * option TCPSegment * list bytes) :=
  let* (r, ip_dgram) := IPv4Datagram.parse default_datagram (of_string packet) in
  if bool_decide (r <> NoError) then Ok (a, None, [])
  else
    let* (b, seg) := unwrap_tcp_in_ip (tun_base a) ip_dgram in
    Ok (mkTun b, seg, []).

Definition tun_write (a : TCPOverIPv4OverTunFdAdapter) (seg : TCPSegment)
    : res (TCPOverIPv4OverTunFdAdapter * TCPSegment * list bytes) :=
  let* (seg, ip_dgram) := wrap_tcp_in_ip (tun_base a) seg in
  let* bl := IPv4Datagram.serialize ip_dgram in
  Ok (a, seg, [concatenate bl]).

#[global] Instance tun_adapter : FdAdapter TCPOverIPv4OverTunFdAdapter bytes := {
  adapter_read := tun_read;
  adapter_write := tun_write;
  adapter_tick := fun a _ => (a, []);
  adapter_base := tun_base;
  adapter_set_base := fun _ b => mkTun b;
}.

(** ** TAP *)

Record TCPOverIPv4OverEthernetAdapter := mkTap {
  tap_base : FdAdapterBase;
  _interface : NetworkInterface;
  _next_hop : Address;
}.
#[global] Instance Tap_eta : RecordEta TCPOverIPv4OverEthernetAdapter := fun a =>
  mkTap (tap_base a) (_interface a) (_next_hop a).

(** The constructor writes a dummy frame. *)
Definition tap_new (eth_address : EthernetAddress) (ip_address next_hop : Address)
    : TCPOverIPv4OverEthernetAdapter * list bytes :=
  (mkTap new_base (NetworkInterface.new eth_address (ipv4_numeric ip_address)) next_hop,
   [concatenate (EthernetFrame.serialize default_frame)]).

(** The loop writes every pending frame, the first one first. *)
Definition send_pending (a : TCPOverIPv4OverEthernetAdapter) : TCPOverIPv4OverEthernetAdapter * list bytes :=
  (a <| _interface := _interface a <| _frames_out := [] |> |>,
   map (fun f => concatenate (EthernetFrame.serialize f)) (frames_out (_interface a))).

Definition tap_read (a : TCPOverIPv4OverEthernetAdapter) (packet : bytes)
    : res (TCPOverIPv4OverEthernetAdapter * option TCPSegment * list bytes) :=
  let* (r, frame) := EthernetFrame.parse default_frame (of_string packet) in
  if bool_decide (r <> NoError) then Ok (a, None, [])
  else
    let* (n, ip_dgram) := recv_frame (_interface a) frame in
    let (a, out) := send_pending (a <| _interface := n |>) in
    match ip_dgram with
    | Some d =>
        let* (b, seg) := unwrap_tcp_in_ip (tap_base a) d in
        Ok (a <| tap_base := b |>, seg, out)
    | None => Ok (a, None, out)
    end.

Definition tap_tick (a : TCPOverIPv4OverEthernetAdapter) (ms_since_last_tick : Z)
    : TCPOverIPv4OverEthernetAdapter * list bytes :=
  send_pending (a <| _interface := NetworkInterface.tick (_interface a) ms_since_last_tick |>).

Definition tap_write (a : TCPOverIPv4OverEthernetAdapter) (seg : TCPSegment)
    : res (TCPOverIPv4OverEthernetAdapter * TCPSegment * list bytes) :=
  let* (seg, ip_dgram) := wrap_tcp_in_ip (tap_base a) seg in
  let* n := send_datagram (_interface a) ip_dgram (ipv4_numeric (_next_hop a)) in
  let (a, out) := send_pending (a <| _interface := n |>) in
  Ok (a, seg, out).

#[global] Instance tap_adapter : FdAdapter TCPOverIPv4OverEthernetAdapter bytes := {
  adapter_read := tap_read;
  adapter_write := tap_write;
  adapter_tick := tap_tick;
  adapter_base := tap_base;
  adapter_set_base := fun a b => a <| tap_base := b |>;
}.

(** ** UDP *)

Record TCPOverUDPSocketAdapter := mkUdp { udp_base : FdAdapterBase }.

(** A UDP datagram with the address it comes from or goes to. *)
Definition received_datagram : Type := Address * bytes.

Definition udp_read (a : TCPOverUDPSocketAdapter) (datagram : received_datagram)
    : res (TCPOverUDPSocketAdapter * option TCPSegment * list received_datagram) :=
  let (source_address, payload) := datagram in
  let b := udp_base a in
  if negb (listening b) && bool_decide (source_address <> destination (config b)) then Ok (a, None, [])
  else
    let* (r, seg) := TCPSegment.parse default_segment (of_string payload) 0 in
    if bool_decide (r <> NoError) then Ok (a, None, [])
    else if listening b then
      if syn (TCPSegment.header seg) && negb (rst (TCPSegment.header seg)) then
        let b := b <| _cfg := config b <| destination := source_address |> |> in
        Ok (mkUdp (set_listening b false), Some seg, [])
      else Ok (a, None, [])
    else Ok (a, Some seg, []).

Definition udp_write (a : TCPOverUDPSocketAdapter) (seg : TCPSegment)
    : res (TCPOverUDPSocketAdapter * TCPSegment * list received_datagram) :=
  let seg := set_ports (udp_base a) seg in
  let* bl := TCPSegment.serialize seg 0 in
  Ok (a, seg, [(destination (config (udp_base a)), concatenate bl)]).

#[global] Instance udp_adapter : FdAdapter TCPOverUDPSocketAdapter received_datagram := {
  adapter_read := udp_read;
  adapter_write := udp_write;
  adapter_tick := fun a _ => (a, []);
  adapter_base := udp_base;
  adapter_set_base := fun _ b => mkUdp b;
}.

(** ** Random loss *)

Section Lossy.

(** The random generator and its [operator()]. *)
Context {Rng : Type} (draw : Rng -> Z * Rng).
Context {A Packet : Type} `{!FdAdapter A Packet}.

Record LossyFdAdapter := mkLossy {
  _rand : Rng;
  _adapter : A;
}.

Definition _should_drop (l : LossyFdAdapter) (uplink : bool) : bool * LossyFdAdapter :=
  let cfg := config (adapter_base (_adapter l)) in
  let loss := if uplink then loss_rate_up cfg else loss_rate_dn cfg in
  if loss =? 0 then (false, l)
  else let (r, g) := draw (_rand l) in (u16 r <? loss, mkLossy g (_adapter l)).

Definition lossy_read (l : LossyFdAdapter) (packet : Packet) : res (LossyFdAdapter * option TCPSegment * list Packet) :=
  let* (a, ret, out) := adapter_read (_adapter l) packet in
  let (drop, l) := _should_drop (mkLossy (_rand l) a) false in
  Ok (l, if drop then None else ret, out).

Definition lossy_write (l : LossyFdAdapter) (seg : TCPSegment) : res (LossyFdAdapter * TCPSegment * list Packet) :=
  let (drop, l) := _should_drop l true in
  if drop then Ok (l, seg, [])
  else
    let* (a, seg, out) := adapter_write (_adapter l) seg in
    Ok (mkLossy (_rand l) a, seg, out).

Definition lossy_tick (l : LossyFdAdapter) (ms_since_last_tick : Z) : LossyFdAdapter * list Packet :=
  let (a, out) := adapter_tick (_adapter l) ms_since_last_tick in (mkLossy (_rand l) a, out).

#[global] Instance lossy_adapter : FdAdapter LossyFdAdapter Packet := {
  adapter_read := lossy_read;
  adapter_write := lossy_write;
  adapter_tick := lossy_tick;
  adapter_base := fun l => adapter_base (_adapter l);
  adapter_set_base := fun l b => mkLossy (_rand l) (adapter_set_base (_adapter l) b);
}.

End Lossy.
Arguments LossyFdAdapter : clear implicits.
