(* ===== verification/Transmission.v ===== *)
(** * Adapters: what one side writes, the other side reads

    Segments cross the wire unchanged over IPv4 and over Ethernet with address
    resolution, and only segments of the connection get through the filters. *)

From stdpp Require Import base list numbers option gmap.
From Stdlib Require Import ZArith Lia Strings.Byte.
From S2P Require Import Prelude.
From S2P Require Import Buffer.
From S2P Require Import Parser.
From S2P Require Import WrappingIntegers.
From S2P Require Import TCPHeader.
From S2P Require Import TCPSegment.
From S2P Require Import IPv4Header.
From S2P Require Import IPv4Datagram.
From S2P Require Import EthernetHeader.
From S2P Require Import EthernetFrame.
From S2P Require Import ARPMessage.
From S2P Require Import NetworkInterface.
From S2P Require Import Resolution.
From S2P Require Import Adapters.
#[local] Open Scope Z_scope.

(** ** Well-formed configurations *)

Definition addr_ok (a : Address) : Prop := 0 <= ipv4_numeric a < 4294967296 /\ 0 <= port a < 65536.

Definition base_ok (b : FdAdapterBase) : Prop := addr_ok (source (config b)) /\ addr_ok (destination (config b)).

(** A segment that fits an IPv4 datagram. *)
Definition sendable (seg : TCPSegment) : Prop :=
  segment_ok seg /\ 20 + 4 * doff (TCPSegment.header seg) + len (str (TCPSegment.payload seg)) < 65536.

(** [hears a b seg b']: a segment [seg] written by [a] is one for [b], which becomes
    [b']: either [b] is connected to [a], or it listens on the port and the segment
    opens a connection. *)
Definition hears (a b : FdAdapterBase) (seg : TCPSegment) (b' : FdAdapterBase) : Prop :=
  listening b = false /\ source (config b) = destination (config a) /\ destination (config b) = source (config a) /\ b' = b \/
  listening b = true /\ port (source (config b)) = port (destination (config a)) /\
  syn (TCPSegment.header seg) = true /\ rst (TCPSegment.header seg) = false /\
  b' = mkFdAdapterBase (config b <| source := destination (config a) |> <| destination := source (config a) |>) false.

(** ** Wrapping *)

Lemma set_ports_ok b seg : base_ok b -> sendable seg -> sendable (set_ports b seg).
Proof. intros [[] []] [([] & Hwf & Hl) Hs]. split; [split; [split; done|done]|done]. Qed.

Lemma wrapped_ok b seg :
  base_ok b -> sendable seg ->
  exists d, wrap_tcp_in_ip b seg = Ok (set_ports b seg, d) /\ datagram_ok d /\
    IPv4Header.src (IPv4Datagram.header d) = ipv4_numeric (source (config b)) /\
    IPv4Header.dst (IPv4Datagram.header d) = ipv4_numeric (destination (config b)) /\
    proto (IPv4Datagram.header d) = PROTO_TCP /\
    concatenate (IPv4Datagram.payload d) =
      TCPHeader.head_bytes (TCPSegment.header (set_ports b seg)) ++
      be_bytes 2 (seg_checksum (set_ports b seg) (pseudo_cksum (IPv4Datagram.header d))) ++
      TCPHeader.tail_bytes (TCPSegment.header (set_ports b seg)) ++ str (TCPSegment.payload seg).
Proof.
  intros Hb Hs. pose proof (set_ports_ok b seg Hb Hs) as [Hok _]. unfold wrap_tcp_in_ip.
  destruct Hs as [(Hhs & _) Hlen]. pose proof (ok_doff _ Hhs) as Hdoff.
  pose proof (len_nonneg (str (TCPSegment.payload seg))) as Hnn.
  set (h := _ <| tot_len := _ |>). destruct Hb as [[Hi1 Hp1] [Hi2 Hp2]].
  assert (Ht : tot_len h = 20 + 4 * doff (TCPSegment.header seg) + len (str (TCPSegment.payload seg))).
  { unfold h, set_ports. sponge_simpl. change (IPv4Header.LENGTH / 4 * 4) with 20. rewrite u16_small; lia. }
  assert (Hh : IPv4Header.header_ok h).
  { split; try done; rewrite ?Ht; change (hlen h) with 5; lia. }
  pose proof (pseudo_cksum_range h Hh) as Hr.
  destruct (seg_serialize_parts _ _ Hok Hr) as (Hc & -> & _). cbn [res_bind]. eexists. split; [done|].
  set (c := seg_checksum _ _) in *. set (hd := TCPSegment.header (set_ports b seg)) in *.
  change (TCPSegment.payload (set_ports b seg)) with (TCPSegment.payload seg).
  assert (Hcat : concatenate [of_string (TCPHeader.head_bytes hd ++ be_bytes 2 c ++ TCPHeader.tail_bytes hd); TCPSegment.payload seg] =
    TCPHeader.head_bytes hd ++ be_bytes 2 c ++ TCPHeader.tail_bytes hd ++ str (TCPSegment.payload seg)).
  { rewrite concatenate_cons, concatenate_one, of_string_str. by rewrite <- !app_assoc. }
  assert (Hl : len (TCPHeader.head_bytes hd ++ be_bytes 2 c ++ TCPHeader.tail_bytes hd) = 4 * doff (TCPSegment.header seg)).
  { exact (len_serialized (hd <| TCPHeader.cksum := c |>) (tcp_header_ok_cksum _ _ (proj1 Hok) Hc)). }
  split; [|by split_and!].
  split; [done|]. split.
  - apply Forall_cons. split; [apply of_string_wf; rewrite Hl; lia|].
    apply Forall_singleton. apply Hok.
  - cbn [IPv4Datagram.header IPv4Datagram.payload]. rewrite Hcat. rewrite !app_assoc, len_app, <- !app_assoc, Hl, Ht.
    change (hlen h) with 5. lia.
Qed.

(** ** Unwrapping *)

Lemma dgram_parse_one old b r d : IPv4Datagram.parse old b = Ok (r, d) -> exists q, IPv4Datagram.payload d = [q].
Proof.
  unfold IPv4Datagram.parse. intros ([[r0 h] q] & _ & H)%res_bind_ok. exists (_buffer q).
  revert H. case_bool; by intros [= <- <-].
Qed.

(** What [unwrap_tcp_in_ip] looks at: not the checksum field nor the TTL. *)
Record same_flow (h h' : IPv4Header) : Prop := {
  sf_src : IPv4Header.src h' = IPv4Header.src h;
  sf_dst : IPv4Header.dst h' = IPv4Header.dst h;
  sf_proto : proto h' = proto h;
  sf_pseudo : pseudo_cksum h' = pseudo_cksum h;
}.

Lemma same_flow_cksum h h' c : h' = h <| IPv4Header.cksum := c |> -> same_flow h h'.
Proof. by intros ->. Qed.

Lemma same_flow_ttl h t : same_flow h (h <| ttl := t |>).
Proof. done. Qed.

Lemma same_flow_trans h1 h2 h3 : same_flow h1 h2 -> same_flow h2 h3 -> same_flow h1 h3.
Proof. intros [] []. split; congruence. Qed.

(** Reads back a wrapped segment. *)
Lemma unwrap_wrapped a b b' seg d d' q :
  base_ok a -> sendable seg -> hears a b seg b' -> wrap_tcp_in_ip a seg = Ok (set_ports a seg, d) ->
  same_flow (IPv4Datagram.header d) (IPv4Datagram.header d') ->
  IPv4Datagram.payload d' = [q] -> buf_wf q -> str q = concatenate (IPv4Datagram.payload d) ->
  exists c' out, unwrap_tcp_in_ip b d' = Ok (b', Some out) /\
    TCPSegment.header out = TCPSegment.header (set_ports a seg) <| TCPHeader.cksum := c' |> /\
    str (TCPSegment.payload out) = str (TCPSegment.payload seg).
Proof.
  intros Ha Hs Hh Hw [Fs Fd Fp Fc] Hq Hwf Hst.
  destruct (wrapped_ok a seg Ha Hs) as (d0 & Hw0 & Hdok & Hsrc & Hdst & Hpr & Hcat).
  rewrite Hw in Hw0. injection Hw0 as <-. rewrite Hcat in Hst.
  destruct (seg_parse_serialized _ _ default_segment q (proj1 (set_ports_ok a seg Ha Hs))
    (pseudo_cksum_range _ (proj1 Hdok)) Hwf Hst) as (out & Hp & Ho & Hpl).
  exists (seg_checksum (set_ports a seg) (pseudo_cksum (IPv4Datagram.header d))), out.
  split; [|by split].
  unfold unwrap_tcp_in_ip. rewrite Hq. cbn [to_buffer res_bind]. rewrite Fc, Hp, Fs, Fd, Fp.
  rewrite Hsrc, Hdst, Hpr, Z.eqb_refl. cbn [negb res_bind].
  rewrite (bool_decide_eq_false_2 (NoError <> NoError)) by (intros H; by apply H).
  assert (Edp : dport (TCPSegment.header out) = port (destination (config a))) by (by rewrite Ho).
  assert (Esp : sport (TCPSegment.header out) = port (source (config a))) by (by rewrite Ho).
  assert (Esy : syn (TCPSegment.header out) = syn (TCPSegment.header seg)) by (by rewrite Ho).
  assert (Ers : rst (TCPSegment.header out) = rst (TCPSegment.header seg)) by (by rewrite Ho).
  unfold adopt_peer. rewrite Edp, Esp, Esy, Ers, Fs, Fd.
  destruct Hh as [(Hl & E1 & E2 & ->)|(Hl & E1 & Hsyn & Hrst & ->)]; rewrite Hl; cbn [negb andb].
  - by rewrite E1, E2, !Z.eqb_refl.
  - rewrite E1, Hsyn, Hrst, Z.eqb_refl. cbn [negb andb].
    rewrite Hsrc, Hdst. sponge_simpl. rewrite Z.eqb_refl. cbn [negb].
    unfold set_listening. sponge_simpl. by destruct (source (config a)), (destination (config a)).
Qed.

(** ** TUN and TAP devices *)

(** A frame on the wire, read from the TAP device. *)
Lemma tap_read_wire a f g :
  wire f = Ok g ->
  tap_read a (concatenate (EthernetFrame.serialize f)) =
    (let* (n, ip_dgram) := recv_frame (_interface a) g in
     let (a, out) := send_pending (a <| _interface := n |>) in
     match ip_dgram with
     | Some d => let* (b, seg) := unwrap_tcp_in_ip (tap_base a) d in Ok (a <| tap_base := b |>, seg, out)
     | None => Ok (a, None, out)
     end).
Proof.
  unfold wire, tap_read. intros ([r f'] & -> & H)%res_bind_ok. cbn [res_bind]. revert H.
  case_bool_decide; [|done]. subst r. intros [= ->].
  by rewrite (bool_decide_eq_false_2 (NoError <> NoError)) by (intros H; by apply H).
Qed.

(** A datagram parsed from what a peer serialized, in the form [unwrap_wrapped] takes. *)
Lemma parsed_payload d d' b :
  IPv4Datagram.parse default_datagram b = Ok (NoError, d') ->
  concatenate (IPv4Datagram.payload d') = concatenate (IPv4Datagram.payload d) ->
  exists q, IPv4Datagram.payload d' = [q] /\ str q = concatenate (IPv4Datagram.payload d).
Proof.
  intros Hp Hc. destruct (dgram_parse_one _ _ _ _ Hp) as [q Hq]. exists q. split; [done|].
  by rewrite Hq, concatenate_one in Hc.
Qed.

(** ** Properties *)

(** Over a TUN device, a segment written by one side is read by the other, in
    its connection or as the first segment it hears while listening: the same
    header, with the ports and the checksum filled in, and the same payload.  A
    listening side takes the addresses of the connection from it. *)
Theorem tun_delivers a b b' seg :
  base_ok (tun_base a) -> sendable seg -> hears (tun_base a) (tun_base b) seg b' ->
  exists packet, tun_write a seg = Ok (a, set_ports (tun_base a) seg, [packet]) /\
  exists c out, tun_read b packet = Ok (mkTun b', Some out, []) /\
    TCPSegment.header out = TCPSegment.header (set_ports (tun_base a) seg) <| TCPHeader.cksum := c |> /\
    str (TCPSegment.payload out) = str (TCPSegment.payload seg).
Proof.
  intros Ha Hs Hh. destruct (wrapped_ok _ _ Ha Hs) as (d & Hw & Hd & _). unfold tun_write. rewrite Hw. cbn [res_bind].
  rewrite (dgram_serialize_parts d Hd). cbn [res_bind]. eexists. split; [done|].
  set (packet := concatenate _). destruct (header_checksum_ok _ (proj1 Hd)) as [Hc _].
  assert (Hl : len packet < 18446744073709551616).
  { unfold packet. rewrite concatenate_cons, len_app, of_string_str.
    pose proof (len_header_bytes _ (ip_header_ok_cksum _ _ (proj1 Hd) Hc)) as Hlen. sponge_simpl.
    destruct Hd as ([] & _ & Hl). lia. }
  destruct (parse_of_serialized d default_datagram (of_string packet) Hd (of_string_wf _ Hl)) as (d' & Hp & Ho & Hwf & Hcat).
  { by rewrite of_string_str. }
  destruct (parsed_payload d d' _ Hp Hcat) as (q & Hq & Hst). rewrite Hq in Hwf. apply Forall_inv in Hwf.
  destruct (unwrap_wrapped _ _ _ _ _ _ _ Ha Hs Hh Hw (same_flow_cksum _ _ _ Ho) Hq Hwf Hst) as (c & out & Hu & Hout).
  exists c, out. split; [|done]. unfold tun_read. rewrite Hp. cbn [res_bind].
  rewrite (bool_decide_eq_false_2 (NoError <> NoError)) by (intros H; by apply H). by rewrite Hu.
Qed.

(** C13: over Ethernet with an unresolved next hop, a segment still arrives: writing
    it puts an ARP request on the wire, the peer's answer to the request releases
    the datagram, and the peer reads the segment from it. *)
Theorem full_stack_delivers a b b' seg :
  base_ok (tap_base a) -> sendable seg -> hears (tap_base a) (tap_base b) seg b' ->
  address_ok (_ethernet_address (_interface a)) -> address_ok (_ethernet_address (_interface b)) ->
  0 <= _ip_address (_interface a) < 4294967296 -> 0 <= _ip_address (_interface b) < 4294967296 ->
  ipv4_numeric (_next_hop a) = _ip_address (_interface b) ->
  _IP_MAC_cache (_interface a) !! _ip_address (_interface b) = None ->
  _waiting_list (_interface a) !! _ip_address (_interface b) = None ->
  frames_out (_interface a) = [] -> frames_out (_interface b) = [] ->
  exists a1 a2 b1 req rep dat c out,
    tap_write a seg = Ok (a1, set_ports (tap_base a) seg, [req]) /\
    tap_read b req = Ok (b1, None, [rep]) /\
    tap_read a1 rep = Ok (a2, None, [dat]) /\
    tap_read b1 dat = Ok (b1 <| tap_base := b' |>, Some out, []) /\
    TCPSegment.header out = TCPSegment.header (set_ports (tap_base a) seg) <| TCPHeader.cksum := c |> /\
    str (TCPSegment.payload out) = str (TCPSegment.payload seg).
Proof.
  intros Ha Hs Hh Ma Mb Ia Ib Hn Hc Hw Fa Fb. destruct (wrapped_ok _ _ Ha Hs) as (d & Hwr & Hd & _).
  destruct (send_asks (_interface a) d (_ip_address (_interface b))) as (n1 & req & S1 & F1 & A1 & Wait & M1 & _); [done..|].
  destruct (arrives_wire _ _ _ A1) as (bq & W1 & P1).
  destruct (owner_answers (_interface b) _ bq P1) as (m1 & rep & R1 & F2 & A2 & M2 & _); [done..|].
  destruct (arrives_wire _ _ _ A2) as (bp & W2 & P2).
  destruct (answer_releases (n1 <| _frames_out := [] |>) _ bp (_ethernet_address (_interface b)) d P2)
    as (n2 & dat & R2 & F3 & A3 & _); [done|done|done| |done|].
  { change (address_ok (_ethernet_address n1)). by rewrite M1. }
  destruct (arrives_wire _ _ _ A3) as (bd & W3 & (c & out & P3 & Wf & Ho & Hcat & _)).
  change (_ethernet_address (n1 <| _frames_out := [] |>)) with (_ethernet_address n1) in *. rewrite M1 in *.
  destruct (parsed_payload d out _ P3 Hcat) as (q & Hq & Hst). rewrite Hq in Wf. apply Forall_inv in Wf.
  destruct (unwrap_wrapped _ _ _ _ _ _ _ Ha Hs Hh Hwr (same_flow_cksum _ _ _ Ho) Hq Wf Hst) as (c' & seg' & Hu & Hseg).
  rewrite Fa in F1. rewrite Fb in F2. change (frames_out (n1 <| _frames_out := [] |>)) with (@nil EthernetFrame) in F3.
  exists (a <| _interface := n1 <| _frames_out := [] |> |>), (a <| _interface := n2 <| _frames_out := [] |> |>),
    (b <| _interface := m1 <| _frames_out := [] |> |>), (concatenate (EthernetFrame.serialize req)),
    (concatenate (EthernetFrame.serialize rep)), (concatenate (EthernetFrame.serialize dat)), c', seg'.
  split; [|split; [|split; [|split; [|done]]]].
  - unfold tap_write. rewrite Hwr. cbn [res_bind]. rewrite Hn, S1. cbn [res_bind]. unfold send_pending.
    change (_interface (a <| _interface := n1 |>)) with n1. by rewrite F1.
  - rewrite (tap_read_wire b _ _ W1).
    change (sender_ethernet_address (arp_request (_interface a) _)) with (_ethernet_address (_interface a)) in R1.
    rewrite R1. cbn [res_bind]. unfold send_pending. change (_interface (b <| _interface := m1 |>)) with m1. by rewrite F2.
  - rewrite (tap_read_wire _ _ _ W2). cbn [_interface field_update].
    change (_interface (a <| _interface := n1 <| _frames_out := [] |> |>)) with (n1 <| _frames_out := [] |>).
    change (sender_ethernet_address (arp_request (_interface a) _)) with (_ethernet_address (_interface a)).
    rewrite R2. cbn [res_bind]. unfold send_pending. sponge_simpl. by rewrite F3.
  - rewrite (tap_read_wire _ _ _ W3).
    change (_interface (b <| _interface := m1 <| _frames_out := [] |> |>)) with (m1 <| _frames_out := [] |>).
    change (sender_ethernet_address (arp_reply _ _)) with (_ethernet_address (_interface b)). rewrite <- M2.
    change (_ethernet_address m1) with (_ethernet_address (m1 <| _frames_out := [] |>)).
    rewrite (recv_ip _ _ _ _ P3). cbn [res_bind]. unfold send_pending. sponge_simpl. by rewrite Hu.
Qed.

(** C20: a segment that gets through the filter is one of the connection: its
    addresses and ports are those of the two ends, its checksum is right, and the
    adapter no longer listens.  The connection was fixed before, or it is the one
    this segment opens. *)
Theorem unwrap_only_peer b d b' seg :
  unwrap_tcp_in_ip b d = Ok (b', Some seg) ->
  let h := IPv4Datagram.header d in
  listening b' = false /\ proto h = PROTO_TCP /\
  IPv4Header.src h = ipv4_numeric (destination (config b')) /\ IPv4Header.dst h = ipv4_numeric (source (config b')) /\
  sport (TCPSegment.header seg) = port (destination (config b')) /\
  dport (TCPSegment.header seg) = port (source (config b')) /\
  (exists buffer, to_buffer (IPv4Datagram.payload d) = Ok buffer /\
    TCPSegment.parse default_segment buffer (pseudo_cksum h) = Ok (NoError, seg)) /\
  (b' = b \/ listening b = true /\ syn (TCPSegment.header seg) = true /\ rst (TCPSegment.header seg) = false).
Proof.
  unfold unwrap_tcp_in_ip. cbv zeta. set (h := IPv4Datagram.header d).
  destruct (negb (listening b) && negb (IPv4Header.dst h =? _)) eqn:E1; [done|].
  destruct (negb (listening b) && negb (IPv4Header.src h =? _)) eqn:E2; [done|].
  destruct (Z.eqb_spec (proto h) PROTO_TCP) as [E3|]; [|done]. cbn [negb].
  intros (buffer & Hbuf & ([r seg'] & Hp & H)%res_bind_ok)%res_bind_ok. revert H.
  case_bool_decide as Er; [done|]. assert (r = NoError) as -> by (by destruct (decide (r = NoError))).
  destruct (Z.eqb_spec (dport (TCPSegment.header seg')) (port (source (config b)))) as [E4|]; [|done]. cbn [negb].
  destruct (listening b) eqn:El; cbn [negb andb] in *.
  - destruct (syn (TCPSegment.header seg')) eqn:Es, (rst (TCPSegment.header seg')) eqn:Et; cbn [negb andb]; try done.
    case_bool; [done|]. intros [= <- <-]. sponge_simpl. split_and!; try done; [by exists buffer|by right].
  - apply negb_false_iff, Z.eqb_eq in E1, E2.
    destruct (Z.eqb_spec (sport (TCPSegment.header seg')) (port (destination (config b)))); [|done]. cbn [negb].
    intros [= <- <-]. split_and!; try done; [by exists buffer|by left].
Qed.

(** Over UDP, a connected adapter takes every segment from its peer's address,
    whatever ports the TCP header has: they are not compared with the
    configuration. *)
Theorem udp_ports_unchecked a seg :
  listening (udp_base a) = false -> segment_ok seg ->
  exists bl, TCPSegment.serialize seg 0 = Ok bl /\
  exists c out, udp_read a (destination (config (udp_base a)), concatenate bl) = Ok (a, Some out, []) /\
    TCPSegment.header out = TCPSegment.header seg <| TCPHeader.cksum := c |> /\
    str (TCPSegment.payload out) = str (TCPSegment.payload seg).
Proof.
  intros Hl Hok. destruct (seg_serialize_parts seg 0 Hok ltac:(lia)) as (Hc & -> & _). eexists. split; [done|].
  set (packet := concatenate _).
  assert (Hs : packet = TCPHeader.head_bytes (TCPSegment.header seg) ++ be_bytes 2 (seg_checksum seg 0) ++
    TCPHeader.tail_bytes (TCPSegment.header seg) ++ str (TCPSegment.payload seg)).
  { unfold packet. rewrite concatenate_cons, concatenate_one, of_string_str. by rewrite <- !app_assoc. }
  destruct (seg_parse_serialized seg 0 default_segment (of_string packet) Hok ltac:(lia)) as (out & Hp & Ho & Hpl).
  - apply of_string_wf. destruct Hok as (Hh & _ & Hp).
    pose proof (len_serialized (TCPSegment.header seg <| TCPHeader.cksum := seg_checksum seg 0 |>) (tcp_header_ok_cksum _ _ Hh Hc)) as Hlen.
    rewrite head_bytes_cksum, tail_bytes_cksum, !len_app in Hlen. rewrite Hs, !len_app. pose proof (ok_doff _ Hh).
    sponge_simpl. lia.
  - by rewrite of_string_str.
  - exists (seg_checksum seg 0), out. split; [|done]. unfold udp_read. rewrite Hl.
    rewrite (bool_decide_eq_false_2 (_ <> _)) by (intros H; by apply H). cbn [negb andb]. rewrite Hp. cbn [res_bind].
    by rewrite (bool_decide_eq_false_2 (NoError <> NoError)) by (intros H; by apply H).
Qed.

(** ** The lossy adapter *)

Section Lossy.

Context {Rng : Type} (draw : Rng -> Z * Rng) {A Packet : Type} `{!FdAdapter A Packet}.

(** Random loss only drops: a read returns nothing or what the adapter below
    reads, a write sends nothing or what the adapter below sends, and with loss rates
    of 0 nothing is dropped. *)
Theorem lossy_only_drops (l : LossyFdAdapter Rng A) (packet : Packet) (seg : TCPSegment) l1 r out1 l2 seg' out2 :
  lossy_read draw l packet = Ok (l1, r, out1) -> lossy_write draw l seg = Ok (l2, seg', out2) ->
  (exists r', adapter_read (_adapter l) packet = Ok (_adapter l1, r', out1) /\
    (r = r' \/ loss_rate_dn (config (adapter_base (_adapter l1))) <> 0 /\ r = None)) /\
  (adapter_write (_adapter l) seg = Ok (_adapter l2, seg', out2) \/
   loss_rate_up (config (adapter_base (_adapter l))) <> 0 /\ _adapter l2 = _adapter l /\ out2 = []).
Proof.
  unfold lossy_read, lossy_write, _should_drop. intros ([[a r'] o] & -> & H1)%res_bind_ok H2. split.
  - exists r'. cbn [_adapter _rand] in H1. revert H1. case_bool; [intros [= <- <- <-]; auto|].
    destruct (draw _) as [x g]. intros [= <- <- <-]. split; [done|].
    destruct (u16 x <? loss_rate_dn _); [by right|by left].
  - clear H1. revert H2. case_bool.
    + cbv iota beta. intros ([[a2 s2] o2] & -> & [= <- <- <-])%res_bind_ok. by left.
    + destruct (draw _) as [x g]. destruct (u16 x <? loss_rate_up _); [intros [= <- <- <-]; by right|].
      cbv iota beta. cbn [_adapter _rand]. intros ([[a2 s2] o2] & -> & [= <- <- <-])%res_bind_ok. by left.
Qed.

End Lossy.

(** ** Witnesses *)

(** Two ends of a connection: 10.0.0.1 port 4000 and 10.0.0.2 port 80. *)
Definition cfg_a : FdAdapterConfig := mkFdAdapterConfig (mkAddress ip_a 4000) (mkAddress ip_b 80) 0 0.
Definition base_a : FdAdapterBase := mkFdAdapterBase cfg_a false.
Definition listener : FdAdapterBase := mkFdAdapterBase (mkFdAdapterConfig (mkAddress 0 80) (mkAddress 0 0) 0 0) true.
Definition accepted : FdAdapterBase := mkFdAdapterBase (mkFdAdapterConfig (mkAddress ip_b 80) (mkAddress ip_a 4000) 0 0) false.
Definition opening : TCPSegment := default_segment <| TCPSegment.header := TCPHeader.default_header <| syn := true |> |>.

Lemma base_a_ok : base_ok base_a.
Proof. vm_compute. repeat split; congruence. Qed.

Lemma opening_sendable : sendable opening.
Proof. split; [split; [split; vm_compute; repeat split; congruence|]|vm_compute; reflexivity]. vm_compute. repeat split; congruence. Qed.

Lemma opening_heard : hears base_a listener opening accepted.
Proof. right. repeat split. Qed.

Lemma tun_delivers_witness :
  exists packet, tun_write (mkTun base_a) opening = Ok (mkTun base_a, set_ports base_a opening, [packet]) /\
  exists c out, tun_read (mkTun listener) packet = Ok (mkTun accepted, Some out, []) /\
    TCPSegment.header out = TCPSegment.header (set_ports base_a opening) <| TCPHeader.cksum := c |> /\
    str (TCPSegment.payload out) = [].
Proof. exact (tun_delivers (mkTun base_a) (mkTun listener) accepted opening base_a_ok opening_sendable opening_heard). Defined.

Definition tap_a : TCPOverIPv4OverEthernetAdapter := mkTap base_a host_a (mkAddress ip_b 0).
Definition tap_b : TCPOverIPv4OverEthernetAdapter := mkTap listener host_b (mkAddress ip_a 0).

Lemma full_stack_delivers_witness :
  exists b1 dat out, tap_read b1 dat = Ok (b1 <| tap_base := accepted |>, Some out, []) /\
    str (TCPSegment.payload out) = [].
Proof.
  destruct (full_stack_delivers tap_a tap_b accepted opening base_a_ok opening_sendable opening_heard)
    as (a1 & a2 & b1 & req & rep & dat & c & out & _ & _ & _ & H & _ & Hp); try reflexivity.
  - vm_compute. split; congruence.
  - vm_compute. split; congruence.
  - exists b1, dat, out. split; [exact H|exact Hp].
Defined.

Definition opening_dgram : IPv4Datagram :=
  match wrap_tcp_in_ip base_a opening with
  | Ok (_, d) => d <| IPv4Datagram.payload := [of_string (concatenate (IPv4Datagram.payload d))] |>
  | Throw _ => default_datagram
  end.

Lemma unwrap_only_peer_witness :
  exists b' seg, unwrap_tcp_in_ip listener opening_dgram = Ok (b', Some seg) /\
    IPv4Header.src (IPv4Datagram.header opening_dgram) = ipv4_numeric (destination (config b')).
Proof.
  destruct (unwrap_tcp_in_ip listener opening_dgram) as [[b' [seg|]]|] eqn:E; [|vm_compute in E; discriminate E..].
  exists b', seg. split; [reflexivity|]. apply (unwrap_only_peer listener opening_dgram b' seg E).
Defined.

Lemma udp_ports_unchecked_witness :
  exists bl, TCPSegment.serialize example_segment 0 = Ok bl /\
  exists c out, udp_read (mkUdp base_a) (mkAddress ip_b 80, concatenate bl) = Ok (mkUdp base_a, Some out, []) /\
    TCPSegment.header out = TCPSegment.header example_segment <| TCPHeader.cksum := c |> /\
    str (TCPSegment.payload out) = [x61; x62; x63].
Proof. exact (udp_ports_unchecked (mkUdp base_a) example_segment eq_refl example_segment_ok). Defined.

(** A random generator that only counts. *)
Definition counter (n : Z) : Z * Z := (n, n + 1).

Lemma lossy_only_drops_witness :
  exists r', adapter_read (mkTun listener) [x45] = Ok (mkTun listener, r', []).
Proof.
  destruct (lossy_write counter (mkLossy 0 (mkTun listener)) opening) as [[[l2 s2] o2]|] eqn:E; [|vm_compute in E; discriminate E].
  destruct (lossy_only_drops counter (mkLossy 0 (mkTun listener)) [x45] opening (mkLossy 0 (mkTun listener)) None []
    l2 s2 o2) as [(r' & H & _) _]; [vm_compute; reflexivity|exact E|]. exists r'. exact H.
Defined.
