(* ===== verification/FileDescriptor.v ===== *)
(** * FileDescriptor

    The handle of a kernel file descriptor, with its end-of-file flag and the
    counters by which the event loop detects busy waiting
    (libsponge/util/file_descriptor.{hh,cc} and [SystemCall] of util/util.cc).

    The system calls are parameters: what [close] and [read] answer is an argument,
    and [writev] is a function on the state of the device. *)

From stdpp Require Import base list numbers.
From Stdlib Require Import ZArith Lia Strings.Byte.
From S2P Require Import Prelude.
From S2P Require Import Buffer.
#[local] Open Scope Z_scope.

Record FDWrapper := mkFDWrapper {
  _fd : Z;
  _eof : bool;
  _closed : bool;
  _read_count : Z;
  _write_count : Z;
}.
#[global] Instance FDWrapper_eta : RecordEta FDWrapper := fun w =>
  mkFDWrapper (_fd w) (_eof w) (_closed w) (_read_count w) (_write_count w).

Definition new (fd : Z) : res FDWrapper :=
  if fd <? 0 then Throw runtime_error else Ok (mkFDWrapper fd false false 0 0).

(** [errno_mask] is 0 in every call of this file. *)
Definition SystemCall (return_value errno errno_mask : Z) : res Z :=
  if (0 <=? return_value) || (errno =? errno_mask) then Ok return_value else Throw unix_error.

(** [close()], with the answer of [::close] *)
Definition close (w : FDWrapper) (ret errno : Z) : res FDWrapper :=
  let* _ := SystemCall ret errno 0 in
  Ok (w <| _eof := true |> <| _closed := true |>).

(** The destructor, which catches what [close()] throws *)
Definition destroy (w : FDWrapper) (ret errno : Z) : FDWrapper :=
  if _closed w then w else res_or (close w ret errno) w.

Definition O_NONBLOCK : Z := 2048.

(** The flags that [set_blocking] sets, from those [F_GETFL] returned *)
Definition set_blocking (flags : Z) (blocking_state : bool) : Z :=
  if blocking_state then Z.lxor flags (Z.land flags O_NONBLOCK) else Z.lor flags O_NONBLOCK.

Definition register_read (w : FDWrapper) : FDWrapper := w <| _read_count := u32 (_read_count w + 1) |>.
Definition register_write (w : FDWrapper) : FDWrapper := w <| _write_count := u32 (_write_count w + 1) |>.

Definition fd_num (w : FDWrapper) : Z := _fd w.
Definition eof (w : FDWrapper) : bool := _eof w.
Definition closed (w : FDWrapper) : bool := _closed w.
Definition read_count (w : FDWrapper) : Z := _read_count w.
Definition write_count (w : FDWrapper) : Z := _write_count w.

Definition BUFFER_SIZE : Z := 1048576.

(** [read(limit)], with the answer of [::read]: its return value and the bytes it put
    into the buffer *)
Definition read (w : FDWrapper) (limit ret errno : Z) (filled : bytes) : res (FDWrapper * bytes) :=
  let size_to_read := Z.min BUFFER_SIZE limit in
  let* bytes_read := SystemCall ret errno 0 in
  let w := if (0 <? limit) && (bytes_read =? 0) then w <| _eof := true |> else w in
  if size_to_read <? bytes_read then Throw runtime_error
  else Ok (register_read w, prefix_str filled bytes_read).

(** ** Writing *)

Section Write.

(** The device behind the descriptor: [writev] returns its value, [errno] and the
    device afterwards. *)
Context {K : Type} (writev : K -> Z -> list (bytes * Z) -> Z * Z * K).

(** One pass of the loop of [write]. *)
Definition write_once (w : FDWrapper) (k : K) (buffer : list bytes) : res (FDWrapper * K * list bytes * Z) :=
  let '(ret, errno, k) := writev k (fd_num w) (as_iovecs buffer) in
  let* bytes_written := SystemCall ret errno 0 in
  if (bytes_written =? 0) && negb (view_size buffer =? 0) then Throw runtime_error
  else if view_size buffer <? bytes_written then Throw runtime_error
  else
    let* buffer := view_remove_prefix buffer bytes_written in
    Ok (register_write w, k, buffer, bytes_written).

(** The [do ... while] loop of [write].  Every call but the last takes at least one
    byte, so there are at most as many more as bytes. *)
Fixpoint write_loop (fuel : nat) (w : FDWrapper) (k : K) (buffer : list bytes) (total : Z) (write_all : bool)
    : res (FDWrapper * K * Z) :=
  let* (w, k, buffer, bytes_written) := write_once w k buffer in
  let total := u64 (total + bytes_written) in
  if write_all && negb (view_size buffer =? 0) then
    match fuel with
    | O => Throw NoFuel
    | S fuel' => write_loop fuel' w k buffer total write_all
    end
  else Ok (w, k, total).

Definition write (w : FDWrapper) (k : K) (buffer : list bytes) (write_all : bool) : res (FDWrapper * K * Z) :=
  write_loop (Z.to_nat (view_size buffer)) w k buffer 0 write_all.

(** ** A device that takes bytes *)

(** [written k] are the bytes the device has taken.  As [writev(2)] documents,
    a call takes a prefix of what it is given and returns its length; a device
    that blocks takes at least one byte if there is one. *)
Context (written : K -> bytes).

Definition blocking_device : Prop :=
  forall k fd vs, let '(ret, _, k') := writev k fd (as_iovecs vs) in
    0 <= ret <= len (concat vs) /\ (concat vs <> [] -> 0 < ret) /\
    written k' = written k ++ take (Z.to_nat ret) (concat vs).

Lemma view_size_fold (vs : list bytes) acc :
  0 <= acc -> acc + len (concat vs) < 18446744073709551616 ->
  fold_left (fun ret (v : bytes) => u64 (ret + len v)) vs acc = acc + len (concat vs).
Proof.
  revert acc. induction vs as [|v vs IH]; intros acc Ha Hb; simpl; [change (len []) with 0; lia|].
  simpl in Hb. rewrite len_app in *. pose proof (len_nonneg v). pose proof (len_nonneg (concat vs)).
  rewrite u64_small by lia. rewrite IH by lia. lia.
Qed.

Lemma view_size_ok vs : len (concat vs) < 18446744073709551616 -> view_size vs = len (concat vs).
Proof. intros. unfold view_size. rewrite view_size_fold; lia. Qed.

Lemma view_remove_prefix_ok vs n :
  0 <= n <= len (concat vs) ->
  exists vs', view_remove_prefix vs n = Ok vs' /\ concat vs' = drop (Z.to_nat n) (concat vs).
Proof.
  revert n. induction vs as [|v vs IH]; intros n Hn; cbn [view_remove_prefix]; case_bool;
    [|by eexists; split; [done|]; replace n with 0 by lia| |by eexists; split; [done|]; replace n with 0 by lia].
  - change (len (concat [])) with 0 in Hn. lia.
  - simpl in *. rewrite len_app in Hn. case_bool.
    + eexists. split; [done|]. simpl. rewrite drop_app_le; [done|]. unfold len in *. lia.
    + destruct (IH (n - len v)) as (vs' & Hv & Hc); [lia|]. exists vs'. split; [done|].
      rewrite Hc, drop_app_ge by (unfold len in *; lia). f_equal. unfold len in *. lia.
Qed.

Lemma write_once_ok w k vs :
  blocking_device -> len (concat vs) < 18446744073709551616 ->
  exists k' vs' n, write_once w k vs = Ok (register_write w, k', vs', n) /\
    0 <= n <= len (concat vs) /\ (concat vs <> [] -> 0 < n) /\ concat vs' = drop (Z.to_nat n) (concat vs) /\
    written k' = written k ++ take (Z.to_nat n) (concat vs).
Proof.
  intros Hdev Hb. unfold write_once. pose proof (Hdev k (fd_num w) vs) as Hk.
  destruct (writev k (fd_num w) (as_iovecs vs)) as [[n e] k']. destruct Hk as (Hr & Hp & Hw).
  unfold SystemCall. rewrite (proj2 (Z.leb_le 0 n)) by lia. cbn [orb res_bind]. rewrite view_size_ok by done.
  destruct (Z.ltb_spec (len (concat vs)) n); [lia|]. destruct (Z.eqb_spec n 0) as [->|].
  - destruct (concat vs) eqn:E; [|specialize (Hp ltac:(done)); lia]. cbn.
    exists k'. destruct vs; eexists; eexists; (split; [done|]); by rewrite E.
  - destruct (view_remove_prefix_ok vs n Hr) as (vs' & -> & Hc). cbn [andb res_bind].
    exists k', vs', n. split; [done|]. split; [done|]. split; [done|]. by split.
Qed.

Lemma fd_write_loop_all fuel w k vs total :
  blocking_device -> len (concat vs) <= Z.of_nat fuel -> 0 <= total ->
  total + len (concat vs) < 18446744073709551616 ->
  exists w' k', write_loop fuel w k vs total true = Ok (w', k', total + len (concat vs)) /\
    written k' = written k ++ concat vs /\ fd_num w' = fd_num w /\ eof w' = eof w /\ closed w' = closed w.
Proof.
  intros Hdev. revert w k vs total. induction fuel as [|fuel IH]; intros w k vs total Hf Ht Hb;
    pose proof (len_nonneg (concat vs)); cbn [write_loop];
    (destruct (write_once_ok w k vs Hdev) as (k1 & vs1 & n & -> & Hn & Hp & Hc & Hw); [lia|]); cbn [res_bind].
  - rewrite (len_zero_nil (concat vs)) in * by lia. change (len (@nil byte)) with 0 in *.
    rewrite drop_nil in Hc. rewrite view_size_ok, Hc by (by rewrite Hc). cbn.
    pose proof (len_nonneg (concat vs)). rewrite u64_small by lia.
    exists (register_write w), k1. split; [do 3 f_equal; lia|]. by rewrite Hw, take_nil.
  - rewrite view_size_ok, Hc, len_drop, u64_small by (rewrite ?Hc, ?len_drop; lia).
    destruct (Z.eqb_spec (Z.max 0 (len (concat vs) - Z.of_nat (Z.to_nat n))) 0) as [|Hne]; cbn [negb andb].
    + exists (register_write w), k1. split; [do 3 f_equal; lia|]. split; [|done].
      rewrite Hw, take_ge; [done|]. unfold len in *. lia.
    + assert (0 < n) by (apply Hp; intros E; apply Hne; rewrite E; change (len (@nil byte)) with 0; lia).
      destruct (IH (register_write w) k1 vs1 (total + n)) as (w' & k' & -> & Hw' & Hf'); rewrite ?Hc, ?len_drop in *; try lia.
      exists w', k'. split; [by replace (_ + n + _) with (total + len (concat vs)) by lia|]. split; [|done].
      by rewrite Hw', Hw, <- app_assoc, take_drop.
Qed.

Lemma write_partial w k vs :
  blocking_device -> len (concat vs) < 18446744073709551616 ->
  exists k' n, write w k vs false = Ok (register_write w, k', n) /\ 0 <= n <= len (concat vs) /\
    (concat vs <> [] -> 0 < n) /\ written k' = written k ++ take (Z.to_nat n) (concat vs).
Proof.
  intros Hdev Hb. destruct (write_once_ok w k vs Hdev Hb) as (k' & vs' & n & Ho & Hn & Hp & _ & Hw).
  exists k', n. split; [|done]. unfold write. destruct (Z.to_nat (view_size vs)); cbn [write_loop];
    rewrite Ho; cbn [res_bind andb]; by rewrite u64_small by lia.
Qed.

(** ** Properties *)

(** On a device that takes at least one byte per call, however few, [write]
    with [write_all] ends, returns the size of the data, and the device has taken
    exactly the data, in order. *)
Theorem write_all_writes w k vs :
  blocking_device -> len (concat vs) < 18446744073709551616 ->
  exists w' k', write w k vs true = Ok (w', k', len (concat vs)) /\ written k' = written k ++ concat vs /\
    fd_num w' = fd_num w /\ eof w' = eof w /\ closed w' = closed w.
Proof.
  intros Hdev Hb. unfold write. rewrite view_size_ok by done. pose proof (len_nonneg (concat vs)).
  apply fd_write_loop_all; [done|lia..].
Qed.

End Write.

(** ** Witness: a device that takes at most three bytes per call *)

Definition slow_writev (k : bytes) (fd : Z) (iovecs : list (bytes * Z)) : Z * Z * bytes :=
  let d := take 3 (concat (map fst iovecs)) in (len d, 0, k ++ d).

Lemma as_iovecs_fst vs : map fst (as_iovecs vs) = vs.
Proof. unfold as_iovecs. rewrite map_map. simpl. apply map_id. Qed.

Lemma slow_blocking : blocking_device slow_writev (fun k => k).
Proof.
  intros k fd vs. unfold slow_writev. rewrite as_iovecs_fst, len_take. pose proof (len_nonneg (concat vs)).
  split; [lia|]. split.
  - intros H0. destruct (concat vs); [done|]. rewrite len_cons in *. pose proof (len_nonneg l). lia.
  - f_equal. destruct (Z.le_gt_cases 3 (len (concat vs))); [f_equal; lia|].
    rewrite !take_ge; [done|unfold len in *; lia..].
Qed.

Lemma write_all_writes_witness :
  exists w' k', write slow_writev (mkFDWrapper 5 false false 0 0) [] [[x61; x62]; []; [x63; x64; x65]] true = Ok (w', k', 5) /\
    k' = [x61; x62; x63; x64; x65].
Proof.
  destruct (write_all_writes slow_writev (fun k => k) (mkFDWrapper 5 false false 0 0) [] [[x61; x62]; []; [x63; x64; x65]]
    slow_blocking) as (w' & k' & H1 & H2 & _); [vm_compute; reflexivity|].
  exists w', k'. split; [exact H1|exact H2].
Defined.
