(* ===== verification/Address.v ===== *)
(** * Address

    Socket addresses as the raw bytes that the kernel sees, their construction from
    text through the resolver, and their conversion to text and to numbers
    (libsponge/util/address.{hh,cc}).  [getaddrinfo(3)] and [getnameinfo(3)] are
    parameters.  The layout of [sockaddr_in] is that of Linux on a little-endian
    machine. *)

From Stdlib Require Import Strings.String.
From stdpp Require Import base list numbers option.
From Stdlib Require Import ZArith Lia Strings.Byte.
From S2P Require Import Prelude.
From S2P Require Import Text.
From S2P Require Import Parser.
#[local] Open Scope Z_scope.

Definition AF_INET : Z := 2.
Definition AI_NUMERICHOST : Z := 4.
Definition AI_ALL : Z := 16.
Definition AI_NUMERICSERV : Z := 1024.
Definition NI_NUMERICHOST : Z := 1.
Definition NI_NUMERICSERV : Z := 2.

(** [sizeof(sockaddr_storage)] and [sizeof(sockaddr_in)] *)
Definition storage_size : Z := 128.
Definition sockaddr_in_size : Z := 16.

Record Address := mkAddress {
  _size : Z;
  _address : bytes;
}.

Definition zeros (n : Z) : bytes := repeat x00 (Z.to_nat n).

(** [Address(addr, size)]: the first [size] bytes at [addr] are copied into the zeroed
    storage. *)
Definition of_sockaddr (addr : bytes) (size : Z) : res Address :=
  if storage_size <? size then Throw runtime_error
  else if len addr <? size then Throw UndefinedBehaviour
  else Ok (mkAddress size (take (Z.to_nat size) addr ++ zeros (storage_size - size))).

Record addrinfo := mkAddrinfo {
  ai_flags : Z;
  ai_family : Z;
}.

Definition make_hints (flags family : Z) : addrinfo := mkAddrinfo flags family.

Section Resolver.

(** [getaddrinfo(node, service, hints)]: its return value and the first of the
    resolved addresses with its length, if there is one. *)
Context (getaddrinfo : bytes -> bytes -> addrinfo -> Z * option (bytes * Z)).

(** [getnameinfo(address, size, flags)]: its return value, the host and the service. *)
Context (getnameinfo : bytes -> Z -> Z -> Z * bytes * bytes).

Definition of_name (node service : bytes) (hints : addrinfo) : res Address :=
  let '(gai_ret, resolved_address) := getaddrinfo node service hints in
  if negb (gai_ret =? 0) then Throw tagged_error
  else
    match resolved_address with
    | None => Throw runtime_error
    | Some (ai_addr, ai_addrlen) => of_sockaddr ai_addr ai_addrlen
    end.

(** [Address(hostname, service)] *)
Definition of_host (hostname service : bytes) : res Address := of_name hostname service (make_hints AI_ALL AF_INET).

(** [Address(ip, port)] *)
Definition of_ip (ip : bytes) (port : Z) : res Address :=
  of_name ip (to_string port) (make_hints (Z.lor AI_NUMERICHOST AI_NUMERICSERV) AF_INET).

Definition ip_port (a : Address) : res (bytes * Z) :=
  let '(gni_ret, ip, port) := getnameinfo (_address a) (_size a) (Z.lor NI_NUMERICHOST NI_NUMERICSERV) in
  if negb (gni_ret =? 0) then Throw tagged_error
  else let* p := stoi port in Ok (ip, u16 p).

Definition ip (a : Address) : res bytes := let* p := ip_port a in Ok (fst p).
Definition port (a : Address) : res Z := let* p := ip_port a in Ok (snd p).

(** [to_string()] *)
Definition address_text (a : Address) : res bytes :=
  let* ip_and_port := ip_port a in
  Ok (fst ip_and_port ++ txt ":" ++ to_string (snd ip_and_port)).

End Resolver.

(** [_address.storage.ss_family] *)
Definition ss_family (a : Address) : Z :=
  match _address a with
  | l :: h :: _ => byte_val l + 256 * byte_val h
  | _ => 0
  end.

Definition ipv4_numeric (a : Address) : res Z :=
  if negb (ss_family a =? AF_INET) || negb (_size a =? sockaddr_in_size) then Throw runtime_error
  else Ok (be_val (take 4 (drop 4 (_address a)))).

(** A [sockaddr_in]: family, port and address in network byte order, and padding *)
Definition sockaddr_in (port addr : Z) : bytes :=
  [byte_of_Z AF_INET; x00] ++ be_bytes 2 port ++ be_bytes 4 addr ++ zeros 8.

Definition from_ipv4_numeric (ip_address : Z) : res Address := of_sockaddr (sockaddr_in 0 ip_address) sockaddr_in_size.

(** [operator==], with [memcmp] on the bytes in use *)
Definition address_eqb (a b : Address) : bool :=
  if negb (_size a =? _size b) then false
  else bool_decide (take (Z.to_nat (_size a)) (_address a) = take (Z.to_nat (_size a)) (_address b)).

(** ** Lemmas *)

Lemma len_sockaddr_in p a : length (sockaddr_in p a) = 16%nat.
Proof. unfold sockaddr_in. by rewrite !length_app, !be_bytes_length. Qed.

(** The address that wraps a [sockaddr_in]. *)
Definition inet_address (p a : Z) : Address := mkAddress sockaddr_in_size (sockaddr_in p a ++ zeros 112).

Lemma of_sockaddr_in p a : of_sockaddr (sockaddr_in p a) sockaddr_in_size = Ok (inet_address p a).
Proof.
  unfold of_sockaddr, len. rewrite len_sockaddr_in. cbn [Z.ltb Z.compare Z.of_nat Pos.of_succ_nat].
  change (Z.of_nat 16 <? sockaddr_in_size) with false. change (storage_size <? sockaddr_in_size) with false. cbv iota.
  unfold inet_address. by rewrite take_ge by (by rewrite len_sockaddr_in).
Qed.

Lemma inet_numeric p a : 0 <= a < 4294967296 -> ipv4_numeric (inet_address p a) = Ok a.
Proof.
  intros Ha. unfold ipv4_numeric, inet_address. cbn [_address _size]. unfold sockaddr_in.
  change (ss_family _) with 2. cbn [Z.eqb AF_INET sockaddr_in_size negb orb].
  change (negb (2 =? AF_INET) || negb (sockaddr_in_size =? sockaddr_in_size)) with false. cbv iota.
  rewrite <- !app_assoc.
  change (drop 4 ([byte_of_Z AF_INET; x00] ++ be_bytes 2 p ++ be_bytes 4 a ++ zeros 8 ++ zeros 112)) with (be_bytes 4 a ++ zeros 8 ++ zeros 112).
  rewrite take_app_length' by (by rewrite be_bytes_length). by rewrite be_val_be_bytes, Z.mod_small by (change (256 ^ Z.of_nat 4) with 4294967296; lia).
Qed.

Lemma inet_eqb p a p' a' :
  0 <= p < 65536 -> 0 <= p' < 65536 -> 0 <= a < 4294967296 -> 0 <= a' < 4294967296 ->
  address_eqb (inet_address p a) (inet_address p' a') = true <-> p = p' /\ a = a'.
Proof.
  intros Hp Hp' Ha Ha'. unfold address_eqb, inet_address. cbn [_size _address]. rewrite Z.eqb_refl. cbn [negb].
  rewrite bool_decide_eq_true, !take_app_length' by (by rewrite len_sockaddr_in). split; [|by intros [-> ->]].
  unfold sockaddr_in. intros E. apply app_inv_head in E.
  apply app_inj_1 in E as [E1 [E2 _]%app_inj_1]; [|by rewrite !be_bytes_length..].
  apply (f_equal be_val) in E1, E2. rewrite !be_val_be_bytes in E1, E2.
  change (256 ^ Z.of_nat 2) with 65536 in E1. change (256 ^ Z.of_nat 4) with 4294967296 in E2.
  rewrite !Z.mod_small in E1, E2 by lia. done.
Qed.

(** ** Properties *)

(** [from_ipv4_numeric] and [ipv4_numeric] are inverse to each other, and addresses
    made from numbers are equal only when the numbers are. *)
Theorem ipv4_numeric_roundtrip a b :
  0 <= a < 4294967296 -> 0 <= b < 4294967296 ->
  exists x y, from_ipv4_numeric a = Ok x /\ from_ipv4_numeric b = Ok y /\ ipv4_numeric x = Ok a /\
    (address_eqb x y = true <-> a = b).
Proof.
  intros Ha Hb. exists (inet_address 0 a), (inet_address 0 b). unfold from_ipv4_numeric. rewrite !of_sockaddr_in.
  split; [done|]. split; [done|]. split; [by apply inet_numeric|]. rewrite inet_eqb by lia. naive_solver.
Qed.

Section Numeric.

(** As the manuals document for numeric hosts and services. *)
Context (getaddrinfo : bytes -> bytes -> addrinfo -> Z * option (bytes * Z)).
Context (getnameinfo : bytes -> Z -> Z -> Z * bytes * bytes).

Definition resolves_numbers : Prop :=
  forall a p, 0 <= a < 4294967296 -> 0 <= p < 65536 ->
    getaddrinfo (dotted a) (to_string p) (make_hints (Z.lor AI_NUMERICHOST AI_NUMERICSERV) AF_INET) =
      (0, Some (sockaddr_in p a, sockaddr_in_size)).
Definition names_numbers : Prop :=
  forall a p pad, 0 <= a < 4294967296 -> 0 <= p < 65536 ->
    getnameinfo (sockaddr_in p a ++ pad) sockaddr_in_size (Z.lor NI_NUMERICHOST NI_NUMERICSERV) = (0, dotted a, to_string p).

(** An address made from a dotted quad and a port gives back both, has the number
    of the dotted quad, and prints as the two with a colon. *)
Theorem address_text_roundtrip a p :
  resolves_numbers -> names_numbers -> 0 <= a < 4294967296 -> 0 <= p < 65536 ->
  exists x, of_ip getaddrinfo (dotted a) p = Ok x /\ ip_port getnameinfo x = Ok (dotted a, p) /\
    ipv4_numeric x = Ok a /\ address_text getnameinfo x = Ok (dotted a ++ txt ":" ++ to_string p).
Proof.
  intros Hr Hn Ha Hp. exists (inet_address p a). unfold of_ip, of_name. rewrite Hr by done. cbn [negb Z.eqb].
  rewrite of_sockaddr_in. split; [done|].
  assert (E : ip_port getnameinfo (inet_address p a) = Ok (dotted a, p)).
  { unfold ip_port, inet_address. cbn [_address _size]. rewrite Hn by done. cbn [negb Z.eqb].
    rewrite stoi_to_string by lia. cbn [res_bind]. unfold u16. by rewrite Z.mod_small by lia. }
  split; [done|]. split; [by apply inet_numeric|]. unfold address_text. by rewrite E.
Qed.

End Numeric.

(** ** Witnesses *)

(** A resolver that knows numbers only. *)
Definition numeric_getaddrinfo (node service : bytes) (hints : addrinfo) : Z * option (bytes * Z) :=
  match read_dotted node, stoi service with
  | Some a, Ok p => (0, Some (sockaddr_in p a, sockaddr_in_size))
  | _, _ => (-2, None)
  end.
Definition numeric_getnameinfo (addr : bytes) (size flags : Z) : Z * bytes * bytes :=
  (0, dotted (be_val (take 4 (drop 4 addr))), to_string (be_val (take 2 (drop 2 addr)))).

Lemma numeric_resolves : resolves_numbers numeric_getaddrinfo.
Proof. intros a p Ha Hp. unfold numeric_getaddrinfo. by rewrite dotted_roundtrip, stoi_to_string by lia. Qed.

Lemma numeric_names : names_numbers numeric_getnameinfo.
Proof.
  intros a p pad Ha Hp. unfold numeric_getnameinfo, sockaddr_in. rewrite <- !app_assoc.
  change (drop 4 ([byte_of_Z AF_INET; x00] ++ be_bytes 2 p ++ be_bytes 4 a ++ zeros 8 ++ pad)) with (be_bytes 4 a ++ zeros 8 ++ pad).
  change (drop 2 ([byte_of_Z AF_INET; x00] ++ be_bytes 2 p ++ be_bytes 4 a ++ zeros 8 ++ pad))
    with (be_bytes 2 p ++ be_bytes 4 a ++ zeros 8 ++ pad).
  rewrite !take_app_length', !be_val_be_bytes by (by rewrite be_bytes_length).
  change (256 ^ Z.of_nat 2) with 65536. change (256 ^ Z.of_nat 4) with 4294967296. by rewrite !Z.mod_small by lia.
Qed.

Lemma address_text_roundtrip_witness :
  exists x, of_ip numeric_getaddrinfo (dotted 3232235777) 8080 = Ok x /\
    address_text numeric_getnameinfo x = Ok (txt "192.168.1.1:8080").
Proof.
  destruct (address_text_roundtrip numeric_getaddrinfo numeric_getnameinfo 3232235777 8080 numeric_resolves numeric_names)
    as (x & H1 & _ & _ & H4); [lia|lia|].
  exists x. split; [exact H1|]. exact H4.
Defined.

Lemma ipv4_numeric_roundtrip_witness : exists x, from_ipv4_numeric 167772161 = Ok x /\ ipv4_numeric x = Ok 167772161.
Proof.
  destruct (ipv4_numeric_roundtrip 167772161 167772162) as (x & y & H1 & _ & H2 & _); [lia|lia|].
  exists x. split; [exact H1|exact H2].
Defined.
