(* ===== verification/Socket.v ===== *)
(** * Sockets and TUN/TAP devices

    Network sockets on top of file descriptors (libsponge/util/socket.{hh,cc}) and
    the TUN and TAP devices (libsponge/util/tun.{hh,cc}).  What a system call
    answers, its return value with [errno] and what it writes into memory, is an
    argument of the operation that makes the call. *)

From Stdlib Require Import Strings.String.
From stdpp Require Import base list numbers option.
From Stdlib Require Import ZArith Lia Strings.Byte.
From S2P Require Import Prelude.
From S2P Require Import Text.
From S2P Require Import Buffer.
From S2P Require Import FileDescriptor.
From S2P Require Import Address.
#[local] Open Scope Z_scope.

Definition AF_UNIX : Z := 1.
Definition SOCK_STREAM : Z := 1.
Definition SOCK_DGRAM : Z := 2.
Definition SHUT_RD : Z := 0.
Definition SHUT_WR : Z := 1.
Definition SHUT_RDWR : Z := 2.

(** The answer of a system call: its return value and [errno] *)
Record answer := mkAnswer {
  ret : Z;
  errno : Z;
}.

Definition call (a : answer) : res Z := SystemCall (ret a) (errno a) 0.

(** ** Construction *)

(** [Socket(domain, type)]; a [Socket] is its descriptor. *)
Definition new_socket (socket_answer : answer) : res FDWrapper :=
  let* fd := call socket_answer in FileDescriptor.new fd.

(** The answer of [getsockopt]: the value and the length it wrote *)
Definition check_option (a : answer) (actual_value length expected : Z) : res unit :=
  let* _ := call a in
  if negb (length =? 4) || negb (actual_value =? expected) then Throw runtime_error else Ok tt.

(** [Socket(fd, domain, type)] *)
Definition socket_of_fd (fd : FDWrapper) (domain type : Z) (domain_answer : answer) (actual_domain domain_len : Z)
    (type_answer : answer) (actual_type type_len : Z) : res FDWrapper :=
  let* _ := check_option domain_answer actual_domain domain_len domain in
  let* _ := check_option type_answer actual_type type_len type in
  Ok fd.

(** The two answers of [getsockopt] about a descriptor *)
Record option_answers := mkOptions {
  domain_answer : answer;
  actual_domain : Z;
  domain_len : Z;
  type_answer : answer;
  actual_type : Z;
  type_len : Z;
}.

Definition typed_socket (fd : FDWrapper) (domain type : Z) (o : option_answers) : res FDWrapper :=
  socket_of_fd fd domain type (domain_answer o) (actual_domain o) (domain_len o) (type_answer o) (actual_type o) (type_len o).

(** The constructors of the classes derived from [Socket]; [socket_call] answers
    [socket(domain, type, 0)]. *)
Definition udp_socket_of_fd (fd : FDWrapper) (o : option_answers) : res FDWrapper := typed_socket fd AF_INET SOCK_DGRAM o.
Definition udp_socket (socket_call : Z -> Z -> answer) : res FDWrapper := new_socket (socket_call AF_INET SOCK_DGRAM).
Definition tcp_socket_of_fd (fd : FDWrapper) (o : option_answers) : res FDWrapper := typed_socket fd AF_INET SOCK_STREAM o.
Definition tcp_socket (socket_call : Z -> Z -> answer) : res FDWrapper := new_socket (socket_call AF_INET SOCK_STREAM).
Definition local_stream_socket (fd : FDWrapper) (o : option_answers) : res FDWrapper := typed_socket fd AF_UNIX SOCK_STREAM o.

(** ** Addresses and options *)

(** [get_address], with the raw address and size that the function wrote *)
Definition get_address (a : answer) (address : bytes) (size : Z) : res Address :=
  let* _ := call a in of_sockaddr address size.

Definition local_address : answer -> bytes -> Z -> res Address := get_address.
Definition peer_address : answer -> bytes -> Z -> res Address := get_address.

(** [bind], [connect], [listen] and [setsockopt] change the kernel only. *)
Definition bind (a : answer) : res unit := let* _ := call a in Ok tt.
Definition connect (a : answer) : res unit := let* _ := call a in Ok tt.
Definition listen (a : answer) : res unit := let* _ := call a in Ok tt.
Definition setsockopt (a : answer) : res unit := let* _ := call a in Ok tt.
Definition set_reuseaddr (a : answer) : res unit := setsockopt a.

Definition shutdown (fd : FDWrapper) (how : Z) (a : answer) : res FDWrapper :=
  let* _ := call a in
  if how =? SHUT_RD then Ok (register_read fd)
  else if how =? SHUT_WR then Ok (register_write fd)
  else if how =? SHUT_RDWR then Ok (register_write (register_read fd))
  else Throw runtime_error.

(** [accept]: the new descriptor is checked like any other. *)
Definition accept (fd : FDWrapper) (accept_answer domain_answer : answer) (actual_domain domain_len : Z)
    (type_answer : answer) (actual_type type_len : Z) : res (FDWrapper * FDWrapper) :=
  let fd := register_read fd in
  let* num := call accept_answer in
  let* new_fd := FileDescriptor.new num in
  let* s := socket_of_fd new_fd AF_INET SOCK_STREAM domain_answer actual_domain domain_len type_answer actual_type type_len in
  Ok (fd, s).

(** ** Datagrams *)

Record received_datagram := mkReceived {
  source_address : Address;
  payload : bytes;
}.

(** [payload.resize(n)] *)
Definition resize (s : bytes) (n : Z) : res bytes :=
  if (n <? 0) || (LONG_MAX <? n) then Throw length_error
  else Ok (take (Z.to_nat n) s ++ zeros (n - len s)).

(** [recvfrom] answers with the length of the datagram, wrote [filled] into the
    buffer of [mtu] bytes, and wrote the address of the sender. *)
Definition recv (fd : FDWrapper) (mtu : Z) (a : answer) (filled from : bytes) (fromlen : Z)
    : res (FDWrapper * received_datagram) :=
  let* buffer := resize [] mtu in
  let buffer := take (Z.to_nat mtu) filled ++ drop (length filled) buffer in
  let* recv_len := call a in
  if mtu <? recv_len then Throw runtime_error
  else
    let fd := register_read fd in
    let* source := of_sockaddr from fromlen in
    let* data := resize buffer recv_len in
    Ok (fd, mkReceived source data).

(** [sendmsg_helper]: [sendmsg] is called with [payload.as_iovecs()]. *)
Definition sendmsg_helper (sendmsg : list (bytes * Z) -> answer) (payload : list bytes) : res unit :=
  let* bytes_sent := call (sendmsg (as_iovecs payload)) in
  if negb (u64 bytes_sent =? view_size payload) then Throw runtime_error else Ok tt.

Definition sendto (fd : FDWrapper) (sendmsg : list (bytes * Z) -> answer) (payload : list bytes) : res FDWrapper :=
  let* _ := sendmsg_helper sendmsg payload in Ok (register_write fd).

Definition send (fd : FDWrapper) (sendmsg : list (bytes * Z) -> answer) (payload : list bytes) : res FDWrapper :=
  let* _ := sendmsg_helper sendmsg payload in Ok (register_write fd).

(** ** TUN and TAP devices *)

Definition IFF_TUN : Z := 1.
Definition IFF_TAP : Z := 2.
Definition IFF_NO_PI : Z := 4096.
Definition IFNAMSIZ : nat := 16.

(** The text up to the first NUL *)
Fixpoint c_string (s : bytes) : bytes :=
  match s with
  | c :: s' => if bool_decide (c = x00) then [] else c :: c_string s'
  | [] => []
  end.

(** [strncpy(dst, src, n)]: at most [n] characters, padded with NULs *)
Definition strncpy (src : bytes) (n : nat) : bytes :=
  let s := take n (c_string src) in s ++ repeat x00 (n - length s).

(** [ifr_flags] and [ifr_name] of the request *)
Definition tun_req (devname : bytes) (is_tun : bool) : Z * bytes :=
  (Z.lor (if is_tun then IFF_TUN else IFF_TAP) IFF_NO_PI, strncpy devname (IFNAMSIZ - 1) ++ [x00]).

(** [TunTapFD(devname, is_tun)]; [ioctl] is asked with the request. *)
Definition new_tuntap (open_answer : answer) (ioctl : Z -> Z * bytes -> answer) (devname : bytes) (is_tun : bool) : res FDWrapper :=
  let* num := call open_answer in
  let* fd := FileDescriptor.new num in
  let* _ := call (ioctl (fd_num fd) (tun_req devname is_tun)) in
  Ok fd.

Definition tun_fd (open_answer : answer) (ioctl : Z -> Z * bytes -> answer) (devname : bytes) : res FDWrapper :=
  new_tuntap open_answer ioctl devname true.
Definition tap_fd (open_answer : answer) (ioctl : Z -> Z * bytes -> answer) (devname : bytes) : res FDWrapper :=
  new_tuntap open_answer ioctl devname false.

(** ** Properties *)

(** C39: a datagram is received as it was sent or not at all: with the documented
    answers of [sendmsg] (all of the payload) and of [recvfrom] with [MSG_TRUNC] (the
    beginning of the datagram and its real length), a payload that fits [mtu] arrives
    unchanged with the address of the sender, and a larger one is an exception, never
    a truncated datagram. *)
Theorem udp_datagram_whole fd fd' sendmsg vs mtu e from fromlen x :
  let d := concat vs in
  sendmsg (as_iovecs vs) = mkAnswer (len d) e -> len d < LONG_MAX -> 0 <= mtu <= LONG_MAX ->
  of_sockaddr from fromlen = Ok x ->
  sendto fd sendmsg vs = Ok (register_write fd) /\
  recv fd' mtu (mkAnswer (len d) e) (take (Z.to_nat mtu) d) from fromlen =
    if len d <=? mtu then Ok (register_read fd', mkReceived x d) else Throw runtime_error.
Proof.
  intros d Hs Hl Hm Hx. pose proof (len_nonneg d) as Hn. unfold LONG_MAX in *.
  assert (Hcall : call (mkAnswer (len d) e) = Ok (len d)).
  { unfold call, SystemCall. cbn [ret errno]. by rewrite (proj2 (Z.leb_le 0 (len d)) Hn). }
  split.
  - unfold sendto, sendmsg_helper. rewrite Hs, Hcall. cbn [res_bind]. unfold view_size.
    rewrite view_size_fold by (fold d; lia). fold d. rewrite u64_small by lia. by rewrite Z.add_0_l, Z.eqb_refl.
  - unfold recv, resize, LONG_MAX. rewrite (proj2 (Z.ltb_ge mtu 0)), (proj2 (Z.ltb_ge _ mtu)) by lia. cbn [orb res_bind].
    rewrite Hcall. cbn [res_bind]. destruct (Z.leb_spec (len d) mtu) as [Hle|Hgt].
    + rewrite (proj2 (Z.ltb_ge mtu (len d)) Hle), Hx. cbn [res_bind].
      rewrite (proj2 (Z.ltb_ge (len d) 0)), (proj2 (Z.ltb_ge _ (len d))) by lia. cbn [orb res_bind].
      rewrite take_take, Nat.min_id, (take_ge d) by (unfold len in *; lia).
      replace (Z.to_nat (len d)) with (length d) by (unfold len; lia). rewrite take_app_length.
      replace (zeros (len d - _)) with (@nil byte); [by rewrite app_nil_r|].
      unfold zeros. rewrite len_app. replace (Z.to_nat _) with 0%nat; [done|]. pose proof (len_nonneg (drop (length d) (take (Z.to_nat mtu) [] ++ repeat x00 (Z.to_nat (mtu - len (@nil byte)))))). lia.
    + by rewrite (proj2 (Z.ltb_lt mtu (len d)) Hgt).
Qed.

(** The name in the request is a C string of at most 15 characters: a longer device
    name is cut off without an error. *)
Theorem tun_name_terminated devname is_tun :
  length (snd (tun_req devname is_tun)) = IFNAMSIZ /\
  c_string (snd (tun_req devname is_tun)) = take 15 (c_string devname).
Proof.
  assert (K : forall s k, Forall (fun c => c <> x00) s ->
    c_string (s ++ repeat x00 k ++ [x00]) = s).
  { intros s k Hs. induction Hs as [|c s Hc Hs IH]; [by destruct k|]. cbn [app c_string].
    rewrite bool_decide_eq_false_2 by done. by rewrite IH. }
  assert (N : forall s, Forall (fun c => c <> x00) (c_string s)).
  { induction s as [|c s IH]; cbn [c_string]; [constructor|]. case_bool_decide; by constructor. }
  unfold tun_req, strncpy. cbn [snd]. split.
  - rewrite !length_app, repeat_length, length_take. unfold IFNAMSIZ. cbn [length]. lia.
  - rewrite <- app_assoc. apply K, Forall_take, N.
Qed.

(** ** Witnesses *)

Definition sent_views : list bytes := [[x61; x62]; [x63]].

Lemma udp_datagram_whole_witness :
  recv (mkFDWrapper 3 false false 0 0) 2 (mkAnswer 3 0) (take 2 [x61; x62; x63]) (sockaddr_in 53 134744072) sockaddr_in_size =
    Throw runtime_error.
Proof.
  destruct (udp_datagram_whole (mkFDWrapper 4 false false 0 0) (mkFDWrapper 3 false false 0 0)
    (fun vs => mkAnswer (len (concat (map fst vs))) 0) sent_views 2 0 (sockaddr_in 53 134744072) sockaddr_in_size
    (inet_address 53 134744072)) as [_ H].
  - reflexivity.
  - vm_compute. reflexivity.
  - unfold LONG_MAX. lia.
  - apply of_sockaddr_in.
  - exact H.
Defined.
