(* ===== verification/EventLoop.v ===== *)
(** * EventLoop

    Waits for events on file descriptors and runs the callbacks of the rules
    (libsponge/util/eventloop.{hh,cc}).

    [W] is the state the callbacks share; [fd_of] finds the descriptor of a handle in
    it, which rules and owners share as the [shared_ptr] does.  [poll(2)] is a
    parameter.  A callback that adds a rule is not modelled. *)

From Stdlib Require Import Sorted.
From stdpp Require Import base numbers list.
From Stdlib Require Import ZArith Lia.
From S2P Require Import Prelude.
From S2P Require Import FileDescriptor.
#[local] Open Scope Z_scope.

(** The flags of [poll(2)] on Linux *)
Definition POLLIN : Z := 1.
Definition POLLOUT : Z := 4.
Definition POLLERR : Z := 8.
Definition POLLHUP : Z := 16.
Definition POLLNVAL : Z := 32.
Definition EINTR : Z := 4.

Inductive Direction := In | Out.
#[global] Instance Direction_eq_dec : EqDecision Direction.
Proof. solve_decision. Defined.

Definition direction_flag (d : Direction) : Z := match d with In => POLLIN | Out => POLLOUT end.

Inductive Result := Success | Timeout | Exit.

Record pollfd := mkPollfd {
  pfd : Z;
  events : Z;
  revents : Z;
}.

Section EventLoop.

Context {W : Type} (fd_of : W -> Z -> FDWrapper).

Record Rule := mkRule {
  fd : Z;
  direction : Direction;
  callback : W -> res W;
  interest : W -> bool;
  cancel : W -> res W;
}.

Definition service_count (w : W) (r : Rule) : Z :=
  match direction r with
  | In => read_count (fd_of w (fd r))
  | Out => write_count (fd_of w (fd r))
  end.

Definition add_rule (rules : list Rule) (r : Rule) : list Rule := rules ++ [r].

(** The loop that sets up a [pollfd] for each rule: the state after the
    cancellations, the rules that are left with their [pollfd], and
    [something_to_poll]. *)
Fixpoint set_up (rules : list Rule) (w : W) (something_to_poll : bool) : res (W * list (Rule * pollfd) * bool) :=
  match rules with
  | [] => Ok (w, [], something_to_poll)
  | r :: rest =>
      if bool_decide (direction r = In) && eof (fd_of w (fd r)) then
        let* w := cancel r w in set_up rest w something_to_poll
      else if closed (fd_of w (fd r)) then
        let* w := cancel r w in set_up rest w something_to_poll
      else if interest r w then
        let p := mkPollfd (fd_num (fd_of w (fd r))) (direction_flag (direction r)) 0 in
        let* (w, kept, s) := set_up rest w true in Ok (w, (r, p) :: kept, s)
      else
        let p := mkPollfd (fd_num (fd_of w (fd r))) 0 0 in
        let* (w, kept, s) := set_up rest w something_to_poll in Ok (w, (r, p) :: kept, s)
  end.

Definition flag_set (x y : Z) : bool := negb (Z.land x y =? 0).

(** The loop over the poll results *)
Fixpoint serve (rules : list (Rule * pollfd)) (w : W) : res (W * list Rule) :=
  match rules with
  | [] => Ok (w, [])
  | (r, p) :: rest =>
      if flag_set (revents p) (Z.lor POLLERR POLLNVAL) then Throw runtime_error
      else
        let poll_ready := flag_set (revents p) (events p) in
        let poll_hup := flag_set (revents p) POLLHUP in
        if poll_hup && negb (events p =? 0) && negb poll_ready then
          let* w := cancel r w in serve rest w
        else if poll_ready then
          let count_before := service_count w r in
          let* w := callback r w in
          if (count_before =? service_count w r) && interest r w then Throw runtime_error
          else let* (w, kept) := serve rest w in Ok (w, r :: kept)
        else let* (w, kept) := serve rest w in Ok (w, r :: kept)
  end.

(** What [poll] answers: its return value, [errno], and the [revents] it fills in *)
Context (poll : W -> list pollfd -> Z -> Z * Z * list Z).

Definition fill (rules : list (Rule * pollfd)) (flags : list Z) : list (Rule * pollfd) :=
  zip_with (fun rp f => (rp.1, mkPollfd (pfd rp.2) (events rp.2) f)) rules flags.

Definition wait_next_event (rules : list Rule) (w : W) (timeout_ms : Z) : res (Result * list Rule * W) :=
  let* (w, kept, something_to_poll) := set_up rules w false in
  if negb something_to_poll then Ok (Exit, map fst kept, w)
  else
    let '(ret, errno, flags) := poll w (map snd kept) timeout_ms in
    let continue :=
      let* (w, rules) := serve (fill kept flags) w in Ok (Success, rules, w) in
    match SystemCall ret errno 0 with
    | Ok n => if n =? 0 then Ok (Timeout, map fst kept, w) else continue
    | Throw _ => if errno =? EINTR then Ok (Exit, map fst kept, w) else continue
    end.

(** ** Specification *)

(** The first loop, as steps: an exhausted rule is cancelled; another one stays, and is
    polled for its direction exactly if it is interested. *)
Definition exhausted (w : W) (r : Rule) : Prop :=
  direction r = In /\ eof (fd_of w (fd r)) = true \/ closed (fd_of w (fd r)) = true.

Inductive sets_up : list Rule -> W -> list (Rule * pollfd) -> W -> Prop :=
| su_done w : sets_up [] w [] w
| su_drop r rules w w1 kept w2 :
    exhausted w r -> cancel r w = Ok w1 -> sets_up rules w1 kept w2 -> sets_up (r :: rules) w kept w2
| su_read r rules w kept w2 :
    ~ exhausted w r -> interest r w = true -> direction r = In -> sets_up rules w kept w2 ->
    sets_up (r :: rules) w ((r, mkPollfd (fd_num (fd_of w (fd r))) POLLIN 0) :: kept) w2
| su_write r rules w kept w2 :
    ~ exhausted w r -> interest r w = true -> direction r = Out -> sets_up rules w kept w2 ->
    sets_up (r :: rules) w ((r, mkPollfd (fd_num (fd_of w (fd r))) POLLOUT 0) :: kept) w2
| su_wait r rules w kept w2 :
    ~ exhausted w r -> interest r w = false -> sets_up rules w kept w2 ->
    sets_up (r :: rules) w ((r, mkPollfd (fd_num (fd_of w (fd r))) 0 0) :: kept) w2.

(** Some rule that is left is interested. *)
Definition asks (kept : list (Rule * pollfd)) : bool := existsb (fun rp => negb (events rp.2 =? 0)) kept.

(** The same without the polling *)
Inductive cancels : list Rule -> W -> list Rule -> W -> Prop :=
| ca_done w : cancels [] w [] w
| ca_drop r rules w w1 kept w2 :
    exhausted w r -> cancel r w = Ok w1 -> cancels rules w1 kept w2 -> cancels (r :: rules) w kept w2
| ca_keep r rules w kept w2 :
    ~ exhausted w r -> cancels rules w kept w2 -> cancels (r :: rules) w (r :: kept) w2.

(** The second loop, as steps: a rule whose events are ready is called, and then it
    was served or has lost interest; one that only hung up is cancelled. *)
Inductive serves : list (Rule * pollfd) -> W -> list Rule -> W -> Prop :=
| se_done w : serves [] w [] w
| se_call r p rules w w1 kept w2 :
    Z.land (revents p) (events p) <> 0 -> callback r w = Ok w1 ->
    (service_count w1 r <> service_count w r \/ interest r w1 = false) ->
    serves rules w1 kept w2 -> serves ((r, p) :: rules) w (r :: kept) w2
| se_hangup r p rules w w1 kept w2 :
    Z.land (revents p) (events p) = 0 -> Z.land (revents p) POLLHUP <> 0 -> events p <> 0 ->
    cancel r w = Ok w1 -> serves rules w1 kept w2 -> serves ((r, p) :: rules) w kept w2
| se_idle r p rules w kept w2 :
    Z.land (revents p) (events p) = 0 -> Z.land (revents p) POLLHUP = 0 \/ events p = 0 ->
    serves rules w kept w2 -> serves ((r, p) :: rules) w (r :: kept) w2.

(** [poll] reports no error on a descriptor. *)
Definition sane (rp : Rule * pollfd) : Prop := Z.land (revents rp.2) (Z.lor POLLERR POLLNVAL) = 0.

(** ** Lemmas *)

Lemma flag_set_spec x y : flag_set x y = true <-> Z.land x y <> 0.
Proof. unfold flag_set. by rewrite negb_true_iff, Z.eqb_neq. Qed.

Lemma exhausted_test w r :
  (bool_decide (direction r = In) && eof (fd_of w (fd r))) || closed (fd_of w (fd r)) = true <-> exhausted w r.
Proof. unfold exhausted. by rewrite orb_true_iff, andb_true_iff, bool_decide_eq_true. Qed.

Lemma set_up_sets_up rules w s w' kept s' :
  set_up rules w s = Ok (w', kept, s') -> sets_up rules w kept w' /\ s' = s || asks kept.
Proof.
  revert w s w' kept s'. induction rules as [|r rules IH]; intros w s w' kept s'; cbn [set_up].
  { intros [= -> <- ->]. split; [constructor|]. by rewrite orb_false_r. }
  pose proof (exhausted_test w r) as Hx. destruct (bool_decide (direction r = In) && eof _); cbn [orb] in Hx.
  { intros (w1 & Hc & [H1 H2]%IH)%res_bind_ok. split; [eapply su_drop; [by apply Hx|done|done]|done]. }
  destruct (closed _).
  { intros (w1 & Hc & [H1 H2]%IH)%res_bind_ok. split; [eapply su_drop; [by apply Hx|done|done]|done]. }
  assert (Hn : ~ exhausted w r) by (intros ?%Hx; done).
  destruct (interest r w) eqn:Ei; intros ([[w1 l] s1] & [H1 H2]%IH & [= <- <- <-])%res_bind_ok.
  - unfold asks. cbn [existsb snd events]. fold (asks l). rewrite orb_true_l in H2.
    destruct (direction r) eqn:Ed; (split; [by constructor|]); by rewrite H2, orb_true_r.
  - split; [by constructor|]. by rewrite H2.
Qed.

Lemma sets_up_set_up rules w kept w' : sets_up rules w kept w' -> forall s, set_up rules w s = Ok (w', kept, s || asks kept).
Proof.
  induction 1 as [w|r rules w w1 kept w2 He Hc _ IH|r rules w kept w2 He Hi Hd _ IH|r rules w kept w2 He Hi Hd _ IH|r rules w kept w2 He Hi _ IH];
    intros s; cbn [set_up]; [by rewrite orb_false_r|..]; rewrite <- exhausted_test in He.
  - destruct (bool_decide _ && _); [rewrite Hc; by apply IH|]. cbn [orb] in He. rewrite He, Hc. by apply IH.
  - apply not_true_iff_false, orb_false_iff in He as [-> ->]. rewrite Hi, IH. cbn [res_bind]. rewrite Hd. by rewrite orb_true_r.
  - apply not_true_iff_false, orb_false_iff in He as [-> ->]. rewrite Hi, IH. cbn [res_bind]. rewrite Hd. by rewrite orb_true_r.
  - apply not_true_iff_false, orb_false_iff in He as [-> ->]. rewrite Hi, IH. done.
Qed.

Lemma sets_up_cancels rules w kept w' : sets_up rules w kept w' -> cancels rules w (map fst kept) w'.
Proof. induction 1; cbn [map fst]; [constructor|by eapply ca_drop|by apply ca_keep..]. Qed.

Lemma asks_spec kept : asks kept = true <-> exists rp, rp ∈ kept /\ events rp.2 <> 0.
Proof.
  unfold asks. rewrite existsb_exists. setoid_rewrite list_elem_of_In. setoid_rewrite negb_true_iff. by setoid_rewrite Z.eqb_neq.
Qed.

Lemma asks_none kept : asks kept = false <-> Forall (fun rp => events rp.2 = 0) kept.
Proof.
  unfold asks. induction kept as [|rp kept IH]; cbn [existsb]; [by split; [constructor|]|].
  rewrite orb_false_iff, negb_false_iff, Z.eqb_eq, IH. split; [intros []; by constructor|by intros []%Forall_cons].
Qed.

Lemma set_up_spec rules w s w' kept s' :
  set_up rules w s = Ok (w', kept, s') -> cancels rules w (map fst kept) w' /\ s' = s || asks kept.
Proof. intros [H1 H2]%set_up_sets_up. split; [by apply sets_up_cancels|done]. Qed.

Lemma serve_spec rules w w' kept : serve rules w = Ok (w', kept) -> serves rules w kept w'.
Proof.
  revert w w' kept. induction rules as [|[r p] rules IH]; intros w w' kept; cbn [serve].
  { intros [= -> <-]. constructor. }
  destruct (flag_set (revents p) (Z.lor POLLERR POLLNVAL)); [done|]. cbv zeta.
  pose proof (flag_set_spec (revents p) (events p)) as Hr. pose proof (flag_set_spec (revents p) POLLHUP) as Hh.
  destruct (flag_set (revents p) (events p)).
  - cbn [negb]. rewrite andb_false_r. intros (w1 & Hc & H)%res_bind_ok. revert H.
    destruct (Z.eqb_spec (service_count w r) (service_count w1 r)) as [Heq|Hne]; cbn [andb].
    + destruct (interest r w1) eqn:Ei; [done|]. intros ([w2 l] & H%IH & [= <- <-])%res_bind_ok.
      eapply se_call; [by apply Hr|done|by right|done].
    + intros ([w2 l] & H%IH & [= <- <-])%res_bind_ok. eapply se_call; [by apply Hr|done|left; congruence|done].
  - assert (Hz : Z.land (revents p) (events p) = 0) by (apply dec_stable; intros H; by apply Hr in H).
    cbn [negb]. rewrite andb_true_r. destruct (flag_set (revents p) POLLHUP); cbn [andb].
    + destruct (Z.eqb_spec (events p) 0) as [He|He]; cbn [negb].
      * intros ([w2 l] & H%IH & [= <- <-])%res_bind_ok. apply se_idle; [done|by right|done].
      * intros (w1 & Hc & H%IH)%res_bind_ok. eapply se_hangup; [done|by apply Hh|done|done|done].
    + intros ([w2 l] & H%IH & [= <- <-])%res_bind_ok. apply se_idle; [done| |done].
      left. apply dec_stable. intros H0. by apply Hh in H0.
Qed.

Lemma serve_sane rules w w' kept : serve rules w = Ok (w', kept) -> Forall sane rules.
Proof.
  revert w w' kept. induction rules as [|[r p] rules IH]; intros w w' kept; cbn [serve]; [by constructor|].
  destruct (flag_set _ _) eqn:E; [done|]. apply negb_false_iff, Z.eqb_eq in E. cbv zeta.
  destruct (flag_set (revents p) POLLHUP && _ && _); [intros (w1 & _ & H%IH)%res_bind_ok; by constructor|].
  destruct (flag_set (revents p) (events p)); [|intros ([w2 l] & H%IH & _)%res_bind_ok; by constructor].
  intros (w1 & _ & H)%res_bind_ok. destruct (_ && _); [done|]. apply res_bind_ok in H as ([w2 l] & H%IH & _). by constructor.
Qed.

Lemma serves_serve rules w kept w' : serves rules w kept w' -> Forall sane rules -> serve rules w = Ok (w', kept).
Proof.
  induction 1 as [w|r p rules w w1 kept w2 Hr Hc Hs _ IH|r p rules w w1 kept w2 Hr Hh He Hc _ IH|r p rules w kept w2 Hr Hh _ IH];
    [done|..]; intros [Hp Hsane]%Forall_cons; cbn [serve]; unfold sane in Hp; cbn [snd] in Hp; unfold flag_set at 1;
    rewrite Hp, (Z.eqb_refl 0); cbn [negb]; cbv zeta.
  - rewrite (proj2 (flag_set_spec _ _) Hr). cbn [negb]. rewrite andb_false_r, Hc. cbn [res_bind].
    replace (_ && interest r w1) with false; [by rewrite IH|]. symmetry.
    destruct Hs as [Hs| ->]; [|by rewrite andb_false_r]. by rewrite (proj2 (Z.eqb_neq _ _)) by congruence.
  - unfold flag_set at 2. rewrite Hr, (proj2 (flag_set_spec _ _) Hh), (proj2 (Z.eqb_neq _ _) He), Hc. cbn. by apply IH.
  - unfold flag_set. rewrite Hr. cbn [Z.eqb negb]. rewrite IH by done.
    destruct Hh as [-> | ->]; cbn [Z.eqb negb andb]; [done|]. by rewrite andb_false_r.
Qed.

Lemma serve_nothing kept w : serve (fill kept (replicate (length kept) 0)) w = Ok (w, map fst kept).
Proof.
  induction kept as [|[r p] kept IH]; [done|]. cbn [length replicate fill zip_with serve fst snd revents events map].
  cbn. change (zip_with _ kept _) with (fill kept (replicate (length kept) 0)). by rewrite IH.
Qed.

(** A property that every callback and every cancellation keeps is kept by a call, and
    the rules that are left are among those of before, in their order. *)
Lemma cancels_preserves (I : W -> Prop) rules w kept w' :
  cancels rules w kept w' -> (forall r v v1, r ∈ rules -> I v -> cancel r v = Ok v1 -> I v1) -> I w ->
  I w' /\ kept `sublist_of` rules.
Proof.
  induction 1 as [w|r rules w w1 kept w2 He Hc _ IH|r rules w kept w2 He _ IH]; intros Hk Hi; [done| |].
  - destruct IH as [IH1 IH2]; [intros r' v v1 Hin; apply Hk; by right|by eapply Hk; [by left|..]|].
    split; [done|by constructor].
  - destruct IH as [IH1 IH2]; [intros r' v v1 Hin; apply Hk; by right|done|]. split; [done|by constructor].
Qed.

Lemma serves_preserves (I : W -> Prop) rules w kept w' :
  serves rules w kept w' ->
  (forall r v v1, r ∈ map fst rules -> I v -> callback r v = Ok v1 \/ cancel r v = Ok v1 -> I v1) -> I w ->
  I w' /\ kept `sublist_of` map fst rules.
Proof.
  induction 1 as [w|r p rules w w1 kept w2 Hr Hc Hs _ IH|r p rules w w1 kept w2 Hr Hh He Hc _ IH|r p rules w kept w2 Hr Hh _ IH];
    intros Hk Hi; [done| | |]; cbn [map fst] in *;
    (destruct IH as [IH1 IH2]; [intros r' v v1 Hin; apply Hk; by right|eauto using list_elem_of_here|]; split; [done|by constructor]).
Qed.

Lemma fill_fst kept flags : map fst (fill kept flags) `sublist_of` map fst kept.
Proof.
  revert flags. induction kept as [|[r p] kept IH]; intros [|f flags]; cbn; [done|done|apply sublist_nil_l|].
  constructor. apply IH.
Qed.

Lemma wait_preserves (I : W -> Prop) rules w t ret rules' w' :
  (forall r v v1, r ∈ rules -> I v -> callback r v = Ok v1 \/ cancel r v = Ok v1 -> I v1) -> I w ->
  wait_next_event rules w t = Ok (ret, rules', w') -> I w' /\ rules' `sublist_of` rules.
Proof.
  intros Hk Hi. unfold wait_next_event. intros ([[w1 kept] s] & (Hc & _)%set_up_spec & H)%res_bind_ok.
  destruct (cancels_preserves I _ _ _ _ Hc) as [Hi1 Hsub]; [intros; eapply Hk; eauto|done|].
  assert (Hserve : forall flags ret0, (let* (w, rules) := serve (fill kept flags) w1 in Ok (Success, rules, w)) = Ok (ret0, rules', w') ->
    I w' /\ rules' `sublist_of` rules).
  { intros flags ret0 ([w2 l] & H2%serve_spec & [= _ <- <-])%res_bind_ok.
    pose proof (fill_fst kept flags) as Hf.
    destruct (serves_preserves I _ _ _ _ H2) as [? Hs2]; [|done|split; [done|by do 2 (etransitivity; [eassumption|])]].
    intros r v v1 Hin. apply Hk. eapply elem_of_sublist; [|exact Hsub]. by eapply elem_of_sublist. }
  destruct s; cbn [negb] in H; [|by injection H as _ <- <-].
  destruct (poll _ _ _) as [[p e] flags]. destruct (SystemCall p e 0) as [n|].
  - destruct (n =? 0); [by injection H as _ <- <-|by eapply Hserve].
  - destruct (e =? EINTR); [by injection H as _ <- <-|by eapply Hserve].
Qed.

(** A rule that is gone was cancelled. *)
Lemma cancels_removed (P : Rule -> W -> Prop) rules w kept w' :
  cancels rules w kept w' -> (forall r r' v v1, P r v -> r' ∈ rules -> cancel r' v = Ok v1 -> P r v1) ->
  (forall r v v1, r ∈ rules -> cancel r v = Ok v1 -> P r v1) -> forall r, r ∈ rules -> r ∈ kept \/ P r w'.
Proof.
  intros H. induction H as [w|r0 rules w w1 kept w2 He Hc Hcs IH|r0 rules w kept w2 He Hcs IH]; intros Hk Hp r Hr; [by left| |].
  - apply elem_of_cons in Hr as [->|Hr].
    + right. refine (proj1 (cancels_preserves (P r0) _ _ _ _ Hcs _ _)).
      * intros r' v v1 Hin Hv. apply Hk; [done|by right].
      * by eapply Hp; [left|].
    + apply IH; [|..|done]; intros; [eapply Hk; eauto; by right|eapply Hp; eauto; by right].
  - apply elem_of_cons in Hr as [->|Hr]; [left; by left|].
    destruct (IH ltac:(intros; eapply Hk; eauto; by right) ltac:(intros; eapply Hp; eauto; by right) r Hr); [left; by right|by right].
Qed.

Lemma serves_removed (P : Rule -> W -> Prop) rules w kept w' :
  serves rules w kept w' ->
  (forall r r' v v1, P r v -> r' ∈ map fst rules -> callback r' v = Ok v1 \/ cancel r' v = Ok v1 -> P r v1) ->
  (forall r v v1, r ∈ map fst rules -> cancel r v = Ok v1 -> P r v1) -> forall r, r ∈ map fst rules -> r ∈ kept \/ P r w'.
Proof.
  intros H. induction H as [w|r0 p rules w w1 kept w2 Hr Hc Hs Hcs IH|r0 p rules w w1 kept w2 Hr Hh He Hc Hcs IH|r0 p rules w kept w2 Hr Hh Hcs IH];
    intros Hk Hp r Hin; cbn [map fst] in *; [by left|..]; apply elem_of_cons in Hin as [->|Hin];
    try (left; by left);
    try (destruct (IH ltac:(intros; eapply Hk; eauto; by right) ltac:(intros; eapply Hp; eauto; by right) r Hin);
         [left; first [by right|done]|by right]).
  right. refine (proj1 (serves_preserves (P r0) _ _ _ _ Hcs _ _)).
  - intros r' v v1 Hr' Hv. apply Hk; [done|by right].
  - by eapply Hp; [left|].
Qed.

(** [poll] fills in the flags of every descriptor. *)
Definition polls_all : Prop := forall w ps t, length (poll w ps t).2 = length ps.

Lemma fill_fst_all kept flags : length flags = length kept -> map fst (fill kept flags) = map fst kept.
Proof.
  revert flags. induction kept as [|[r p] kept IH]; intros [|f flags]; cbn; intros Hl; [done|done|done|].
  f_equal. apply IH. lia.
Qed.

Lemma wait_removed (P : Rule -> W -> Prop) rules w t ret rules' w' :
  polls_all ->
  (forall r r' v v1, P r v -> r' ∈ rules -> callback r' v = Ok v1 \/ cancel r' v = Ok v1 -> P r v1) ->
  (forall r v v1, r ∈ rules -> cancel r v = Ok v1 -> P r v1) ->
  wait_next_event rules w t = Ok (ret, rules', w') -> forall r, r ∈ rules -> r ∈ rules' \/ P r w'.
Proof.
  intros Hall Hk Hp. unfold wait_next_event. intros ([[w1 kept] s] & (Hc & _)%set_up_spec & H)%res_bind_ok r Hin.
  destruct (cancels_preserves (fun _ => True) _ _ _ _ Hc ltac:(done) I) as [_ Hsub].
  pose proof (cancels_removed P _ _ _ _ Hc ltac:(eauto) Hp r Hin) as Hr.
  assert (Hserve : forall flags ret0, length flags = length kept ->
    (let* (w, rules) := serve (fill kept flags) w1 in Ok (Success, rules, w)) = Ok (ret0, rules', w') -> r ∈ rules' \/ P r w').
  { intros flags ret0 Hl ([w2 l] & H2%serve_spec & [= _ <- <-])%res_bind_ok.
    pose proof (fill_fst_all kept flags Hl) as Hf. destruct Hr as [Hr|Hr].
    - eapply (serves_removed P); [exact H2|..]; rewrite ?Hf; [| |done].
      + intros r0 r' v v1 Hv Hin' Hd. eapply (Hk r0 r' v v1); [done|by eapply elem_of_sublist|done].
      + intros r0 v v1 Hin' Hd. eapply Hp; [by eapply elem_of_sublist|done].
    - right. refine (proj1 (serves_preserves (P r) _ _ _ _ H2 _ Hr)).
      intros r' v v1. rewrite Hf. intros Hin' Hv. apply Hk; [done|by eapply elem_of_sublist]. }
  destruct s; cbn [negb] in H; [|by injection H as _ <- <-].
  pose proof (Hall w1 (map snd kept) t) as Hl. rewrite length_map in Hl.
  destruct (poll _ _ _) as [[p e] flags]. cbn [snd] in Hl. destruct (SystemCall p e 0) as [n|].
  - destruct (n =? 0); [by injection H as _ <- <-|by eapply Hserve].
  - destruct (e =? EINTR); [by injection H as _ <- <-|by eapply Hserve].
Qed.

(** The loop exits only when nobody is interested, provided that cancelling a rule
    raises no interest of one before it. *)
Definition calm (r r' : Rule) : Prop := forall v v1, interest r v = false -> cancel r' v = Ok v1 -> interest r v1 = false.

Lemma set_up_calm rules w w' kept :
  StronglySorted calm rules -> set_up rules w false = Ok (w', kept, false) ->
  Forall (fun rp => interest rp.1 w' = false) kept.
Proof.
  intros Hs. revert w w' kept. induction Hs as [|r rules Hs IH Hr]; intros w w' kept; cbn [set_up]; [by intros [= _ <-]|].
  destruct (_ && _); [intros (w1 & _ & H)%res_bind_ok; by eapply IH|].
  destruct (closed _); [intros (w1 & _ & H)%res_bind_ok; by eapply IH|].
  destruct (interest r w) eqn:Ei.
  - intros ([[w1 l] s1] & [_ H3]%set_up_spec & [= <- <- ->])%res_bind_ok. done.
  - intros ([[w1 l] s1] & H & [= <- <- ->])%res_bind_ok. constructor; [|by eapply IH]. cbn [fst].
    pose proof H as (Hc & _)%set_up_spec.
    refine (proj1 (cancels_preserves (fun v => interest r v = false) _ _ _ _ Hc _ Ei)).
    intros r' v v1 Hin Hv. rewrite Forall_forall in Hr. by apply (Hr r' Hin v).
Qed.

Lemma wait_exit_calm rules w t rules' w' :
  StronglySorted calm rules -> (forall w ps t, 0 <= (poll w ps t).1.1) ->
  wait_next_event rules w t = Ok (Exit, rules', w') -> Forall (fun r => interest r w' = false) rules'.
Proof.
  intros Hs Hp. unfold wait_next_event. intros ([[w1 kept] s] & Hset & H)%res_bind_ok. destruct s; cbn [negb] in H.
  - specialize (Hp w1 (map snd kept) t). destruct (poll _ _ _) as [[p e] flags]. cbn [fst] in Hp. unfold SystemCall in H.
    rewrite (proj2 (Z.leb_le 0 p) Hp) in H. cbn [orb] in H. destruct (p =? 0); [done|].
    apply res_bind_ok in H as ([? ?] & _ & H). done.
  - injection H as <- <-. apply List.Forall_map. exact (set_up_calm _ _ _ _ Hs Hset).
Qed.

(** What is polled for stays due while later rules are cancelled, if their cancellations
    do not touch it. *)
Definition due (r : Rule) (v : W) : Prop := interest r v = true /\ ~ exhausted v r.
Definition quiet (r r' : Rule) : Prop :=
  forall v v1, cancel r' v = Ok v1 -> fd_num (fd_of v1 (fd r)) = fd_num (fd_of v (fd r)) /\ (due r v -> due r v1).

(** [rp] is an entry of [poll] for the rule: it has the descriptor of the rule and, if
    the rule is due, its direction. *)
Definition polled (v : W) (rp : Rule * pollfd) : Prop :=
  pfd rp.2 = fd_num (fd_of v (fd rp.1)) /\
  (events rp.2 = direction_flag (direction rp.1) /\ due rp.1 v \/ events rp.2 = 0).

Lemma cancels_polled r p rules w kept w' :
  cancels rules w kept w' -> Forall (quiet r) rules -> polled w (r, p) -> polled w' (r, p).
Proof.
  intros Hc Hr Hp. refine (proj1 (cancels_preserves (fun v => polled v (r, p)) _ _ _ _ Hc _ Hp)).
  intros r' v v1 Hin [H1 H2] H. rewrite Forall_forall in Hr. destruct (Hr r' Hin v v1 H) as [E D]. unfold polled in *. cbn [fst snd] in *.
  rewrite E. split; [done|]. destruct H2 as [[? ?]|?]; [left; auto|by right].
Qed.

Lemma sets_up_polled rules w kept w' : sets_up rules w kept w' -> StronglySorted quiet rules -> Forall (polled w') kept.
Proof.
  induction 1 as [w|r rules w w1 kept w2 He Hc _ IH|r rules w kept w2 He Hi Hd Hs IH|r rules w kept w2 He Hi Hd Hs IH|r rules w kept w2 He Hi Hs IH];
    intros Hq; [apply List.Forall_nil|..]; inversion_clear Hq as [|? ? Hq1 Hq2]; [by apply IH|..];
    (constructor; [|by apply IH]); (eapply cancels_polled; [by apply sets_up_cancels|done|]); (split; [done|]);
    [left; cbn; by rewrite Hd|left; cbn; by rewrite Hd|by right].
Qed.

(** ** Invariants of a loop

    [I] is an invariant of the shared state and [P r] the reason why rule [r] may be
    cancelled: its descriptor is exhausted, or it hung up and [poll] said so. *)

Definition hung_up (p : pollfd) : Prop :=
  Z.land (revents p) (events p) = 0 /\ Z.land (revents p) POLLHUP <> 0 /\ events p <> 0.

Record respects (rules : list Rule) (I : W -> Prop) (P : Rule -> W -> Prop) : Prop := {
  rp_call : forall r v v1, r ∈ rules -> I v -> callback r v = Ok v1 -> I v1;
  rp_cancel : forall r v v1, r ∈ rules -> I v -> P r v -> cancel r v = Ok v1 -> I v1;
  rp_stable : forall r r' v v1, r' ∈ rules -> I v -> P r v -> callback r' v = Ok v1 \/ cancel r' v = Ok v1 -> P r v1;
  rp_exhausted : forall r v, r ∈ rules -> I v -> exhausted v r -> P r v;
}.

(** [poll] tells of a bare hang-up of a rule it was asked for only if there is a reason. *)
Definition honest (rules : list Rule) (I : W -> Prop) (P : Rule -> W -> Prop) : Prop :=
  forall w kept t, I w -> map fst kept `sublist_of` rules -> Forall (polled w) kept ->
    Forall (fun rp => hung_up rp.2 -> P rp.1 w) (fill kept (poll w (map snd kept) t).2).

Lemma honest_sublist rules rules' I P : rules' `sublist_of` rules -> honest rules I P -> honest rules' I P.
Proof. intros Hs H w kept t Hi Hk. apply H; [done|by etransitivity]. Qed.

Lemma respects_tail r rules I P : respects (r :: rules) I P -> respects rules I P.
Proof. intros [H1 H2 H3 H4]. split; intros; [eapply H1|eapply H2|eapply H3|eapply H4]; eauto; by right. Qed.

Lemma respects_sublist rules rules' I P : rules' `sublist_of` rules -> respects rules I P -> respects rules' I P.
Proof.
  intros Hs [H1 H2 H3 H4]. split; intros; [eapply H1|eapply H2|eapply H3|eapply H4]; eauto using elem_of_sublist.
Qed.

(** The reasons that hold stay, and what was cancelled had one. *)
Definition justified (rules kept : list Rule) (P : Rule -> W -> Prop) (w w' : W) : Prop :=
  (forall r, P r w -> P r w') /\ (forall r, r ∈ rules -> r ∈ kept \/ P r w').

Lemma cancels_respects I P rules w kept w' :
  respects rules I P -> cancels rules w kept w' -> I w -> I w' /\ justified rules kept P w w'.
Proof.
  intros Hre H. induction H as [w|r rules w w1 kept w2 He Hc Hcs IH|r rules w kept w2 He Hcs IH]; intros Hi.
  - split; [done|]. split; [done|]. intros r Hr. by left.
  - pose proof Hre as [_ R2 R3 R4]. assert (Hp : P r w) by (apply R4; [by left|done|done]).
    destruct (IH (respects_tail _ _ _ _ Hre)) as (Hi2 & J1 & J2); [by eapply R2; [left|..]|]. split; [done|].
    assert (Hkeep : forall r', P r' w -> P r' w2) by (intros r' Hr'; apply J1; eapply R3; [by left|exact Hi|done|by right]).
    split; [done|]. intros r' [->|Hr']%elem_of_cons; [right; by apply Hkeep|by apply J2].
  - destruct (IH (respects_tail _ _ _ _ Hre) Hi) as (Hi2 & J1 & J2). split; [done|]. split; [done|].
    intros r' [->|Hr']%elem_of_cons; [left; by left|]. destruct (J2 r' Hr'); [left; by right|by right].
Qed.

Lemma serves_respects I P rules w kept w' :
  respects (map fst rules) I P -> serves rules w kept w' -> I w -> Forall (fun rp => hung_up rp.2 -> P rp.1 w) rules ->
  I w' /\ justified (map fst rules) kept P w w'.
Proof.
  intros Hre H. induction H as [w|r p rules w w1 kept w2 Hr Hc Hs Hcs IH|r p rules w w1 kept w2 Hr Hh He Hc Hcs IH|r p rules w kept w2 Hr Hh Hcs IH];
    intros Hi Hu; [split; [done|]; split; [done|by intros r Hr; left]|..]; cbn [map fst] in *;
    pose proof Hre as [R1 R2 R3 _]; apply Forall_cons in Hu as [Hu1 Hu].
  - assert (Hst : forall r', P r' w -> P r' w1) by (intros r' Hp; eapply (R3 r' r w); [by left|done|done|by left]).
    destruct (IH (respects_tail _ _ _ _ Hre)) as (Hi2 & J1 & J2); [by apply (R1 r w w1 (list_elem_of_here _ _))|eapply Forall_impl; [exact Hu|intros rp Hrp Hq; by apply Hst, Hrp]|].
    split; [done|]. split; [by auto|]. intros r' [->|Hr']%elem_of_cons; [left; by left|].
    destruct (J2 r' Hr'); [left; by right|by right].
  - assert (Hp : P r w) by (by apply Hu1).
    assert (Hst : forall r', P r' w -> P r' w1) by (intros r' Hp'; eapply (R3 r' r w); [by left|done|done|by right]).
    destruct (IH (respects_tail _ _ _ _ Hre)) as (Hi2 & J1 & J2); [by apply (R2 r w w1 (list_elem_of_here _ _))|eapply Forall_impl; [exact Hu|intros rp Hrp Hq; by apply Hst, Hrp]|].
    split; [done|]. split; [by auto|]. intros r' [->|Hr']%elem_of_cons; [right; by auto|by apply J2].
  - destruct (IH (respects_tail _ _ _ _ Hre) Hi Hu) as (Hi2 & J1 & J2). split; [done|]. split; [done|].
    intros r' [->|Hr']%elem_of_cons; [left; by left|]. destruct (J2 r' Hr'); [left; by right|by right].
Qed.

Lemma wait_respects I P rules w t ret rules' w' :
  respects rules I P -> honest rules I P -> StronglySorted quiet rules -> polls_all -> I w ->
  wait_next_event rules w t = Ok (ret, rules', w') ->
  I w' /\ rules' `sublist_of` rules /\ justified rules rules' P w w'.
Proof.
  intros Hre Hh Hq Hall Hi Hw. pose proof (wait_preserves (fun _ => True) _ _ _ _ _ _ ltac:(done) Logic.I Hw) as [_ Hsub].
  revert Hw. unfold wait_next_event. intros ([[w1 kept] s] & [Hc0 _]%set_up_sets_up & H)%res_bind_ok.
  pose proof (sets_up_polled _ _ _ _ Hc0 Hq) as Hpol. pose proof (sets_up_cancels _ _ _ _ Hc0) as Hc.
  destruct (cancels_respects I P _ _ _ _ Hre Hc Hi) as (Hi1 & J1 & J2).
  destruct (cancels_preserves (fun _ => True) _ _ _ _ Hc ltac:(done) Logic.I) as [_ Hsub1].
  pose proof (Hh w1 kept t Hi1 Hsub1 Hpol) as Hf. pose proof (Hall w1 (map snd kept) t) as Hl. rewrite length_map in Hl.
  assert (Hserve : forall flags ret0, length flags = length kept ->
    Forall (fun rp => hung_up rp.2 -> P rp.1 w1) (fill kept flags) ->
    (let* (w, rules) := serve (fill kept flags) w1 in Ok (Success, rules, w)) = Ok (ret0, rules', w') ->
    I w' /\ rules' `sublist_of` rules /\ justified rules rules' P w w').
  { intros flags ret0 Hl0 Hf0 ([w2 l] & H2%serve_spec & [= _ <- <-])%res_bind_ok.
    pose proof (fill_fst_all kept flags Hl0) as Hfst.
    destruct (serves_respects I P _ _ _ _ ltac:(rewrite Hfst; by eapply respects_sublist) H2 Hi1 Hf0) as (Hi2 & K1 & K2).
    rewrite Hfst in K2. split; [done|]. split; [done|]. split; [by auto|]. intros r Hr. destruct (J2 r Hr); [by apply K2|right; by auto]. }
  assert (Hdone : Ok (ret, map fst kept, w1) = Ok (ret, rules', w') -> I w' /\ rules' `sublist_of` rules /\ justified rules rules' P w w').
  { intros [= <- <-]. by split. }
  destruct s; cbn [negb] in H; [|injection H as <- <- <-; by apply Hdone].
  destruct (poll _ _ _) as [[p e] flags]. cbn [snd] in *. destruct (SystemCall p e 0) as [n|].
  - destruct (n =? 0); [injection H as <- <- <-; by apply Hdone|by eapply Hserve].
  - destruct (e =? EINTR); [injection H as <- <- <-; by apply Hdone|by eapply Hserve].
Qed.

(** ** Properties *)


(** A failing [poll] is reported as success: unless the call was interrupted, the
    exception is caught and dropped, and with no event filled in no rule is called. *)
Theorem poll_error_swallowed rules w t w1 kept errno :
  set_up rules w false = Ok (w1, kept, true) ->
  poll w1 (map snd kept) t = (-1, errno, replicate (length kept) 0) -> errno <> EINTR ->
  wait_next_event rules w t = Ok (Success, map fst kept, w1).
Proof.
  intros Hs Hp He. unfold wait_next_event. rewrite Hs. cbn [res_bind negb]. rewrite Hp, serve_nothing. cbn [res_bind].
  unfold SystemCall. cbn [Z.leb Z.compare orb]. destruct (errno =? 0); [done|]. by rewrite (proj2 (Z.eqb_neq _ _)).
Qed.

End EventLoop.
Arguments Rule : clear implicits.

(** ** Witnesses: a state with one descriptor and a rule that reads it *)

Definition one_fd (w : FDWrapper) (h : Z) : FDWrapper := w.
Definition read_rule : Rule FDWrapper :=
  mkRule 0 In (fun w => Ok (register_read w)) (fun _ => true) (fun w => Ok w).
Definition readable (w : FDWrapper) (p : list pollfd) (t : Z) : Z * Z * list Z := (1, 0, [POLLIN]).
Definition no_memory (w : FDWrapper) (p : list pollfd) (t : Z) : Z * Z * list Z := (-1, 12, [0]).
Definition open_fd : FDWrapper := mkFDWrapper 3 false false 0 0.

(** A second rule writes the same descriptor but is not interested. *)
Definition write_rule : Rule FDWrapper :=
  mkRule 0 Out (fun w => Ok (register_write w)) (fun _ => false) (fun w => Ok w).
Definition readable_first (w : FDWrapper) (p : list pollfd) (t : Z) : Z * Z * list Z := (1, 0, [POLLIN; 0]).


Lemma poll_error_swallowed_witness :
  wait_next_event one_fd no_memory [read_rule] open_fd 10 = Ok (Success, [read_rule], open_fd).
Proof.
  apply (poll_error_swallowed one_fd no_memory [read_rule] open_fd 10 open_fd [(read_rule, mkPollfd 3 POLLIN 0)] 12);
    [reflexivity|reflexivity|vm_compute; congruence].
Defined.
