(* ===== verification/SpongeSocket.v ===== *)
(** * TCPSpongeSocket

    The loop that drives a [TCPConnection]: datagrams of an adapter on one side, the
    stream socket to the owner on the other
    (libsponge/tcp_helpers/tcp_sponge_socket.{hh,cc}, and [Socket::shutdown] of
    util/socket.cc).

    The state has what the thread of the connection sees of the outside: the packets
    waiting at the device and those written to it, and the two directions of the
    socket pair to the owner.  How many bytes the kernel moves in one call, its other
    answers and the clock are parameters.  The owner's thread only sets
    [_abort] and writes to its end of the pair, so its actions are states. *)

From stdpp Require Import base list numbers option.
From Stdlib Require Import ZArith Lia Strings.Byte.
From S2P Require Import Prelude.
From S2P Require Import Socket.
From S2P Require Import Buffer.
From S2P Require Import TCPSegment.
From S2P Require Import StreamReassembler.
From S2P Require Import TCPReceiver.
From S2P Require Import TCPConfig.
From S2P Require Import TCPState.
From S2P Require Import TCPConnection.
From S2P Require Import Adapters.
From S2P Require Import FileDescriptor.
From S2P Require Import EventLoop.
#[local] Open Scope Z_scope.

Definition TCP_TICK_MS : Z := 10.
Definition EAGAIN : Z := 11.

(** Handles of the two descriptors *)
Definition device_fd : Z := 0.
Definition thread_fd : Z := 1.

Section SpongeSocket.

Context {A Packet : Type} `{!FdAdapter A Packet}.

Record TCPSpongeSocket := mkTCPSpongeSocket {
  _thread_data : FDWrapper;
  device : FDWrapper;
  _datagram_adapter : A;
  _tcp : option TCPConnection;
  _abort : bool;
  _inbound_shutdown : bool;
  _outbound_shutdown : bool;
  _fully_acked : bool;
  device_in : list Packet;
  device_out : list Packet;
  pipe_in : bytes;
  pipe_in_closed : bool;
  pipe_out : bytes;
  pipe_out_closed : bool;
}.
#[global] Instance TCPSpongeSocket_eta : RecordEta TCPSpongeSocket := fun s =>
  mkTCPSpongeSocket (_thread_data s) (device s) (_datagram_adapter s) (_tcp s) (_abort s) (_inbound_shutdown s)
    (_outbound_shutdown s) (_fully_acked s) (device_in s) (device_out s) (pipe_in s) (pipe_in_closed s)
    (pipe_out s) (pipe_out_closed s).

Definition fd_of (s : TCPSpongeSocket) (h : Z) : FDWrapper := if h =? device_fd then device s else _thread_data s.

(** [_tcp.value()] *)
Definition tcp_value (s : TCPSpongeSocket) : res TCPConnection :=
  match _tcp s with Some c => Ok c | None => Throw bad_optional_access end.

(** A test of the connection; [_tcp] is set when the rules are. *)
Definition tcp_test (s : TCPSpongeSocket) (f : TCPConnection -> bool) : bool :=
  match _tcp s with Some c => f c | None => false end.

Definition set_tcp (s : TCPSpongeSocket) (c : TCPConnection) : TCPSpongeSocket := s <| _tcp := Some c |>.

(** What the kernel answers to the write of a packet to the device *)
Context (device_answer : TCPSpongeSocket -> Packet -> Socket.answer).

(** Packets go to the device, each in one write, which may fail. *)
Fixpoint put_packets (s : TCPSpongeSocket) (out : list Packet) : res TCPSpongeSocket :=
  match out with
  | [] => Ok s
  | packet :: rest =>
      let* _ := call (device_answer s packet) in
      put_packets (s <| device_out := device_out s ++ [packet] |> <| device := register_write (device s) |>) rest
  end.

(** ** Rule 1: a datagram goes to the connection *)

Definition rule1_callback (s : TCPSpongeSocket) : res TCPSpongeSocket :=
  match device_in s with
  | [] => Throw UndefinedBehaviour
  | packet :: rest =>
      let s := s <| device_in := rest |> <| device := register_read (device s) |> in
      let* (a, seg, out) := adapter_read (_datagram_adapter s) packet in
      let* s := put_packets (s <| _datagram_adapter := a |>) out in
      let* s := match seg with
                | Some seg =>
                    let* c := tcp_value s in
                    let* c := TCPConnection.segment_received c seg in
                    Ok (set_tcp s c)
                | None => Ok s
                end in
      if FileDescriptor.eof (_thread_data s) then
        let* c := tcp_value s in
        if (TCPConnection.bytes_in_flight c =? 0) && negb (_fully_acked s) then Ok (s <| _fully_acked := true |>) else Ok s
      else Ok s
  end.

Definition rule1_interest (s : TCPSpongeSocket) : bool := tcp_test s TCPConnection.active.

(** ** Rule 2: bytes of the owner go to the connection *)

(** The number of bytes a [read] with a limit takes from bytes that are there *)
Context (sock_read : bytes -> Z -> Z).

(** The answer of [::read] on the socket pair *)
Definition pipe_read (s : TCPSpongeSocket) (limit : Z) : Z * Z :=
  match pipe_in s with
  | [] => if pipe_in_closed s || (limit =? 0) then (0, 0) else (-1, EAGAIN)
  | d => (sock_read d (Z.min BUFFER_SIZE limit), 0)
  end.

Definition end_outbound (s : TCPSpongeSocket) : res TCPSpongeSocket :=
  let* c := tcp_value s in
  let* c := end_input_stream c in
  Ok (set_tcp s c <| _outbound_shutdown := true |>).

Definition rule2_callback (s : TCPSpongeSocket) : res TCPSpongeSocket :=
  let* c := tcp_value s in
  let limit := remaining_outbound_capacity c in
  let '(ret, errno) := pipe_read s limit in
  let* (fd, data) := FileDescriptor.read (_thread_data s) limit ret errno (pipe_in s) in
  let s := s <| _thread_data := fd |> <| pipe_in := drop (length data) (pipe_in s) |> in
  let* (c, amount_written) := TCPConnection.write c data in
  let s := set_tcp s c in
  if negb (amount_written =? len data) then Throw runtime_error
  else if FileDescriptor.eof (_thread_data s) then end_outbound s
  else Ok s.

Definition rule2_interest (s : TCPSpongeSocket) : bool :=
  tcp_test s (fun c => TCPConnection.active c && negb (_outbound_shutdown s) && (0 <? remaining_outbound_capacity c)).

(** ** Rule 3: bytes of the connection go to the owner *)

(** The number of bytes a [writev] on the socket pair takes, and the answer of
    [shutdown] *)
Context (sock_write : bytes -> Z) (sock_shutdown : TCPSpongeSocket -> Socket.answer).

Definition pipe_writev (k : bytes) (fd : Z) (iovecs : list (bytes * Z)) : Z * Z * bytes :=
  let d := concat (map fst iovecs) in
  let n := sock_write d in
  (n, if n <? 0 then EAGAIN else 0, k ++ take (Z.to_nat n) d).

(** [inbound.pop_output(n)] *)
Definition pop_inbound (c : TCPConnection) (n : Z) : TCPConnection :=
  let r := _receiver c in
  c <| _receiver := r <| _reassembler := StreamReassembler.pop_output (_reassembler r) n |> |>.

Definition rule3_callback (s : TCPSpongeSocket) : res TCPSpongeSocket :=
  let* c := tcp_value s in
  let inbound := inbound_stream c in
  let amount_to_write := Z.min 65536 (ByteStream.buffer_size inbound) in
  let buffer := ByteStream.peek_output inbound amount_to_write in
  let* (fd, k, bytes_written) := FileDescriptor.write pipe_writev (_thread_data s) (pipe_out s) (view_of_string buffer) false in
  let s := s <| _thread_data := fd |> <| pipe_out := k |> in
  let c := pop_inbound c bytes_written in
  let s := set_tcp s c in
  let inbound := inbound_stream c in
  if ByteStream.eof inbound || ByteStream.error inbound then
    let* fd := shutdown (_thread_data s) SHUT_WR (sock_shutdown s) in
    Ok (s <| _thread_data := fd |> <| pipe_out_closed := true |> <| _inbound_shutdown := true |>)
  else Ok s.

Definition rule3_interest (s : TCPSpongeSocket) : bool :=
  tcp_test s (fun c => let inbound := inbound_stream c in
    negb (ByteStream.buffer_empty inbound) || ((ByteStream.eof inbound || ByteStream.error inbound) && negb (_inbound_shutdown s))).

(** ** Rule 4: segments go to the device *)

Fixpoint write_segments (segs : list TCPSegment) (s : TCPSpongeSocket) : res TCPSpongeSocket :=
  match segs with
  | [] => Ok s
  | seg :: rest =>
      let* (a, _, out) := adapter_write (_datagram_adapter s) seg in
      let* s := put_packets (s <| _datagram_adapter := a |>) out in
      write_segments rest s
  end.

Definition rule4_callback (s : TCPSpongeSocket) : res TCPSpongeSocket :=
  let* c := tcp_value s in
  let* s := write_segments (TCPConnection.segments_out c) s in
  Ok (set_tcp s (take_segments c)).

Definition rule4_interest (s : TCPSpongeSocket) : bool :=
  tcp_test s (fun c => match TCPConnection.segments_out c with [] => false | _ => true end).

(** ** Set-up and loops *)

Definition rules : list (Rule TCPSpongeSocket) :=
  [mkRule device_fd In rule1_callback rule1_interest (fun s => Ok s);
   mkRule thread_fd In rule2_callback rule2_interest end_outbound;
   mkRule thread_fd Out rule3_callback rule3_interest (fun s => Ok s);
   mkRule device_fd Out rule4_callback rule4_interest (fun s => Ok s)].

Definition _initialize_TCP (s : TCPSpongeSocket) (config : TCPConfig) (random : Z) : TCPSpongeSocket * list (Rule TCPSpongeSocket) :=
  (set_tcp s (TCPConnection.new config random), rules).

Context (poll : TCPSpongeSocket -> list pollfd -> Z -> Z * Z * list Z).

(** [_tcp_loop]: each iteration takes a value of the clock; [NoFuel] says that the
    loop still runs when the clock values are used up. *)
Fixpoint _tcp_loop (times : list Z) (condition : TCPSpongeSocket -> bool) (base_time : Z)
    (rs : list (Rule TCPSpongeSocket)) (s : TCPSpongeSocket) : res (list (Rule TCPSpongeSocket) * TCPSpongeSocket) :=
  if negb (condition s) then Ok (rs, s)
  else
    match times with
    | [] => Throw NoFuel
    | next_time :: times =>
        let* (ret, rs, s) := wait_next_event fd_of poll rs s TCP_TICK_MS in
        if (match ret with Exit => true | _ => false end) || _abort s then Ok (rs, s)
        else
          let* c := tcp_value s in
          if TCPConnection.active c then
            let elapsed := u64 (next_time - base_time) in
            let* c := TCPConnection.tick c elapsed in
            let (a, out) := adapter_tick (_datagram_adapter s) elapsed in
            let* s := put_packets (set_tcp s c <| _datagram_adapter := a |>) out in
            _tcp_loop times condition next_time rs s
          else _tcp_loop times condition base_time rs s
    end.

Definition in_state (st : State) (s : TCPSpongeSocket) : bool :=
  tcp_test s (fun c => state_eqb (TCPConnection.state c) (of_state st)).

(** [config_mut() = c_ad] *)
Definition configure (s : TCPSpongeSocket) (c_ad : FdAdapterConfig) : TCPSpongeSocket :=
  let a := _datagram_adapter s in
  s <| _datagram_adapter := adapter_set_base a (set_config (adapter_base a) c_ad) |>.

(** [connect], to the start of the thread *)
Definition connect (s : TCPSpongeSocket) (c_tcp : TCPConfig) (c_ad : FdAdapterConfig) (random base_time : Z) (times : list Z)
    : res (list (Rule TCPSpongeSocket) * TCPSpongeSocket) :=
  match _tcp s with
  | Some _ => Throw runtime_error
  | None =>
      let (s, rs) := _initialize_TCP s c_tcp random in
      let s := configure s c_ad in
      let* c := tcp_value s in
      let* c := TCPConnection.connect c in
      let s := set_tcp s c in
      if state_neqb (TCPConnection.state c) (of_state SYN_SENT) then Throw runtime_error
      else _tcp_loop times (in_state SYN_SENT) base_time rs s
  end.

Definition listen_and_accept (s : TCPSpongeSocket) (c_tcp : TCPConfig) (c_ad : FdAdapterConfig) (random base_time : Z) (times : list Z)
    : res (list (Rule TCPSpongeSocket) * TCPSpongeSocket) :=
  match _tcp s with
  | Some _ => Throw runtime_error
  | None =>
      let (s, rs) := _initialize_TCP s c_tcp random in
      let s := configure s c_ad in
      let a := _datagram_adapter s in
      let s := s <| _datagram_adapter := adapter_set_base a (set_listening (adapter_base a) true) |> in
      _tcp_loop times (fun s => in_state LISTEN s || in_state SYN_RCVD s || in_state SYN_SENT s) base_time rs s
  end.

(** [_tcp_main]: the owner's end of the pair is shut down, and [_tcp.reset()]
    destroys the connection with its queue. *)
Definition _tcp_main (base_time : Z) (times : list Z) (rs : list (Rule TCPSpongeSocket)) (s : TCPSpongeSocket)
    : res (list (Rule TCPSpongeSocket) * TCPSpongeSocket) :=
  match _tcp s with
  | None => Throw runtime_error
  | Some _ =>
      let* (rs, s) := _tcp_loop times (fun _ => true) base_time rs s in
      let s := s <| pipe_in_closed := true |> in
      let* _ := tcp_value s in
      Ok (rs, s <| _tcp := None |>)
  end.

(** The owner closes its end of the pair, or tells the thread to end. *)
Definition owner_closed (s : TCPSpongeSocket) : TCPSpongeSocket := s <| pipe_in_closed := true |>.
Definition aborted (s : TCPSpongeSocket) : TCPSpongeSocket := s <| _abort := true |>.

End SpongeSocket.
Arguments TCPSpongeSocket : clear implicits.
