(* ===== verification/Delivery.v ===== *)
(** * TCPSpongeSocket: between the owner and the connection

    No byte is lost or repeated on the way between the owner's socket and the two
    streams of the connection, however few bytes the kernel moves per call, and the
    checks that throw in the code never do. *)

From stdpp Require Import base list numbers option.
From Stdlib Require Import ZArith Lia Strings.Byte.
From S2P Require Import Prelude.
From S2P Require Import Socket.
From S2P Require Import Buffer.
From S2P Require Import WrappingIntegers.
From S2P Require Import TCPHeader.
From S2P Require Import TCPSegment.
From S2P Require Import StreamReassembler.
From S2P Require Import TCPReceiver.
From S2P Require Import TCPConfig.
From S2P Require Import TCPSender.
From S2P Require Import TCPState.
From S2P Require Import TCPConnection.
From S2P Require Import Endpoint.
From S2P Require Import Adapters.
From S2P Require Import FileDescriptor.
From S2P Require Import EventLoop.
From S2P Require Import SpongeSocket.
#[local] Open Scope Z_scope.

(** ** What the operations of a connection can throw *)

Lemma fill_loop_throws fuel s e : fill_loop fuel s = Throw e -> e = NoFuel.
Proof.
  revert s. induction fuel as [|fuel IH]; intros s; cbn [fill_loop]; (destruct (negb _ && _); [|done]).
  - by intros [= <-].
  - cbv zeta. destruct (ByteStream.read _ _). apply IH.
Qed.

Lemma fill_window_throws s e : fill_window s = Throw e -> e = NoFuel.
Proof.
  unfold fill_window. case_bool; [done|]. case_bool; [apply fill_loop_throws|]. case_bool; done.
Qed.

Lemma sender_fill_throws c e : sender_fill c = Throw e -> e = NoFuel.
Proof. unfold sender_fill. destruct (fill_window _) eqn:E; [done|]. intros [= <-]. by eapply fill_window_throws. Qed.

Lemma end_input_throws c e : end_input_stream c = Throw e -> e = NoFuel.
Proof.
  unfold end_input_stream. cbv zeta. destruct (sender_fill _) as [c1|] eqn:E; cbn [res_bind].
  - destruct (send_all_spec c1) as (c2 & -> & _). done.
  - intros [= <-]. by eapply sender_fill_throws.
Qed.

(** What fits the capacity is accepted. *)
Lemma write_accepts c data :
  len data <= remaining_outbound_capacity c ->
  (exists c', TCPConnection.write c data = Ok (c', len data)) \/ TCPConnection.write c data = Throw NoFuel.
Proof.
  intros Hl. unfold TCPConnection.write, ByteStream.write. unfold remaining_outbound_capacity, stream_in in Hl.
  rewrite (Z.min_r _ _ Hl). cbv zeta. case_bool; [|left; by eexists].
  destruct (sender_fill _) as [c1|] eqn:E; cbn [res_bind].
  - destruct (send_all_spec c1) as (c2 & -> & _). left. by eexists.
  - apply sender_fill_throws in E as ->. by right.
Qed.

Lemma pop_output_buffer (b : ByteStream.ByteStream) n :
  0 <= n <= len (ByteStream._buffer b) ->
  ByteStream._buffer b = take (Z.to_nat n) (ByteStream._buffer b) ++ ByteStream._buffer (ByteStream.pop_output b n).
Proof.
  intros Hn. unfold ByteStream.pop_output. sponge_simpl. rewrite Z.min_l by lia. unfold slice.
  rewrite (take_ge (drop _ _)) by (rewrite length_drop; unfold len in *; lia). by rewrite take_drop.
Qed.

Section Delivery.

Context {A Packet : Type} `{!FdAdapter A Packet}.

(** As [read(2)] and [write(2)] document: at least one byte, and no more than asked *)
Context (sock_read : bytes -> Z -> Z) (sock_write : bytes -> Z) (sock_shutdown : TCPSpongeSocket A Packet -> Socket.answer).

Definition reads_some : Prop :=
  forall d limit, d <> [] -> 0 < limit -> 0 < sock_read d limit <= Z.min limit (len d).
Definition writes_some : Prop :=
  forall d, 0 <= sock_write d <= len d /\ (d <> [] -> 0 < sock_write d).

Lemma pipe_blocking : writes_some -> blocking_device (pipe_writev sock_write) (fun k => k).
Proof.
  intros Hw k fd vs. unfold pipe_writev. rewrite as_iovecs_fst. destruct (Hw (concat vs)) as [Hn Hp].
  split; [done|]. by split.
Qed.

(** The answer of [read] on the pipe *)
Lemma pipe_read_spec (s : TCPSpongeSocket A Packet) limit ret errno :
  reads_some -> 0 < limit -> pipe_read sock_read s limit = (ret, errno) ->
  ret = -1 /\ errno = EAGAIN /\ pipe_in s = [] /\ pipe_in_closed s = false \/
  ret = 0 /\ pipe_in s = [] /\ pipe_in_closed s = true \/
  0 < ret <= Z.min (Z.min BUFFER_SIZE limit) (len (pipe_in s)) /\ pipe_in s <> [].
Proof.
  intros Hr Hl. unfold pipe_read. destruct (pipe_in s) as [|x d] eqn:E.
  - rewrite (proj2 (Z.eqb_neq limit 0)), orb_false_r by lia. destruct (pipe_in_closed s); intros [= <- <-]; auto.
  - intros [= <- <-]. right. right. split; [|done]. apply Hr; [done|]. unfold BUFFER_SIZE. lia.
Qed.

(** ** Properties *)

(** C22: bytes of the owner reach the connection: the callback of rule 2 never finds
    the connection accepting less than it read; what it takes from the pipe is
    written to the outbound stream completely and in order, at least one byte unless
    the pipe is empty, and the stream is ended only when the pipe is empty and the
    owner has closed it. *)
Theorem outbound_accepted (s : TCPSpongeSocket A Packet) c :
  reads_some -> _tcp s = Some c -> 0 < remaining_outbound_capacity c -> FileDescriptor.eof (_thread_data s) = false ->
  rule2_callback sock_read s <> Throw runtime_error /\
  (forall s', rule2_callback sock_read s = Ok s' ->
    exists data c1, pipe_in s = data ++ pipe_in s' /\ (pipe_in s <> [] -> data <> []) /\
      TCPConnection.write c data = Ok (c1, len data) /\
      (_tcp s' = Some c1 /\ FileDescriptor.eof (_thread_data s') = false \/
       pipe_in s = [] /\ pipe_in_closed s = true /\ exists c2, end_input_stream c1 = Ok c2 /\ _tcp s' = Some c2)).
Proof.
  intros Hr Hc Hl He. unfold rule2_callback, tcp_value. rewrite Hc. cbn [res_bind]. cbv zeta.
  destruct (pipe_read sock_read s _) as [ret errno] eqn:Ep.
  destruct (pipe_read_spec s _ ret errno Hr Hl Ep) as [(-> & -> & _)|[(-> & E1 & E2)|[Hret Hne]]]; [by split| |].
  - unfold FileDescriptor.read, SystemCall. cbn [Z.leb Z.compare orb res_bind].
    rewrite (proj2 (Z.ltb_lt 0 _) Hl), (proj2 (Z.ltb_ge _ _)) by (unfold BUFFER_SIZE; lia). cbn [andb Z.eqb res_bind].
    change (prefix_str (pipe_in s) 0) with (@nil byte).
    destruct (write_accepts c []) as [[c1 Hw]|Hw]; [change (len (@nil byte)) with 0; lia| |by rewrite Hw].
    rewrite Hw. cbn [res_bind length drop]. rewrite Z.eqb_refl. cbn [negb]. sponge_simpl. unfold end_outbound, tcp_value.
    sponge_simpl. destruct (end_input_stream c1) as [c2|] eqn:Ee; cbn [res_bind].
    + split; [done|]. intros s' [= <-]. exists [], c1. split; [done|]. split; [done|]. split; [done|]. right. eauto.
    + apply end_input_throws in Ee as ->. done.
  - unfold FileDescriptor.read, SystemCall. rewrite (proj2 (Z.leb_le 0 ret)) by lia. cbn [orb res_bind].
    rewrite (proj2 (Z.eqb_neq ret 0)), andb_false_r, (proj2 (Z.ltb_ge _ _)) by lia. cbn [res_bind].
    set (data := prefix_str (pipe_in s) ret).
    assert (Hd : len data = ret) by (unfold data; rewrite len_prefix_str; lia).
    destruct (write_accepts c data) as [[c1 Hw]|Hw]; [lia| |by rewrite Hw].
    rewrite Hw. cbn [res_bind]. rewrite Z.eqb_refl. cbn [negb].
    unfold FileDescriptor.eof, register_read in *. sponge_simpl. rewrite He.
    split; [done|]. intros s' [= <-]. exists data, c1. sponge_simpl. split_and!; [|intros _ E%(f_equal len); change (len (@nil byte)) with 0 in E; lia|done|by left].
    replace (length data) with (Z.to_nat ret) by (unfold len in Hd; lia). unfold data, prefix_str. by rewrite take_drop.
Qed.

(** C21: bytes of the connection reach the owner: the callback of rule 3 returns, unless
    the kernel refuses to shut the socket down at the end of the stream, and what it wrote to the owner followed by what is still buffered is what was there
    before, so a partial write loses and repeats nothing; at least one byte moves
    if there is one; and the owner's end is shut down only when nothing is left or
    the stream has an error. *)
Theorem inbound_conserved (s : TCPSpongeSocket A Packet) c :
  writes_some -> _tcp s = Some c -> ByteStream.buffer_size (inbound_stream c) < 18446744073709551616 ->
  (exists s' c', rule3_callback sock_write sock_shutdown s = Ok s' /\ _tcp s' = Some c' /\
    pipe_out s' ++ ByteStream._buffer (inbound_stream c') = pipe_out s ++ ByteStream._buffer (inbound_stream c) /\
    (ByteStream.buffer_empty (inbound_stream c) = false -> len (pipe_out s) < len (pipe_out s')) /\
    (pipe_out_closed s' = true -> pipe_out_closed s = true \/
      ByteStream.eof (inbound_stream c') = true \/ ByteStream.error (inbound_stream c') = true)) \/
  ((exists s1, ret (sock_shutdown s1) < 0) /\ rule3_callback sock_write sock_shutdown s = Throw unix_error).
Proof.
  intros Hw Hc Hb. unfold rule3_callback, tcp_value. rewrite Hc. cbn [res_bind]. cbv zeta.
  set (inb := inbound_stream c) in *. unfold ByteStream.buffer_size in *.
  set (buffer := ByteStream.peek_output inb _).
  pose proof (len_nonneg (ByteStream._buffer inb)) as Hnn.
  assert (Hbuf : buffer = take (Z.to_nat (Z.min 65536 (len (ByteStream._buffer inb)))) (ByteStream._buffer inb)).
  { unfold buffer, ByteStream.peek_output, prefix_str. do 2 f_equal. lia. }
  assert (Hl : len buffer = Z.min 65536 (len (ByteStream._buffer inb))) by (rewrite Hbuf, len_take; lia).
  destruct (write_partial (pipe_writev sock_write) (fun k => k) (_thread_data s) (pipe_out s) (view_of_string buffer))
    as (k' & n & -> & Hn & Hp & Hk); [by apply pipe_blocking|simpl; rewrite app_nil_r; lia|].
  simpl in Hn, Hp, Hk. rewrite app_nil_r in *. cbn [res_bind].
  assert (Hinb : inbound_stream (pop_inbound c n) = ByteStream.pop_output inb n) by done.
  assert (Hcons : k' ++ ByteStream._buffer (ByteStream.pop_output inb n) = pipe_out s ++ ByteStream._buffer inb).
  { rewrite (pop_output_buffer inb n), Hk, Hbuf, take_take, <- app_assoc by lia. do 2 f_equal. f_equal. lia. }
  assert (Hmove : ByteStream.buffer_empty inb = false -> len (pipe_out s) < len k').
  { unfold ByteStream.buffer_empty. intros Hz%Z.eqb_neq. assert (0 < n) by (apply Hp; intros E%(f_equal len); change (len (@nil byte)) with 0 in E; lia).
    rewrite Hk, len_app, len_take. lia. }
  rewrite Hinb. destruct (ByteStream.eof _ || ByteStream.error _) eqn:Ee.
  - unfold shutdown, call, SystemCall. set (a := sock_shutdown _). destruct (Z.leb_spec 0 (ret a)) as [Ha|Ha]; cbn [orb].
    2: { destruct (errno a =? 0); [|by right; split; [eexists|]]. cbn [res_bind]. left. eexists. exists (pop_inbound c n).
         split; [done|split; [done|split; [by rewrite Hinb|split; [done|]]]]. intros _. right. rewrite Hinb. by apply orb_true_iff. }
    left. eexists. exists (pop_inbound c n). split; [done|split; [done|split; [by rewrite Hinb|split; [done|]]]].
    intros _. right. rewrite Hinb. by apply orb_true_iff.
  - left. eexists. exists (pop_inbound c n). split; [done|split; [done|split; [by rewrite Hinb|split; [done|]]]]. sponge_simpl. auto.
Qed.

End Delivery.

(** A new connection after [connect]. *)
Lemma connect_new cfg random :
  exists c syn, TCPConnection.connect (TCPConnection.new cfg random) = Ok c /\ segments_out c = [syn] /\
    TCPHeader.syn (header syn) = true /\ seqno (header syn) = _isn (_sender (TCPConnection.new cfg random)) /\
    state c = of_state SYN_SENT.
Proof.
  set (c0 := TCPConnection.new cfg random).
  set (syn := default_segment <| header := header default_segment <| syn := true |> <| seqno := _isn (_sender c0) |> |>).
  set (s := send_new (_sender c0) syn).
  assert (Hf : fill_window (_sender c0) = Ok s) by reflexivity.
  exists (c0 <| _sender := s <| TCPSender._segments_out := [] |> |> <| TCPConnection._segments_out := [syn] |>), syn.
  split; [|repeat split; reflexivity].
  unfold TCPConnection.connect, sender_fill. rewrite Hf. reflexivity.
Qed.

(** [connect] gets past its check of the state: for every configuration and
    initial sequence number, the new connection queues exactly a SYN with that
    number and is in the official state SYN_SENT, so the socket enters its loop with
    the four rules. *)
Theorem connect_reaches_syn_sent {A Packet} `{!FdAdapter A Packet} device_answer sock_read sock_write sock_shutdown poll
    (s : TCPSpongeSocket A Packet) c_tcp c_ad random base_time times :
  _tcp s = None ->
  exists c syn, segments_out c = [syn] /\ TCPHeader.syn (header syn) = true /\
    seqno (header syn) = _isn (_sender (TCPConnection.new c_tcp random)) /\ state c = of_state SYN_SENT /\
    connect device_answer sock_read sock_write sock_shutdown poll s c_tcp c_ad random base_time times =
      _tcp_loop device_answer poll times (in_state SYN_SENT) base_time (rules device_answer sock_read sock_write sock_shutdown) (set_tcp (configure s c_ad) c).
Proof.
  intros Hn. destruct (connect_new c_tcp random) as (c & syn & Hc & Hs & H1 & H2 & H3).
  exists c, syn. split_and!; try done. unfold connect. rewrite Hn. cbn [_initialize_TCP].
  change (tcp_value _) with (Ok (TCPConnection.new c_tcp random)). cbn [res_bind]. rewrite Hc. cbn [res_bind].
  rewrite H3. reflexivity.
Qed.

(** ** Witnesses: a socket over TUN and a kernel that moves at most two bytes *)

Definition two (d : bytes) : Z := Z.min 2 (len d).
Definition two_of (d : bytes) (limit : Z) : Z := Z.min 2 (Z.min limit (len d)).

Definition demo_socket (tcp : option TCPConnection) : TCPSpongeSocket TCPOverIPv4OverTunFdAdapter bytes :=
  mkTCPSpongeSocket (mkFDWrapper 4 false false 0 0) (mkFDWrapper 3 false false 0 0) (mkTun new_base) tcp
    false false false false [] [] [x61; x62; x63] true [x7a] false.

Definition demo_tcp : TCPConnection := TCPConnection.new TCPConfig.default_config 7.

(** A connection with three bytes in its inbound stream. *)
Definition demo_inbound : TCPConnection :=
  let r := _receiver demo_tcp in
  demo_tcp <| _receiver := r <| TCPReceiver._reassembler :=
    (TCPReceiver._reassembler r) <| StreamReassembler._output :=
      (ByteStream.write (TCPReceiver.stream_out r) [x64; x65; x66]).1 |> |> |>.

(** A kernel that refuses nothing *)
Definition granted {W} (w : W) : Socket.answer := mkAnswer 0 0.

Lemma two_reads : reads_some two_of.
Proof.
  intros d limit Hd Hl. unfold two_of. destruct d; [done|]. rewrite len_cons. pose proof (len_nonneg d). lia.
Qed.

Lemma two_writes : writes_some two.
Proof.
  intros d. unfold two. pose proof (len_nonneg d). split; [lia|]. destruct d; [done|].
  rewrite len_cons. pose proof (len_nonneg d). lia.
Qed.

Lemma outbound_accepted_witness : rule2_callback two_of (demo_socket (Some demo_tcp)) <> Throw runtime_error.
Proof.
  apply (outbound_accepted two_of (demo_socket (Some demo_tcp)) demo_tcp two_reads eq_refl); vm_compute; reflexivity.
Defined.

Lemma inbound_conserved_witness :
  exists s' c', rule3_callback two granted (demo_socket (Some demo_inbound)) = Ok s' /\ _tcp s' = Some c' /\
    pipe_out s' ++ ByteStream._buffer (inbound_stream c') = [x7a; x64; x65; x66].
Proof.
  destruct (inbound_conserved two granted (demo_socket (Some demo_inbound)) demo_inbound two_writes eq_refl)
    as [(s' & c' & H1 & H2 & H3 & _)|[[s1 H] _]]; [vm_compute; reflexivity| |discriminate H].
  exists s', c'. split; [exact H1|]. split; [exact H2|exact H3].
Defined.

Lemma connect_reaches_syn_sent_witness :
  exists c syn, segments_out c = [syn] /\ state c = of_state SYN_SENT /\
    connect (fun s _ => granted s) two_of two granted (fun _ _ _ => (0, 0, [])) (demo_socket None) TCPConfig.default_config Adapters.default_config 7 0 [10] =
      _tcp_loop (fun s _ => granted s) (fun _ _ _ => (0, 0, [])) [10] (in_state SYN_SENT) 0 (rules (fun s _ => granted s) two_of two granted)
        (set_tcp (configure (demo_socket None) Adapters.default_config) c).
Proof.
  destruct (connect_reaches_syn_sent (fun s _ => granted s) two_of two granted (fun _ _ _ => (0, 0, [])) (demo_socket None) TCPConfig.default_config
    Adapters.default_config 7 0 [10] eq_refl) as (c & syn & H1 & _ & _ & H4 & H5).
  exists c, syn. split; [exact H1|]. split; [exact H4|exact H5].
Defined.
