(* ===== verification/SocketOwner.v ===== *)
(** * The owner of a TCPSpongeSocket

    What the thread of the owner does with a [TCPSpongeSocket]: construction from a
    socket pair, starting the thread of the connection, waiting for it and destruction
    (libsponge/tcp_helpers/tcp_sponge_socket.{hh,cc}), and the two ready-made sockets,
    [CS144TCPSocket] and [FullStackSocket].  A thread is the rules it runs with; to
    join it is to run [_tcp_main] to its end.  An exception in the thread of the
    connection terminates the program, and so it is the result of joining. *)

From Stdlib Require Import Strings.String.
From stdpp Require Import base numbers option list.
From Stdlib Require Import ZArith Lia Strings.Byte.
From S2P Require Import Prelude.
From S2P Require Import Text.
From S2P Require Import EthernetHeader.
From S2P Require Import TCPConfig.
From S2P Require Import TCPState.
From S2P Require Import TCPConnection.
From S2P Require Import NetworkSimulator.
From S2P Require Import Adapters.
From S2P Require Import FileDescriptor.
From S2P Require Import EventLoop.
From S2P Require Import SpongeSocket.
From S2P Require Import Socket.
#[local] Open Scope Z_scope.

Definition socket_pair_helper (a : answer) (fd0 fd1 : Z) : res (FDWrapper * FDWrapper) :=
  let* _ := call a in
  let* x := FileDescriptor.new fd0 in
  let* y := FileDescriptor.new fd1 in
  Ok (x, y).

(** The system calls of the constructor: [socketpair] with its two descriptors, the
    checks of both, and [fcntl] to get the flags of the second and to set them *)
Record pair_answers := mkPairAnswers {
  socketpair_answer : answer;
  fds : Z * Z;
  owner_options : option_answers;
  thread_options : option_answers;
  getfl_answer : answer;
  setfl_answer : Z -> answer;
}.

Section Owner.

Context {A Packet : Type} `{!FdAdapter A Packet}.
Context (device_answer : TCPSpongeSocket A Packet -> Packet -> answer).
Context (sock_read : bytes -> Z -> Z) (sock_write : bytes -> Z) (sock_shutdown : TCPSpongeSocket A Packet -> answer).
Context (poll : TCPSpongeSocket A Packet -> list pollfd -> Z -> Z * Z * list Z).

(** [socket] is the end of the pair that the object is itself. *)
Record Owner := mkOwner {
  socket : FDWrapper;
  inner : TCPSpongeSocket A Packet;
  _tcp_thread : option (list (Rule (TCPSpongeSocket A Packet)));
}.

Definition of_pair (p : FDWrapper * FDWrapper) (k : pair_answers) (device : FDWrapper) (datagram_interface : A) : res Owner :=
  let* own := local_stream_socket p.1 (owner_options k) in
  let* thread_data := local_stream_socket p.2 (thread_options k) in
  let* flags := call (getfl_answer k) in
  let* _ := call (setfl_answer k (set_blocking flags false)) in
  Ok (mkOwner own (mkTCPSpongeSocket thread_data device datagram_interface None false false false false [] [] [] false [] false) None).

Definition new_sponge_socket (k : pair_answers) (device : FDWrapper) (datagram_interface : A) : res Owner :=
  let* p := socket_pair_helper (socketpair_answer k) (fds k).1 (fds k).2 in
  of_pair p k device datagram_interface.

(** [connect] and [listen_and_accept] end with the start of the thread. *)
Definition owner_connect (o : Owner) (c_tcp : TCPConfig) (c_ad : FdAdapterConfig) (random base_time : Z) (times : list Z) : res Owner :=
  let* (rs, s) := SpongeSocket.connect device_answer sock_read sock_write sock_shutdown poll (inner o) c_tcp c_ad random base_time times in
  Ok (mkOwner (socket o) s (Some rs)).

Definition owner_listen (o : Owner) (c_tcp : TCPConfig) (c_ad : FdAdapterConfig) (random base_time : Z) (times : list Z) : res Owner :=
  let* (rs, s) := SpongeSocket.listen_and_accept device_answer sock_read sock_write sock_shutdown poll (inner o) c_tcp c_ad random base_time times in
  Ok (mkOwner (socket o) s (Some rs)).

Definition joinable (o : Owner) : bool := match _tcp_thread o with Some _ => true | None => false end.

(** [_tcp_thread.join()]; [a] is the answer of the [shutdown] in [_tcp_main]. *)
Definition join (o : Owner) (base_time : Z) (times : list Z) (a : answer) : res Owner :=
  match _tcp_thread o with
  | None => Throw runtime_error
  | Some rs =>
      let* (_, s) := _tcp_main device_answer poll base_time times rs (inner o) in
      let* fd := Socket.shutdown (socket o) SHUT_RDWR a in
      Ok (mkOwner fd s None)
  end.

(** The owner closes its end: the thread reads an end of file. *)
Definition wait_until_closed (o : Owner) (shutdown_answer : answer) (base_time : Z) (times : list Z) (a : answer) : res Owner :=
  let* fd := Socket.shutdown (socket o) SHUT_RDWR shutdown_answer in
  let o := mkOwner fd (owner_closed (inner o)) (_tcp_thread o) in
  if joinable o then join o base_time times a else Ok o.

(** The destructor *)
Definition destroy_socket (o : Owner) (base_time : Z) (times : list Z) (a : answer) : res Owner :=
  if joinable o then
    let o := mkOwner (socket o) (aborted (inner o)) (_tcp_thread o) in
    join o base_time times a
  else Ok o.

End Owner.
Arguments Owner : clear implicits.

(** ** Ready-made sockets *)

Definition config_100ms : TCPConfig := mkTCPConfig 100 DEFAULT_CAPACITY DEFAULT_CAPACITY None.

Definition multiplexer_config (own : Z) (random_port : Z) (address : Address) : FdAdapterConfig :=
  Adapters.default_config <| source := mkAddress own (u16 random_port) |> <| destination := address |>.

Definition CS144TCPSocket (k : pair_answers) (open_answer : answer) (ioctl : Z -> Z * bytes -> answer)
    : res (Owner TCPOverIPv4OverTunFdAdapter bytes) :=
  let* tun := tun_fd open_answer ioctl (txt "tun144") in
  new_sponge_socket k tun (mkTun new_base).

Definition cs144_connect device_answer sock_read sock_write sock_shutdown poll (o : Owner TCPOverIPv4OverTunFdAdapter bytes) (address : Address)
    (random_port random base_time : Z) (times : list Z) : res (Owner TCPOverIPv4OverTunFdAdapter bytes) :=
  owner_connect device_answer sock_read sock_write sock_shutdown poll o config_100ms (multiplexer_config (ip 169 254 144 9) random_port address) random base_time times.

Definition LOCAL_TAP_IP_ADDRESS : Z := ip 169 254 10 9.
Definition LOCAL_TAP_NEXT_HOP_ADDRESS : Z := ip 169 254 10 1.

(** [draws] are six values of the random device. *)
Definition random_private_ethernet_address (draws : list Z) : EthernetAddress :=
  match map u8 draws with
  | b :: rest => byte_of_Z (Z.land (Z.lor b 2) 254) :: map byte_of_Z rest
  | [] => []
  end.

(** The constructor of the adapter writes a dummy frame to the device. *)
Definition FullStackSocket (k : pair_answers) (open_answer : answer) (ioctl : Z -> Z * bytes -> answer) (draws : list Z)
    : res (Owner TCPOverIPv4OverEthernetAdapter bytes * list bytes) :=
  let* tap := tap_fd open_answer ioctl (txt "tap10") in
  let (a, out) := tap_new (random_private_ethernet_address draws) (mkAddress LOCAL_TAP_IP_ADDRESS 0) (mkAddress LOCAL_TAP_NEXT_HOP_ADDRESS 0) in
  let* o := new_sponge_socket k (Nat.iter (length out) register_write tap) a in
  Ok (o, out).

Definition full_stack_connect device_answer sock_read sock_write sock_shutdown poll (o : Owner TCPOverIPv4OverEthernetAdapter bytes) (address : Address)
    (random_port random base_time : Z) (times : list Z) : res (Owner TCPOverIPv4OverEthernetAdapter bytes) :=
  owner_connect device_answer sock_read sock_write sock_shutdown poll o config_100ms (multiplexer_config LOCAL_TAP_IP_ADDRESS random_port address) random base_time times.

(** ** Properties *)

Section Ends.

Context {A Packet : Type} `{!FdAdapter A Packet}.
Context (device_answer : TCPSpongeSocket A Packet -> Packet -> answer).
Context (sock_read : bytes -> Z -> Z) (sock_write : bytes -> Z) (sock_shutdown : TCPSpongeSocket A Packet -> answer).
Context (poll : TCPSpongeSocket A Packet -> list pollfd -> Z -> Z * Z * list Z).

(** What a callback leaves alone: the flag of the owner, and that there is a connection *)
Definition same_run (s s' : TCPSpongeSocket A Packet) : Prop :=
  _abort s' = _abort s /\ (is_Some (_tcp s) -> is_Some (_tcp s')).

Lemma end_outbound_run s s' : end_outbound s = Ok s' -> same_run s s'.
Proof. intros (c & _ & (c' & _ & [= <-])%res_bind_ok)%res_bind_ok. by split. Qed.

Lemma put_packets_run out s s' : put_packets device_answer s out = Ok s' -> same_run s s'.
Proof.
  revert s. induction out as [|packet out IH]; intros s; cbn [put_packets]; [by intros [= <-]|].
  by intros (n & _ & [H1 H2]%IH)%res_bind_ok.
Qed.

Lemma write_segments_run segs s s' : write_segments device_answer segs s = Ok s' -> same_run s s'.
Proof.
  revert s. induction segs as [|seg segs IH]; intros s; cbn [write_segments]; [by intros [= <-]|].
  intros ([[a n] out] & _ & (s1 & [H1 H2]%put_packets_run & [H3 H4]%IH)%res_bind_ok)%res_bind_ok.
  split; [by rewrite H3, H1|]. intros H. by apply H4, H2.
Qed.

Lemma rule1_run s s' : rule1_callback device_answer s = Ok s' -> same_run s s'.
Proof.
  unfold rule1_callback. destruct (device_in s) as [|packet rest]; [done|].
  intros ([[a seg] out] & _ & (s0 & H0%put_packets_run & (s1 & H1 & H)%res_bind_ok)%res_bind_ok)%res_bind_ok.
  assert (S1 : same_run s s1).
  { destruct H0 as [H0 H0']. revert H1. destruct seg; [|by intros [= <-]].
    intros (c & Hc & (c' & _ & [= <-])%res_bind_ok)%res_bind_ok. split; [exact H0|]. by eexists. }
  revert H. destruct (FileDescriptor.eof _); [|by intros [= <-]]. intros (c & _ & H)%res_bind_ok. revert H.
  destruct (_ && _); by intros [= <-].
Qed.

Lemma rule2_run s s' : rule2_callback sock_read s = Ok s' -> same_run s s'.
Proof.
  unfold rule2_callback. intros (c & _ & H)%res_bind_ok. revert H. cbv zeta. destruct (pipe_read _ _ _) as [ret errno].
  intros ([fd data] & _ & ([c' n] & _ & H)%res_bind_ok)%res_bind_ok. revert H. destruct (negb _); [done|].
  destruct (FileDescriptor.eof _); [|by intros [= <-]]. intros [H1 H2]%end_outbound_run. split; [by rewrite H1|].
  intros _. by apply H2.
Qed.

Lemma rule3_run s s' : rule3_callback sock_write sock_shutdown s = Ok s' -> same_run s s'.
Proof.
  unfold rule3_callback. intros (c & _ & ([[fd k] n] & _ & H)%res_bind_ok)%res_bind_ok. revert H. cbv zeta.
  destruct (_ || _); [|by intros [= <-]]. by intros (fd' & _ & [= <-])%res_bind_ok.
Qed.

Lemma rule4_run s s' : rule4_callback device_answer s = Ok s' -> same_run s s'.
Proof. unfold rule4_callback. intros (c & _ & (s1 & [H1 H2]%write_segments_run & [= <-])%res_bind_ok)%res_bind_ok. split; [exact H1|]. by eexists. Qed.

Lemma rules_run r s s' :
  r ∈ rules device_answer sock_read sock_write sock_shutdown -> callback r s = Ok s' \/ cancel r s = Ok s' -> same_run s s'.
Proof.
  intros Hr. unfold rules in Hr. repeat setoid_rewrite elem_of_cons in Hr.
  destruct Hr as [->|[->|[->|[->|Hr]]]]; [| | | |by apply not_elem_of_nil in Hr]; cbn [callback cancel];
    (intros [H|H]; [|try (injection H as <-; by split)]);
    eauto using rule1_run, rule2_run, rule3_run, rule4_run, end_outbound_run.
Qed.

Lemma wait_run rs s t ret rs' s' :
  rs `sublist_of` rules device_answer sock_read sock_write sock_shutdown -> wait_next_event fd_of poll rs s t = Ok (ret, rs', s') ->
  is_Some (_tcp s) -> _abort s' = _abort s /\ is_Some (_tcp s') /\ rs' `sublist_of` rules device_answer sock_read sock_write sock_shutdown.
Proof.
  intros Hsub Hw Ht.
  destruct (wait_preserves fd_of poll (fun v => _abort v = _abort s /\ is_Some (_tcp v)) rs s t ret rs' s') as [[H1 H2] H3];
    [|by split|exact Hw|].
  - intros r v v1 Hr [Ha Hs] H. destruct (rules_run r v v1) as [E1 E2]; [by eapply elem_of_sublist|done|].
    split; [congruence|by apply E2].
  - split; [done|]. split; [done|]. by etransitivity.
Qed.

(** The thread of a socket that has connected: a connection, and rules of the socket *)
Definition running (o : Owner A Packet) (rs : list (Rule (TCPSpongeSocket A Packet))) : Prop :=
  _tcp_thread o = Some rs /\ rs `sublist_of` rules device_answer sock_read sock_write sock_shutdown /\ is_Some (_tcp (inner o)).

Lemma loop_run times condition base_time rs s rs' s' :
  rs `sublist_of` rules device_answer sock_read sock_write sock_shutdown -> is_Some (_tcp s) -> _tcp_loop device_answer poll times condition base_time rs s = Ok (rs', s') ->
  rs' `sublist_of` rules device_answer sock_read sock_write sock_shutdown /\ is_Some (_tcp s').
Proof.
  revert base_time rs s. induction times as [|t times IH]; intros base_time rs s Hsub Ht; cbn [_tcp_loop];
    (destruct (negb (condition s)); [by intros [= <- <-]|]); [done|].
  intros ([[ret rs1] s1] & Hw & H)%res_bind_ok. destruct (wait_run _ _ _ _ _ _ Hsub Hw Ht) as (_ & Ht1 & Hsub1). revert H.
  destruct (_ || _); [by intros [= <- <-]|]. intros (c & _ & H)%res_bind_ok. revert H.
  destruct (TCPConnection.active c); [|by apply IH]. intros (c' & _ & H)%res_bind_ok. revert H. cbv zeta.
  destruct (adapter_tick _ _) as [a out]. intros (s2 & [_ H2]%put_packets_run & H)%res_bind_ok. eapply IH; [done| |exact H].
  apply H2. by eexists.
Qed.

(** Whoever has connected has such a thread. *)
Lemma connect_running o c_tcp c_ad random base_time times o' :
  owner_connect device_answer sock_read sock_write sock_shutdown poll o c_tcp c_ad random base_time times = Ok o' -> exists rs, running o' rs.
Proof.
  unfold owner_connect. intros ([rs s] & H & [= <-])%res_bind_ok. exists rs. split; [done|]. revert H.
  unfold SpongeSocket.connect. destruct (_tcp (inner o)); [done|]. cbn [_initialize_TCP].
  intros (c & _ & (c' & _ & H)%res_bind_ok)%res_bind_ok. revert H. cbv zeta. destruct (state_neqb _ _); [done|].
  intros H%loop_run; [exact H|done|by eexists].
Qed.

Lemma listen_running o c_tcp c_ad random base_time times o' :
  owner_listen device_answer sock_read sock_write sock_shutdown poll o c_tcp c_ad random base_time times = Ok o' -> exists rs, running o' rs.
Proof.
  unfold owner_listen. intros ([rs s] & H & [= <-])%res_bind_ok. exists rs. split; [done|]. revert H.
  unfold SpongeSocket.listen_and_accept. destruct (_tcp (inner o)); [done|]. cbn [_initialize_TCP].
  intros H%loop_run; [exact H|done|by eexists].
Qed.

(** C23: destruction of a connected socket ends: the thread of the connection makes one
    more round of its loop, whatever the peer or the network do, and is then joined; the
    connection is gone, and nothing is written to the device after that round (so the
    RST that a comment promises is not sent).  Only an exception in this last round gets
    out. *)
Theorem destructor_ends (o : Owner A Packet) rs base_time t a :
  running o rs -> 0 <= ret a ->
  match wait_next_event fd_of poll rs (aborted (inner o)) TCP_TICK_MS with
  | Ok (_, _, s) => exists o', destroy_socket device_answer poll o base_time [t] a = Ok o' /\ joinable o' = false /\
      _tcp (inner o') = None /\ device_out (inner o') = device_out s
  | Throw e => destroy_socket device_answer poll o base_time [t] a = Throw e
  end.
Proof.
  intros (Hrs & Hsub & [c Hc]) Ha. unfold destroy_socket, join, joinable. rewrite Hrs. cbn [_tcp_thread inner].
  unfold _tcp_main. change (_tcp (aborted (inner o))) with (_tcp (inner o)). rewrite Hc. cbn [_tcp_loop negb].
  destruct (wait_next_event _ _ _ _ _) as [[[r rs'] s]|e] eqn:Hw; [|done]. cbn [res_bind].
  apply wait_run in Hw as (Hab & [c' Hc'] & _); [|exact Hsub|by exists c]. change (_abort (aborted (inner o))) with true in Hab.
  rewrite Hab, orb_true_r. cbn [res_bind]. unfold tcp_value.
  change (_tcp (s <| pipe_in_closed := true |>)) with (_tcp s). rewrite Hc'. cbn [res_bind]. unfold Socket.shutdown, call, SystemCall.
  rewrite (proj2 (Z.leb_le 0 (ret a)) Ha). cbn [orb res_bind].
  eexists. split; [reflexivity|]. by split.
Qed.

End Ends.

(** ** Witness: a socket over TUN whose device and owner are silent *)

Definition silent {W} (w : W) (p : list pollfd) (t : Z) : Z * Z * list Z := (0, 0, []).
Definition quiet_read (d : bytes) (limit : Z) : Z := Z.min limit (len d).

Definition accepts {W} (w : W) : answer := mkAnswer 0 0.
Definition accepted {W P} (w : W) (p : P) : answer := mkAnswer 0 0.

Definition connected : Owner TCPOverIPv4OverTunFdAdapter bytes :=
  mkOwner (mkFDWrapper 3 false false 0 0)
    (mkTCPSpongeSocket (mkFDWrapper 4 false false 0 0) (mkFDWrapper 5 false false 0 0) (mkTun new_base)
       (Some (TCPConnection.new TCPConfig.default_config 7)) false false false false [] [] [] false [] false)
    (Some (rules accepted quiet_read len accepts)).

Lemma destructor_ends_witness :
  exists o', destroy_socket accepted silent connected 0 [10] (mkAnswer 0 0) = Ok o' /\ joinable o' = false /\ device_out (inner o') = [].
Proof.
  pose proof (destructor_ends accepted quiet_read len accepts silent connected (rules accepted quiet_read len accepts) 0 10 (mkAnswer 0 0)) as H.
  assert (Hrun : running accepted quiet_read len accepts connected (rules accepted quiet_read len accepts))
    by (split; [reflexivity|]; split; [reflexivity|]; eexists; reflexivity).
  specialize (H Hrun ltac:(vm_compute; discriminate)).
  assert (E : match wait_next_event fd_of silent (rules accepted quiet_read len accepts) (aborted (inner connected)) TCP_TICK_MS with
              | Ok (_, _, s) => device_out s = [] | Throw _ => False end) by (vm_compute; reflexivity).
  destruct (wait_next_event _ _ _ _ _) as [[[r rs] s]|]; [|destruct E].
  destruct H as (o' & H1 & H2 & _ & H3). exists o'. split; [exact H1|]. split; [exact H2|]. rewrite H3. exact E.
Defined.
