(* ===== verification/StreamCopy.v ===== *)
(** * Copying between a socket and the standard streams

    [bidirectional_stream_copy] of apps/bidirectional_stream_copy.cc: an event loop
    with four rules that move bytes from the standard input to a socket and from the
    socket to the standard output, through two byte streams.

    The state has the local variables of the function, shared by its lambdas, and
    what is outside: what has come to the standard input and to the socket so far,
    with the position up to which it is read, and what went to the socket and to
    the standard output.  How many bytes the kernel moves in one call and the
    answers of [poll] are parameters; what arrives while the loop waits is an
    argument of each iteration. *)

From Stdlib Require Import Sorted.
From stdpp Require Import base numbers option list.
From Stdlib Require Import ZArith Lia Strings.Byte.
From S2P Require Import Prelude.
From S2P Require Import ByteStream.
From S2P Require Import Buffer.
From S2P Require Import FileDescriptor.
From S2P Require Import Socket.
From S2P Require Import EventLoop.
#[local] Open Scope Z_scope.

Definition max_copy_length : Z := 65536.
Definition buffer_size : Z := 1048576.
Definition EAGAIN : Z := 11.

(** Handles of the descriptors *)
Definition input_fd : Z := 0.
Definition output_fd : Z := 1.
Definition socket_fd : Z := 2.

(** A source of bytes: what has come so far, how much of it is read, and whether the
    other side has closed it. *)
Record source := mkSource {
  come : bytes;
  pos : nat;
  ended : bool;
}.
#[global] Instance source_eta : RecordEta source := fun s => mkSource (come s) (pos s) (ended s).

Definition unread (s : source) : bytes := drop (pos s) (come s).

Record Copy := mkCopy {
  _input : FDWrapper;
  _output : FDWrapper;
  socket : FDWrapper;
  _outbound : ByteStream;
  _inbound : ByteStream;
  _outbound_shutdown : bool;
  _inbound_shutdown : bool;
  stdin : source;
  sock_in : source;
  sock_out : bytes;
  std_out : bytes;
}.
#[global] Instance Copy_eta : RecordEta Copy := fun c =>
  mkCopy (_input c) (_output c) (socket c) (_outbound c) (_inbound c) (_outbound_shutdown c) (_inbound_shutdown c)
    (stdin c) (sock_in c) (sock_out c) (std_out c).

Definition fd_of (c : Copy) (h : Z) : FDWrapper :=
  if h =? input_fd then _input c else if h =? output_fd then _output c else socket c.

Section StreamCopy.

(** The kernel: how many of the bytes that are there a [read] takes, how many bytes a
    [writev] takes, and what [close] and [shutdown] answer. *)
Context (kernel_read : Copy -> bytes -> Z -> Z) (kernel_write : Copy -> bytes -> Z).
Context (kernel_close kernel_shutdown : Copy -> answer).

(** [fd.read(limit)] on a source *)
Definition read_from (c : Copy) (fd : FDWrapper) (s : source) (limit : Z) : res (FDWrapper * source * bytes) :=
  let '(ret, errno) :=
    match unread s with
    | [] => if ended s || (limit =? 0) then (0, 0) else (-1, EAGAIN)
    | d => (kernel_read c d (Z.min BUFFER_SIZE limit), 0)
    end in
  let* (fd, data) := FileDescriptor.read fd limit ret errno (unread s) in
  Ok (fd, s <| pos := (pos s + length data)%nat |>, data).

(** The [writev] of a descriptor whose bytes go to [k] *)
Definition kernel_writev (c : Copy) (k : bytes) (fd : Z) (iovecs : list (bytes * Z)) : Z * Z * bytes :=
  let d := concat (map fst iovecs) in
  let n := kernel_write c d in
  (n, if n <? 0 then EAGAIN else 0, k ++ take (Z.to_nat n) d).

(** ** Rule 1: from the standard input into the outbound stream *)

Definition rule1_callback (c : Copy) : res Copy :=
  let* (fd, s, data) := read_from c (_input c) (stdin c) (remaining_capacity (_outbound c)) in
  let c := c <| _input := fd |> <| stdin := s |> in
  let c := c <| _outbound := (ByteStream.write (_outbound c) data).1 |> in
  if FileDescriptor.eof (_input c) then Ok (c <| _outbound := end_input (_outbound c) |>) else Ok c.

Definition rule1_interest (c : Copy) : bool :=
  negb (error (_outbound c)) && (0 <? remaining_capacity (_outbound c)) && negb (error (_inbound c)).

Definition end_outbound (c : Copy) : res Copy := Ok (c <| _outbound := end_input (_outbound c) |>).

(** ** Rule 2: from the outbound stream into the socket *)

Definition rule2_callback (c : Copy) : res Copy :=
  let bytes_to_write := Z.min max_copy_length (ByteStream.buffer_size (_outbound c)) in
  let* (fd, k, bytes_written) :=
    FileDescriptor.write (kernel_writev c) (socket c) (sock_out c) (view_of_string (peek_output (_outbound c) bytes_to_write)) false in
  let c := c <| socket := fd |> <| sock_out := k |> in
  let c := c <| _outbound := pop_output (_outbound c) bytes_written |> in
  if ByteStream.eof (_outbound c) then
    let* fd := shutdown (socket c) SHUT_WR (kernel_shutdown c) in
    Ok (c <| socket := fd |> <| _outbound_shutdown := true |>)
  else Ok c.

Definition rule2_interest (c : Copy) : bool :=
  negb (buffer_empty (_outbound c)) || (ByteStream.eof (_outbound c) && negb (_outbound_shutdown c)).

(** ** Rule 3: from the socket into the inbound stream *)

Definition rule3_callback (c : Copy) : res Copy :=
  let* (fd, s, data) := read_from c (socket c) (sock_in c) (remaining_capacity (_inbound c)) in
  let c := c <| socket := fd |> <| sock_in := s |> in
  let c := c <| _inbound := (ByteStream.write (_inbound c) data).1 |> in
  if FileDescriptor.eof (socket c) then Ok (c <| _inbound := end_input (_inbound c) |>) else Ok c.

Definition rule3_interest (c : Copy) : bool :=
  negb (error (_inbound c)) && (0 <? remaining_capacity (_inbound c)) && negb (error (_outbound c)).

Definition end_inbound (c : Copy) : res Copy := Ok (c <| _inbound := end_input (_inbound c) |>).

(** ** Rule 4: from the inbound stream to the standard output *)

Definition rule4_callback (c : Copy) : res Copy :=
  let bytes_to_write := Z.min max_copy_length (ByteStream.buffer_size (_inbound c)) in
  let* (fd, k, bytes_written) :=
    FileDescriptor.write (kernel_writev c) (_output c) (std_out c) (view_of_string (peek_output (_inbound c) bytes_to_write)) false in
  let c := c <| _output := fd |> <| std_out := k |> in
  let c := c <| _inbound := pop_output (_inbound c) bytes_written |> in
  if ByteStream.eof (_inbound c) then
    let* fd := FileDescriptor.close (_output c) (ret (kernel_close c)) (errno (kernel_close c)) in
    Ok (c <| _output := fd |> <| _inbound_shutdown := true |>)
  else Ok c.

Definition rule4_interest (c : Copy) : bool :=
  negb (buffer_empty (_inbound c)) || (ByteStream.eof (_inbound c) && negb (_inbound_shutdown c)).

(** ** The loop *)

Definition rule1 : Rule Copy := mkRule input_fd In rule1_callback rule1_interest end_outbound.
Definition rule2 : Rule Copy := mkRule socket_fd Out rule2_callback rule2_interest end_outbound.
Definition rule3 : Rule Copy := mkRule socket_fd In rule3_callback rule3_interest end_inbound.
Definition rule4 : Rule Copy := mkRule output_fd Out rule4_callback rule4_interest end_inbound.
Definition rules : list (Rule Copy) := [rule1; rule2; rule3; rule4].

(** What comes to the standard input and to the socket during one iteration *)
Record arrival := mkArrival {
  to_stdin : bytes;
  stdin_ends : bool;
  to_socket : bytes;
  socket_ends : bool;
}.

Definition arrive_at (s : source) (d : bytes) (e : bool) : source :=
  if ended s then s else s <| come := come s ++ d |> <| ended := e |>.

Definition arrive (c : Copy) (a : arrival) : Copy :=
  c <| stdin := arrive_at (stdin c) (to_stdin a) (stdin_ends a) |>
    <| sock_in := arrive_at (sock_in c) (to_socket a) (socket_ends a) |>.

Context (poll : Copy -> list pollfd -> Z -> Z * Z * list Z).

(** [while (true)]; [NoFuel] says that the loop still runs after the arrivals. *)
Fixpoint copy_loop (arrivals : list arrival) (rs : list (Rule Copy)) (c : Copy) : res (list (Rule Copy) * Copy) :=
  match arrivals with
  | [] => Throw NoFuel
  | a :: arrivals' =>
      let* (result, rs, c) := wait_next_event fd_of poll rs (arrive c a) (-1) in
      match result with
      | Exit => Ok (rs, c)
      | _ => copy_loop arrivals' rs c
      end
  end.

(** The descriptors are those of the caller; nothing has come yet. *)
Definition start (input output sock : FDWrapper) : Copy :=
  mkCopy input output sock (ByteStream.new buffer_size) (ByteStream.new buffer_size) false false
    (mkSource [] 0 false) (mkSource [] 0 false) [] [].

Definition bidirectional_stream_copy (input output sock : FDWrapper) (arrivals : list arrival) : res (list (Rule Copy) * Copy) :=
  copy_loop arrivals rules (start input output sock).

(** ** One direction *)

(** All of the source is read. *)
Definition done_with (s : source) : Prop := ended s = true /\ pos s = length (come s).

(** What is read from [s] is what was written to [out] and what [b] holds; and if the
    receiving side stays ([stays]), [b] is ended only when all of [s] is read. *)
Record flows (stays : bool) (s : source) (b : ByteStream) (out : bytes) : Prop := {
  fl_pos : (pos s <= length (come s))%nat;
  fl_bytes : take (pos s) (come s) = out ++ _buffer b;
  fl_capacity : _capacity b = buffer_size;
  fl_room : len (_buffer b) <= buffer_size;
  fl_error : error b = false;
  fl_end : stays = true -> input_ended b = true -> done_with s;
}.

Lemma flows_remaining st s b out : flows st s b out -> remaining_capacity b = buffer_size - len (_buffer b).
Proof.
  intros []. unfold remaining_capacity. rewrite fl_capacity0. apply u64_small. pose proof (len_nonneg (_buffer b)).
  unfold buffer_size in *. lia.
Qed.

Lemma done_unread s : (pos s <= length (come s))%nat -> unread s = [] -> pos s = length (come s).
Proof. unfold unread. intros Hp H%(f_equal length). rewrite length_drop in H. cbn [length] in H. lia. Qed.

(** As [read(2)] documents: bytes that are there are read, and at least one. *)
Definition reads_some : Prop := forall c d limit, d <> [] -> 0 < limit -> 0 < kernel_read c d limit.

Lemma take_length_take {A} k (l : list A) : take (length (take k l)) l = take k l.
Proof.
  rewrite length_take. destruct (Nat.le_gt_cases k (length l)); [by rewrite Nat.min_l|].
  by rewrite Nat.min_r, !take_ge by lia.
Qed.

Lemma flows_feed st s b out k :
  flows st s b out -> Z.of_nat k <= buffer_size - len (_buffer b) ->
  flows st (s <| pos := (pos s + length (take k (unread s)))%nat |>) (ByteStream.write b (take k (unread s))).1 out /\
  (done_with s -> done_with (s <| pos := (pos s + length (take k (unread s)))%nat |>)).
Proof.
  intros Hf Hk. pose proof (flows_remaining _ _ _ _ Hf) as Hrem. destruct Hf. set (data := take k (unread s)).
  assert (Hl : (length data <= k)%nat /\ (length data <= length (come s) - pos s)%nat).
  { unfold data, unread. rewrite length_take, length_drop. lia. }
  assert (Hl' : len data <= Z.of_nat k) by (unfold len; lia).
  assert (Hw : _buffer (ByteStream.write b data).1 = _buffer b ++ data).
  { unfold ByteStream.write. cbn [fst]. rewrite Z.min_r by lia. sponge_simpl.
    unfold prefix_str, len. by rewrite Nat2Z.id, take_ge. }
  assert (Hd : done_with s -> done_with (s <| pos := (pos s + length data)%nat |>)).
  { intros [He Hp]. split; [done|]. sponge_simpl. lia. }
  split; [|done]. split; try done.
  - change ((pos s + length data <= length (come s))%nat). lia.
  - change (take (pos s + length data) (come s) = out ++ _buffer (ByteStream.write b data).1).
    rewrite Hw, app_assoc, <- fl_bytes0. rewrite <- (take_drop (pos s) (come s)) at 1.
    rewrite take_app_ge by (rewrite length_take; lia). rewrite length_take, Nat.min_l by lia. f_equal.
    replace (pos s + _ - pos s)%nat with (length data) by lia. apply take_length_take.
  - rewrite Hw, len_app. lia.
  - intros Hst He. by apply Hd, fl_end0.
Qed.

Lemma read_from_flows st c fd s b out fd' s' data :
  reads_some -> flows st s b out -> (FileDescriptor.eof fd = true -> done_with s) ->
  read_from c fd s (remaining_capacity b) = Ok (fd', s', data) ->
  flows st s' (ByteStream.write b data).1 out /\ (FileDescriptor.eof fd' = true -> done_with s') /\
  closed fd' = closed fd /\ (done_with s -> done_with s').
Proof.
  intros Hk Hf He. pose proof (flows_remaining _ _ _ _ Hf) as Hrem.
  unfold read_from. destruct (match unread s with [] => _ | _ => _ end) as [ret errno] eqn:Ea.
  intros ([fd1 d] & Hr & [= <- <- <-])%res_bind_ok. unfold FileDescriptor.read in Hr.
  apply res_bind_ok in Hr as (n & Hn & Hr). destruct (Z.ltb_spec (Z.min BUFFER_SIZE (remaining_capacity b)) n) as [|Hle]; [done|].
  injection Hr as <- <-. unfold prefix_str. pose proof (fl_room _ _ _ _ Hf).
  destruct (flows_feed st s b out (Z.to_nat n) Hf) as [Hf' Hd]; [lia|]. split; [done|].
  assert (Hz : 0 < remaining_capacity b -> n = 0 -> done_with s).
  { intros Hpos ->. unfold SystemCall in Hn. destruct ((0 <=? ret) || _); [|done]. injection Hn as ->.
    destruct (unread s) as [|x l] eqn:Eu.
    - split; [|apply done_unread; [apply Hf|done]]. destruct (ended s); [done|]. cbn [orb] in Ea.
      rewrite (proj2 (Z.eqb_neq _ _)) in Ea by lia. done.
    - injection Ea as Ea _. pose proof (Hk c (x :: l) (Z.min BUFFER_SIZE (remaining_capacity b)) ltac:(done)). unfold BUFFER_SIZE in *. lia. }
  split; [|split; [by destruct (_ && _)|done]].
  destruct ((0 <? remaining_capacity b) && (n =? 0)) eqn:Eb; [|by auto].
  apply andb_true_iff in Eb as [?%Z.ltb_lt ?%Z.eqb_eq]. auto.
Qed.

(** What [FileDescriptor::write] with [write_all] unset did, when it returned. *)
Lemma write_some c fd k v fd' k' n :
  FileDescriptor.write (kernel_writev c) fd k (view_of_string v) false = Ok (fd', k', n) -> len v < 18446744073709551616 ->
  0 <= n <= len v /\ k' = k ++ take (Z.to_nat n) v /\ fd' = register_write fd.
Proof.
  intros H Hv. unfold FileDescriptor.write, view_of_string in H.
  assert (H1 : (let* (w, k, b, n) := write_once (kernel_writev c) fd k [v] in Ok (w, k, u64 (0 + n))) = Ok (fd', k', n)).
  { destruct (Z.to_nat _); exact H. }
  apply res_bind_ok in H1 as ([[[w k1] b] n1] & Ho & [= <- <- <-]). unfold write_once, kernel_writev in Ho.
  rewrite as_iovecs_fst in Ho. cbn [concat] in Ho. rewrite app_nil_r in Ho.
  assert (Hs : view_size [v] = len v).
  { unfold view_size. rewrite view_size_fold; cbn [concat]; rewrite ?app_nil_r; lia. }
  rewrite Hs in Ho. apply res_bind_ok in Ho as (n & Hn & Ho). unfold SystemCall in Hn.
  destruct (Z.ltb_spec (kernel_write c v) 0).
  { rewrite (proj2 (Z.leb_gt 0 _)) in Hn by lia. done. }
  rewrite (proj2 (Z.leb_le 0 _)) in Hn by lia. injection Hn as <-.
  destruct (_ && _); [done|]. destruct (Z.ltb_spec (len v) (kernel_write c v)); [done|].
  apply res_bind_ok in Ho as (b' & _ & [= <- <- _ <-]). rewrite Z.add_0_l, u64_small by lia. done.
Qed.

Lemma flows_drain st c fd s b out fd' out' n :
  flows st s b out ->
  FileDescriptor.write (kernel_writev c) fd out
    (view_of_string (peek_output b (Z.min max_copy_length (ByteStream.buffer_size b)))) false = Ok (fd', out', n) ->
  flows st s (pop_output b n) out' /\ fd' = register_write fd.
Proof.
  intros [] H. unfold ByteStream.buffer_size, peek_output, prefix_str in H.
  set (v := take _ (_buffer b)) in H. pose proof (len_nonneg (_buffer b)).
  assert (Hv : len v <= len (_buffer b)) by (unfold v; rewrite len_take; lia).
  destruct (write_some _ _ _ _ _ _ _ H) as (Hn & -> & ->); [unfold buffer_size in *; lia|]. split; [|done].
  assert (Hb : _buffer b = take (Z.to_nat n) v ++ _buffer (pop_output b n)).
  { unfold pop_output. sponge_simpl. rewrite Z.min_l by lia. unfold slice.
    rewrite (take_ge (drop _ _)) by (rewrite length_drop; unfold len in *; lia).
    unfold v. rewrite take_take, Nat.min_l; [by rewrite take_drop|]. unfold v in Hn. rewrite len_take in Hn. lia. }
  split; try done.
  - by rewrite <- app_assoc, <- Hb.
  - rewrite Hb, len_app in fl_room0. pose proof (len_nonneg (take (Z.to_nat n) v)). lia.
Qed.

Lemma flows_ended st s b out : flows st s b out -> (st = true -> done_with s) -> flows st s (end_input b) out.
Proof. intros [] Hd. split; try done. by auto. Qed.

Lemma flows_arrive st s b out d e : flows st s b out -> flows st (arrive_at s d e) b out.
Proof.
  intros []. unfold arrive_at. destruct (ended s) eqn:E; [by split|]. split; sponge_simpl; try done.
  - rewrite length_app. lia.
  - by rewrite take_app_le.
  - intros Hst He. destruct (fl_end0 Hst He). congruence.
Qed.

Lemma done_arrive s d e : done_with s -> done_with (arrive_at s d e).
Proof. intros [He Hp]. unfold arrive_at. by rewrite He. Qed.

(** ** The invariant of the loop *)

(** Whether the peer keeps the socket, and the reader the standard output, so that
    [poll] never tells of a hang-up of the side that is written to *)
Context (sock_stays out_stays : bool).

Record copying (c : Copy) : Prop := {
  cp_out : flows sock_stays (stdin c) (_outbound c) (sock_out c);
  cp_in : flows out_stays (sock_in c) (_inbound c) (std_out c);
  cp_input : closed (_input c) = false /\ (FileDescriptor.eof (_input c) = true -> done_with (stdin c));
  cp_socket : closed (socket c) = false /\ (FileDescriptor.eof (socket c) = true -> done_with (sock_in c));
  cp_output : out_stays = true -> closed (_output c) = true -> done_with (sock_in c) /\ _buffer (_inbound c) = [];
  cp_shut : _inbound_shutdown c = true -> closed (_output c) = true;
}.

(** Why a rule may be cancelled: its source has ended and is used up, or the standard
    output is closed, or the side that is written to need not stay. *)
Definition reason (r : Rule Copy) (c : Copy) : Prop :=
  if fd r =? input_fd then done_with (stdin c)
  else if fd r =? output_fd then out_stays = true -> closed (_output c) = true
  else match direction r with In => done_with (sock_in c) | Out => sock_stays = false end.

(** What a callback or a cancellation keeps. *)
Definition keeps (c c' : Copy) : Prop :=
  copying c' /\ (done_with (stdin c) -> done_with (stdin c')) /\ (done_with (sock_in c) -> done_with (sock_in c')) /\
  (closed (_output c) = true -> closed (_output c') = true).

Lemma flows_done_buffer st s b s' b' out :
  flows st s b out -> flows st s' b' out -> come s' = come s -> done_with s -> done_with s' -> _buffer b = [] -> _buffer b' = [].
Proof.
  intros [_ F _ _ _ _] [_ F' _ _ _ _] Ec [_ Hp] [_ Hp'] Hb. rewrite Hb, app_nil_r in F. rewrite Ec in *.
  rewrite Hp in F. rewrite Hp', F in F'. apply (f_equal length) in F'. rewrite length_app in F'.
  destruct (_buffer b'); [done|]. cbn [length] in F'. lia.
Qed.

Lemma read_from_come c fd s limit fd' s' data : read_from c fd s limit = Ok (fd', s', data) -> come s' = come s.
Proof. unfold read_from. destruct (match unread s with [] => _ | _ => _ end). by intros ([? ?] & _ & [= _ <- _])%res_bind_ok. Qed.

Lemma rule1_keeps c c' : reads_some -> copying c -> rule1_callback c = Ok c' -> keeps c c'.
Proof.
  intros Hk [] H. apply res_bind_ok in H as ([[fd s] data] & Hr & H).
  destruct (read_from_flows _ _ _ _ _ _ _ _ _ Hk cp_out0 (proj2 cp_input0) Hr) as (Hf & He & Hc & Hd).
  cbv zeta in H. set (c1 := c <| _input := fd |> <| stdin := s |> <| _outbound := _ |>) in H.
  assert (K : copying c1).
  { split; [exact Hf|exact cp_in0|split; [by transitivity (closed (_input c)); [|apply cp_input0]|exact He]|exact cp_socket0|exact cp_output0|exact cp_shut0]. }
  change (FileDescriptor.eof (_input _)) with (FileDescriptor.eof fd) in H.
  destruct (FileDescriptor.eof fd) eqn:Ee; injection H as <-; (split; [|by auto]); [|done].
  destruct K. split; try done. by apply flows_ended; [|intros _; apply He].
Qed.

Lemma rule3_keeps c c' : reads_some -> copying c -> rule3_callback c = Ok c' -> keeps c c'.
Proof.
  intros Hk [] H. apply res_bind_ok in H as ([[fd s] data] & Hr & H).
  destruct (read_from_flows _ _ _ _ _ _ _ _ _ Hk cp_in0 (proj2 cp_socket0) Hr) as (Hf & He & Hc & Hd).
  cbv zeta in H. set (c1 := c <| socket := fd |> <| sock_in := s |> <| _inbound := _ |>) in H.
  assert (K : copying c1).
  { split; [exact cp_out0|exact Hf|exact cp_input0|split; [by transitivity (closed (socket c)); [|apply cp_socket0]|exact He]| |exact cp_shut0].
    intros Hst Ho. destruct (cp_output0 Hst Ho) as [Hds Hb]. split; [by apply Hd|].
    eapply flows_done_buffer; [exact cp_in0|exact Hf|by eapply read_from_come|done|by apply Hd|done]. }
  change (FileDescriptor.eof (socket _)) with (FileDescriptor.eof fd) in H.
  destruct (FileDescriptor.eof fd) eqn:Ee; injection H as <-; (split; [|by auto]); [|done].
  destruct K. split; try done. by apply flows_ended; [|intros _; apply He].
Qed.

Lemma shutdown_wr fd a fd' : shutdown fd SHUT_WR a = Ok fd' -> fd' = register_write fd.
Proof. unfold shutdown. intros (? & _ & H)%res_bind_ok. cbn in H. by injection H as <-. Qed.

Lemma rule2_keeps c c' : copying c -> rule2_callback c = Ok c' -> keeps c c'.
Proof.
  intros [] H. apply res_bind_ok in H as ([[fd k] n] & Hw & H).
  destruct (flows_drain _ _ _ _ _ _ _ _ _ cp_out0 Hw) as [Hf ->]. cbv zeta in H.
  set (c1 := c <| socket := _ |> <| sock_out := k |> <| _outbound := _ |>) in H.
  assert (K : copying c1) by (by split).
  destruct (ByteStream.eof (_outbound c1)); [|injection H as <-; by split].
  apply res_bind_ok in H as (fd & ->%shutdown_wr & [= <-]). destruct K. by split.
Qed.

Lemma eof_spec b : ByteStream.eof b = true <-> input_ended b = true /\ _buffer b = [].
Proof.
  unfold ByteStream.eof, buffer_empty. destruct (input_ended b); cbn [andb]; [|naive_solver].
  destruct (Z.eqb_spec (len (_buffer b)) 0) as [E|E].
  - split; [|done]. by split; [|apply len_zero_nil].
  - split; [done|]. intros [_ Hb]. by rewrite Hb in E.
Qed.

Lemma rule4_keeps c c' : copying c -> rule4_callback c = Ok c' -> keeps c c'.
Proof.
  intros [] H. apply res_bind_ok in H as ([[fd k] n] & Hw & H).
  destruct (flows_drain _ _ _ _ _ _ _ _ _ cp_in0 Hw) as [Hf ->]. cbv zeta in H.
  set (c1 := c <| _output := _ |> <| std_out := k |> <| _inbound := _ |>) in H.
  assert (K : copying c1).
  { split; [exact cp_out0|exact Hf|done|done| |exact cp_shut0]. intros Hst Ho. destruct (cp_output0 Hst Ho) as [Hd Hb]. split; [done|].
    change (_inbound c1) with (pop_output (_inbound c) n). unfold pop_output. sponge_simpl. unfold slice. by rewrite Hb, drop_nil, take_nil. }
  destruct (ByteStream.eof (_inbound c1)) eqn:Ee; [|injection H as <-; by split].
  apply eof_spec in Ee as [Ee Eb]. apply res_bind_ok in H as (fd & Hc & [= <-]).
  unfold FileDescriptor.close in Hc. apply res_bind_ok in Hc as (? & _ & [= <-]).
  destruct K. split; [|by auto]. split; try done. intros Hst _. split; [|done]. by apply (fl_end _ _ _ _ cp_in1).
Qed.

Lemma end_outbound_keeps c c' : copying c -> (sock_stays = true -> done_with (stdin c)) -> end_outbound c = Ok c' -> keeps c c'.
Proof. intros [] Hd [= <-]. split; [|done]. split; try done. by apply flows_ended. Qed.

Lemma end_inbound_keeps c c' : copying c -> (out_stays = true -> done_with (sock_in c)) -> end_inbound c = Ok c' -> keeps c c'.
Proof. intros [] Hd [= <-]. split; [|done]. split; try done. by apply flows_ended. Qed.

Lemma reason_keeps r c c' : keeps c c' -> reason r c -> reason r c'.
Proof.
  intros (_ & H1 & H2 & H3). unfold reason. destruct (fd r =? input_fd); [done|].
  destruct (fd r =? output_fd); [by auto|]. by destruct (direction r).
Qed.

Lemma callback_keeps r c c' : reads_some -> r ∈ rules -> copying c -> callback r c = Ok c' -> keeps c c'.
Proof.
  intros Hk Hr Hc. unfold rules in Hr. repeat (apply elem_of_cons in Hr as [->|Hr]); cbn [callback rule1 rule2 rule3 rule4].
  - by apply rule1_keeps.
  - by apply rule2_keeps.
  - by apply rule3_keeps.
  - by apply rule4_keeps.
  - by apply not_elem_of_nil in Hr.
Qed.

Lemma cancel_keeps r c c' : r ∈ rules -> copying c -> reason r c -> cancel r c = Ok c' -> keeps c c'.
Proof.
  intros Hr Hc. unfold rules in Hr. repeat (apply elem_of_cons in Hr as [->|Hr]); cbn [cancel rule1 rule2 rule3 rule4]; intros Hre.
  - by apply end_outbound_keeps.
  - change (sock_stays = false) in Hre. apply end_outbound_keeps; [done|congruence].
  - by apply end_inbound_keeps.
  - apply end_inbound_keeps; [done|]. intros Hst. by apply (cp_output c Hc Hst), Hre.
  - by apply not_elem_of_nil in Hr.
Qed.

Lemma cancel_reason r r' c c' : r' ∈ rules -> cancel r' c = Ok c' -> reason r c -> reason r c'.
Proof.
  intros Hr. unfold rules in Hr. repeat (apply elem_of_cons in Hr as [->|Hr]); cbn [cancel rule1 rule2 rule3 rule4];
    try (by intros [= <-]). by apply not_elem_of_nil in Hr.
Qed.

Lemma rules_respect : reads_some -> respects fd_of rules copying reason.
Proof.
  intros Hk. split.
  - intros r c c' Hr Hc H. by eapply callback_keeps.
  - intros r c c' Hr Hc Hp H. by eapply cancel_keeps.
  - intros r r' c c' Hr Hc Hp [H|H]; [|by eapply cancel_reason]. eapply reason_keeps; [by eapply callback_keeps|done].
  - intros r c Hr [] He. unfold rules in Hr. unfold exhausted in He.
    repeat (apply elem_of_cons in Hr as [->|Hr]); unfold reason;
      cbn [fd direction rule1 rule2 rule3 rule4 fd_of input_fd output_fd socket_fd Z.eqb Pos.eqb] in *.
    + destruct He as [[_ He]|He]; [by apply cp_input0|]. cbn in He. destruct cp_input0. congruence.
    + destruct He as [[He _]|He]; [done|]. cbn in He. destruct cp_socket0. congruence.
    + destruct He as [[_ He]|He]; [by apply cp_socket0|]. cbn in He. destruct cp_socket0. congruence.
    + by destruct He as [[He _]|He].
    + by apply not_elem_of_nil in Hr.
Qed.

Lemma start_copying input output sock :
  FileDescriptor.eof input = false -> closed input = false -> closed output = false ->
  FileDescriptor.eof sock = false -> closed sock = false -> copying (start input output sock).
Proof.
  intros H1 H2 H3 H4 H5. assert (F : forall st, flows st (mkSource [] 0 false) (ByteStream.new buffer_size) []) by (by split).
  split; [exact (F _)|exact (F _)|..]; cbn [start _input _output socket]; rewrite ?H1, ?H2, ?H3, ?H4, ?H5; by try split.
Qed.

Lemma arrive_copying c a : copying c -> copying (arrive c a).
Proof.
  intros []. split; try done; cbn [arrive stdin sock_in _outbound _inbound sock_out std_out].
  - by apply flows_arrive.
  - by apply flows_arrive.
  - split; [apply cp_input0|]. intros He. by apply done_arrive, cp_input0.
  - split; [apply cp_socket0|]. intros He. by apply done_arrive, cp_socket0.
  - intros Hst Ho. destruct (cp_output0 Hst Ho). split; [by apply done_arrive|done].
Qed.

Lemma arrive_reason r c a : reason r c -> reason r (arrive c a).
Proof.
  unfold reason. destruct (fd r =? input_fd); [by apply done_arrive|]. destruct (fd r =? output_fd); [done|].
  destruct (direction r); [by apply done_arrive|done].
Qed.

(** Cancelling the reading rules ends the streams, and an end stays. *)
Definition ends (r : Rule Copy) (c : Copy) : Prop :=
  if fd r =? input_fd then input_ended (_outbound c) = true
  else match direction r with In => input_ended (_inbound c) = true | Out => True end.

Lemma callback_ends r r' c c' : r' ∈ rules -> callback r' c = Ok c' -> ends r c -> ends r c'.
Proof.
  intros Hr Hc He.
  assert (K : (input_ended (_outbound c) = true -> input_ended (_outbound c') = true) /\
              (input_ended (_inbound c) = true -> input_ended (_inbound c') = true)).
  { unfold rules in Hr. repeat (apply elem_of_cons in Hr as [->|Hr]); [..|by apply not_elem_of_nil in Hr];
      apply res_bind_ok in Hc as ([[? ?] ?] & _ & Hc); cbv zeta in Hc.
    - destruct (FileDescriptor.eof _); by injection Hc as <-.
    - destruct (ByteStream.eof _); [apply res_bind_ok in Hc as (? & _ & Hc)|]; by injection Hc as <-.
    - destruct (FileDescriptor.eof _); by injection Hc as <-.
    - destruct (ByteStream.eof _); [apply res_bind_ok in Hc as (? & _ & Hc)|]; by injection Hc as <-. }
  unfold ends in *. destruct (fd r =? input_fd); [by apply K|]. destruct (direction r); [by apply K|done].
Qed.

Lemma cancel_ends_kept r r' c c' : r' ∈ rules -> cancel r' c = Ok c' -> ends r c -> ends r c'.
Proof.
  intros Hr. unfold rules in Hr. unfold ends. repeat (apply elem_of_cons in Hr as [->|Hr]); cbn [cancel rule1 rule2 rule3 rule4];
    try (intros [= <-]; destruct (fd r =? input_fd), (direction r); done). by apply not_elem_of_nil in Hr.
Qed.

Lemma cancel_ends r c c' : r ∈ rules -> cancel r c = Ok c' -> ends r c'.
Proof.
  intros Hr. unfold rules in Hr. repeat (apply elem_of_cons in Hr as [->|Hr]); cbn [cancel rule1 rule2 rule3 rule4];
    try (by intros [= <-]). by apply not_elem_of_nil in Hr.
Qed.

Lemma rules_calm : StronglySorted calm rules.
Proof. repeat constructor; intros c c' H [= <-]; exact H. Qed.

Lemma sorted_sublist {A} (R : A -> A -> Prop) l l' : l' `sublist_of` l -> StronglySorted R l -> StronglySorted R l'.
Proof.
  induction 1 as [|x l' l Hs IH|x l' l Hs IH]; intros Hl; inversion Hl as [|? ? H1 H2]; subst; [done| |by apply IH].
  constructor; [by apply IH|]. rewrite Forall_forall in *. intros y Hy. apply H2. by eapply elem_of_sublist.
Qed.

Lemma rules_quiet : StronglySorted (quiet fd_of) rules.
Proof.
  repeat first [apply SSorted_nil|apply SSorted_cons|apply List.Forall_nil|apply List.Forall_cons];
    intros c c' [= <-]; (split; [done|]); intros H; exact H.
Qed.

(** [poll] as documented: it does not fail, answers for every descriptor, and tells of a
    hang-up without readiness, of a descriptor that is polled for reading, only when its
    source has ended and is used up, as a pipe whose writer has closed it.  For writing
    it may tell of a hang-up at any time, unless that side stays. *)
Record poll_documented : Prop := {
  pd_succeeds : forall c ps t, 0 <= (poll c ps t).1.1;
  pd_all : polls_all poll;
  pd_honest : honest fd_of poll rules copying reason;
}.

(** The rules that are left, and why the others are not. *)
Record running (rs : list (Rule Copy)) (c : Copy) : Prop := {
  rn_inv : copying c;
  rn_sub : rs `sublist_of` rules;
  rn_reason : forall r, r ∈ rules -> r ∈ rs \/ reason r c;
  rn_ends : forall r, r ∈ rules -> r ∈ rs \/ ends r c;
}.

Lemma wait_running rs c a t result rs' c' :
  reads_some -> poll_documented -> running rs c -> wait_next_event fd_of poll rs (arrive c a) t = Ok (result, rs', c') ->
  running rs' c' /\ (result = Exit -> Forall (fun r => interest r c' = false) rs').
Proof.
  intros Hk [Hp Hall Hh] [Hi Hs Hr He] Hw.
  destruct (wait_respects fd_of poll copying reason rs _ t result rs' c'
    (respects_sublist _ _ _ _ _ Hs (rules_respect Hk)) (honest_sublist _ _ _ _ _ _ Hs Hh) (sorted_sublist _ _ _ Hs rules_quiet)
    Hall (arrive_copying c a Hi) Hw) as (Hi' & Hs' & J1 & J2).
  pose proof (wait_removed fd_of poll ends rs (arrive c a) t result rs' c' Hall
    ltac:(intros r r' v v1 Hv Hr' [H|H]; [eapply callback_ends|eapply cancel_ends_kept]; eauto using elem_of_sublist)
    ltac:(intros r v v1 Hr' H; eapply cancel_ends; eauto using elem_of_sublist) Hw) as Hrem.
  pose proof (wait_preserves fd_of poll (fun v => forall r, ends r c -> ends r v) rs (arrive c a) t result rs' c'
    ltac:(intros r v v1 Hr' Hv [H|H] r0 H0; [eapply callback_ends|eapply cancel_ends_kept]; eauto using elem_of_sublist)
    (fun r H => H) Hw) as [Hkept _].
  split.
  - split; [done|by etransitivity| |].
    + intros r Hin. destruct (Hr r Hin) as [Hrs|Hre]; [by apply J2|]. right. apply J1. by apply arrive_reason.
    + intros r Hin. destruct (He r Hin) as [Hrs|Hre]; [by apply Hrem|]. right. by apply Hkept.
  - intros ->. eapply wait_exit_calm; [|exact Hp|exact Hw]. by eapply sorted_sublist; [|apply rules_calm].
Qed.

Lemma copy_loop_running arrivals rs c rs' c' :
  reads_some -> poll_documented -> running rs c -> copy_loop arrivals rs c = Ok (rs', c') ->
  running rs' c' /\ Forall (fun r => interest r c' = false) rs'.
Proof.
  intros Hk Hp. revert rs c. induction arrivals as [|a arrivals IH]; intros rs c Hrun; cbn [copy_loop]; [done|].
  intros ([[result rs1] c1] & Hw & H)%res_bind_ok.
  destruct (wait_running _ _ _ _ _ _ _ Hk Hp Hrun Hw) as [Hrun1 Hex].
  destruct result; [by eapply IH|by eapply IH|]. injection H as <- <-. auto.
Qed.

Lemma flows_all st s b out : flows st s b out -> done_with s -> _buffer b = [] -> out = come s.
Proof. intros [] [_ Hp] Hb. rewrite Hb, app_nil_r, Hp, firstn_all in fl_bytes0. done. Qed.

Lemma flows_prefix st s b out : flows st s b out -> exists rest, come s = out ++ rest.
Proof. intros []. exists (_buffer b ++ drop (pos s) (come s)). by rewrite app_assoc, <- fl_bytes0, take_drop. Qed.

(** Nobody is interested any more. *)
Lemma uninterested_writer b shut :
  negb (buffer_empty b) || (ByteStream.eof b && negb shut) = false -> _buffer b = [] /\ (input_ended b = true -> shut = true).
Proof.
  intros [H1 H2]%orb_false_iff. apply negb_false_iff in H1. unfold buffer_empty in H1. apply Z.eqb_eq, len_zero_nil in H1.
  split; [done|]. intros He. rewrite (proj2 (eof_spec b)) in H2 by done. by destruct shut.
Qed.

Lemma uninterested_reader st s b out st2 b2 s2 out2 :
  flows st s b out -> flows st2 s2 b2 out2 -> _buffer b = [] ->
  negb (error b) && (0 <? remaining_capacity b) && negb (error b2) = false -> False.
Proof.
  intros Hf Hf2 Hb. rewrite (flows_remaining _ _ _ _ Hf), Hb, (fl_error _ _ _ _ Hf), (fl_error _ _ _ _ Hf2). done.
Qed.

(** When nobody is interested any more, everything is copied to a side that stays. *)
Definition copied (c : Copy) : Prop :=
  (exists rest, come (stdin c) = sock_out c ++ rest) /\ (exists rest, come (sock_in c) = std_out c ++ rest) /\
  (sock_stays = true -> sock_out c = come (stdin c) /\ ended (stdin c) = true /\ _outbound_shutdown c = true) /\
  (out_stays = true -> std_out c = come (sock_in c) /\ ended (sock_in c) = true /\ closed (_output c) = true).

Lemma in_rules : rule1 ∈ rules /\ rule2 ∈ rules /\ rule3 ∈ rules /\ rule4 ∈ rules.
Proof. unfold rules. rewrite !elem_of_cons. tauto. Qed.

Lemma copied_all rs c : running rs c -> Forall (fun r => interest r c = false) rs -> copied c.
Proof.
  intros [Hi Hs Hr He] Hf. rewrite Forall_forall in Hf. destruct Hi. destruct in_rules as (M1 & M2 & M3 & M4).
  split; [by eapply flows_prefix|]. split; [by eapply flows_prefix|]. split; intros Hst.
  - destruct (Hr rule2 M2) as [I2|R2]; [|change (sock_stays = false) in R2; congruence].
    apply Hf, uninterested_writer in I2 as [B2 S2].
    assert (N1 : rule1 ∉ rs) by (intros I1%Hf; by eapply (uninterested_reader _ _ _ _ _ _ _ _ cp_out0 cp_in0)).
    destruct (Hr rule1 M1) as [?|R1]; [done|]. destruct (He rule1 M1) as [?|E1]; [done|].
    change (done_with (stdin c)) in R1. change (input_ended (_outbound c) = true) in E1.
    split_and!; [by eapply flows_all|apply R1|by apply S2].
  - assert (K : done_with (sock_in c) /\ _buffer (_inbound c) = [] /\ closed (_output c) = true).
    { destruct (Hr rule4 M4) as [I4|R4].
      - apply Hf, uninterested_writer in I4 as [B4 S4].
        assert (N3 : rule3 ∉ rs) by (intros I3%Hf; by eapply (uninterested_reader _ _ _ _ _ _ _ _ cp_in0 cp_out0)).
        destruct (Hr rule3 M3) as [?|R3]; [done|]. destruct (He rule3 M3) as [?|E3]; [done|]. split_and!; [done|done|]. by apply cp_shut0, S4.
      - change (out_stays = true -> closed (_output c) = true) in R4. destruct (cp_output0 Hst (R4 Hst)). auto. }
    destruct K as (D & B & Cl). split_and!; [by eapply flows_all|apply D|done].
Qed.

Lemma start_running input output sock :
  FileDescriptor.eof input = false -> closed input = false -> closed output = false ->
  FileDescriptor.eof sock = false -> closed sock = false -> running rules (start input output sock).
Proof. intros H1 H2 H3 H4 H5. split; [by apply start_copying|done|by left|by left]. Qed.

(** ** Properties *)

(** C16: when [bidirectional_stream_copy] returns, what was written to the socket is the
    beginning of what came to the standard input, and what was written to the standard
    output the beginning of what came from the socket, in order. And it is all of it: with
    a [poll] that never tells that the socket hung up for writing ([sock_stays]),
    everything that came to the standard input, up to its end, was written to the socket,
    which was shut down for writing; with one that never tells so of the standard output
    ([out_stays]), everything that came from the socket, up to its end, was written there,
    and the standard output was closed. The kernel may move few bytes per call and report
    readiness, and the hang-up of a source that has ended and is used up, whenever it
    likes. *)
Theorem copy_complete input output sock arrivals rs c :
  reads_some -> poll_documented ->
  FileDescriptor.eof input = false -> closed input = false -> closed output = false ->
  FileDescriptor.eof sock = false -> closed sock = false ->
  bidirectional_stream_copy input output sock arrivals = Ok (rs, c) ->
  (exists rest, come (stdin c) = sock_out c ++ rest) /\ (exists rest, come (sock_in c) = std_out c ++ rest) /\
  (sock_stays = true -> sock_out c = come (stdin c) /\ ended (stdin c) = true /\ _outbound_shutdown c = true) /\
  (out_stays = true -> std_out c = come (sock_in c) /\ ended (sock_in c) = true /\ closed (_output c) = true).
Proof.
  intros Hk Hp H1 H2 H3 H4 H5 Hc.
  destruct (copy_loop_running arrivals rules (start input output sock) rs c Hk Hp) as [Hrun Hf]; [by apply start_running|exact Hc|].
  by apply (copied_all rs).
Qed.

End StreamCopy.

(** ** Witnesses: a kernel that reads at most three bytes and writes at most two *)

Definition read3 (c : Copy) (d : bytes) (limit : Z) : Z := Z.min 3 (Z.min limit (len d)).
Definition write2 (c : Copy) (d : bytes) : Z := Z.min 2 (len d).
Definition succeeds (c : Copy) : answer := mkAnswer 0 0.

(** A [poll] that looks at the sources.  The standard input is a pipe, whose end is told
    as a hang-up without readiness; the end of the socket is readable. *)
Definition ready (s : source) : bool := ended s || negb (len (unread s) =? 0).
Definition pipe_flag (s : source) : Z := if negb (len (unread s) =? 0) then POLLIN else if ended s then POLLHUP else 0.
Definition source_flag (c : Copy) (p : pollfd) : Z :=
  let i := pfd p =? fd_num (_input c) in
  let s := pfd p =? fd_num (socket c) in
  if events p =? POLLOUT then POLLOUT
  else if negb (events p =? POLLIN) then 0
  else if i && negb s then pipe_flag (stdin c)
  else if (negb i || ready (stdin c)) && (negb s || ready (sock_in c)) then POLLIN else 0.
Definition poll_sources (c : Copy) (ps : list pollfd) (t : Z) : Z * Z * list Z := (len ps, 0, map (source_flag c) ps).

Lemma fill_map {W} (kept : list (Rule W * pollfd)) f :
  fill kept (map f (map snd kept)) = map (fun rp => (rp.1, mkPollfd (pfd rp.2) (events rp.2) (f rp.2))) kept.
Proof. induction kept as [|rp kept IH]; [done|]. cbn [map fill zip_with]. f_equal. exact IH. Qed.

(** Only the used-up standard input hangs up. *)
Lemma source_flag_hup c p :
  Z.land (source_flag c p) POLLHUP <> 0 ->
  events p <> POLLOUT /\ pfd p = fd_num (_input c) /\ pfd p <> fd_num (socket c) /\ ended (stdin c) = true /\ unread (stdin c) = [].
Proof.
  unfold source_flag. destruct (Z.eqb_spec (events p) POLLOUT); [done|]. destruct (events p =? POLLIN); [|done].
  cbn [negb]. destruct (Z.eqb_spec (pfd p) (fd_num (_input c))) as [Hi|], (Z.eqb_spec (pfd p) (fd_num (socket c))); cbn [andb orb negb];
    try (by destruct (_ && _)); try (by destruct (ready _)); try done.
  unfold pipe_flag. destruct (Z.eqb_spec (len (unread (stdin c))) 0) as [Hu|]; [|done]. cbn [negb].
  destruct (ended (stdin c)); [|done]. apply len_zero_nil in Hu. done.
Qed.

Lemma poll_sources_documented kr kw kc ks st1 st2 : poll_documented kr kw kc ks poll_sources st1 st2.
Proof.
  split.
  - intros c ps t. apply len_nonneg.
  - intros c ps t. apply length_map.
  - intros c kept t Hc Hk Hp. cbn [poll_sources snd]. rewrite fill_map. apply Forall_map, List.Forall_forall.
    intros [r p] Hin%list_elem_of_In (_ & Hh & He). cbn [fst snd revents events] in *.
    destruct (source_flag_hup c p Hh) as (Ho & Hi & Hs & H1 & H2). rewrite Forall_forall in Hp. destruct (Hp _ Hin) as [Hn Hev]. cbn [fst snd] in *.
    destruct Hev as [[Hev _]|?]; [|done].
    assert (Hr : r ∈ rules kr kw kc ks) by (eapply elem_of_sublist; [|exact Hk]; exact (list_elem_of_fmap_2 fst kept (r, p) Hin)).
    unfold rules in Hr. repeat (apply elem_of_cons in Hr as [->|Hr]); [..|by apply not_elem_of_nil in Hr].
    + split; [done|]. apply done_unread; [apply (cp_out _ _ _ Hc)|done].
    + done.
    + done.
    + done.
Qed.

Lemma read3_reads : reads_some read3.
Proof.
  intros c d limit Hd Hl. unfold read3. destruct d; [done|]. rewrite len_cons. pose proof (len_nonneg d). lia.
Qed.

Definition fresh (n : Z) : FDWrapper := mkFDWrapper n false false 0 0.
Definition silence : arrival := mkArrival [] false [] false.
Definition talk : list arrival :=
  [mkArrival [x61; x62; x63; x64] false [x78] false; silence; mkArrival [x65] true [] true;
   silence; silence; silence; silence; silence].

Abbreviation demo_copy :=
  (bidirectional_stream_copy read3 write2 succeeds succeeds poll_sources (fresh 0) (fresh 1) (fresh 3) talk).

Definition heard (run : res (list (Rule Copy) * Copy)) : option (bytes * bytes) :=
  match run with Ok (_, c) => Some (come (stdin c), come (sock_in c)) | Throw _ => None end.

Lemma heard_some run a b :
  heard run = Some (a, b) -> exists rs c, run = Ok (rs, c) /\ come (stdin c) = a /\ come (sock_in c) = b.
Proof. destruct run as [[rs c]|]; [|done]. intros [= <- <-]. by exists rs, c. Qed.

Lemma demo_copy_returns :
  exists rs c, demo_copy = Ok (rs, c) /\ come (stdin c) = [x61; x62; x63; x64; x65] /\ come (sock_in c) = [x78].
Proof. apply heard_some. vm_compute. reflexivity. Qed.

Lemma copy_complete_witness :
  exists c, sock_out c = [x61; x62; x63; x64; x65] /\ std_out c = [x78] /\ closed (_output c) = true.
Proof.
  destruct demo_copy_returns as (rs & c & E & K1 & K2).
  destruct (copy_complete read3 write2 succeeds succeeds poll_sources true true (fresh 0) (fresh 1) (fresh 3) talk rs c
    read3_reads (poll_sources_documented _ _ _ _ _ _) eq_refl eq_refl eq_refl eq_refl eq_refl E) as (_ & _ & H1 & H2).
  destruct (H1 eq_refl) as (K3 & _). destruct (H2 eq_refl) as (K4 & _ & K5).
  exists c. split; [rewrite K3; exact K1|]. split; [rewrite K4; exact K2|exact K5].
Defined.
