(* ===== verification/CopyProgress.v ===== *)
(** * The stream copy returns

    [StreamCopy] shows what holds when bidirectional_stream_copy returns.  Here: that
    it does.  The first part is about any event loop: a call returns when no callback
    that is due throws, and a measure that every callback decreases bounds the number
    of calls.  The second part instantiates it: every call moves a byte, notices an end
    or gives up a rule. *)

From Stdlib Require Import Sorted.
From stdpp Require Import base numbers option list.
From Stdlib Require Import ZArith Lia Strings.Byte.
From S2P Require Import Prelude.
From S2P Require Import ByteStream.
From S2P Require Import Buffer.
From S2P Require Import FileDescriptor.
From S2P Require Import Socket.
From S2P Require Import EventLoop.
From S2P Require Import StreamCopy.
#[local] Open Scope Z_scope.

(** ** Event loops that make progress *)

Section Progress.

Context {W : Type} (fd_of : W -> Z -> FDWrapper).
Context (I : W -> Prop) (P Q : Rule W -> W -> Prop) (m : W -> nat).

Definition is_ready (rp : Rule W * pollfd) : Prop := Z.land (revents rp.2) (events rp.2) <> 0.

(** [Q r] says that rule [r] is due: its callback then returns, counts as service or ends
    the interest, and decreases [m]; a cancellation never fails and does not increase it. *)
Record progresses (rules : list (Rule W)) : Prop := {
  pr_call : forall r v, r ∈ rules -> I v -> Q r v ->
    exists v1, callback r v = Ok v1 /\ (service_count fd_of v1 r <> service_count fd_of v r \/ interest r v1 = false) /\ (m v1 < m v)%nat;
  pr_cancel : forall r v, r ∈ rules -> exists v1, cancel r v = Ok v1 /\ (m v1 <= m v)%nat;
}.

(** [r'] does not spoil what [r], behind it, is due for. *)
Definition spares (r' r : Rule W) : Prop :=
  forall v v1, I v -> Q r v -> callback r' v = Ok v1 \/ cancel r' v = Ok v1 -> Q r v1.

Lemma progresses_tail r rules : progresses (r :: rules) -> progresses rules.
Proof. intros [H1 H2]. split; intros; [eapply H1|eapply H2]; eauto; by right. Qed.

Lemma serve_progress rules w :
  respects fd_of (map fst rules) I P -> progresses (map fst rules) -> StronglySorted spares (map fst rules) -> I w ->
  Forall (fun rp => Z.land (revents rp.2) (Z.lor POLLERR POLLNVAL) = 0) rules ->
  Forall (fun rp => hung_up rp.2 -> P rp.1 w) rules ->
  Forall (fun rp => is_ready rp -> Q rp.1 w) rules ->
  exists w' kept, serve fd_of rules w = Ok (w', kept) /\ (m w' + length kept <= m w + length rules)%nat /\
    (Exists (fun rp => is_ready rp \/ hung_up rp.2) rules -> (m w' + length kept < m w + length rules)%nat).
Proof.
  revert w. induction rules as [|[r p] rules IH]; intros w Hre Hpr Hso Hi Hq Hh Hd.
  { exists w, []. split; [done|]. split; [simpl; lia|]. by intros H%Exists_nil. }
  cbn [map fst] in *. inversion_clear Hso as [|? ? Hso' Hsp].
  apply Forall_cons in Hq as [Hq0 Hq]. apply Forall_cons in Hh as [Hh0 Hh]. apply Forall_cons in Hd as [Hd0 Hd].
  cbn [fst snd] in *. pose proof Hre as [R1 R2 R3 _]. pose proof Hpr as [P1 P2].
  apply respects_tail in Hre as Hre'. apply progresses_tail in Hpr as Hpr'.
  assert (Hnext : forall w1, I w1 -> callback r w = Ok w1 \/ cancel r w = Ok w1 ->
    exists w' kept, serve fd_of rules w1 = Ok (w', kept) /\ (m w' + length kept <= m w1 + length rules)%nat).
  { intros w1 Hi1 Hstep. destruct (IH w1 Hre' Hpr' Hso' Hi1 Hq) as (w' & kept & H1 & H2 & _); [| |by exists w', kept].
    - eapply Forall_impl; [exact Hh|]. intros rp Hrp Hu. eapply (R3 rp.1 r w w1); [by left|done|by apply Hrp|done].
    - apply List.Forall_forall. intros rp Hin%list_elem_of_In Hr. rewrite Forall_forall in Hd. apply (Hd rp Hin) in Hr.
      rewrite Forall_forall in Hsp. eapply (Hsp rp.1); [|exact Hi|done|done]. by apply list_elem_of_fmap_2. }
  cbn [serve]. unfold flag_set at 1. rewrite Hq0, (Z.eqb_refl 0). cbn [negb]. cbv zeta.
  destruct (flag_set (revents p) (events p)) eqn:Er.
  - apply flag_set_spec in Er. rewrite andb_false_r. destruct (P1 r w) as (w1 & Hc & Hs & Hm); [by left|done|by apply Hd0|].
    rewrite Hc. cbn [res_bind].
    replace ((service_count fd_of w r =? service_count fd_of w1 r) && interest r w1) with false
      by (symmetry; destruct Hs as [Hs| ->]; [rewrite (proj2 (Z.eqb_neq _ _)) by congruence; done|apply andb_false_r]).
    destruct (Hnext w1) as (w' & kept & -> & H); [by eapply R1; [left|..]|by left|]. cbn [res_bind].
    exists w', (r :: kept). split; [done|]. simpl. split; [|intros _]; lia.
  - assert (Hz : Z.land (revents p) (events p) = 0).
    { apply dec_stable. intros H%flag_set_spec. congruence. }
    rewrite andb_true_r. destruct (flag_set (revents p) POLLHUP && negb (events p =? 0)) eqn:Eh.
    + apply andb_true_iff in Eh as [Eh%flag_set_spec Ee%negb_true_iff%Z.eqb_neq].
      destruct (P2 r w) as (w1 & Hc & Hm); [by left|]. rewrite Hc. cbn [res_bind].
      destruct (Hnext w1) as (w' & kept & -> & H); [by eapply R2; [left|done|by apply Hh0|done]|by right|].
      exists w', kept. split; [done|]. simpl. split; [|intros _]; lia.
    + destruct (IH w Hre' Hpr' Hso' Hi Hq Hh Hd) as (w' & kept & -> & H1 & H2). cbn [res_bind].
      exists w', (r :: kept). split; [done|]. simpl. split; [lia|]. rewrite Exists_cons. intros [[H|(_ & H & He)]|H].
      * by destruct H.
      * cbn [snd] in H, He. rewrite (proj2 (flag_set_spec _ _) H), (proj2 (Z.eqb_neq _ _) He) in Eh. done.
      * apply H2 in H. lia.
Qed.

(** The first loop cancels without fail. *)
Lemma set_up_progress rules w s :
  progresses rules ->
  exists w' kept s', set_up fd_of rules w s = Ok (w', kept, s') /\ (m w' + length kept <= m w + length rules)%nat.
Proof.
  intros Hpr. revert w s. induction rules as [|r rules IH]; intros w s; cbn [set_up].
  { exists w, [], s. split; [done|simpl; lia]. }
  destruct (pr_cancel _ Hpr r w) as (w1 & Hc & Hm); [by left|]. apply progresses_tail in Hpr.
  destruct (bool_decide _ && _); [|destruct (closed _); [|destruct (interest r w)]]; rewrite ?Hc; cbn [res_bind].
  - destruct (IH Hpr w1 s) as (w' & kept & s' & -> & H). exists w', kept, s'. split; [done|simpl; lia].
  - destruct (IH Hpr w1 s) as (w' & kept & s' & -> & H). exists w', kept, s'. split; [done|simpl; lia].
  - destruct (IH Hpr w true) as (w' & kept & s' & -> & H). cbn [res_bind]. eexists w', _, s'. split; [done|simpl; lia].
  - destruct (IH Hpr w s) as (w' & kept & s' & -> & H). cbn [res_bind]. eexists w', _, s'. split; [done|simpl; lia].
Qed.

(** [poll] as documented: it does not fail or report errors, and a rule it finds ready
    is due if it was interested; *)
Context (poll : W -> list pollfd -> Z -> Z * Z * list Z) (all_rules : list (Rule W)).

Record poll_truthful : Prop := {
  pt_succeeds : forall v ps t, 0 <= (poll v ps t).1.1;
  pt_all : polls_all poll;
  pt_honest : honest fd_of poll all_rules I P;
  pt_quiet : forall v ps t, Forall (fun f => Z.land f (Z.lor POLLERR POLLNVAL) = 0) (poll v ps t).2;
  pt_due : forall v kept t, I v -> map fst kept `sublist_of` all_rules -> Forall (polled fd_of v) kept ->
    Forall (fun rp => is_ready rp -> Q rp.1 v) (fill kept (poll v (map snd kept) t).2);
}.

(** it waits until something is ready. *)
Definition wakes (v : W) : Prop :=
  forall kept t, map fst kept `sublist_of` all_rules -> Forall (polled fd_of v) kept -> (exists rp, rp ∈ kept /\ events rp.2 <> 0) ->
    0 < (poll v (map snd kept) t).1.1 /\
    Exists (fun rp => is_ready rp \/ hung_up rp.2) (fill kept (poll v (map snd kept) t).2).

Lemma fill_quiet (kept : list (Rule W * pollfd)) flags :
  Forall (fun f => Z.land f (Z.lor POLLERR POLLNVAL) = 0) flags ->
  Forall (fun rp => Z.land (revents rp.2) (Z.lor POLLERR POLLNVAL) = 0) (fill kept flags).
Proof. intros H. revert kept. induction H as [|f flags Hf _ IH]; intros [|rp kept]; cbn; constructor; [done|apply IH]. Qed.

Lemma wait_progress rules w t :
  rules `sublist_of` all_rules -> poll_truthful -> respects fd_of rules I P -> progresses rules ->
  StronglySorted spares rules -> StronglySorted (quiet fd_of) rules -> I w ->
  exists result rules' w', wait_next_event fd_of poll rules w t = Ok (result, rules', w') /\
    (m w' + length rules' <= m w + length rules)%nat /\
    ((forall w1 kept, cancels fd_of rules w kept w1 -> wakes w1) ->
     result = Exit \/ (m w' + length rules' < m w + length rules)%nat).
Proof.
  intros Hall [T1 T2 T3 T4 T5] Hre Hpr Hsp Hqu Hi. unfold wait_next_event.
  destruct (set_up_progress rules w false Hpr) as (w1 & kept & s & Hs & Hm). rewrite Hs. cbn [res_bind].
  apply set_up_sets_up in Hs as [Hs Hany]. pose proof (sets_up_polled fd_of _ _ _ _ Hs Hqu) as Hdue. apply sets_up_cancels in Hs as Hc.
  destruct (cancels_respects fd_of I P _ _ _ _ Hre Hc Hi) as [Hi1 _].
  destruct (cancels_preserves fd_of (fun _ => True) _ _ _ _ Hc ltac:(done) Logic.I) as [_ Hsub].
  assert (Hka : map fst kept `sublist_of` all_rules) by (by etransitivity).
  destruct s; cbn [negb]; [|exists Exit, (map fst kept), w1; rewrite length_map; auto].
  specialize (T1 w1 (map snd kept) t). specialize (T2 w1 (map snd kept) t). specialize (T3 w1 kept t Hi1 Hka Hdue).
  specialize (T4 w1 (map snd kept) t). specialize (T5 w1 kept t Hi1 Hka Hdue). rewrite length_map in T2.
  assert (Hw : (forall w1 kept, cancels fd_of rules w kept w1 -> wakes w1) ->
    0 < (poll w1 (map snd kept) t).1.1 /\ Exists (fun rp => is_ready rp \/ hung_up rp.2) (fill kept (poll w1 (map snd kept) t).2)).
  { intros H. apply (H w1 _ Hc); [done|done|]. by apply asks_spec. }
  clear Hdue Hany. destruct (poll w1 (map snd kept) t) as [[p e] flags]. cbn [fst snd] in *.
  unfold SystemCall. rewrite (proj2 (Z.leb_le 0 p) T1). cbn [orb]. destruct (Z.eqb_spec p 0) as [->|Hp].
  - exists Timeout, (map fst kept), w1. rewrite length_map. split; [done|]. split; [done|]. intros [H _]%Hw. lia.
  - pose proof (fill_fst_all kept flags T2) as Hfst.
    destruct (serve_progress (fill kept flags) w1) as (w2 & l & -> & H1 & H2); rewrite ?Hfst; try done.
    + eapply respects_sublist; [exact Hsub|done].
    + split; intros; [eapply (pr_call _ Hpr)|eapply (pr_cancel _ Hpr)]; eauto using elem_of_sublist.
    + eapply sorted_sublist; [exact Hsub|done].
    + by apply fill_quiet.
    + cbn [res_bind]. apply (f_equal length) in Hfst. rewrite !length_map in Hfst. exists Success, l, w2. split; [done|]. split; [lia|].
      intros [_ H]%Hw. right. apply H2 in H. lia.
Qed.

End Progress.

(** ** The stream copy *)

Lemma register_read_counts w : read_count (register_read w) <> read_count w.
Proof. unfold register_read, read_count, u32. simpl. intros H. pose proof (Z.mod_pos_bound (_read_count w + 1) 4294967296 ltac:(lia)). Z.div_mod_to_equations. lia. Qed.

Lemma register_write_counts w : write_count (register_write w) <> write_count w.
Proof. unfold register_write, write_count, u32. simpl. intros H. pose proof (Z.mod_pos_bound (_write_count w + 1) 4294967296 ltac:(lia)). Z.div_mod_to_equations. lia. Qed.

Section Copy.

Context (kernel_read : Copy -> bytes -> Z -> Z) (kernel_write : Copy -> bytes -> Z).
Context (kernel_close kernel_shutdown : Copy -> answer).
Context (poll : Copy -> list pollfd -> Z -> Z * Z * list Z) (sock_stays out_stays : bool).

(** The kernel as documented: a [read] takes at least one of the bytes that are there
    and no more than it may, a [writev] to a descriptor that is ready takes at least one
    byte, and [close] and [shutdown] succeed. *)
Record kernel_documented : Prop := {
  kd_read : forall c d limit, d <> [] -> 0 < limit -> 0 < kernel_read c d limit <= limit;
  kd_write : forall c d, d <> [] -> 0 < kernel_write c d <= len d;
  kd_write_nothing : forall c, kernel_write c [] = 0;
  kd_close : forall c, 0 <= ret (kernel_close c);
  kd_shutdown : forall c, 0 <= ret (kernel_shutdown c);
}.

(** There is something to read. *)
Definition available (s : source) : Prop := ended s = true \/ unread s <> [].

Lemma write_fits b data : len data <= remaining_capacity b -> _buffer (ByteStream.write b data).1 = _buffer b ++ data.
Proof. intros H. unfold ByteStream.write. cbn [fst]. rewrite Z.min_r by lia. sponge_simpl. unfold prefix_str, len. by rewrite Nat2Z.id, take_ge. Qed.

Lemma read_progress st c fd s b out :
  kernel_documented -> flows st s b out -> available s -> 0 < remaining_capacity b ->
  exists fd' s' data, read_from kernel_read c fd s (remaining_capacity b) = Ok (fd', s', data) /\
    read_count fd' <> read_count fd /\ ended s' = ended s /\
    (length (unread s') + length data = length (unread s))%nat /\
    (_buffer (ByteStream.write b data).1 = _buffer b ++ data) /\
    ((0 < length data)%nat /\ FileDescriptor.eof fd' = FileDescriptor.eof fd \/ data = [] /\ FileDescriptor.eof fd' = true).
Proof.
  intros [K1 _ _ _ _] Hf Ha Hr. pose proof (flows_remaining _ _ _ _ Hf) as Hrem. pose proof (fl_room _ _ _ _ Hf).
  assert (Hlim : 0 < Z.min BUFFER_SIZE (remaining_capacity b)) by (unfold BUFFER_SIZE; lia).
  unfold read_from, FileDescriptor.read. rewrite (proj2 (Z.ltb_lt 0 (remaining_capacity b))) by lia. cbn [andb].
  destruct (unread s) as [|x l] eqn:Eu.
  - destruct Ha as [He|?]; [|done]. rewrite He. cbn. rewrite (proj2 (Z.ltb_ge (Z.min BUFFER_SIZE (remaining_capacity b)) 0)) by lia.
    cbn [res_bind]. do 3 eexists. split; [reflexivity|]. split; [exact (register_read_counts (fd <| _eof := true |>))|].
    split; [exact He|]. change (prefix_str [] 0) with (@nil byte). split; [|split; [apply write_fits; rewrite len_nil; lia|by right]].
    unfold unread in *. sponge_simpl. by rewrite !Nat.add_0_r, Eu.
  - set (n := kernel_read c (x :: l) _). destruct (K1 c (x :: l) (Z.min BUFFER_SIZE (remaining_capacity b)) ltac:(done) Hlim) as [Hn1 Hn2].
    fold n in Hn1, Hn2. unfold SystemCall. rewrite (proj2 (Z.leb_le 0 n)) by lia. cbn [orb res_bind].
    rewrite (proj2 (Z.eqb_neq n 0)), (proj2 (Z.ltb_ge _ n)) by lia. cbn [res_bind].
    set (data := prefix_str (x :: l) n). assert (Hd : len data <= n /\ 0 < len data).
    { unfold data. rewrite len_prefix_str by lia. rewrite len_cons. pose proof (len_nonneg l). lia. }
    do 3 eexists. split; [reflexivity|]. split; [apply register_read_counts|]. split; [done|].
    split; [|split; [apply write_fits; lia|left; split; [unfold len in Hd; lia|done]]].
    assert (Hl : (length data <= length (x :: l))%nat) by (unfold data, prefix_str; rewrite length_take; lia).
    unfold unread in *. sponge_simpl. rewrite Nat.add_comm, <- drop_drop, Eu, length_drop. simpl. simpl in Hl. lia.
Qed.
Lemma write_takes c fd out v :
  kernel_documented -> len v < 18446744073709551616 ->
  let n := kernel_write c v in 0 <= n <= len v /\ (v <> [] -> 0 < n) /\
  FileDescriptor.write (kernel_writev kernel_write c) fd out (view_of_string v) false =
    Ok (register_write fd, out ++ take (Z.to_nat n) v, n).
Proof.
  intros [_ K2 K3 _ _] Hv n.
  assert (Hn : 0 <= n <= len v /\ (v <> [] -> 0 < n)).
  { destruct (decide (v = [])) as [->|Hne]; [unfold n; rewrite K3; by split|]. destruct (K2 c v Hne). fold n in H, H0. split; [lia|done]. }
  split; [apply Hn|]. split; [apply Hn|]. destruct Hn as [Hn Hpos].
  assert (Ho : exists b', write_once (kernel_writev kernel_write c) fd out [v] = Ok (register_write fd, out ++ take (Z.to_nat n) v, b', n)).
  { unfold write_once, kernel_writev. rewrite as_iovecs_fst. cbn [concat]. rewrite app_nil_r. fold n.
    rewrite (proj2 (Z.ltb_ge n 0)) by lia. unfold SystemCall. rewrite (proj2 (Z.leb_le 0 n)) by lia. cbn [orb res_bind].
    rewrite view_size_ok; cbn [concat]; rewrite app_nil_r; [|lia].
    replace ((n =? 0) && negb (len v =? 0)) with false.
    2: { destruct (Z.eqb_spec n 0) as [E|]; [|done]. destruct v; [done|]. specialize (Hpos ltac:(done)). lia. }
    rewrite (proj2 (Z.ltb_ge (len v) n)) by lia.
    destruct (view_remove_prefix_ok [v] n) as (b' & -> & _); [cbn [concat]; rewrite app_nil_r; lia|]. by exists b'. }
  destruct Ho as (b' & Ho). unfold FileDescriptor.write, view_of_string.
  transitivity (let* (w, k, b, n) := write_once (kernel_writev kernel_write c) fd out [v] in Ok (w, k, u64 (0 + n))).
  - generalize (Z.to_nat (view_size [v])). by intros [|f].
  - rewrite Ho. cbn [res_bind]. by rewrite Z.add_0_l, u64_small by lia.
Qed.

Lemma write_progress st c fd s b out :
  kernel_documented -> flows st s b out ->
  exists fd' out' n, FileDescriptor.write (kernel_writev kernel_write c) fd out
      (view_of_string (peek_output b (Z.min max_copy_length (ByteStream.buffer_size b)))) false = Ok (fd', out', n) /\
    write_count fd' <> write_count fd /\ FileDescriptor.eof fd' = FileDescriptor.eof fd /\
    (length (_buffer (pop_output b n)) <= length (_buffer b))%nat /\
    (_buffer b <> [] -> (length (_buffer (pop_output b n)) < length (_buffer b))%nat).
Proof.
  intros Hk Hf. pose proof (fl_room _ _ _ _ Hf). pose proof (len_nonneg (_buffer b)).
  unfold ByteStream.buffer_size. set (v := peek_output b _).
  assert (Hv : len v = Z.min max_copy_length (len (_buffer b))).
  { unfold v, peek_output. rewrite len_prefix_str; unfold max_copy_length; lia. }
  destruct (write_takes c fd out v Hk) as (Hn & Hpos & Hw); [unfold buffer_size in *; lia|].
  set (n := kernel_write c v) in *. do 3 eexists. split; [exact Hw|]. split; [apply register_write_counts|]. split; [done|].
  assert (Hl : length (_buffer (pop_output b n)) = (length (_buffer b) - Z.to_nat n)%nat).
  { unfold pop_output. sponge_simpl. rewrite Z.min_l by lia. unfold slice. rewrite length_take, length_drop. unfold len in *. lia. }
  rewrite Hl. split; [lia|]. intros Hb.
  assert (0 < len (_buffer b)) by (assert (len (_buffer b) <> 0) by (by intros ?%len_zero_nil); lia).
  assert (v <> []) as Hne by (intros E; rewrite E, len_nil in Hv; unfold max_copy_length in Hv; lia).
  specialize (Hpos Hne). unfold len in *. lia.
Qed.

(** What is left to do: every byte is read and written, both ends are noticed and
    passed on. *)
Definition left_to_do (c : Copy) : nat :=
  2 * length (unread (stdin c)) + length (_buffer (_outbound c)) +
  2 * length (unread (sock_in c)) + length (_buffer (_inbound c)) +
  (if FileDescriptor.eof (_input c) then 0 else 1) + (if FileDescriptor.eof (socket c) then 0 else 1) +
  (if _outbound_shutdown c then 0 else 1) + (if _inbound_shutdown c then 0 else 1).

(** A rule that is due and, if it reads, has something to read *)
Definition called_for (r : Rule Copy) (c : Copy) : Prop :=
  due fd_of r c /\
  (direction r = In -> if fd r =? input_fd then available (stdin c) else if fd r =? socket_fd then available (sock_in c) else True).

Lemma not_exhausted_in r (c : Copy) : direction r = In -> ~ exhausted fd_of c r -> FileDescriptor.eof (fd_of c (fd r)) = false.
Proof. intros Hd Hn. destruct (FileDescriptor.eof _) eqn:E; [|done]. destruct Hn. by left. Qed.

Abbreviation copying := (StreamCopy.copying sock_stays out_stays).
Abbreviation reason := (StreamCopy.reason sock_stays out_stays).
Abbreviation rule1 := (StreamCopy.rule1 kernel_read).
Abbreviation rule2 := (StreamCopy.rule2 kernel_write kernel_shutdown).
Abbreviation rule3 := (StreamCopy.rule3 kernel_read).
Abbreviation rule4 := (StreamCopy.rule4 kernel_write kernel_close).

Lemma reader_interest st b b2 s out :
  flows st s b out -> negb (error b) && (0 <? remaining_capacity b) && negb (error b2) = true -> 0 < remaining_capacity b.
Proof. intros _ H. apply andb_true_iff in H as [H _]. apply andb_true_iff in H as [_ H]. by apply Z.ltb_lt. Qed.

Lemma rule1_progress c :
  kernel_documented -> copying c -> called_for rule1 c ->
  exists c', rule1_callback kernel_read c = Ok c' /\ (service_count fd_of c' rule1 <> service_count fd_of c rule1 \/ interest rule1 c' = false) /\
    (left_to_do c' < left_to_do c)%nat.
Proof.
  intros Hk [] [[Hi Hx] Ha]. pose proof (not_exhausted_in rule1 c eq_refl Hx) as He. change (FileDescriptor.eof (_input c) = false) in He.
  apply (reader_interest _ _ _ _ _ cp_out) in Hi. specialize (Ha eq_refl). change (available (stdin c)) in Ha.
  destruct (read_progress _ c (_input c) _ _ _ Hk cp_out Ha Hi) as (fd' & s' & data & Hr & Hn & _ & Hl & Hb & Hd).
  unfold rule1_callback. rewrite Hr. cbn [res_bind]. cbv zeta.
  match goal with |- context [if FileDescriptor.eof (_input ?x) then _ else _] => set (c1 := x) end.
  assert (Hm : (left_to_do c1 < left_to_do c)%nat).
  { unfold left_to_do, c1. cbn [field_update _input _outbound stdin]. sponge_simpl. rewrite Hb, length_app, He.
    destruct Hd as [[Hd1 Hd2]|[-> Hd2]]; rewrite Hd2; [rewrite He|]; simpl in *; lia. }
  destruct (FileDescriptor.eof (_input c1)); eexists; (split; [reflexivity|]); (split; [left; exact Hn|]); exact Hm.
Qed.

Lemma rule3_progress c :
  kernel_documented -> copying c -> called_for rule3 c ->
  exists c', rule3_callback kernel_read c = Ok c' /\ (service_count fd_of c' rule3 <> service_count fd_of c rule3 \/ interest rule3 c' = false) /\
    (left_to_do c' < left_to_do c)%nat.
Proof.
  intros Hk [] [[Hi Hx] Ha]. pose proof (not_exhausted_in rule3 c eq_refl Hx) as He. change (FileDescriptor.eof (socket c) = false) in He.
  apply (reader_interest _ _ _ _ _ cp_in) in Hi. specialize (Ha eq_refl). change (available (sock_in c)) in Ha.
  destruct (read_progress _ c (socket c) _ _ _ Hk cp_in Ha Hi) as (fd' & s' & data & Hr & Hn & _ & Hl & Hb & Hd).
  unfold rule3_callback. rewrite Hr. cbn [res_bind]. cbv zeta.
  match goal with |- context [if FileDescriptor.eof (socket ?x) then _ else _] => set (c1 := x) end.
  assert (Hm : (left_to_do c1 < left_to_do c)%nat).
  { unfold left_to_do, c1. sponge_simpl. rewrite Hb, length_app, He.
    destruct Hd as [[Hd1 Hd2]|[-> Hd2]]; rewrite Hd2; [rewrite He|]; simpl in *; lia. }
  destruct (FileDescriptor.eof (socket c1)); eexists; (split; [reflexivity|]); (split; [left; exact Hn|]); exact Hm.
Qed.

(** A writer that is interested has bytes, or an end to pass on. *)
Lemma writer_interest b shut :
  negb (buffer_empty b) || (ByteStream.eof b && negb shut) = true ->
  _buffer b <> [] \/ _buffer b = [] /\ input_ended b = true /\ shut = false.
Proof.
  intros [H|H]%orb_true_iff.
  - left. intros Hb. apply negb_true_iff in H. unfold buffer_empty in H. rewrite Hb in H. done.
  - apply andb_true_iff in H as [[H1 H2]%eof_spec H3%negb_true_iff]. by right.
Qed.

Lemma pop_nil b n : _buffer b = [] -> _buffer (pop_output b n) = [].
Proof. intros Hb. unfold pop_output. sponge_simpl. unfold slice. by rewrite Hb, drop_nil, take_nil. Qed.

Lemma call_ok a : 0 <= ret a -> SystemCall (ret a) (errno a) 0 = Ok (ret a).
Proof. intros H. unfold SystemCall. by rewrite (proj2 (Z.leb_le 0 _)). Qed.

Lemma rule2_progress c :
  kernel_documented -> copying c -> called_for rule2 c ->
  exists c', rule2_callback kernel_write kernel_shutdown c = Ok c' /\
    (service_count fd_of c' rule2 <> service_count fd_of c rule2 \/ interest rule2 c' = false) /\
    (left_to_do c' < left_to_do c)%nat.
Proof.
  intros Hk [] [[Hi Hx] _]. apply writer_interest in Hi.
  destruct (write_progress _ c (socket c) _ _ _ Hk cp_out) as (fd' & out' & n & Hw & Hn & He & Hl & Hs).
  unfold rule2_callback. rewrite Hw. cbn [res_bind]. cbv zeta.
  match goal with |- context [if ByteStream.eof (_outbound ?x) then _ else _] => set (c1 := x) end.
  destruct (ByteStream.eof (_outbound c1)) eqn:Ee.
  - unfold shutdown, call. rewrite call_ok by apply Hk. cbn [res_bind]. cbn [Z.eqb SHUT_WR SHUT_RD Pos.eqb]. cbn [res_bind].
    eexists. split; [reflexivity|]. apply eof_spec in Ee as [Ee1 Ee2]. split.
    + right. apply orb_false_iff. split; [|apply andb_false_r]. apply negb_false_iff. unfold buffer_empty.
      change (_buffer (_outbound _)) with (_buffer (_outbound c1)). by rewrite Ee2.
    + unfold left_to_do. sponge_simpl. change (_eof fd') with (FileDescriptor.eof fd'). rewrite He. destruct Hi as [Hb|(Hb & _ & Hsh)].
      * specialize (Hs Hb). destruct (_outbound_shutdown c); lia.
      * rewrite Hsh. lia.
  - eexists. split; [reflexivity|]. split; [left; exact Hn|].
    destruct Hi as [Hb|(Hb & Hi & _)].
    + specialize (Hs Hb). unfold left_to_do, c1. sponge_simpl. rewrite He. lia.
    + assert (ByteStream.eof (_outbound c1) = true) by (apply eof_spec; split; [exact Hi|by apply pop_nil]). congruence.
Qed.

Lemma rule4_progress c :
  kernel_documented -> copying c -> called_for rule4 c ->
  exists c', rule4_callback kernel_write kernel_close c = Ok c' /\
    (service_count fd_of c' rule4 <> service_count fd_of c rule4 \/ interest rule4 c' = false) /\
    (left_to_do c' < left_to_do c)%nat.
Proof.
  intros Hk [] [[Hi Hx] _]. apply writer_interest in Hi.
  destruct (write_progress _ c (_output c) _ _ _ Hk cp_in) as (fd' & out' & n & Hw & Hn & He & Hl & Hs).
  unfold rule4_callback. rewrite Hw. cbn [res_bind]. cbv zeta.
  match goal with |- context [if ByteStream.eof (_inbound ?x) then _ else _] => set (c1 := x) end.
  destruct (ByteStream.eof (_inbound c1)) eqn:Ee.
  - unfold FileDescriptor.close. rewrite call_ok by apply Hk. cbn [res_bind].
    eexists. split; [reflexivity|]. apply eof_spec in Ee as [Ee1 Ee2]. split.
    + right. apply orb_false_iff. split; [|apply andb_false_r]. apply negb_false_iff. unfold buffer_empty.
      change (_buffer (_inbound _)) with (_buffer (_inbound c1)). by rewrite Ee2.
    + unfold left_to_do. sponge_simpl. destruct Hi as [Hb|(Hb & _ & Hsh)].
      * specialize (Hs Hb). destruct (_inbound_shutdown c); lia.
      * rewrite Hsh. lia.
  - eexists. split; [reflexivity|]. split; [left; exact Hn|].
    destruct Hi as [Hb|(Hb & Hi & _)].
    + specialize (Hs Hb). unfold left_to_do, c1. sponge_simpl. lia.
    + assert (ByteStream.eof (_inbound c1) = true) by (apply eof_spec; split; [exact Hi|by apply pop_nil]). congruence.
Qed.

(** ** What the rules leave alone *)

Definition wants_to_write (b : ByteStream) (shut : bool) : bool := negb (buffer_empty b) || (ByteStream.eof b && negb shut).

Lemma wants_spec b shut : wants_to_write b shut = true <-> _buffer b <> [] \/ _buffer b = [] /\ input_ended b = true /\ shut = false.
Proof.
  split; [apply writer_interest|]. unfold wants_to_write. intros [H|(H1 & H2 & ->)].
  - unfold buffer_empty. assert (len (_buffer b) <> 0) by (by intros ?%len_zero_nil). by rewrite (proj2 (Z.eqb_neq _ _)).
  - rewrite (proj2 (eof_spec b)) by done. apply orb_true_r.
Qed.

Lemma wants_write b d shut : wants_to_write b shut = true -> wants_to_write (ByteStream.write b d).1 shut = true.
Proof.
  rewrite !wants_spec. unfold ByteStream.write. cbn [fst]. sponge_simpl. set (l := prefix_str d _).
  intros [H|(H1 & H2 & H3)]; [left; by intros [? _]%app_nil|]. rewrite H1. destruct l; [by right|by left].
Qed.

Lemma wants_end b shut : wants_to_write b shut = true -> wants_to_write (end_input b) shut = true.
Proof. rewrite !wants_spec. sponge_simpl. naive_solver. Qed.

Lemma rule1_frame c c' : rule1_callback kernel_read c = Ok c' ->
  exists fd s b, c' = c <| _input := fd |> <| stdin := s |> <| _outbound := b |> /\ error b = error (_outbound c) /\
    (forall shut, wants_to_write (_outbound c) shut = true -> wants_to_write b shut = true).
Proof.
  intros ([[fd s] data] & _ & H)%res_bind_ok. cbv zeta in H.
  destruct (FileDescriptor.eof _); injection H as <-; exists fd, s; eexists; (split; [reflexivity|]); (split; [done|]);
    intros shut Hw; [by apply wants_end, wants_write|by apply wants_write].
Qed.

Lemma rule3_frame c c' : rule3_callback kernel_read c = Ok c' ->
  exists fd s b, c' = c <| socket := fd |> <| sock_in := s |> <| _inbound := b |> /\
    (forall shut, wants_to_write (_inbound c) shut = true -> wants_to_write b shut = true).
Proof.
  intros ([[fd s] data] & _ & H)%res_bind_ok. cbv zeta in H.
  destruct (FileDescriptor.eof _); injection H as <-; exists fd, s; eexists; (split; [reflexivity|]);
    intros shut Hw; [by apply wants_end, wants_write|by apply wants_write].
Qed.

Lemma rule2_frame c c' : copying c -> rule2_callback kernel_write kernel_shutdown c = Ok c' ->
  exists fd k b e, c' = c <| socket := fd |> <| sock_out := k |> <| _outbound := b |> <| _outbound_shutdown := e |> /\
    error b = error (_outbound c) /\ FileDescriptor.eof fd = FileDescriptor.eof (socket c) /\ closed fd = closed (socket c).
Proof.
  intros [] ([[fd k] n] & Hw & H)%res_bind_ok. destruct (flows_drain _ _ _ _ _ _ _ _ _ _ cp_out Hw) as [_ ->]. cbv zeta in H.
  destruct (ByteStream.eof _); [apply res_bind_ok in H as (fd & ->%shutdown_wr & [= <-])|injection H as <-].
  - exists (register_write (register_write (socket c))), k. exists (pop_output (_outbound c) n), true. split; [reflexivity|]. done.
  - exists (register_write (socket c)), k. exists (pop_output (_outbound c) n), (_outbound_shutdown c). split; [reflexivity|]. done.
Qed.

(** A rule leaves what is due behind it due. *)
Lemma rules_spare : StronglySorted (spares copying called_for) (rules kernel_read kernel_write kernel_close kernel_shutdown).
Proof.
  repeat first [apply SSorted_nil|apply SSorted_cons|apply List.Forall_nil|apply List.Forall_cons]; intros c c' Hi [[Hw Hx] Ha].
  - intros [(fd & s & b & -> & H)%rule3_frame|[= <-]]; (split; [split; [|exact Hx]|done]); [by apply H|by apply (wants_end (_inbound c))].
  - intros [(fd & k & b & e & -> & He & H1 & H2)%(rule2_frame _ _ Hi)|[= <-]]; (split; [split|exact Ha]); [| |exact Hw|exact Hx].
    + change (negb (error (_inbound c)) && (0 <? remaining_capacity (_inbound c)) && negb (error b) = true). rewrite He. exact Hw.
    + intros [[_ Hf]|Hf]; apply Hx; [left; split; [done|]|right]; cbn in *; congruence.
  - intros [(fd & k & b & e & -> & He & H1 & H2)%(rule2_frame _ _ Hi)|[= <-]]; (split; [split; [|exact Hx]|done]); exact Hw.
  - intros [(fd & s & b & -> & _ & H)%rule1_frame|[= <-]]; (split; [split; [|exact Hx]|done]); [by apply H|by apply (wants_end (_outbound c))].
  - intros [(fd & s & b & -> & He & H)%rule1_frame|[= <-]]; (split; [split; [|exact Hx]|exact Ha]); [|exact Hw].
    change (negb (error (_inbound c)) && (0 <? remaining_capacity (_inbound c)) && negb (error b) = true). rewrite He. exact Hw.
  - intros [(fd & s & b & -> & _ & H)%rule1_frame|[= <-]]; (split; [split; [|exact Hx]|done]); exact Hw.
Qed.

Abbreviation rules := (StreamCopy.rules kernel_read kernel_write kernel_close kernel_shutdown).

Lemma rules_progress : kernel_documented -> progresses fd_of copying called_for left_to_do rules.
Proof.
  intros Hk. split.
  - intros r c Hr Hi Hc. unfold StreamCopy.rules in Hr.
    repeat (apply elem_of_cons in Hr as [->|Hr]); [by apply rule1_progress|by apply rule2_progress|by apply rule3_progress|by apply rule4_progress|].
    by apply not_elem_of_nil in Hr.
  - intros r c Hr. unfold StreamCopy.rules in Hr.
    repeat (apply elem_of_cons in Hr as [->|Hr]); [eexists; (split; [reflexivity|exact (le_n _)])..|].
    by apply not_elem_of_nil in Hr.
Qed.

(** [poll] as documented: besides answering honestly it finds a descriptor readable
    only when there is something to read, and when both sources have ended, so that no
    more comes, and somebody is interested, something is ready. *)
Record poll_live : Prop := {
  pl_truthful : poll_truthful fd_of copying reason called_for poll rules;
  pl_wakes : forall c, ended (stdin c) = true -> ended (sock_in c) = true -> wakes fd_of poll rules c;
}.

Lemma live_documented :
  poll_live -> poll_documented kernel_read kernel_write kernel_close kernel_shutdown poll sock_stays out_stays.
Proof. intros [[H1 H2 H3 _ _] _]. by split. Qed.

Lemma documented_reads : kernel_documented -> reads_some kernel_read.
Proof. intros [H _ _ _ _] c d limit Hd Hl. by apply H. Qed.

Definition both_ended (c : Copy) : Prop := ended (stdin c) = true /\ ended (sock_in c) = true.

Lemma cancel_source r c c' : r ∈ rules -> cancel r c = Ok c' -> stdin c' = stdin c /\ sock_in c' = sock_in c.
Proof.
  intros Hr. unfold StreamCopy.rules in Hr. repeat (apply elem_of_cons in Hr as [->|Hr]); try (by intros [= <-]).
  by apply not_elem_of_nil in Hr.
Qed.

(** One call of the loop *)
Lemma wait_live rs c a :
  kernel_documented -> poll_live -> StreamCopy.running kernel_read kernel_write kernel_close kernel_shutdown sock_stays out_stays rs c ->
  exists result rs' c', wait_next_event fd_of poll rs (arrive c a) (-1) = Ok (result, rs', c') /\
    StreamCopy.running kernel_read kernel_write kernel_close kernel_shutdown sock_stays out_stays rs' c' /\
    (left_to_do c' + length rs' <= left_to_do (arrive c a) + length rs)%nat /\
    (both_ended (arrive c a) -> result = Exit \/ (left_to_do c' + length rs' < left_to_do (arrive c a) + length rs)%nat).
Proof.
  intros Hk Hp Hrun. pose proof Hrun as [Hi Hs _ _].
  destruct (wait_progress fd_of copying reason called_for left_to_do poll rules rs (arrive c a) (-1)) as (result & rs' & c' & Hw & Hm & Hx).
  - done.
  - apply Hp.
  - eapply respects_sublist; [exact Hs|]. apply rules_respect. by apply documented_reads.
  - destruct (rules_progress Hk) as [P1 P2]. split; intros; [eapply P1|eapply P2]; eauto using elem_of_sublist.
  - eapply sorted_sublist; [exact Hs|]. apply rules_spare.
  - eapply sorted_sublist; [exact Hs|]. apply rules_quiet.
  - by apply arrive_copying.
  - exists result, rs', c'. split; [done|]. split; [|split; [done|]].
    + eapply wait_running; [by apply documented_reads|by apply live_documented|exact Hrun|exact Hw].
    + intros HE. apply Hx. intros c1 kept Hc.
      destruct (cancels_preserves fd_of both_ended _ _ _ _ Hc) as [[E1 E2] _]; [|done|by apply (pl_wakes Hp)].
      intros r v v1 Hr Hv H. unfold both_ended. apply (cancel_source r) in H as [-> ->]; eauto using elem_of_sublist.
Qed.

(** ** What comes *)

(** All that comes to a source, up to its end *)
Fixpoint told (f : arrival -> bytes) (e : arrival -> bool) (l : list arrival) : bytes :=
  match l with
  | [] => []
  | a :: l' => f a ++ (if e a then [] else told f e l')
  end.

(** [s] has got its part of [text]; [l] brings the rest. *)
Definition expects (f : arrival -> bytes) (e : arrival -> bool) (text : bytes) (l : list arrival) (s : source) : Prop :=
  if ended s then come s = text else come s ++ told f e l = text.

(** What is still to come *)
Definition to_come (f : arrival -> bytes) (e : arrival -> bool) (l : list arrival) (s : source) : nat :=
  if ended s then 0 else length (told f e l).

Lemma expects_arrive f e text a l s :
  expects f e text (a :: l) s -> expects f e text l (arrive_at s (f a) (e a)).
Proof.
  unfold expects, arrive_at. destruct (ended s) eqn:E; [by rewrite E|]. sponge_simpl. intros <-.
  destruct (e a); [by rewrite app_nil_r|by rewrite app_assoc].
Qed.

Lemma to_come_arrive f e a l s :
  (pos s <= length (come s))%nat ->
  (2 * length (unread (arrive_at s (f a) (e a))) + 2 * to_come f e l (arrive_at s (f a) (e a)) <=
   2 * length (unread s) + 2 * to_come f e (a :: l) s)%nat.
Proof.
  intros Hp. unfold to_come, arrive_at, unread. destruct (ended s) eqn:E; [rewrite E; lia|]. sponge_simpl.
  rewrite !length_drop, !length_app. destruct (e a); simpl; lia.
Qed.

Definition same_text (s s' : source) : Prop := come s' = come s /\ ended s' = ended s.

Lemma expects_same f e text l s s' : same_text s s' -> expects f e text l s -> expects f e text l s'.
Proof. intros [H1 H2]. unfold expects. by rewrite H1, H2. Qed.

Lemma read_from_same c fd s limit fd' s' data : read_from kernel_read c fd s limit = Ok (fd', s', data) -> same_text s s'.
Proof. unfold read_from. destruct (match unread s with [] => _ | _ => _ end). by intros ([? ?] & _ & [= _ <- _])%res_bind_ok. Qed.

Lemma callback_sources r c c' :
  r ∈ rules -> callback r c = Ok c' -> same_text (stdin c) (stdin c') /\ same_text (sock_in c) (sock_in c').
Proof.
  intros Hr Hc. unfold StreamCopy.rules in Hr. repeat (apply elem_of_cons in Hr as [->|Hr]); [..|by apply not_elem_of_nil in Hr];
    apply res_bind_ok in Hc as ([[? ?] ?] & Hr' & Hc); cbv zeta in Hc.
  - apply read_from_same in Hr'. destruct (FileDescriptor.eof _); by injection Hc as <-.
  - destruct (ByteStream.eof _); [apply res_bind_ok in Hc as (? & _ & Hc)|]; by injection Hc as <-.
  - apply read_from_same in Hr'. destruct (FileDescriptor.eof _); by injection Hc as <-.
  - destruct (ByteStream.eof _); [apply res_bind_ok in Hc as (? & _ & Hc)|]; by injection Hc as <-.
Qed.

Lemma same_text_trans s1 s2 s3 : same_text s1 s2 -> same_text s2 s3 -> same_text s1 s3.
Proof. intros [] []. split; congruence. Qed.

Lemma wait_sources rs c t result rs' c' :
  rs `sublist_of` rules -> wait_next_event fd_of poll rs c t = Ok (result, rs', c') ->
  same_text (stdin c) (stdin c') /\ same_text (sock_in c) (sock_in c').
Proof.
  intros Hs Hw.
  refine (proj1 (wait_preserves fd_of poll (fun v => same_text (stdin c) (stdin v) /\ same_text (sock_in c) (sock_in v)) _ _ _ _ _ _ _ _ Hw)); [|done].
  intros r v v1 Hr [V1 V2] H. assert (Hr' : r ∈ rules) by (by eapply elem_of_sublist).
  destruct H as [[H1 H2]%callback_sources|[-> ->]%cancel_source]; [..|done|done]; [|done].
  split; by eapply same_text_trans.
Qed.

Abbreviation running := (StreamCopy.running kernel_read kernel_write kernel_close kernel_shutdown sock_stays out_stays).

Lemma copy_loop_expects arrivals rs c rs' c' t1 t2 :
  kernel_documented -> poll_live -> running rs c ->
  expects to_stdin stdin_ends t1 arrivals (stdin c) -> expects to_socket socket_ends t2 arrivals (sock_in c) ->
  copy_loop poll arrivals rs c = Ok (rs', c') ->
  exists l, expects to_stdin stdin_ends t1 l (stdin c') /\ expects to_socket socket_ends t2 l (sock_in c').
Proof.
  intros Hk Hp. revert rs c. induction arrivals as [|a arrivals IH]; intros rs c Hrun E1 E2; cbn [copy_loop]; [done|].
  intros ([[result rs1] c1] & Hw & H)%res_bind_ok.
  destruct (wait_sources _ _ _ _ _ _ (rn_sub _ _ _ _ _ _ _ _ Hrun) Hw) as [S1 S2].
  pose proof (expects_same _ _ _ _ _ _ S1 (expects_arrive _ _ _ _ _ _ E1)) as E1'.
  pose proof (expects_same _ _ _ _ _ _ S2 (expects_arrive _ _ _ _ _ _ E2)) as E2'.
  destruct (wait_running _ _ _ _ _ _ _ _ _ _ _ _ _ _ (documented_reads Hk) (live_documented Hp) Hrun Hw) as [Hrun1 _].
  destruct result; [by eapply IH|by eapply IH|]. injection H as _ <-. by exists arrivals.
Qed.

Lemma arrive_silence c : both_ended c -> arrive c silence = c.
Proof. destruct c. unfold both_ended, arrive, arrive_at. cbn. intros [-> ->]. done. Qed.

(** Once both sources have ended, every call makes progress. *)
Lemma copy_silence n rs c :
  kernel_documented -> poll_live -> running rs c -> both_ended c -> (left_to_do c + length rs < n)%nat ->
  exists r, copy_loop poll (replicate n silence) rs c = Ok r.
Proof.
  intros Hk Hp. revert rs c. induction n as [|n IH]; intros rs c Hrun He Hn; [lia|]. cbn [replicate copy_loop].
  destruct (wait_live rs c silence Hk Hp Hrun) as (result & rs' & c' & Hw & Hrun' & _ & Hm). rewrite Hw. cbn [res_bind].
  destruct (wait_sources _ _ _ _ _ _ (rn_sub _ _ _ _ _ _ _ _ Hrun) Hw) as [[_ S1] [_ S2]]. rewrite (arrive_silence c He) in *.
  assert (He' : both_ended c') by (destruct He; split; congruence).
  destruct (Hm He) as [->|Hlt]; [by eexists|]. destruct result; [apply IH; [done|done|lia]..|by eexists].
Qed.

Definition ends_in (e : arrival -> bool) (l : list arrival) (s : source) : Prop := ended s = true \/ Exists (fun a => e a = true) l.

Lemma ends_arrive f e a l s s' : same_text (arrive_at s (f a) (e a)) s' -> ends_in e (a :: l) s -> ends_in e l s'.
Proof.
  intros [_ Hs]. unfold ends_in, arrive_at in *. destruct (ended s) eqn:E; [by rewrite E in Hs; left|]. sponge_simpl.
  intros [?|[H|H]%Exists_cons]; [done|left; congruence|by right].
Qed.

Lemma same_to_come f e l s s' : same_text s s' -> to_come f e l s' = to_come f e l s.
Proof. intros [_ H]. unfold to_come. by rewrite H. Qed.

Lemma arrive_left a l c :
  copying c ->
  (left_to_do (arrive c a) + 2 * to_come to_stdin stdin_ends l (stdin (arrive c a)) + 2 * to_come to_socket socket_ends l (sock_in (arrive c a)) <=
   left_to_do c + 2 * to_come to_stdin stdin_ends (a :: l) (stdin c) + 2 * to_come to_socket socket_ends (a :: l) (sock_in c))%nat.
Proof.
  intros []. pose proof (to_come_arrive to_stdin stdin_ends a l (stdin c) (fl_pos _ _ _ _ cp_out)).
  pose proof (to_come_arrive to_socket socket_ends a l (sock_in c) (fl_pos _ _ _ _ cp_in)).
  unfold left_to_do, arrive. cbn [stdin sock_in _outbound _inbound _input socket _outbound_shutdown _inbound_shutdown] in *.
  change (stdin (c <| stdin := ?x |> <| sock_in := ?y |>)) with x.
  change (sock_in (c <| stdin := ?x |> <| sock_in := ?y |>)) with y. sponge_simpl. lia.
Qed.

Lemma copy_live arrivals n rs c :
  kernel_documented -> poll_live -> running rs c ->
  ends_in stdin_ends arrivals (stdin c) -> ends_in socket_ends arrivals (sock_in c) ->
  (left_to_do c + length rs + 2 * to_come to_stdin stdin_ends arrivals (stdin c) +
   2 * to_come to_socket socket_ends arrivals (sock_in c) < n)%nat ->
  exists r, copy_loop poll (arrivals ++ replicate n silence) rs c = Ok r.
Proof.
  intros Hk Hp. revert rs c. induction arrivals as [|a arrivals IH]; intros rs c Hrun E1 E2 Hn.
  { apply copy_silence; try done; [|lia]. destruct E1 as [E1|?%Exists_nil]; [|done]. by destruct E2 as [E2|?%Exists_nil]. }
  cbn [app copy_loop]. destruct (wait_live rs c a Hk Hp Hrun) as (result & rs' & c' & Hw & Hrun' & Hm & _). rewrite Hw. cbn [res_bind].
  destruct (wait_sources _ _ _ _ _ _ (rn_sub _ _ _ _ _ _ _ _ Hrun) Hw) as [S1 S2].
  pose proof (arrive_left a arrivals c (rn_inv _ _ _ _ _ _ _ _ Hrun)).
  assert (Hnext : exists r, copy_loop poll (arrivals ++ replicate n silence) rs' c' = Ok r).
  { apply IH; [done|exact (ends_arrive to_stdin _ _ _ _ _ S1 E1)|exact (ends_arrive to_socket _ _ _ _ _ S2 E2)|].
    rewrite (same_to_come _ _ _ _ _ S1), (same_to_come _ _ _ _ _ S2). lia. }
  destruct result; [done|done|by eexists].
Qed.

Lemma told_app f e l l' : Exists (fun a => e a = true) l -> told f e (l ++ l') = told f e l.
Proof.
  induction 1 as [a l H|a l _ IH]; cbn [app told]; [by rewrite H|]. by rewrite IH.
Qed.

Lemma expects_prefix f e text l s out :
  expects f e text l s -> (exists rest, come s = out ++ rest) -> exists rest, text = out ++ rest.
Proof.
  unfold expects. intros He [rest Hr]. destruct (ended s); [exists rest; congruence|].
  exists (rest ++ told f e l). by rewrite app_assoc, <- Hr.
Qed.

End Copy.

(** ** Witness *)

Lemma read3_documented : kernel_documented read3 write2 succeeds succeeds.
Proof.
  split; try done.
  - intros c d limit Hd Hl. pose proof (read3_reads c d limit Hd Hl). unfold read3 in *. lia.
  - intros c d Hd. unfold write2. assert (len d <> 0) by (by intros ?%len_zero_nil). pose proof (len_nonneg d). lia.
Qed.

Lemma ready_available s : ready s = true -> available s.
Proof.
  unfold ready, available. destruct (ended s); [by left|]. cbn [orb]. intros H%negb_true_iff%Z.eqb_neq. right.
  intros Hu. by rewrite Hu in H.
Qed.

Lemma source_flag_values c p : source_flag c p = POLLOUT \/ source_flag c p = POLLIN \/ source_flag c p = POLLHUP \/ source_flag c p = 0.
Proof.
  unfold source_flag, pipe_flag. destruct (events p =? POLLOUT); [auto|]. destruct (negb _); [auto|].
  destruct (_ && negb _); [|destruct (_ && _); auto]. destruct (negb _); [auto|]. destruct (ended _); auto.
Qed.

(** A source that [poll] finds readable has something to read. *)
Lemma source_flag_in c p :
  events p = POLLIN -> Z.land (source_flag c p) POLLIN <> 0 ->
  (pfd p = fd_num (_input c) -> available (stdin c)) /\ (pfd p = fd_num (socket c) -> available (sock_in c)).
Proof.
  intros He. unfold source_flag. rewrite He. cbn [Z.eqb POLLIN POLLOUT Pos.eqb negb].
  destruct (Z.eqb_spec (pfd p) (fd_num (_input c))), (Z.eqb_spec (pfd p) (fd_num (socket c))); cbn [andb orb negb].
  - destruct (ready (stdin c)) eqn:E1; [|done]. destruct (ready (sock_in c)) eqn:E2; [|done].
    intros _. split; intros _; by apply ready_available.
  - unfold pipe_flag. destruct (Z.eqb_spec (len (unread (stdin c))) 0) as [|Hu]; [by destruct (ended _)|].
    intros _. split; [|done]. intros _. right. intros E. by rewrite E in Hu.
  - destruct (ready (sock_in c)) eqn:E2; [|done]. intros _. split; [done|]. intros _. by apply ready_available.
  - done.
Qed.

Lemma source_flag_due kr kw kc ks c r p :
  r ∈ rules kr kw kc ks -> polled fd_of c (r, p) -> is_ready (r, mkPollfd (pfd p) (events p) (source_flag c p)) -> called_for r c.
Proof.
  intros Hin [Hp [[He Hd]|He]] Hr; cbn [fst snd] in *; unfold is_ready in Hr; cbn [snd revents events] in Hr;
    [|rewrite He, Z.land_0_r in Hr; done].
  split; [done|]. intros Hdir. rewrite Hdir in He. rewrite He in Hr. destruct (source_flag_in c p He Hr) as [H1 H2].
  unfold rules in Hin. repeat (apply elem_of_cons in Hin as [->|Hin]); [..|by apply not_elem_of_nil in Hin]; try done.
  - by apply H1.
  - by apply H2.
Qed.

Lemma poll_sources_live kr kw kc ks st1 st2 : poll_live kr kw kc ks poll_sources st1 st2.
Proof.
  pose proof (poll_sources_documented kr kw kc ks st1 st2) as [D1 D2 D3]. split; [split; [done..| |]|].
  - intros c ps t. apply Forall_map, Forall_true. intros p. by destruct (source_flag_values c p) as [-> |[-> |[-> | ->]]].
  - intros c kept t _ Hk Hp. cbn [poll_sources snd]. rewrite fill_map. apply Forall_map, List.Forall_forall.
    intros [r p] Hin%list_elem_of_In Hr. rewrite Forall_forall in Hp. apply (source_flag_due kr kw kc ks c r p); [|by apply Hp|done].
    eapply elem_of_sublist; [|exact Hk]. exact (list_elem_of_fmap_2 fst kept (r, p) Hin).
  - intros c E1 E2 kept t Hk Hp ([r p] & Hin & He). cbn [poll_sources fst snd] in *. rewrite fill_map. split.
    + destruct kept; [by apply not_elem_of_nil in Hin|]. cbn [map]. rewrite len_cons. pose proof (len_nonneg (map snd kept)). lia.
    + apply Exists_exists. exists (r, mkPollfd (pfd p) (events p) (source_flag c p)). split;
        [exact (list_elem_of_fmap_2 (fun rp => (rp.1, mkPollfd (pfd rp.2) (events rp.2) (source_flag c rp.2))) kept (r, p) Hin)|].
      rewrite Forall_forall in Hp. destruct (Hp _ Hin) as [_ [[Hf _]|?]]; [|done]. cbn [fst snd] in Hf.
      unfold is_ready, hung_up, source_flag, pipe_flag, ready. cbn [snd revents events pfd]. rewrite Hf, E1, E2, !orb_true_r.
      destruct (direction r); [|by left]. cbn [direction_flag Z.eqb POLLIN POLLOUT Pos.eqb negb andb].
      destruct (_ && negb _); [|by left]. destruct (negb _); [by left|by right].
Qed.

(** Two pieces come to the standard input and one from the socket. *)
Definition talk_ends : list arrival := [mkArrival [x61; x62; x63; x64] false [x78] true; mkArrival [x65] true [] false].


(** A reader of the standard output that is gone: nothing is written there, and the other
    direction is complete. *)
Definition poll_reader_gone (c : Copy) (ps : list pollfd) (t : Z) : Z * Z * list Z :=
  (len ps, 0, map (fun p => if (pfd p =? 1) && negb (events p =? 0) then POLLHUP else source_flag c p) ps).

Example reader_gone :
  match bidirectional_stream_copy read3 write2 succeeds succeeds poll_reader_gone (fresh 0) (fresh 1) (fresh 3)
      (talk_ends ++ replicate 21 silence) with
  | Ok (_, c) => sock_out c = [x61; x62; x63; x64; x65] /\ std_out c = [] /\ come (sock_in c) = [x78]
  | Throw _ => False
  end.
Proof. vm_compute. split_and!; reflexivity. Qed.
