(* ===== verification/CommandLine.v ===== *)
(** * Command lines

    How the programs apps/tcp_ipv4.cc, apps/tcp_udp.cc and apps/tcp_ip_ethernet.cc
    (their [show_usage], [check_argc] and [get_config]), apps/tcp_native.cc and
    apps/udp_tcpdump.cc read their arguments.

    The chain of [strncmp] tests of a program is a table in the order of the tests.
    [exit] is an outcome with the message that [show_usage] is given.  The resolver
    and the conversion of a loss rate, which is floating-point arithmetic, are
    parameters. *)

From Stdlib Require Import Strings.String.
From stdpp Require Import base numbers option list.
From Stdlib Require Import ZArith Lia Strings.Byte.
From S2P Require Import Prelude.
From S2P Require Import Text.
From S2P Require Import TCPConfig.
From S2P Require Import Address.
From S2P Require Import Socket.
#[local] Open Scope Z_scope.

#[global] Instance TCPConfig_eta : RecordEta TCPConfig := fun c =>
  mkTCPConfig (rt_timeout c) (recv_capacity c) (send_capacity c) (fixed_isn c).

(** [strncmp(literal, s, n) == 0] *)
Definition strncmp_eq (literal s : bytes) (n : nat) : bool :=
  bool_decide (take n (c_string literal ++ [x00]) = take n (c_string s ++ [x00])).

(** [argv[i]] *)
Definition arg (argv : list bytes) (i : nat) : res bytes :=
  match argv !! i with
  | Some s => Ok s
  | None => Throw UndefinedBehaviour
  end.

(** [exit(code)] after [show_usage] with a message, or the value *)
Inductive outcome (A : Type) :=
| Done (a : A)
| Exits (code : Z) (msg : option bytes).
Arguments Done {A} a.
Arguments Exits {A} code msg.

(** The variables that the options set *)
Record Settings := mkSettings {
  c_fsm : TCPConfig;
  loss_rate_up : Z;
  loss_rate_dn : Z;
  listening : bool;
  source_host : bytes;
  source_port : bytes;
  next_hop_address : bytes;
  dev : option bytes;
}.
#[global] Instance Settings_eta : RecordEta Settings := fun s =>
  mkSettings (c_fsm s) (loss_rate_up s) (loss_rate_dn s) (listening s) (source_host s) (source_port s)
    (next_hop_address s) (dev s).

(** What follows a test: set a flag, take an argument (with the message when it is
    missing), or show the usage *)
Inductive action :=
| Flag (f : Settings -> Settings)
| Value (err : bytes) (f : bytes -> Settings -> Settings)
| Help.

(** The literal, the number of characters compared, and what to do *)
Definition test : Type := bytes * nat * action.

Fixpoint select (table : list test) (s : bytes) : option action :=
  match table with
  | [] => None
  | (literal, n, a) :: rest => if strncmp_eq literal s n then Some a else select rest s
  end.

(** [while (argc - curr > 2)]; each pass moves on by one or two. *)
Fixpoint option_loop (table : list test) (argv : list bytes) (fuel : nat) (curr : nat) (st : Settings) : res (outcome (nat * Settings)) :=
  let argc := length argv in
  if (2 <? argc - curr)%nat then
    match fuel with
    | O => Throw NoFuel
    | S fuel' =>
        let* a := arg argv curr in
        match select table a with
        | Some (Flag f) => option_loop table argv fuel' (curr + 1) (f st)
        | Some (Value err f) =>
            if (argc <=? curr + 3)%nat then Ok (Exits 1 (Some err))
            else
              let* v := arg argv (curr + 1) in
              option_loop table argv fuel' (curr + 2) (f v st)
        | Some Help => Ok (Exits 0 None)
        | None => Ok (Exits 1 (Some (txt "ERROR: unrecognized option " ++ a)))
        end
    end
  else Ok (Done (curr, st)).

(** ** The texts of show_usage, with the line end that [endl] writes *)

Definition nl : bytes := [x0a].

Definition ipv4_show_usage (argv0 : bytes) (msg : option bytes) : bytes :=
  txt "Usage: " ++ argv0 ++ txt " [options] <host> <port>" ++ nl ++
  nl ++
  txt "   Option                                                          Default" ++ nl ++
  txt "   --                                                              --" ++ nl ++
  nl ++
  txt "   -l              Server (listen) mode.                           (client mode)" ++ nl ++
  txt "                   In server mode, <host>:<port> is the address to bind." ++ nl ++
  nl ++
  txt "   -a <addr>       Set source address (client mode only)           " ++ txt "169.254.144.9" ++ nl ++
  txt "   -s <port>       Set source port (client mode only)              (random)" ++ nl ++
  nl ++
  txt "   -w <winsz>      Use a window of <winsz> bytes                   " ++ to_string MAX_PAYLOAD_SIZE ++ nl ++
  nl ++
  txt "   -t <tmout>      Set rt_timeout to tmout                         " ++ to_string TIMEOUT_DFLT ++ nl ++
  nl ++
  txt "   -d <tundev>     Connect to tun <tundev>                         " ++ txt "tun144" ++ nl ++
  nl ++
  txt "   -Lu <loss>      Set uplink loss to <rate> (float in 0..1)       (no loss)" ++ nl ++
  txt "   -Ld <loss>      Set downlink loss to <rate> (float in 0..1)     (no loss)" ++ nl ++
  nl ++
  txt "   -h              Show this message." ++ nl ++
  nl ++
  default [] msg ++ nl.

Definition udp_show_usage (argv0 : bytes) (msg : option bytes) : bytes :=
  txt "Usage: " ++ argv0 ++ txt " [options] <host> <port>" ++ nl ++
  nl ++
  txt "   Option                                                          Default" ++ nl ++
  txt "   --                                                              --" ++ nl ++
  nl ++
  txt "   -l              Server (listen) mode.                           (client mode)" ++ nl ++
  txt "                   In server mode, <host>:<port> is the address to bind." ++ nl ++
  nl ++
  txt "   -w <winsz>      Use a window of <winsz> bytes                   " ++ to_string MAX_PAYLOAD_SIZE ++ nl ++
  nl ++
  txt "   -t <tmout>      Set rt_timeout to tmout                         " ++ to_string TIMEOUT_DFLT ++ nl ++
  nl ++
  txt "   -Lu <loss>      Set uplink loss to <rate> (float in 0..1)       (no loss)" ++ nl ++
  txt "   -Ld <loss>      Set downlink loss to <rate> (float in 0..1)     (no loss)" ++ nl ++
  nl ++
  txt "   -h              Show this message and quit." ++ nl ++
  nl ++
  default [] msg ++ nl.

Definition ethernet_show_usage (argv0 : bytes) (msg : option bytes) : bytes :=
  txt "Usage: " ++ argv0 ++ txt " [options] <host> <port>" ++ nl ++
  nl ++
  txt "   Option                                                          Default" ++ nl ++
  txt "   --                                                              --" ++ nl ++
  nl ++
  txt "   -a <addr>       Set IP source address (client mode only)        " ++ txt "169.254.10.9" ++ nl ++
  txt "   -s <port>       Set TCP source port (client mode only)          (random)" ++ nl ++
  nl ++
  txt "   -n <addr>       Set IP next-hop address                         " ++ txt "169.254.10.1" ++ nl ++
  txt "   -w <winsz>      Use a window of <winsz> bytes                   " ++ to_string MAX_PAYLOAD_SIZE ++ nl ++
  nl ++
  txt "   -t <tmout>      Set rt_timeout to tmout                         " ++ to_string TIMEOUT_DFLT ++ nl ++
  nl ++
  txt "   -d <tapdev>     Connect to tap <tapdev>                         " ++ txt "tap10" ++ nl ++
  nl ++
  txt "   -h              Show this message." ++ nl ++
  nl ++
  default [] msg ++ nl.

Section Programs.

Context (getaddrinfo : bytes -> bytes -> addrinfo -> Z * option (bytes * Z)).
Context (getnameinfo : bytes -> Z -> Z -> Z * bytes * bytes).

(** [static_cast<uint16_t>(static_cast<float>(65535) * strtof(arg, nullptr))] *)
Context (loss_of : bytes -> Z).

Definition set_listen (st : Settings) : Settings := st <| listening := true |>.
Definition set_source_address (v : bytes) (st : Settings) : Settings := st <| source_host := v |>.
Definition set_source_port (v : bytes) (st : Settings) : Settings := st <| source_port := v |>.
Definition set_next_hop (v : bytes) (st : Settings) : Settings := st <| next_hop_address := v |>.
Definition set_window (v : bytes) (st : Settings) : Settings :=
  st <| c_fsm := c_fsm st <| recv_capacity := u64 (strtol 0 v).1 |> |>.
Definition set_timeout (v : bytes) (st : Settings) : Settings :=
  st <| c_fsm := c_fsm st <| rt_timeout := u16 (strtol 0 v).1 |> |>.
Definition set_dev (v : bytes) (st : Settings) : Settings := st <| dev := Some v |>.
Definition set_loss_up (v : bytes) (st : Settings) : Settings := st <| loss_rate_up := loss_of v |>.
Definition set_loss_dn (v : bytes) (st : Settings) : Settings := st <| loss_rate_dn := loss_of v |>.

(** [FdAdapterConfig] with its addresses as they are *)
Record FilterConfig := mkFilterConfig {
  source : Address;
  destination : Address;
  rate_dn : Z;
  rate_up : Z;
}.
#[global] Instance FilterConfig_eta : RecordEta FilterConfig := fun c =>
  mkFilterConfig (source c) (destination c) (rate_dn c) (rate_up c).

(** [FdAdapterConfig c_filt{}]: both addresses are [{"0", 0}]. *)
Definition default_filter : res FilterConfig :=
  let* a := of_ip getaddrinfo (txt "0") 0 in
  let* b := of_ip getaddrinfo (txt "0") 0 in
  Ok (mkFilterConfig a b 0 0).

Definition with_losses (c : FilterConfig) (st : Settings) : FilterConfig :=
  c <| rate_dn := loss_rate_dn st |> <| rate_up := loss_rate_up st |>.

Definition default_settings (host port hop : bytes) : Settings :=
  mkSettings TCPConfig.default_config 0 0 false host port hop None.

(** ** tcp_ipv4 *)

Definition ipv4_table : list test :=
  [(txt "-l", 3%nat, Flag set_listen);
   (txt "-a", 3%nat, Value (txt "ERROR: -a requires one argument.") set_source_address);
   (txt "-s", 3%nat, Value (txt "ERROR: -s requires one argument.") set_source_port);
   (txt "-w", 3%nat, Value (txt "ERROR: -w requires one argument.") set_window);
   (txt "-t", 3%nat, Value (txt "ERROR: -t requires one argument.") set_timeout);
   (txt "-d", 3%nat, Value (txt "ERROR: -t requires one argument.") set_dev);
   (txt "-Lu", 3%nat, Value (txt "ERROR: -Lu requires one argument.") set_loss_up);
   (txt "-Ld", 3%nat, Value (txt "ERROR: -Lu requires one argument.") set_loss_dn);
   (txt "-h", 3%nat, Help)].

(** [draw] is the value of [random_device()()]. *)
Definition ipv4_get_config (draw : Z) (argv : list bytes) : res (outcome (TCPConfig * FilterConfig * bool * option bytes)) :=
  let* c_filt := default_filter in
  let st := default_settings (txt "169.254.144.9") (to_string (u16 draw)) [] in
  let* r := option_loop ipv4_table argv (length argv) 1 st in
  match r with
  | Exits code msg => Ok (Exits code msg)
  | Done (curr, st) =>
      let c_filt := with_losses c_filt st in
      if listening st then
        let* p := arg argv (curr + 1) in
        let* s := of_host getaddrinfo (txt "0") p in
        let* n := Address.port getnameinfo s in
        if n =? 0 then Ok (Exits 1 (Some (txt "ERROR: listen port cannot be zero in server mode.")))
        else Ok (Done (c_fsm st, c_filt <| source := s |>, listening st, dev st))
      else
        let* h := arg argv curr in
        let* p := arg argv (curr + 1) in
        let* d := of_host getaddrinfo h p in
        let* s := of_host getaddrinfo (source_host st) (source_port st) in
        Ok (Done (c_fsm st, c_filt <| destination := d |> <| source := s |>, listening st, dev st))
  end.

(** ** tcp_udp *)

Definition udp_table : list test :=
  [(txt "-l", 3%nat, Flag set_listen);
   (txt "-w", 3%nat, Value (txt "ERROR: -w requires one argument.") set_window);
   (txt "-t", 3%nat, Value (txt "ERROR: -t requires one argument.") set_timeout);
   (txt "-Lu", 3%nat, Value (txt "ERROR: -Lu requires one argument.") set_loss_up);
   (txt "-Ld", 3%nat, Value (txt "ERROR: -Lu requires one argument.") set_loss_dn);
   (txt "-h", 3%nat, Help)].

Definition udp_get_config (argv : list bytes) : res (outcome (TCPConfig * FilterConfig * bool)) :=
  let* c_filt := default_filter in
  let* r := option_loop udp_table argv (length argv) 1 (default_settings [] [] []) in
  match r with
  | Exits code msg => Ok (Exits code msg)
  | Done (curr, st) =>
      let c_filt := with_losses c_filt st in
      let argc := length argv in
      if listening st then
        let* p := arg argv (argc - 1) in
        let* s := of_host getaddrinfo (txt "0") p in
        Ok (Done (c_fsm st, c_filt <| source := s |>, listening st))
      else
        let* h := arg argv (argc - 2) in
        let* p := arg argv (argc - 1) in
        let* d := of_host getaddrinfo h p in
        Ok (Done (c_fsm st, c_filt <| destination := d |>, listening st))
  end.

(** ** tcp_ip_ethernet *)

Definition ethernet_table : list test :=
  [(txt "-a", 3%nat, Value (txt "ERROR: -a requires one argument.") set_source_address);
   (txt "-s", 3%nat, Value (txt "ERROR: -s requires one argument.") set_source_port);
   (txt "-n", 3%nat, Value (txt "ERROR: -n requires one argument.") set_next_hop);
   (txt "-w", 3%nat, Value (txt "ERROR: -w requires one argument.") set_window);
   (txt "-t", 3%nat, Value (txt "ERROR: -t requires one argument.") set_timeout);
   (txt "-d", 3%nat, Value (txt "ERROR: -t requires one argument.") set_dev);
   (txt "-h", 3%nat, Help)].

Definition ethernet_get_config (draw : Z) (argv : list bytes) : res (outcome (TCPConfig * FilterConfig * Address * bytes)) :=
  let* c_filt := default_filter in
  let st := default_settings (txt "169.254.10.9") (to_string (u16 draw)) (txt "169.254.10.1") in
  let* r := option_loop ethernet_table argv (length argv) 1 st in
  match r with
  | Exits code msg => Ok (Exits code msg)
  | Done (curr, st) =>
      let* h := arg argv curr in
      let* p := arg argv (curr + 1) in
      let* d := of_host getaddrinfo h p in
      let* s := of_host getaddrinfo (source_host st) (source_port st) in
      let* next_hop := of_host getaddrinfo (next_hop_address st) (txt "0") in
      Ok (Done (c_fsm st, c_filt <| destination := d |> <| source := s |>, next_hop, default (txt "tap10") (dev st)))
  end.

End Programs.

(** ** tcp_native and udp_tcpdump *)

(** The test at the start of [main] of tcp_native: [None] shows the usage. *)
Definition native_mode (argv : list bytes) : res (option bool) :=
  if (length argv <? 3)%nat then Ok None
  else
    let* a := arg argv 1 in
    let server_mode := strncmp_eq (txt "-l") a 3 in
    if server_mode && (length argv <? 4)%nat then Ok None else Ok (Some server_mode).

(** Host and service that tcp_native binds or connects to *)
Definition native_address (argv : list bytes) (server_mode : bool) : res (bytes * bytes) :=
  let i := if server_mode then 2%nat else 1%nat in
  let* h := arg argv i in
  let* p := arg argv (i + 1) in
  Ok (h, p).

(** [parse_arguments] of udp_tcpdump: the device and the start of the expression *)
Fixpoint parse_arguments (fuel : nat) (argv : list bytes) (curr : nat) (dev_ptr : option bytes) : res (outcome (nat * option bytes)) :=
  if (curr <? length argv)%nat then
    match fuel with
    | O => Throw NoFuel
    | S fuel' =>
        let* a := arg argv curr in
        if strncmp_eq (txt "-i") a 3 then
          if (length argv <=? curr + 1)%nat then Ok (Exits 1 (Some (txt "ERROR: -i requires an argument")))
          else
            let* v := arg argv (curr + 1) in
            parse_arguments fuel' argv (curr + 2) (Some v)
        else if strncmp_eq (txt "-h") a 3 || strncmp_eq (txt "--help") a 7 then Ok (Exits 0 None)
        else Ok (Done (curr, dev_ptr))
    end
  else Ok (Done (curr, dev_ptr)).

(** The filter expression of udp_tcpdump: the remaining arguments, each with a blank *)
Definition filter_expression (argv : list bytes) (exp_start : nat) : bytes :=
  concat (map (fun a => a ++ txt " ") (drop exp_start argv)).

(** ** Lemmas *)

Lemma arg_lookup argv i : (i < length argv)%nat -> exists a, argv !! i = Some a /\ arg argv i = Ok a.
Proof. intros H. destruct (lookup_lt_is_Some_2 argv i H) as [a E]. exists a. unfold arg. by rewrite E. Qed.

(** The loop ends, before the two positional arguments, without reading beyond the
    arguments. *)
Lemma option_loop_total table argv fuel curr st :
  (curr + 2 <= length argv)%nat -> (length argv - curr <= fuel + 2)%nat ->
  exists r, option_loop table argv fuel curr st = Ok r /\
    match r with Done (c, _) => c = (length argv - 2)%nat | Exits code _ => code = 0 \/ code = 1 end.
Proof.
  revert curr st. induction fuel as [|fuel IH]; intros curr st Hc Hf; cbn [option_loop].
  - destruct (Nat.ltb_spec 2 (length argv - curr)); [lia|]. eexists. split; [done|]. cbn. lia.
  - destruct (Nat.ltb_spec 2 (length argv - curr)); [|eexists; split; [done|]; cbn; lia].
    destruct (arg_lookup argv curr) as (a & _ & ->); [lia|]. cbn [res_bind].
    destruct (select table a) as [[f|err f|]|].
    + apply IH; lia.
    + destruct (Nat.leb_spec (length argv) (curr + 3)); [eexists; split; [done|by right]|].
      destruct (arg_lookup argv (curr + 1)) as (v & _ & ->); [lia|]. cbn [res_bind]. apply IH; lia.
    + eexists. split; [done|by left].
    + eexists. split; [done|by right].
Qed.

(** What a sequence of options means, each a text with its argument if it takes one. *)
Definition option_words (o : bytes * option bytes) : list bytes := o.1 :: from_option (fun v => [v]) [] o.2.

Definition apply_option (table : list test) (o : bytes * option bytes) (st : Settings) : option Settings :=
  match select table o.1, o.2 with
  | Some (Flag f), None => Some (f st)
  | Some (Value _ f), Some v => Some (f v st)
  | _, _ => None
  end.

Fixpoint apply_options (table : list test) (os : list (bytes * option bytes)) (st : Settings) : option Settings :=
  match os with
  | [] => Some st
  | o :: os' => match apply_option table o st with Some st' => apply_options table os' st' | None => None end
  end.

Lemma option_loop_reads table pre os h p fuel st st' :
  apply_options table os st = Some st' ->
  let argv := pre ++ concat (map option_words os) ++ [h; p] in
  (length argv - length pre <= fuel + 2)%nat ->
  option_loop table argv fuel (length pre) st = Ok (Done (length argv - 2, st')%nat).
Proof.
  revert pre fuel st. induction os as [|[t v] os IH]; intros pre fuel st Ha argv Hf.
  - injection Ha as <-. subst argv. cbn [map concat app] in *. rewrite length_app. cbn [length].
    destruct fuel; cbn [option_loop]; rewrite length_app; cbn [length];
      (replace (2 <? length pre + 2 - length pre)%nat with false by (symmetry; apply Nat.ltb_ge; lia));
      by replace (length pre + 2 - 2)%nat with (length pre) by lia.
  - cbn [apply_options] in Ha. destruct (apply_option table (t, v) st) as [st1|] eqn:Eo; [|done].
    assert (Hl : length argv = (length pre + length (option_words (t, v)) + length (concat (map option_words os)) + 2)%nat).
    { subst argv. cbn [map concat]. rewrite !length_app. cbn [length]. lia. }
    assert (Hw : (1 <= length (option_words (t, v)))%nat) by (cbn; lia).
    assert (Hi : argv = (pre ++ option_words (t, v)) ++ concat (map option_words os) ++ [h; p]).
    { subst argv. cbn [map concat]. by rewrite <- !app_assoc. }
    assert (Hk : (length argv - (length pre + length (option_words (t, v))) <= (fuel - 1) + 2)%nat) by lia.
    specialize (IH (pre ++ option_words (t, v)) (fuel - 1)%nat st1 Ha). rewrite <- Hi, length_app in IH. specialize (IH Hk).
    destruct fuel as [|fuel]; [lia|]. cbn [option_loop]. rewrite (proj2 (Nat.ltb_lt _ _)) by lia.
    assert (H0 : arg argv (length pre) = Ok t).
    { unfold arg. subst argv. cbn [map concat]. by rewrite <- app_assoc, lookup_app_r, Nat.sub_diag by lia. }
    rewrite H0. cbn [res_bind]. replace (S fuel - 1)%nat with fuel in IH by lia.
    unfold apply_option in Eo. cbn [fst snd] in Eo. destruct (select table t) as [[f|err f|]|]; [| |done|done].
    + destruct v as [v|]; [done|]. injection Eo as <-. exact IH.
    + destruct v as [v|]; [|done]. injection Eo as <-. change (length (option_words (t, Some v))) with 2%nat in *. rewrite (proj2 (Nat.leb_gt _ _)) by lia.
      assert (H1 : arg argv (length pre + 1) = Ok v).
      { unfold arg. subst argv. cbn [map concat]. rewrite <- app_assoc, lookup_app_r by lia.
        by replace (length pre + 1 - length pre)%nat with 1%nat by lia. }
      rewrite H1. exact IH.
Qed.

(** ** The options of tcp_ipv4 *)

Inductive Opt :=
| OListen
| OAddress (a : bytes)
| OPort (p : bytes)
| OWindow (n : Z)
| OTimeout (t : Z)
| ODevice (d : bytes)
| OLossUp (r : bytes)
| OLossDown (r : bytes).

(** How an option is written *)
Definition spell (o : Opt) : bytes * option bytes :=
  match o with
  | OListen => (txt "-l", None)
  | OAddress a => (txt "-a", Some a)
  | OPort p => (txt "-s", Some p)
  | OWindow n => (txt "-w", Some (to_string n))
  | OTimeout t => (txt "-t", Some (to_string t))
  | ODevice d => (txt "-d", Some d)
  | OLossUp r => (txt "-Lu", Some r)
  | OLossDown r => (txt "-Ld", Some r)
  end.

(** What it means *)
Definition meaning (loss_of : bytes -> Z) (st : Settings) (o : Opt) : Settings :=
  match o with
  | OListen => st <| listening := true |>
  | OAddress a => st <| source_host := a |>
  | OPort p => st <| source_port := p |>
  | OWindow n => st <| c_fsm := c_fsm st <| recv_capacity := n |> |>
  | OTimeout t => st <| c_fsm := c_fsm st <| rt_timeout := t |> |>
  | ODevice d => st <| dev := Some d |>
  | OLossUp r => st <| loss_rate_up := loss_of r |>
  | OLossDown r => st <| loss_rate_dn := loss_of r |>
  end.

Definition in_range (o : Opt) : Prop :=
  match o with
  | OWindow n => 0 <= n < LONG_MAX
  | OTimeout t => 0 <= t < 65536
  | _ => True
  end.

Lemma spelled_option loss_of o st :
  in_range o -> apply_option (ipv4_table loss_of) (spell o) st = Some (meaning loss_of st o).
Proof.
  destruct o as [|a|p|n|t|d|r|r]; intros H; try reflexivity.
  - change (Some (set_window (to_string n) st) = Some (meaning loss_of st (OWindow n))). unfold set_window, meaning.
    cbn [in_range] in H. rewrite strtol_auto by done. cbn [fst]. unfold LONG_MAX in H. by rewrite u64_small by lia.
  - change (Some (set_timeout (to_string t) st) = Some (meaning loss_of st (OTimeout t))). unfold set_timeout, meaning.
    cbn [in_range] in H. rewrite strtol_auto by (unfold LONG_MAX; lia). cbn [fst]. unfold u16. by rewrite Z.mod_small by lia.
Qed.

Lemma spelled_options loss_of os st :
  Forall in_range os -> apply_options (ipv4_table loss_of) (map spell os) st = Some (foldl (meaning loss_of) st os).
Proof.
  intros H. revert st. induction H as [|o os Ho _ IH]; intros st; [done|]. cbn [map apply_options foldl].
  by rewrite spelled_option.
Qed.

Lemma arg_last (pre : list bytes) h p :
  arg (pre ++ [h; p]) (length (pre ++ [h; p]) - 2) = Ok h /\ arg (pre ++ [h; p]) (length (pre ++ [h; p]) - 2 + 1) = Ok p.
Proof.
  rewrite length_app. cbn [length]. replace (length pre + 2 - 2)%nat with (length pre) by lia. unfold arg.
  rewrite !lookup_app_r, Nat.sub_diag by lia. by replace (length pre + 1 - length pre)%nat with 1%nat by lia.
Qed.

(** ** Properties *)

(** Tcp_ipv4 reads the options it is given: whatever options are written before
    host and port, in any order and with later ones overriding earlier ones, the
    configuration is what they mean, decimal windows and timeouts included; a client
    is directed at host and port from its source address, and a server is bound to
    the port. *)
Theorem ipv4_options_read getaddrinfo getnameinfo loss_of draw argv0 os h p c d s n :
  let argv := argv0 :: concat (map option_words (map spell os)) ++ [h; p] in
  let st := foldl (meaning loss_of) (default_settings (txt "169.254.144.9") (to_string (u16 draw)) []) os in
  Forall in_range os -> default_filter getaddrinfo = Ok c ->
  (listening st = false -> of_host getaddrinfo h p = Ok d -> of_host getaddrinfo (source_host st) (source_port st) = Ok s ->
   ipv4_get_config getaddrinfo getnameinfo loss_of draw argv =
     Ok (Done (c_fsm st, with_losses c st <| destination := d |> <| source := s |>, false, dev st))) /\
  (listening st = true -> of_host getaddrinfo (txt "0") p = Ok s -> Address.port getnameinfo s = Ok n ->
   ipv4_get_config getaddrinfo getnameinfo loss_of draw argv =
     if n =? 0 then Ok (Exits 1 (Some (txt "ERROR: listen port cannot be zero in server mode.")))
     else Ok (Done (c_fsm st, with_losses c st <| source := s |>, true, dev st))).
Proof.
  intros argv st Hr Hc.
  pose proof (option_loop_reads (ipv4_table loss_of) [argv0] (map spell os) h p (length argv)
    _ st (spelled_options loss_of os _ Hr) ltac:(subst argv; cbn [app length]; lia)) as Hl.
  change ([argv0] ++ _) with argv in Hl. change (length [argv0]) with 1%nat in Hl.
  destruct (arg_last (argv0 :: concat (map option_words (map spell os))) h p) as [A1 A2].
  change ((argv0 :: concat _) ++ [h; p]) with argv in A1, A2.
  unfold ipv4_get_config. rewrite Hc. cbn [res_bind]. rewrite Hl. cbn [res_bind]. split.
  - intros El Hd Hs. rewrite El. rewrite A1. cbn [res_bind]. rewrite A2. cbn [res_bind]. rewrite Hd. cbn [res_bind].
    by rewrite Hs.
  - intros El Hs Hn. rewrite El. rewrite A2. cbn [res_bind]. rewrite Hs. cbn [res_bind]. by rewrite Hn.
Qed.

(** An option is recognised by its first three characters, so that one that only
    begins with [-Lu] sets the loss rate too, while [-windows] is not taken for
    [-w]. *)
Example loss_option_prefix loss_of :
  select (ipv4_table loss_of) (txt "-Lunatic") = Some (Value (txt "ERROR: -Lu requires one argument.") (set_loss_up loss_of)) /\
  select (ipv4_table loss_of) (txt "-windows") = None.
Proof. split; reflexivity. Qed.

(** ** Witnesses *)

(** The resolver also takes [0] for the wildcard address. *)
Definition demo_getaddrinfo (node service : bytes) (hints : addrinfo) : Z * option (bytes * Z) :=
  if bool_decide (node = txt "0") then numeric_getaddrinfo (txt "0.0.0.0") service hints
  else numeric_getaddrinfo node service hints.

Definition demo_options : list Opt := [OWindow 5000; ODevice (txt "tun7"); OTimeout 200; OWindow 4000].

Lemma ipv4_options_read_witness :
  exists c, ipv4_get_config demo_getaddrinfo numeric_getnameinfo (fun _ => 0) 74626
      (txt "tcp_ipv4" :: concat (map option_words (map spell demo_options)) ++ [txt "10.0.0.1"; txt "80"]) =
    Ok (Done (mkTCPConfig 200 4000 64000 None, c, false, Some (txt "tun7"))) /\
    destination c = inet_address 80 167772161 /\ source c = inet_address 9090 2852032521.
Proof.
  destruct (ipv4_options_read demo_getaddrinfo numeric_getnameinfo (fun _ => 0) 74626 (txt "tcp_ipv4") demo_options
    (txt "10.0.0.1") (txt "80") (mkFilterConfig (inet_address 0 0) (inet_address 0 0) 0 0)
    (inet_address 80 167772161) (inet_address 9090 2852032521) 0) as [H _].
  - unfold demo_options. repeat constructor; unfold LONG_MAX; lia.
  - vm_compute. reflexivity.
  - eexists. split; [apply H; vm_compute; reflexivity|]. split; reflexivity.
Defined.
