(* ===== verification/Tcpdump.v ===== *)
(** * Showing captured packets

    apps/udp_tcpdump.cc: finding the UDP payload of a captured packet and printing it
    as a TCP segment; and apps/tun.cc: printing what comes from a TUN device.

    A captured packet is the list of its [caplen] bytes; reading beyond them is
    undefined behaviour.  [inet_ntop] for IPv6 and libpcap are outside: the text of an
    IPv6 address is a parameter, and what the capture delivers is an argument. *)

From Stdlib Require Import Strings.String.
From stdpp Require Import base numbers option list.
From Stdlib Require Import ZArith Lia Strings.Byte.
From S2P Require Import Prelude.
From S2P Require Import Text.
From S2P Require Import WrappingIntegers.
From S2P Require Import Buffer.
From S2P Require Import Parser.
From S2P Require Import InternetChecksum.
From S2P Require Import TCPHeader.
From S2P Require Import TCPSegment.
From S2P Require Import IPv4Header.
From S2P Require Import IPv4Datagram.
From S2P Require Import PacketText.
From S2P Require Import CommandLine.
#[local] Open Scope Z_scope.

(** [data[i]] *)
Definition byte_at (data : bytes) (i : Z) : res Z :=
  if (i <? 0) || (len data <=? i) then Throw UndefinedBehaviour
  else match data !! Z.to_nat i with Some b => Ok (byte_val b) | None => Throw UndefinedBehaviour end.

(** The [n] bytes from [data + i] *)
Definition bytes_at (data : bytes) (i n : Z) : res bytes :=
  if len data <? i + n then Throw UndefinedBehaviour else Ok (slice data i n).

(** [inet_ntop] of four bytes *)
Definition inet4_addr (addr : bytes) : bytes := dotted (be_val addr).

Section Dump.

Context (inet6_addr : bytes -> bytes).

(** The chain of extension headers; each is at least 8 bytes long. *)
Fixpoint skip_extensions (fuel : nat) (data : bytes) (nxt data_offset : Z) : res (option Z) :=
  if nxt =? 17 then Ok (Some data_offset)
  else if negb (nxt =? 0) && negb (nxt =? 43) && negb (nxt =? 60) then Ok None
  else
    match fuel with
    | O => Throw NoFuel
    | S fuel' =>
        let* nxt := byte_at data data_offset in
        let* l := byte_at data (data_offset + 1) in
        let data_offset := data_offset + 8 * (1 + l) in
        if len data <? data_offset + 2 then Ok None else skip_extensions fuel' data nxt data_offset
    end.

(** The offset of the UDP payload with both addresses; [None] is [-1]. *)
Definition process_ipv4_ipv6 (data : bytes) : res (option (Z * bytes * bytes)) :=
  if len data <? 1 then Ok None
  else
    let* b0 := byte_at data 0 in
    let pt := Z.land b0 240 in
    if pt =? 64 then
      let data_offset := Z.land b0 15 * 4 in
      if len data <? data_offset then Ok None
      else
        let* proto := byte_at data 9 in
        if negb (proto =? 17) then Ok None
        else
          let* s := bytes_at data 12 4 in
          let* d := bytes_at data 16 4 in
          Ok (Some (data_offset + 8, inet4_addr s, inet4_addr d))
    else if pt =? 96 then
      if len data <? 42 then Ok None
      else
        let* nxt := byte_at data 6 in
        let* off := skip_extensions (length data) data nxt 40 in
        match off with
        | None => Ok None
        | Some data_offset =>
            let* s := bytes_at data 8 16 in
            let* d := bytes_at data 24 16 in
            Ok (Some (data_offset + 8, inet6_addr s, inet6_addr d))
        end
    else Ok None.

(** ** The link layer *)

Definition DLT_NULL : Z := 0.
Definition DLT_EN10MB : Z := 1.
Definition DLT_RAW : Z := 12.
Definition DLT_LINUX_SLL : Z := 113.
Definition DLT_LINUX_SLL2 : Z := 276.

Inductive link := Skip | GiveUp | Offset (hdr_off : Z).

(** The 16-bit number at [i] says IPv4 or IPv6. *)
Definition ip_type_at (pkt : bytes) (i hdr_off : Z) : res link :=
  let* h := byte_at pkt i in
  let* l := byte_at pkt (i + 1) in
  let pt := Z.lor (Z.shiftl h 8) l in
  Ok (if negb (pt =? 2048) && negb (pt =? 34525) then Skip else Offset hdr_off).

Definition link_header (dl_type : Z) (pkt : bytes) : res link :=
  if dl_type =? DLT_NULL then
    if len pkt <? 4 then Ok Skip
    else
      let* pt := byte_at pkt 3 in
      Ok (if negb (pt =? 2) && negb (pt =? 24) && negb (pt =? 28) && negb (pt =? 30) then Skip else Offset 4)
  else if dl_type =? DLT_EN10MB then
    if len pkt <? 14 then Ok Skip else ip_type_at pkt 12 14
  else if dl_type =? DLT_LINUX_SLL then
    if len pkt <? 16 then Ok Skip else ip_type_at pkt 14 16
  else if dl_type =? DLT_LINUX_SLL2 then
    if len pkt <? 20 then Ok Skip else ip_type_at pkt 0 20
  else if dl_type =? DLT_RAW then Ok (Offset 0)
  else Ok GiveUp.

(** ** Printing *)

Definition letter (b : bool) (c : String.string) : bytes := if b then txt c else [].
Arguments letter b c%_string.

Definition segment_line (src dst : bytes) (r : ParseResult) (seg : TCPSegment) (payload_len : Z) : bytes :=
  let h := TCPSegment.header seg in
  let seqlen := u32 (length_in_sequence_space seg) in
  src ++ txt ":" ++ to_string (sport h) ++ txt " > " ++ dst ++ txt ":" ++ to_string (dport h) ++ [x0a] ++ txt "    Flags [" ++
  letter (urg h) "U" ++ letter (psh h) "P" ++ letter (rst h) "R" ++ letter (syn h) "S" ++ letter (fin h) "F" ++ letter (ack h) "." ++
  txt "] cksum 0x" ++ pad x30 4 (hex (TCPHeader.cksum h)) ++
  (if bool_decide (r = NoError) then txt " (correct)" else txt " (incorrect!)") ++
  txt " seq " ++ to_string (raw_value (seqno h)) ++
  (if 0 <? seqlen then txt ":" ++ to_string (u32 (raw_value (seqno h) + seqlen)) else []) ++
  txt " ack " ++ to_string (raw_value (ackno h)) ++ txt " win " ++ to_string (win h) ++
  txt " length " ++ to_string payload_len ++ [x0a].

(** [res > ParseResult::BadChecksum] *)
Definition unrecognised (r : ParseResult) : bool :=
  match r with NoError | BadChecksum => false | _ => true end.

Definition payload_text (src dst payload : bytes) : res bytes :=
  let* (r, seg) := TCPSegment.parse default_segment (of_string payload) 0 in
  let shown :=
    if unrecognised r then txt "(did not recognize TCP header) src: " ++ src ++ txt " dst: " ++ dst ++ [x0a]
    else segment_line src dst r seg (len payload) in
  Ok (shown ++ hexdump payload 8).

Inductive shown := Skipped | GaveUp | Text (t : bytes).

(** One pass of the loop.  A payload that would begin behind the captured bytes has a
    length close to 2^64, for which [string] throws. *)
Definition dump_packet (dl_type : Z) (pkt : bytes) : res shown :=
  let* l := link_header dl_type pkt in
  match l with
  | Skip => Ok Skipped
  | GiveUp => Ok GaveUp
  | Offset hdr_off =>
      let* p := process_ipv4_ipv6 (drop (Z.to_nat hdr_off) pkt) in
      match p with
      | None => Ok Skipped
      | Some (start_off, src, dst) =>
          let payload_off := hdr_off + start_off in
          let payload_len := u64 (len pkt - payload_off) in
          if LONG_MAX <? payload_len then Throw length_error
          else
            let* t := payload_text src dst (drop (Z.to_nat payload_off) pkt) in
            Ok (Text t)
      end
  end.

(** The loop over what [pcap_next_ex] delivers; [None] is a timeout.  The text, and
    whether the loop gave up *)
Fixpoint dump_all (dl_type : Z) (pkts : list (option bytes)) : res (bytes * bool) :=
  match pkts with
  | [] => Ok ([], false)
  | None :: rest => dump_all dl_type rest
  | Some pkt :: rest =>
      let* s := dump_packet dl_type pkt in
      match s with
      | Skipped => dump_all dl_type rest
      | GaveUp => Ok ([], true)
      | Text t => let* (ts, gave_up) := dump_all dl_type rest in Ok (t ++ ts, gave_up)
      end
  end.

(** ** main of udp_tcpdump *)

(** libpcap: [open_live] and the other calls give the text of an error or none;
    [pcap_next_ex] delivers [packets] and then answers [last_ret], which is negative. *)
Record capture := mkCapture {
  open_live : option bytes -> option bytes;
  datalink : Z;
  description : bytes;
  compile : bytes -> option bytes;
  setfilter : option bytes;
  packets : list (option bytes);
  last_ret : Z;
}.

Definition show_usage (arg0 : bytes) (errmsg : option bytes) : bytes :=
  txt "Usage: " ++ arg0 ++ txt " [-i <intf>] [-F <file>] [-h|--help] <expression>" ++ [x0a; x0a] ++
  txt "  -i <intf>    only capture packets from <intf> (default: all)" ++ [x0a; x0a] ++
  txt "  -F <file>    reads in a filter expression from <file>" ++ [x0a] ++
  txt "               <expression> is ignored if -F is supplied." ++ [x0a; x0a] ++
  txt "  -h, --help   show this message" ++ [x0a; x0a] ++
  txt "  <expression> a filter expression in pcap-filter(7) syntax" ++ [x0a] ++
  from_option (fun m => [x0a] ++ m) [] errmsg ++ [x0a].

Definition supported (dlt : Z) : bool :=
  (dlt =? DLT_RAW) || (dlt =? DLT_NULL) || (dlt =? DLT_EN10MB) || (dlt =? DLT_LINUX_SLL) || (dlt =? DLT_LINUX_SLL2).

(** The loop, and what follows it: [pcap_geterr] reads the handle that [pcap_close] has
    freed. *)
Definition capture_loop (k : capture) : res (Z * bytes) :=
  let* (t, gave_up) := dump_all (datalink k) (packets k) in
  if gave_up then Ok (1, t)
  else if last_ret k =? -1 then Throw UndefinedBehaviour
  else Ok (0, t).

(** The exit status and the standard output *)
Definition tcpdump_main (k : capture) (argv : list bytes) : res (Z * bytes) :=
  let* o := parse_arguments (length argv) argv 1 None in
  match o with
  | Exits code msg =>
      let* arg0 := arg argv 0 in Ok (code, show_usage arg0 msg)
  | Done (exp_start, dev) =>
      let out := match dev with
                 | Some d => txt "Capturing on interface " ++ d
                 | None => txt "Capturing on all interfaces"
                 end in
      match open_live k dev with
      | Some err => Ok (1, out ++ [x0a] ++ txt "Error initiating capture: " ++ err ++ [x0a])
      | None =>
          if negb (supported (datalink k))
          then Ok (1, out ++ [x0a] ++ txt "Error: unsupported datalink type " ++ description k ++ [x0a])
          else
            let out := out ++ txt " (type: " ++ description k ++ txt ")" ++ [x0a] in
            let expression := filter_expression argv exp_start in
            let out := out ++ txt "Using filter expression: " ++ expression ++ [x0a] in
            match compile k expression with
            | Some err => Ok (1, out ++ txt "Error compiling filter expression: " ++ err ++ [x0a])
            | None =>
                match setfilter k with
                | Some err => Ok (1, out ++ txt "Error configuring packet filter: " ++ err ++ [x0a])
                | None => let* (status, t) := capture_loop k in Ok (status, out ++ t)
                end
            end
      end
  end.

End Dump.

(** ** apps/tun.cc *)

(** One pass of the loop of [main] *)
Definition tun_packet (buffer : bytes) : res bytes :=
  let start := [x0a; x0a] ++ txt "***" ++ [x0a] ++ txt "*** Got packet:" ++ [x0a] ++ txt "***" ++ [x0a] ++ hexdump buffer 0 ++
    txt "attempting to parse as ipv4 datagram... " in
  let* (r, ip_dgram) := IPv4Datagram.parse default_datagram (of_string buffer) in
  if bool_decide (r <> NoError) then Ok (start ++ txt "failed." ++ [x0a])
  else
    let h := IPv4Datagram.header ip_dgram in
    let t := start ++ txt "success! totlen=" ++ to_string (tot_len h) ++ txt ", IPv4 header contents:" ++ [x0a] ++ ipv4_text h in
    if negb (proto h =? PROTO_TCP) then Ok (t ++ [x0a] ++ txt "Not TCP, skipping." ++ [x0a])
    else
      let t := t ++ [x0a] ++ txt "Attempting to parse as a TCP segment... " in
      let* b := to_buffer (IPv4Datagram.payload ip_dgram) in
      let* (r, tcp_seg) := TCPSegment.parse default_segment b (pseudo_cksum h) in
      if bool_decide (r <> NoError) then Ok (t ++ txt "failed." ++ [x0a])
      else
        Ok (t ++ txt "success! payload len=" ++ to_string (Buffer.size (TCPSegment.payload tcp_seg)) ++
            txt ", TCP header contents:" ++ [x0a] ++ tcp_text (TCPSegment.header tcp_seg) ++ [x0a]).

(** ** Lemmas *)

Lemma byte_at_ok data i : 0 <= i < len data -> exists v, byte_at data i = Ok v /\ 0 <= v < 256.
Proof.
  intros Hi. unfold byte_at. rewrite (proj2 (Z.ltb_ge i 0)), (proj2 (Z.leb_gt _ i)) by lia. cbn [orb].
  destruct (lookup_lt_is_Some_2 data (Z.to_nat i)) as [b Hb]; [unfold len in Hi; lia|]. rewrite Hb.
  exists (byte_val b). split; [done|apply byte_val_range].
Qed.

Lemma bytes_at_ok data i n : i + n <= len data -> bytes_at data i n = Ok (slice data i n).
Proof. intros H. unfold bytes_at. by rewrite (proj2 (Z.ltb_ge _ _)). Qed.

(** The extension headers are read within the packet, and there is an end. *)
Lemma skip_extensions_total fuel data nxt off :
  40 <= off -> off + 2 <= len data -> len data - off < 8 * Z.of_nat fuel + 2 ->
  exists r, skip_extensions fuel data nxt off = Ok r /\ match r with Some o => 40 <= o /\ o + 2 <= len data | None => True end.
Proof.
  revert nxt off. induction fuel as [|fuel IH]; intros nxt off H1 H2 H3; cbn [skip_extensions];
    (destruct (nxt =? 17); [eexists; split; [done|done]|]); (destruct (_ && _); [by eexists|]); [lia|].
  destruct (byte_at_ok data off) as (m & -> & Hm); [lia|]. cbn [res_bind].
  destruct (byte_at_ok data (off + 1)) as (l & -> & Hl); [lia|]. cbn [res_bind].
  destruct (Z.ltb_spec (len data) (off + 8 * (1 + l) + 2)); [by eexists|]. apply IH; lia.
Qed.

(** ** Properties *)

(** [process_ipv4_ipv6] ends and never reads beyond the captured bytes, for every
    packet but an IPv4 packet whose header length field is below the 5 words that
    the header has. *)
Theorem capture_read_in_bounds inet6_addr data :
  (forall b, data !! 0%nat = Some b -> Z.land (byte_val b) 240 = 64 -> 5 <= Z.land (byte_val b) 15) ->
  exists r, process_ipv4_ipv6 inet6_addr data = Ok r.
Proof.
  intros Hv. unfold process_ipv4_ipv6. destruct (Z.ltb_spec (len data) 1) as [|Hl]; [by eexists|].
  assert (H0 : exists b, data !! 0%nat = Some b /\ byte_at data 0 = Ok (byte_val b)).
  { destruct data as [|b data]; [by change (len []) with 0 in Hl|]. exists b. split; [done|]. unfold byte_at.
    by rewrite (proj2 (Z.leb_gt _ 0)) by lia. }
  destruct H0 as (b & Hb & ->). cbn [res_bind]. destruct (Z.eqb_spec (Z.land (byte_val b) 240) 64) as [E|].
  - specialize (Hv b Hb E). destruct (Z.ltb_spec (len data) (Z.land (byte_val b) 15 * 4)); [by eexists|].
    destruct (byte_at_ok data 9) as (p & -> & _); [lia|]. cbn [res_bind]. destruct (p =? 17); [|by eexists]. cbn [negb].
    rewrite !bytes_at_ok by lia. by eexists.
  - destruct (Z.land (byte_val b) 240 =? 96); [|by eexists]. destruct (Z.ltb_spec (len data) 42); [by eexists|].
    destruct (byte_at_ok data 6) as (m & -> & _); [lia|]. cbn [res_bind].
    destruct (skip_extensions_total (length data) data m 40) as ([o|] & -> & _); [lia|lia|unfold len in *; lia| |by eexists].
    cbn [res_bind]. rewrite !bytes_at_ok by lia. by eexists.
Qed.

(** One byte is enough to make it read beyond the packet. *)
Theorem short_header_overread inet6_addr : process_ipv4_ipv6 inet6_addr [x40] = Throw UndefinedBehaviour.
Proof. reflexivity. Qed.

(** An Ethernet frame with an IPv4 header, a UDP header and a payload *)
Definition udp_frame (eth : bytes) (b0 : byte) (mid two s d options udp payload : bytes) : bytes :=
  (eth ++ [x08; x00]) ++ (b0 :: mid ++ [x11] ++ two ++ s ++ d ++ options) ++ udp ++ payload.

Lemma byte_at_app l b r : byte_at (l ++ b :: r) (len l) = Ok (byte_val b).
Proof.
  unfold byte_at. rewrite len_app, len_cons. pose proof (len_nonneg l). pose proof (len_nonneg r).
  rewrite (proj2 (Z.ltb_ge _ 0)), (proj2 (Z.leb_gt _ _)) by lia. cbn [orb].
  replace (Z.to_nat (len l)) with (length l) by (unfold len; lia). by rewrite lookup_app_r, Nat.sub_diag.
Qed.

Lemma bytes_at_app l m r : bytes_at (l ++ m ++ r) (len l) (len m) = Ok m.
Proof.
  pose proof (len_nonneg r). rewrite bytes_at_ok by (rewrite !len_app; lia). f_equal. unfold slice.
  replace (Z.to_nat (len l)) with (length l) by (unfold len; lia). rewrite drop_app_length.
  replace (Z.to_nat (len m)) with (length m) by (unfold len; lia). by rewrite take_app_length.
Qed.

(** Two ways to write the same concatenation *)
Ltac same_list := do 3 (cbn [app]; rewrite <- ?app_assoc); reflexivity.

Lemma process_udp inet6_addr b0 mid two s d options rest :
  len mid = 8 -> len two = 2 -> len s = 4 -> len d = 4 ->
  Z.land (byte_val b0) 240 = 64 -> Z.land (byte_val b0) 15 * 4 = 20 + len options ->
  process_ipv4_ipv6 inet6_addr ((b0 :: mid ++ [x11] ++ two ++ s ++ d ++ options) ++ rest) =
    Ok (Some (28 + len options, inet4_addr s, inet4_addr d)).
Proof.
  intros Hm Ht Hs Hd Hv Hi. set (data := _ ++ rest).
  assert (Hl : len data = 20 + len options + len rest).
  { subst data. rewrite len_app, len_cons, !len_app. change (len [x11]) with 1. lia. }
  pose proof (len_nonneg options). pose proof (len_nonneg rest).
  assert (E0 : byte_at data 0 = Ok (byte_val b0)) by (apply (byte_at_app [] b0)).
  assert (E9 : byte_at data 9 = Ok 17).
  { replace data with ((b0 :: mid) ++ x11 :: (two ++ s ++ d ++ options ++ rest)) by (subst data; same_list).
    replace 9 with (len (b0 :: mid)) by (rewrite len_cons; lia). by rewrite byte_at_app. }
  assert (Es : bytes_at data 12 4 = Ok s).
  { replace data with ((b0 :: mid ++ [x11] ++ two) ++ s ++ (d ++ options ++ rest)) by (subst data; same_list).
    replace 12 with (len (b0 :: mid ++ [x11] ++ two)) by (rewrite len_cons, !len_app; change (len [x11]) with 1; lia).
    rewrite <- Hs. apply bytes_at_app. }
  assert (Ed : bytes_at data 16 4 = Ok d).
  { replace data with ((b0 :: mid ++ [x11] ++ two ++ s) ++ d ++ (options ++ rest)) by (subst data; same_list).
    replace 16 with (len (b0 :: mid ++ [x11] ++ two ++ s)) by (rewrite len_cons, !len_app; change (len [x11]) with 1; lia).
    rewrite <- Hd. apply bytes_at_app. }
  unfold process_ipv4_ipv6. rewrite (proj2 (Z.ltb_ge (len data) 1)) by lia. rewrite E0. cbn [res_bind]. rewrite Hv. cbn [Z.eqb Pos.eqb].
  rewrite (proj2 (Z.ltb_ge _ _)) by lia. rewrite E9. cbn [res_bind Z.eqb Pos.eqb negb]. rewrite Es. cbn [res_bind]. rewrite Ed.
  cbn [res_bind]. do 4 f_equal. lia.
Qed.

(** C37: a TCP segment sent in UDP over IPv4 and Ethernet is shown with its addresses,
    its header and a correct checksum, whatever IP options there are. *)
Theorem dump_shows_segment inet6_addr eth b0 mid two s d options udp seg bl :
  len eth = 12 -> len mid = 8 -> len two = 2 -> len s = 4 -> len d = 4 ->
  Z.land (byte_val b0) 240 = 64 -> Z.land (byte_val b0) 15 * 4 = 20 + len options -> len udp = 8 ->
  segment_ok seg -> TCPSegment.serialize seg 0 = Ok bl ->
  exists c out, TCPSegment.header out = TCPSegment.header seg <| TCPHeader.cksum := c |> /\
    str (TCPSegment.payload out) = str (TCPSegment.payload seg) /\
    dump_packet inet6_addr DLT_EN10MB (udp_frame eth b0 mid two s d options udp (concatenate bl)) =
      Ok (Text (segment_line (inet4_addr s) (inet4_addr d) NoError out (len (concatenate bl)) ++ hexdump (concatenate bl) 8)).
Proof.
  intros He Hm Ht Hs Hd Hv Hi Hu Hok Hser.
  destruct (segment_reparsed seg 0 default_segment bl Hok ltac:(lia) Hser) as (Hl & c & out & Hp & Hh & Hpay).
  exists c, out. split; [done|]. split; [done|]. set (payload := concatenate bl) in *.
  pose proof (len_nonneg payload). pose proof (len_nonneg options).
  assert (Hle : len (eth ++ [x08; x00]) = 14) by (rewrite len_app; change (len [x08; x00]) with 2; lia).
  set (ip := b0 :: mid ++ [x11] ++ two ++ s ++ d ++ options).
  assert (Hlip : len ip = 20 + len options) by (subst ip; rewrite len_cons, !len_app; change (len [x11]) with 1; lia).
  set (pkt := udp_frame eth b0 mid two s d options udp payload).
  assert (Hpkt : pkt = (eth ++ [x08; x00]) ++ ip ++ udp ++ payload) by done.
  assert (Hlen : len pkt = 42 + len options + len payload) by (rewrite Hpkt, !len_app in *; lia).
  assert (Hlink : link_header DLT_EN10MB pkt = Ok (Offset 14)).
  { unfold link_header. cbn [DLT_EN10MB DLT_NULL Z.eqb Pos.eqb]. change (DLT_EN10MB =? DLT_NULL) with false. change (DLT_EN10MB =? DLT_EN10MB) with true. cbv iota. rewrite (proj2 (Z.ltb_ge _ _)) by lia. unfold ip_type_at.
    assert (E12 : byte_at pkt 12 = Ok 8).
    { replace pkt with (eth ++ x08 :: x00 :: ip ++ udp ++ payload) by (rewrite Hpkt; same_list).
      rewrite <- He. by rewrite byte_at_app. }
    assert (E13 : byte_at pkt (12 + 1) = Ok 0).
    { replace pkt with ((eth ++ [x08]) ++ x00 :: ip ++ udp ++ payload) by (rewrite Hpkt; same_list).
      replace (12 + 1) with (len (eth ++ [x08])) by (rewrite len_app; change (len [x08]) with 1; lia). by rewrite byte_at_app. }
    rewrite E12. cbn [res_bind]. rewrite E13. done. }
  assert (Hdrop : drop (Z.to_nat 14) pkt = ip ++ udp ++ payload).
  { rewrite Hpkt. apply drop_app_length'. unfold len in Hle. lia. }
  assert (Hrest : drop (Z.to_nat (14 + (28 + len options))) pkt = payload).
  { rewrite Hpkt, !app_assoc. apply drop_app_length'. rewrite <- !app_assoc in *. unfold len in *. rewrite !length_app in *. lia. }
  unfold dump_packet. rewrite Hlink. cbn [res_bind]. rewrite Hdrop. unfold ip. rewrite process_udp by done. cbn [res_bind].
  rewrite u64_small by lia. rewrite (proj2 (Z.ltb_ge LONG_MAX _)) by (unfold LONG_MAX; lia). rewrite Hrest.
  unfold payload_text. rewrite Hp. done.
Qed.

(** A capture that ends before the UDP header does makes the program throw. *)
Theorem truncated_capture_throws inet6_addr :
  dump_packet inet6_addr DLT_RAW ([x45] ++ repeat x00 8 ++ [x11] ++ repeat x00 10) = Throw length_error.
Proof. reflexivity. Qed.

(** When the checksum is wrong, nothing of the header is shown: [TCPSegment::parse] has
    stopped before it, and what is printed is an empty header. *)
Theorem incorrect_checksum_hides_header s d payload :
  value (add (checksum_init 0) payload) <> 0 ->
  payload_text s d payload = Ok (segment_line s d BadChecksum default_segment (len payload) ++ hexdump payload 8).
Proof.
  intros H. unfold payload_text, TCPSegment.parse. rewrite of_string_str, (proj2 (Z.eqb_neq _ _) H). done.
Qed.

(** ** Witnesses *)

Definition no_text (a : bytes) : bytes := [].

Lemma capture_read_in_bounds_witness : exists r, process_ipv4_ipv6 no_text [x45; x00] = Ok r.
Proof.
  apply capture_read_in_bounds. intros b [= <-] _. vm_compute. congruence.
Defined.

Lemma dump_shows_segment_witness :
  exists t bl, TCPSegment.serialize example_segment 0 = Ok bl /\
    dump_packet no_text DLT_EN10MB
      (udp_frame (repeat x00 12) x45 (repeat x00 8) [x00; x00] [xc0; xa8; x01; x01] [x0a; x00; x00; x02] [] (repeat x00 8) (concatenate bl)) =
    Ok (Text t).
Proof.
  destruct (seg_serialize_parts example_segment 0 example_segment_ok) as (_ & Hser & _); [lia|].
  edestruct (dump_shows_segment no_text (repeat x00 12) x45 (repeat x00 8) [x00; x00] [xc0; xa8; x01; x01] [x0a; x00; x00; x02] []
    (repeat x00 8) example_segment _ eq_refl eq_refl eq_refl eq_refl eq_refl eq_refl eq_refl eq_refl example_segment_ok Hser)
    as (c & out & _ & _ & H).
  eexists. eexists. split; [exact Hser|exact H].
Defined.

Lemma incorrect_checksum_hides_header_witness :
  exists t, payload_text [] [] [x01] = Ok t.
Proof.
  eexists. apply (incorrect_checksum_hides_header [] [] [x01]). vm_compute. congruence.
Defined.
