(* ===== verification/Bouncer.v ===== *)
(** * The bouncer and webget

    apps/bouncer.cc relays datagrams between pairs of UDP ports: what comes to one
    port goes to the address last heard from at the other.  apps/webget.cc fetches a
    page.  A pair has the two addresses learned so far; what the sockets receive is
    an argument and what they send a result.  The output to the terminal of the
    bouncer is left out. *)

From Stdlib Require Import Strings.String.
From stdpp Require Import base numbers option list.
From Stdlib Require Import ZArith Lia Strings.Byte.
From S2P Require Import Prelude.
From S2P Require Import Text.
From S2P Require Import Buffer.
From S2P Require Import Address.
From S2P Require Import FileDescriptor.
From S2P Require Import Socket.
#[local] Open Scope Z_scope.

(** ** The bouncer *)

(** The lower ports of the pairs: [for (lower_port = 1024; lower_port <= 64000; lower_port += 2)] *)
Fixpoint lower_ports (fuel : nat) (lower_port : Z) : res (list Z) :=
  if lower_port <=? 64000 then
    match fuel with
    | O => Throw NoFuel
    | S fuel' => let* rest := lower_ports fuel' (u16 (lower_port + 2)) in Ok (lower_port :: rest)
    end
  else Ok [].

(** The ports of the pair with [lower_port] *)
Definition ports (lower_port : Z) : Z * Z := (lower_port, u16 (lower_port + 1)).

Inductive side := X | Y.

Record pair_state := mkPair {
  x_peer : option Address;
  y_peer : option Address;
}.
#[global] Instance pair_state_eta : RecordEta pair_state := fun p => mkPair (x_peer p) (y_peer p).

Definition new_pair : pair_state := mkPair None None.

(** The peer after a datagram from [source] *)
Definition learn_peer (peer : option Address) (source : Address) : option Address :=
  match peer with
  | Some a => if negb (address_eqb a source) then Some source else peer
  | None => Some source
  end.

(** The callbacks: the datagram that is sent, if any, with its destination *)
Definition x_callback (p : pair_state) (rec : received_datagram) : pair_state * option (Address * bytes) :=
  let p := p <| x_peer := learn_peer (x_peer p) (source_address rec) |> in
  match y_peer p with
  | Some a => if negb (len (payload rec) =? 0) then (p, Some (a, payload rec)) else (p, None)
  | None => (p, None)
  end.

Definition y_callback (p : pair_state) (rec : received_datagram) : pair_state * option (Address * bytes) :=
  let p := p <| y_peer := learn_peer (y_peer p) (source_address rec) |> in
  match x_peer p with
  | Some a => if negb (len (payload rec) =? 0) then (p, Some (a, payload rec)) else (p, None)
  | None => (p, None)
  end.

(** A run of the pair: what the sockets receive, in order *)
Fixpoint bounce (p : pair_state) (received : list (side * received_datagram)) : list (option (side * Address * bytes)) :=
  match received with
  | [] => []
  | (X, rec) :: rest => let (p, out) := x_callback p rec in option_map (fun o => (Y, o.1, o.2)) out :: bounce p rest
  | (Y, rec) :: rest => let (p, out) := y_callback p rec in option_map (fun o => (X, o.1, o.2)) out :: bounce p rest
  end.

(** ** Specification *)

#[global] Instance side_eq_dec : EqDecision side.
Proof. solve_decision. Defined.

Definition other (s : side) : side := match s with X => Y | Y => X end.

(** The source of the last datagram at side [s] *)
Definition last_heard (s : side) (received : list (side * received_datagram)) : option Address :=
  (fun r => source_address r.2) <$> last (filter (fun r => r.1 = s) received).

(** What is sent for the datagram [r] that comes after [before]: its payload, if there
    is any, to the address last heard from at the other side *)
Definition relayed (before : list (side * received_datagram)) (r : side * received_datagram) : option (side * Address * bytes) :=
  match last_heard (other r.1) before with
  | Some a => if bool_decide (payload r.2 = []) then None else Some (other r.1, a, payload r.2)
  | None => None
  end.

Fixpoint relay (before received : list (side * received_datagram)) : list (option (side * Address * bytes)) :=
  match received with
  | [] => []
  | r :: rest => relayed before r :: relay (before ++ [r]) rest
  end.

(** ** Lemmas *)

(** An address as its constructor makes it *)
Definition made (a : Address) : Prop := exists raw size, 0 <= size /\ of_sockaddr raw size = Ok a.

Lemma made_eqb a b : made a -> made b -> address_eqb a b = true <-> a = b.
Proof.
  intros (ra & sa & Hsa & Ha) (rb & sb & Hsb & Hb). unfold of_sockaddr in *.
  destruct (storage_size <? sa); [done|]. destruct (Z.ltb_spec (len ra) sa); [done|]. injection Ha as <-.
  destruct (storage_size <? sb); [done|]. destruct (Z.ltb_spec (len rb) sb); [done|]. injection Hb as <-.
  unfold address_eqb. cbn [Address._size Address._address]. destruct (Z.eqb_spec sa sb) as [->|Hne]; cbn [negb].
  - rewrite bool_decide_eq_true, !take_app_length' by (rewrite length_take; unfold len in *; lia).
    split; [by intros ->|by intros [= ->%app_inv_tail]].
  - split; [done|congruence].
Qed.

Lemma learn_peer_made peer source : (forall a, peer = Some a -> made a) -> made source -> learn_peer peer source = Some source.
Proof.
  intros Hp Hs. unfold learn_peer. destruct peer as [a|]; [|done]. specialize (Hp a eq_refl).
  pose proof (made_eqb a source Hp Hs) as He. destruct (address_eqb a source); [|done]. cbn [negb]. f_equal. by apply He.
Qed.

Lemma last_heard_app s before r :
  last_heard s (before ++ [r]) = if bool_decide (r.1 = s) then Some (source_address r.2) else last_heard s before.
Proof.
  unfold last_heard. rewrite filter_app. case_bool_decide as E.
  - rewrite filter_cons_True, filter_nil, last_snoc by done. done.
  - by rewrite filter_cons_False, filter_nil, app_nil_r by done.
Qed.

Definition all_made (received : list (side * received_datagram)) : Prop := Forall (fun r => made (source_address r.2)) received.

Lemma last_heard_made s before a : all_made before -> last_heard s before = Some a -> made a.
Proof.
  intros Hm. unfold last_heard. intros (r & Hl & ->)%fmap_Some. apply last_Some_elem_of, list_elem_of_filter in Hl as [_ Hl].
  unfold all_made in Hm. rewrite Forall_forall in Hm. by apply Hm.
Qed.

Lemma bounce_relay before received :
  all_made before -> all_made received ->
  bounce (mkPair (last_heard X before) (last_heard Y before)) received = relay before received.
Proof.
  revert before. induction received as [|[s rec] received IH]; intros before Hb Hr; [done|].
  apply Forall_cons in Hr as [Hr1 Hr]. cbn [snd] in Hr1.
  specialize (IH (before ++ [(s, rec)]) ltac:(apply Forall_app; split; [done|by apply Forall_singleton]) Hr).
  assert (Hl : forall a, learn_peer (last_heard a before) (source_address rec) = Some (source_address rec)).
  { intros a. apply learn_peer_made; [|done]. intros b. by apply last_heard_made. }
  assert (Hn : (len (payload rec) =? 0) = bool_decide (payload rec = [])).
  { destruct (payload rec) as [|c l]; [done|]. rewrite len_cons, (proj2 (Z.eqb_neq _ _)) by (pose proof (len_nonneg l); lia). done. }
  rewrite !last_heard_app in IH. cbn [fst snd] in IH. cbn [bounce relay]. unfold relayed. cbn [fst snd].
  destruct s; [unfold x_callback|unfold y_callback]; sponge_simpl; rewrite Hl, Hn.
  - destruct (last_heard Y before) as [a|]; [|by f_equal]. case_bool_decide; by f_equal.
  - destruct (last_heard X before) as [a|]; [|by f_equal]. case_bool_decide; by f_equal.
Qed.

(** ** Properties *)

(** C38: on every run of a pair, a datagram with a payload is relayed unchanged to the
    address last heard from at the other port, an empty one and one that comes before
    anything was heard there are not, and nothing else is sent. *)
Theorem bouncer_relays received :
  all_made received -> bounce new_pair received = relay [] received.
Proof. apply (bounce_relay []). constructor. Qed.

(** The loop over the ports ends, and the sockets and the peers of all pairs fit the
    66000 elements reserved for them, so that the references which the callbacks
    keep stay valid. *)
Theorem bouncer_ports : match lower_ports (Z.to_nat 32000) 1024 with Ok l => 2 * len l <= 66000 | Throw _ => False end.
Proof. vm_compute. discriminate. Qed.

(** ** webget *)

Definition crlf : bytes := [x0d; x0a].

(** What [get_URL] writes, one string per call *)
Definition http_request (host path : bytes) : list bytes :=
  [txt "GET " ++ path ++ txt " HTTP/1.1" ++ crlf; txt "Host:" ++ host ++ crlf; txt "Connection: close" ++ crlf; crlf].

(** [while (!socket.eof()) { ... }]: each [read] has the answer of the kernel, the
    return value with [errno] and the bytes. *)
Fixpoint print_all (fd : FDWrapper) (answers : list (answer * bytes)) : res (FDWrapper * bytes) :=
  if FileDescriptor.eof fd then Ok (fd, [])
  else
    match answers with
    | [] => Throw NoFuel
    | (a, filled) :: rest =>
        let* (fd, message) := FileDescriptor.read fd UINT64_MAX (ret a) (errno a) filled in
        let* (fd, out) := print_all fd rest in
        Ok (fd, message ++ out)
    end.

(** As [read(2)] documents: pieces of at least one byte, and 0 at the end *)
Definition pieces (l : list bytes) : list (answer * bytes) := map (fun p => (mkAnswer (len p) 0, p)) l ++ [(mkAnswer 0 0, [])].

(** Webget prints everything that the server sends, in order, and stops at the
    end. *)
Theorem webget_prints_all fd l :
  FileDescriptor.eof fd = false -> Forall (fun p => 0 < len p <= BUFFER_SIZE) l ->
  exists fd', print_all fd (pieces l) = Ok (fd', concat l) /\ FileDescriptor.eof fd' = true.
Proof.
  intros Hf H. revert fd Hf. induction H as [|p l Hp _ IH]; intros fd Hf.
  - eexists. cbn. rewrite Hf. done.
  - cbn [pieces map app print_all]. rewrite Hf. unfold FileDescriptor.read, SystemCall. cbn [ret errno].
    rewrite (proj2 (Z.leb_le 0 _)) by lia. cbn [orb res_bind]. change (0 <? UINT64_MAX) with true. cbn [andb].
    rewrite (proj2 (Z.eqb_neq (len p) 0)) by lia. change (Z.min BUFFER_SIZE UINT64_MAX) with BUFFER_SIZE.
    rewrite (proj2 (Z.ltb_ge BUFFER_SIZE (len p))) by lia. cbn [res_bind].
    destruct (IH (register_read fd) Hf) as (fd' & E & He). unfold pieces in E. rewrite E. exists fd'. cbn [res_bind concat].
    unfold prefix_str, len. by rewrite Nat2Z.id, firstn_all.
Qed.

(** ** Witnesses *)

Definition heard_from (p a : Z) (payload : bytes) : received_datagram := mkReceived (inet_address p a) payload.

Lemma heard_made p a : made (inet_address p a).
Proof. exists (sockaddr_in p a), sockaddr_in_size. split; [done|apply of_sockaddr_in]. Qed.

Lemma bouncer_relays_witness :
  bounce new_pair [(X, heard_from 1 1 [x61]); (Y, heard_from 2 2 []); (X, heard_from 3 3 [x62]); (Y, heard_from 2 2 [x63])] =
    [None; None; Some (Y, inet_address 2 2, [x62]); Some (X, inet_address 3 3, [x63])].
Proof.
  etransitivity; [apply bouncer_relays|reflexivity].
  unfold all_made, heard_from. repeat constructor; apply heard_made.
Defined.

Lemma webget_prints_all_witness :
  exists fd', print_all (mkFDWrapper 3 false false 0 0) (pieces [[x61; x62]; [x63]]) = Ok (fd', [x61; x62; x63]) /\
    FileDescriptor.eof fd' = true.
Proof.
  apply (webget_prints_all (mkFDWrapper 3 false false 0 0) [[x61; x62]; [x63]] eq_refl).
  constructor; [vm_compute; split; congruence|]. constructor; [vm_compute; split; congruence|constructor].
Defined.
