(* ===== verification/Lab7.v ===== *)
(** * Lab 7: a TCP socket behind a router

    apps/lab7.cc: a socket whose frames go through a router of the same program, and
    from there as UDP datagrams to a bouncer that joins client and server.

    The state of a side has the adapter of the socket, the two directions of the
    socket pair between the adapter and the network thread, the router, and what is
    sent to and received from the Internet.  Random numbers are arguments; the
    debugging output and the start of the threads are left out. *)

From Stdlib Require Import Strings.String.
From stdpp Require Import base numbers option list gmap.
From Stdlib Require Import ZArith Lia Strings.Byte.
From S2P Require Import Prelude.
From S2P Require Import Text.
From S2P Require Import Buffer.
From S2P Require Import Parser.
From S2P Require Import WrappingIntegers.
From S2P Require Import TCPHeader.
From S2P Require Import TCPSegment.
From S2P Require Import IPv4Header.
From S2P Require Import IPv4Datagram.
From S2P Require Import EthernetHeader.
From S2P Require Import EthernetFrame.
From S2P Require Import NetworkInterface.
From S2P Require Import Router.
From S2P Require Import NetworkSimulator.
From S2P Require Import Adapters.
From S2P Require Import FileDescriptor.
From S2P Require Import EventLoop.
#[local] Open Scope Z_scope.

(** ** The adapter *)

Record NetworkInterfaceAdapter := mkAdapter {
  lab7_base : FdAdapterBase;
  lab7_interface : NetworkInterface;
  lab7_next_hop : Adapters.Address;
}.
#[global] Instance Adapter_eta : RecordEta NetworkInterfaceAdapter := fun a =>
  mkAdapter (lab7_base a) (lab7_interface a) (lab7_next_hop a).

Definition frame_bytes (f : EthernetFrame) : bytes := concatenate (EthernetFrame.serialize f).

(** What [send_pending] writes to the first end of the socket pair *)
Definition lab7_send_pending (a : NetworkInterfaceAdapter) : NetworkInterfaceAdapter * list bytes :=
  (a <| lab7_interface := lab7_interface a <| _frames_out := [] |> |>, map frame_bytes (frames_out (lab7_interface a))).

(** [draws] are six values of the random generator. *)
Definition random_host_ethernet_address (draws : list Z) : EthernetAddress :=
  match map u8 draws with
  | b :: rest => byte_of_Z (Z.land (Z.lor b 2) 254) :: map byte_of_Z rest
  | [] => []
  end.

Definition random_router_ethernet_address (draws : list Z) : EthernetAddress :=
  match map byte_of_Z (map u8 draws) with
  | _ :: _ :: _ :: rest => x02 :: x00 :: x00 :: rest
  | l => l
  end.

Definition new_adapter (draws : list Z) (ip_address next_hop : Adapters.Address) : NetworkInterfaceAdapter :=
  mkAdapter new_base (NetworkInterface.new (random_host_ethernet_address draws) (ipv4_numeric ip_address)) next_hop.

Definition lab7_read (a : NetworkInterfaceAdapter) (packet : bytes) : res (NetworkInterfaceAdapter * option TCPSegment * list bytes) :=
  let* (r, frame) := EthernetFrame.parse default_frame (of_string packet) in
  if bool_decide (r <> NoError) then Ok (a, None, [])
  else
    let* (n, ip_dgram) := recv_frame (lab7_interface a) frame in
    let (a, out) := lab7_send_pending (a <| lab7_interface := n |>) in
    match ip_dgram with
    | Some d =>
        let* (b, seg) := unwrap_tcp_in_ip (lab7_base a) d in
        Ok (a <| lab7_base := b |>, seg, out)
    | None => Ok (a, None, out)
    end.

Definition lab7_write (a : NetworkInterfaceAdapter) (seg : TCPSegment) : res (NetworkInterfaceAdapter * TCPSegment * list bytes) :=
  let* (seg, ip_dgram) := wrap_tcp_in_ip (lab7_base a) seg in
  let* n := send_datagram (lab7_interface a) ip_dgram (ipv4_numeric (lab7_next_hop a)) in
  let (a, out) := lab7_send_pending (a <| lab7_interface := n |>) in
  Ok (a, seg, out).

Definition lab7_tick (a : NetworkInterfaceAdapter) (ms_since_last_tick : Z) : NetworkInterfaceAdapter * list bytes :=
  lab7_send_pending (a <| lab7_interface := NetworkInterface.tick (lab7_interface a) ms_since_last_tick |>).

#[global] Instance lab7_adapter : FdAdapter NetworkInterfaceAdapter bytes := {
  adapter_read := lab7_read;
  adapter_write := lab7_write;
  adapter_tick := lab7_tick;
  adapter_base := lab7_base;
  adapter_set_base := fun a b => a <| lab7_base := b |>;
}.

(** ** The socket *)

(** The configuration that [connect] passes on; [draw] is the port. *)
Definition lab7_connect_config (local_address : Adapters.Address) (draw : Z) (address : Adapters.Address) : FdAdapterConfig :=
  let local := mkAddress (ipv4_numeric local_address) (u16 draw) in
  Adapters.default_config <| source := local |> <| destination := address |>.

(** [bind]: the new local address *)
Definition lab7_bind (local_address address : Adapters.Address) : res Adapters.Address :=
  if negb (ipv4_numeric address =? ipv4_numeric local_address) then Throw runtime_error
  else Ok (mkAddress (ipv4_numeric local_address) (port address)).

Definition lab7_listen_config (local_address : Adapters.Address) : FdAdapterConfig :=
  Adapters.default_config <| source := local_address |>.

(** ** A side of the network *)

Record Lab7 := mkLab7 {
  adapter : NetworkInterfaceAdapter;
  pair_up : list bytes;
  pair_down : list bytes;
  frame_fd : FDWrapper;
  internet_socket : FDWrapper;
  router : Router;
  net_out : list bytes;
  net_in : list bytes;
}.
#[global] Instance Lab7_eta : RecordEta Lab7 := fun l =>
  mkLab7 (adapter l) (pair_up l) (pair_down l) (frame_fd l) (internet_socket l) (router l) (net_out l) (net_in l).

(** The numbers that [add_interface] returns *)
Definition host_side : Z := 0.
Definition internet_side : Z := 1.

Definition router_interface (draws : list Z) (a : Z) : AsyncNetworkInterface :=
  of_interface (NetworkInterface.new (random_router_ethernet_address draws) a).

Definition new_router (is_client : bool) (draws : nat -> list Z) : Router :=
  if is_client then
    let r := (add_interface Router.new (router_interface (draws 0%nat) (ip 192 168 0 1))).1 in
    let r := (add_interface r (router_interface (draws 1%nat) (ip 10 0 0 192))).1 in
    let r := add_route r (ip 192 168 0 0) 16 None host_side in
    let r := add_route r (ip 10 0 0 0) 8 None internet_side in
    add_route r (ip 172 16 0 0) 12 (Some (ip 10 0 0 172)) internet_side
  else
    let r := (add_interface Router.new (router_interface (draws 0%nat) (ip 172 16 0 1))).1 in
    let r := (add_interface r (router_interface (draws 1%nat) (ip 10 0 0 172))).1 in
    let r := add_route r (ip 172 16 0 0) 12 None host_side in
    let r := add_route r (ip 10 0 0 0) 8 None internet_side in
    add_route r (ip 192 168 0 0) 16 (Some (ip 10 0 0 192)) internet_side.

(** The state of [program_body] when the threads start; three empty datagrams have told
    the bouncer the address. *)
Definition new_lab7 (is_client : bool) (draws : nat -> list Z) (frame internet : FDWrapper) : Lab7 :=
  let a := if is_client then new_adapter (draws 2%nat) (mkAddress (ip 192 168 0 50) 0) (mkAddress (ip 192 168 0 1) 0)
           else new_adapter (draws 2%nat) (mkAddress (ip 172 16 0 100) 0) (mkAddress (ip 172 16 0 1) 0) in
  mkLab7 a [] [] frame (Nat.iter 3 register_write internet) (new_router is_client draws) [[]; []; []] [].

(** A frame for interface [side], and then the routing *)
Definition route_frame (l : Lab7) (side : Z) (packet : bytes) : res Lab7 :=
  let* (r, frame) := EthernetFrame.parse default_frame (of_string packet) in
  if bool_decide (r <> NoError) then Ok l
  else
    let* i := interface (router l) side in
    let* i := async_recv_frame i frame in
    let* r := route (set_interface (router l) side i) in
    Ok (l <| router := r |>).

(** [f.front()] of the queue of interface [side], and [f.pop()] *)
Definition pop_frame (l : Lab7) (side : Z) : res (EthernetFrame * Lab7) :=
  let* i := interface (router l) side in
  match async_frames_out i with
  | [] => Throw UndefinedBehaviour
  | f :: rest =>
      let i := i <| base_interface := (base_interface i) <| _frames_out := rest |> |> in
      Ok (f, l <| router := set_interface (router l) side i |>)
  end.

Definition has_frames (l : Lab7) (side : Z) : bool :=
  match interface (router l) side with
  | Ok i => match async_frames_out i with [] => false | _ => true end
  | Throw _ => false
  end.

(** Frames from host to router *)
Definition host_to_router (l : Lab7) : res Lab7 :=
  match pair_up l with
  | [] => Throw UndefinedBehaviour
  | packet :: rest =>
      let l := l <| pair_up := rest |> <| frame_fd := register_read (frame_fd l) |> in
      route_frame l host_side packet
  end.

(** Frames from router to host *)
Definition router_to_host (l : Lab7) : res Lab7 :=
  let* (f, l) := pop_frame l host_side in
  Ok (l <| pair_down := pair_down l ++ [frame_bytes f] |> <| frame_fd := register_write (frame_fd l) |>).

(** Frames from router to Internet *)
Definition router_to_internet (l : Lab7) : res Lab7 :=
  let* (f, l) := pop_frame l internet_side in
  Ok (l <| net_out := net_out l ++ [frame_bytes f] |> <| internet_socket := register_write (internet_socket l) |>).

(** Frames from Internet to router *)
Definition internet_to_router (l : Lab7) : res Lab7 :=
  match net_in l with
  | [] => Throw UndefinedBehaviour
  | packet :: rest =>
      let l := l <| net_in := rest |> <| internet_socket := register_read (internet_socket l) |> in
      route_frame l internet_side packet
  end.

(** Handles of the descriptors *)
Definition frame_handle : Z := 0.
Definition internet_handle : Z := 1.
Definition lab7_fd_of (l : Lab7) (h : Z) : FDWrapper := if h =? frame_handle then frame_fd l else internet_socket l.

Definition lab7_rules : list (Rule Lab7) :=
  [mkRule frame_handle In host_to_router (fun _ => true) (fun l => Ok l);
   mkRule frame_handle Out router_to_host (fun l => has_frames l host_side) (fun l => Ok l);
   mkRule internet_handle Out router_to_internet (fun l => has_frames l internet_side) (fun l => Ok l);
   mkRule internet_handle In internet_to_router (fun _ => true) (fun l => Ok l)].

(** [router.interface(side).tick(50)] *)
Definition tick_side (l : Lab7) (side : Z) : res Lab7 :=
  let* i := interface (router l) side in
  let i := i <| base_interface := NetworkInterface.tick (base_interface i) 50 |> in
  Ok (l <| router := set_interface (router l) side i |>).

(** The loop of the network thread: each pass has a value of [exit_flag]. *)
Fixpoint network_loop (poll : Lab7 -> list pollfd -> Z -> Z * Z * list Z) (exit_flags : list bool)
    (rs : list (Rule Lab7)) (l : Lab7) : res (list (Rule Lab7) * Lab7) :=
  match exit_flags with
  | [] => Throw NoFuel
  | exit_flag :: rest =>
      let* (result, rs, l) := wait_next_event lab7_fd_of poll rs l 50 in
      match result with
      | Exit => Ok (rs, l)
      | _ =>
          let* l := tick_side l host_side in
          let* l := tick_side l internet_side in
          if exit_flag then Ok (rs, l) else network_loop poll rest rs l
      end
  end.

(** The adapter of the socket writes a segment, or reads a frame from the pair. *)
Definition host_write (l : Lab7) (seg : TCPSegment) : res Lab7 :=
  let* (a, _, out) := lab7_write (adapter l) seg in
  Ok (l <| adapter := a |> <| pair_up := pair_up l ++ out |>).

Definition host_read (l : Lab7) : res (Lab7 * option TCPSegment) :=
  match pair_down l with
  | [] => Throw UndefinedBehaviour
  | packet :: rest =>
      let* (a, seg, out) := lab7_read (adapter l) packet in
      Ok (l <| adapter := a |> <| pair_down := rest |> <| pair_up := pair_up l ++ out |>, seg)
  end.
