(* ===== verification/Lab7Delivery.v ===== *)
(** * Lab 7: from one host to the other

    The two sides of apps/lab7.cc, each a host and a router, joined by the bouncer.
    A segment that one host writes crosses three links, and on each of them the next
    hop is not resolved yet: the link is handled once, as an exchange of four frames
    between two interfaces ([exchange]), and the rules of the network thread carry the
    frames of the exchanges through the program. *)

From stdpp Require Import base numbers option gmap list.
From Stdlib Require Import ZArith Lia Strings.Byte.
From S2P Require Import Prelude.
From S2P Require Import Buffer.
From S2P Require Import Parser.
From S2P Require Import TCPHeader.
From S2P Require Import TCPSegment.
From S2P Require Import IPv4Header.
From S2P Require Import IPv4Datagram.
From S2P Require Import EthernetHeader.
From S2P Require Import EthernetFrame.
From S2P Require Import ARPMessage.
From S2P Require Import NetworkInterface.
From S2P Require Import Resolution.
From S2P Require Import Router.
From S2P Require Import Forwarding.
From S2P Require Import NetworkSimulator.
From S2P Require Import Simulation.
From S2P Require Import Adapters.
From S2P Require Import Transmission.
From S2P Require Import FileDescriptor.
From S2P Require Import EventLoop.
From S2P Require Import Lab7.
#[local] Open Scope Z_scope.

(** ** A link *)

Definition drained (n : NetworkInterface) : NetworkInterface := n <| _frames_out := [] |>.

(** [n] is given the frame that [packet] holds. *)
Definition hears_frame (n : NetworkInterface) (packet : bytes) (r : NetworkInterface * option IPv4Datagram) : Prop :=
  exists f, EthernetFrame.parse default_frame (of_string packet) = Ok (NoError, f) /\ recv_frame n f = Ok r.

Lemma wire_parse f g : wire f = Ok g -> EthernetFrame.parse default_frame (of_string (frame_bytes f)) = Ok (NoError, g).
Proof.
  unfold wire. intros ([r f'] & H & E)%res_bind_ok. unfold frame_bytes. rewrite H. revert E.
  case_bool_decide; [|done]. subst r. by intros [= ->].
Qed.

(** An interface with nothing to send and nothing known *)
Record blank (n : NetworkInterface) : Prop := {
  bl_mac : address_ok (_ethernet_address n);
  bl_ip : 0 <= _ip_address n < 4294967296;
  bl_frames : frames_out n = [];
  bl_cache : _IP_MAC_cache n = ∅;
  bl_waiting : _waiting_list n = ∅;
}.

(** [x] sends [d] to its neighbour [y]: request, answer, datagram. *)
Record exchange (x y : NetworkInterface) (d : IPv4Datagram) (x1 y1 x2 : NetworkInterface)
    (req rep dat : EthernetFrame) (out : IPv4Datagram) : Prop := {
  ex_send : send_datagram x d (_ip_address y) = Ok x1 /\ frames_out x1 = [req];
  ex_request : hears_frame y (frame_bytes req) (y1, None) /\ frames_out y1 = [rep];
  ex_answer : hears_frame (drained x1) (frame_bytes rep) (x2, None) /\ frames_out x2 = [dat];
  ex_datagram : hears_frame (drained y1) (frame_bytes dat) (drained y1, Some out);
  ex_carries : carries d out;
  ex_single : exists q, IPv4Datagram.payload out = [q];
}.

Lemma exchange_exists x y d :
  blank x -> blank y -> datagram_ok d -> exists x1 y1 x2 req rep dat out, exchange x y d x1 y1 x2 req rep dat out.
Proof.
  intros [Xm Xi Xf Xc Xw] [Ym Yi Yf _ _] Hd.
  destruct (send_asks x d (_ip_address y) Xm Xi Yi) as (x1 & req & S1 & F1 & A1 & Wait & M1 & _); [by rewrite Xc|by rewrite Xw|].
  destruct (arrives_wire _ _ _ A1) as (bq & W1 & P1).
  destruct (owner_answers y _ bq P1) as (y1 & rep & R1 & F2 & A2 & M2 & _); [done..|].
  destruct (arrives_wire _ _ _ A2) as (bp & W2 & P2).
  destruct (answer_releases (drained x1) _ bp (_ethernet_address y) d P2) as (x2 & dat & R2 & F3 & A3 & _);
    [done|done|done|by change (address_ok (_ethernet_address x1)); rewrite M1|done|].
  destruct (arrives_wire _ _ _ A3) as (bd & W3 & (out & P3 & Hcar)%reads_carries).
  exists x1, y1, x2, req, rep, dat, out. split; [| | | |done|by eapply dgram_parse_one].
  - by rewrite F1, Xf.
  - split; [|by rewrite F2, Yf]. eexists. split; [by apply wire_parse|exact R1].
  - split; [|done]. eexists. split; [by apply wire_parse|].
    change (_ethernet_address (drained x1)) with (_ethernet_address x1) in R2. rewrite M1 in R2. exact R2.
  - eexists. split; [by apply wire_parse|].
    change (sender_ethernet_address (arp_reply y _)) with (_ethernet_address y). rewrite <- M2.
    change (_ethernet_address y1) with (_ethernet_address (drained y1)). by apply recv_ip.
Qed.

(** ** The router of a side *)

Definition two (x y : NetworkInterface) (table : list RoutingTableEntry) : Router := mkRouter [of_interface x; of_interface y] table.

(** The state of a side, without the counters of its descriptors *)
Record looks (l : Lab7) (a : NetworkInterfaceAdapter) (up down : list bytes) (x y : NetworkInterface)
    (table : list RoutingTableEntry) (out inn : list bytes) : Prop := {
  lk_adapter : adapter l = a;
  lk_up : pair_up l = up;
  lk_down : pair_down l = down;
  lk_router : router l = two x y table;
  lk_out : net_out l = out;
  lk_in : net_in l = inn;
}.

Lemma route_calm x y table : route (two x y table) = Ok (two x y table).
Proof. reflexivity. Qed.

Lemma send_on_internet a b table d hop :
  send_on (mkRouter [a; b] table) internet_side d hop =
  (let* n := send_datagram (base_interface b) d hop in Ok (mkRouter [a; b <| base_interface := n |>] table)).
Proof. reflexivity. Qed.

Lemma send_on_host a b table d hop :
  send_on (mkRouter [a; b] table) host_side d hop =
  (let* n := send_datagram (base_interface a) d hop in Ok (mkRouter [a <| base_interface := n |>; b] table)).
Proof. reflexivity. Qed.

(** The datagram is sent on by the entry found. *)
Lemma route_one_found r d e :
  1 < ttl (IPv4Datagram.header d) ->
  find_route (IPv4Header.dst (IPv4Datagram.header d)) (_routing_table r) false default_entry = (true, e) ->
  route_one_datagram r d =
    send_on r (_interface_num e) (decrement_ttl d) (default (IPv4Header.dst (IPv4Datagram.header d)) (Router._next_hop e)).
Proof.
  intros Ht Hf. unfold route_one_datagram. rewrite (proj2 (Z.leb_gt _ _) Ht), Hf. cbn [negb].
  by destruct (Router._next_hop e).
Qed.

(** A datagram that came to the host side leaves on the Internet side, *)
Lemma route_up x y table d e n :
  1 < ttl (IPv4Datagram.header d) ->
  find_route (IPv4Header.dst (IPv4Datagram.header d)) table false default_entry = (true, e) -> _interface_num e = internet_side ->
  send_datagram y (decrement_ttl d) (default (IPv4Header.dst (IPv4Datagram.header d)) (Router._next_hop e)) = Ok n ->
  route (mkRouter [mkAsyncNetworkInterface x [d]; of_interface y] table) = Ok (two x n table).
Proof.
  intros Ht Hf Hi Hs. unfold route. cbn [_interfaces length route_from lookup list_lookup datagrams_out _datagrams_out route_queue].
  rewrite (route_one_found (mkRouter _ table) d e Ht Hf), Hi, send_on_internet. cbn [base_interface of_interface]. rewrite Hs. reflexivity.
Qed.

(** and the other way round. *)
Lemma route_down x y table d e n :
  1 < ttl (IPv4Datagram.header d) ->
  find_route (IPv4Header.dst (IPv4Datagram.header d)) table false default_entry = (true, e) -> _interface_num e = host_side ->
  send_datagram x (decrement_ttl d) (default (IPv4Header.dst (IPv4Datagram.header d)) (Router._next_hop e)) = Ok n ->
  route (mkRouter [of_interface x; mkAsyncNetworkInterface y [d]] table) = Ok (two n y table).
Proof.
  intros Ht Hf Hi Hs. unfold route.
  do 2 cbn [_interfaces length route_from lookup list_lookup datagrams_out _datagrams_out route_queue of_interface res_bind].
  rewrite (route_one_found (mkRouter _ table) d e Ht Hf), Hi, send_on_host. cbn [base_interface of_interface]. rewrite Hs. reflexivity.
Qed.

(** ** The rules *)

Definition queue_of (o : option IPv4Datagram) : list IPv4Datagram := match o with Some d => [d] | None => [] end.

Lemma route_frame_host l p x y table x1 o :
  router l = two x y table -> hears_frame x p (x1, o) ->
  route_frame l host_side p =
    (let* r := route (mkRouter [mkAsyncNetworkInterface x1 (queue_of o); of_interface y] table) in Ok (l <| router := r |>)).
Proof.
  intros Hl (f & Hp & Hr). unfold route_frame. rewrite Hp. cbn [res_bind].
  rewrite (bool_decide_eq_false_2 (NoError <> NoError)) by (intros H; by apply H). rewrite Hl.
  change (interface (two x y table) host_side) with (Ok (of_interface x)). cbn [res_bind]. unfold async_recv_frame.
  change (base_interface (of_interface x)) with x. rewrite Hr. by destruct o.
Qed.

Lemma route_frame_internet l p x y table y1 o :
  router l = two x y table -> hears_frame y p (y1, o) ->
  route_frame l internet_side p =
    (let* r := route (mkRouter [of_interface x; mkAsyncNetworkInterface y1 (queue_of o)] table) in Ok (l <| router := r |>)).
Proof.
  intros Hl (f & Hp & Hr). unfold route_frame. rewrite Hp. cbn [res_bind].
  rewrite (bool_decide_eq_false_2 (NoError <> NoError)) by (intros H; by apply H). rewrite Hl.
  change (interface (two x y table) internet_side) with (Ok (of_interface y)). cbn [res_bind]. unfold async_recv_frame.
  change (base_interface (of_interface y)) with y. rewrite Hr. by destruct o.
Qed.

(** The host writes a segment, *)
Lemma write_step l a x y table out inn seg seg' d n1 req :
  looks l a [] [] x y table out inn -> wrap_tcp_in_ip (lab7_base a) seg = Ok (seg', d) ->
  send_datagram (lab7_interface a) d (ipv4_numeric (lab7_next_hop a)) = Ok n1 -> frames_out n1 = [req] ->
  exists l', host_write l seg = Ok l' /\ looks l' (a <| lab7_interface := drained n1 |>) [frame_bytes req] [] x y table out inn.
Proof.
  intros [] Hw Hs Hf. destruct l. cbn in *. subst. unfold host_write, lab7_write. cbn [adapter]. rewrite Hw. cbn [res_bind].
  rewrite Hs. cbn [res_bind]. unfold lab7_send_pending. cbn [lab7_interface field_update].
  change (lab7_interface (a <| lab7_interface := n1 |>)) with n1. rewrite Hf. eexists. split; [reflexivity|]. by split.
Qed.

(** a frame goes from the host to the router, *)
Lemma up_step l a p up down x y table out inn x1 o x' y' :
  looks l a (p :: up) down x y table out inn -> hears_frame x p (x1, o) ->
  route (mkRouter [mkAsyncNetworkInterface x1 (queue_of o); of_interface y] table) = Ok (two x' y' table) ->
  exists l', host_to_router l = Ok l' /\ looks l' a up down x' y' table out inn.
Proof.
  intros [] Hh Hr. unfold host_to_router. rewrite lk_up0. cbv zeta. erewrite route_frame_host; [|exact lk_router0|exact Hh].
  rewrite Hr. eexists. split; [reflexivity|]. by split.
Qed.

(** from the router to the host, *)
Lemma down_step l a up down x y table out inn f rest :
  looks l a up down x y table out inn -> frames_out x = f :: rest ->
  exists l', router_to_host l = Ok l' /\ looks l' a up (down ++ [frame_bytes f]) (x <| _frames_out := rest |>) y table out inn.
Proof.
  intros [] Hf. unfold router_to_host, pop_frame. rewrite lk_router0.
  change (interface (two x y table) host_side) with (Ok (of_interface x)). cbn [res_bind]. unfold async_frames_out.
  change (base_interface (of_interface x)) with x. rewrite Hf. cbn [res_bind]. eexists. split; [reflexivity|].
  split; try done. cbn. by rewrite lk_down0.
Qed.

(** from the router to the Internet, *)
Lemma out_step l a up down x y table out inn f rest :
  looks l a up down x y table out inn -> frames_out y = f :: rest ->
  exists l', router_to_internet l = Ok l' /\ looks l' a up down x (y <| _frames_out := rest |>) table (out ++ [frame_bytes f]) inn.
Proof.
  intros [] Hf. unfold router_to_internet, pop_frame. rewrite lk_router0.
  change (interface (two x y table) internet_side) with (Ok (of_interface y)). cbn [res_bind]. unfold async_frames_out.
  change (base_interface (of_interface y)) with y. rewrite Hf. cbn [res_bind]. eexists. split; [reflexivity|].
  split; try done. cbn. by rewrite lk_out0.
Qed.

(** from the Internet to the router, *)
Lemma in_step l a up down p x y table out inn y1 o x' y' :
  looks l a up down x y table out (p :: inn) -> hears_frame y p (y1, o) ->
  route (mkRouter [of_interface x; mkAsyncNetworkInterface y1 (queue_of o)] table) = Ok (two x' y' table) ->
  exists l', internet_to_router l = Ok l' /\ looks l' a up down x' y' table out inn.
Proof.
  intros [] Hh Hr. unfold internet_to_router. rewrite lk_in0. cbv zeta. erewrite route_frame_internet; [|exact lk_router0|exact Hh].
  rewrite Hr. eexists. split; [reflexivity|]. by split.
Qed.

(** and the host reads a frame, without a datagram *)
Lemma read_step l a up p down x y table out inn n1 :
  looks l a up (p :: down) x y table out inn -> hears_frame (lab7_interface a) p (n1, None) ->
  exists l', host_read l = Ok (l', None) /\
    looks l' (a <| lab7_interface := drained n1 |>) (up ++ map frame_bytes (frames_out n1)) down x y table out inn.
Proof.
  intros [] (f & Hp & Hr). unfold host_read, lab7_read. rewrite lk_down0, lk_adapter0, Hp. cbn [res_bind].
  rewrite (bool_decide_eq_false_2 (NoError <> NoError)) by (intros H; by apply H). rewrite Hr. cbn [res_bind].
  eexists. split; [reflexivity|]. split; try done. cbn. by rewrite lk_up0.
Qed.

(** or with one. *)
Lemma read_segment l a up p down x y table out inn d b' seg :
  looks l a up (p :: down) x y table out inn -> hears_frame (lab7_interface a) p (lab7_interface a, Some d) ->
  unwrap_tcp_in_ip (lab7_base a) d = Ok (b', Some seg) -> exists l', host_read l = Ok (l', Some seg).
Proof.
  intros [] (f & Hp & Hr) Hu. unfold host_read, lab7_read. rewrite lk_down0, lk_adapter0, Hp. cbn [res_bind].
  rewrite (bool_decide_eq_false_2 (NoError <> NoError)) by (intros H; by apply H). rewrite Hr. cbn [res_bind].
  unfold lab7_send_pending. cbv iota beta. match goal with |- context [unwrap_tcp_in_ip ?b d] => change b with (lab7_base a) end. rewrite Hu. by eexists.
Qed.

(** ** The way of a segment *)

(** The bouncer passes on what has a payload ([Bouncer.bouncer_relays]). *)
Definition bounced (l1 l2 : Lab7) : Lab7 * Lab7 :=
  (l1 <| net_out := [] |>, l2 <| net_in := net_in l2 ++ filter (fun p => p <> []) (net_out l1) |>).

(** The rules as the frames make them ready: between a host and its router, *)
Definition host_link (l : Lab7) (seg : TCPSegment) : res Lab7 :=
  let* l := host_write l seg in
  let* l := host_to_router l in
  let* l := router_to_host l in
  let* (l, _) := host_read l in
  host_to_router l.

(** between the two routers, *)
Definition internet_link (l1 l2 : Lab7) : res (Lab7 * Lab7) :=
  let* l1 := router_to_internet l1 in
  let (l1, l2) := bounced l1 l2 in
  let* l2 := internet_to_router l2 in
  let* l2 := router_to_internet l2 in
  let (l2, l1) := bounced l2 l1 in
  let* l1 := internet_to_router l1 in
  let* l1 := router_to_internet l1 in
  let (l1, l2) := bounced l1 l2 in
  let* l2 := internet_to_router l2 in
  Ok (l1, l2).

(** and between the other router and its host. *)
Definition router_link (l : Lab7) : res (Lab7 * option TCPSegment) :=
  let* l := router_to_host l in
  let* (l, _) := host_read l in
  let* l := host_to_router l in
  let* l := router_to_host l in
  host_read l.

Definition first_segment (l1 l2 : Lab7) (seg : TCPSegment) : res (Lab7 * Lab7 * option TCPSegment) :=
  let* l1 := host_link l1 seg in
  let* (l1, l2) := internet_link l1 l2 in
  let* (l2, r) := router_link l2 in
  Ok (l1, l2, r).

Lemma frame_bytes_nonempty f : frame_bytes f <> [].
Proof.
  intros H%(f_equal len). revert H. unfold frame_bytes.
  change (concatenate (EthernetFrame.serialize f)) with (EthernetHeader.serialize (EthernetFrame.header f) ++ concatenate (EthernetFrame.payload f)).
  rewrite eth_serialize_bytes, !len_app, len_be_bytes, len_nil.
  pose proof (len_nonneg (dst (EthernetFrame.header f))). pose proof (len_nonneg (src (EthernetFrame.header f))).
  pose proof (len_nonneg (concatenate (EthernetFrame.payload f))). lia.
Qed.

(** What has been sent before is empty or has been passed on. *)
Lemma bounce_step l1 l2 a1 u1 d1 x1 y1 t1 e i1 a2 u2 d2 x2 y2 t2 o2 i2 f :
  looks l1 a1 u1 d1 x1 y1 t1 (e ++ [frame_bytes f]) i1 -> looks l2 a2 u2 d2 x2 y2 t2 o2 i2 -> Forall (eq []) e ->
  looks (bounced l1 l2).1 a1 u1 d1 x1 y1 t1 [] i1 /\ looks (bounced l1 l2).2 a2 u2 d2 x2 y2 t2 o2 (i2 ++ [frame_bytes f]).
Proof.
  intros [] [] He. split; split; try done. cbn. rewrite lk_in1, lk_out0. f_equal. rewrite filter_app.
  replace (filter (fun p : bytes => p <> []) e) with (@nil bytes).
  2: { clear lk_out0. induction He as [|p e <- _ IH]; [done|]. rewrite filter_cons_False by (intros H; by apply H). exact IH. }
  by rewrite filter_cons_True by apply frame_bytes_nonempty.
Qed.

Lemma host_link_delivers l a x y table out inn seg seg' d e :
  looks l a [] [] x y table out inn -> blank (lab7_interface a) -> blank x ->
  ipv4_numeric (lab7_next_hop a) = _ip_address x -> wrap_tcp_in_ip (lab7_base a) seg = Ok (seg', d) -> datagram_ok d ->
  2 < ttl (IPv4Datagram.header d) ->
  find_route (IPv4Header.dst (IPv4Datagram.header d)) table false default_entry = (true, e) -> _interface_num e = internet_side ->
  exists out1, carries d out1 /\
  forall n, send_datagram y (decrement_ttl out1) (default (IPv4Header.dst (IPv4Datagram.header d)) (Router._next_hop e)) = Ok n ->
  exists l' a' x', host_link l seg = Ok l' /\ looks l' a' [] [] x' n table out inn.
Proof.
  intros Hl Ha Hx Hhop Hw Hd Ht Hf He.
  destruct (exchange_exists (lab7_interface a) x d Ha Hx Hd) as (x1 & y1 & x2 & req & rep & dat & out1 & []).
  destruct ex_send0 as [S1 F1], ex_request0 as [R1 F2], ex_answer0 as [R2 F3].
  exists out1. split; [done|]. intros n Hn. unfold host_link.
  assert (Eh : IPv4Header.dst (IPv4Datagram.header out1) = IPv4Header.dst (IPv4Datagram.header d) /\
               ttl (IPv4Datagram.header out1) = ttl (IPv4Datagram.header d)) by (destruct ex_carries0 as (c & _ & -> & _); done).
  destruct Eh as [Edst Ettl].
  destruct (write_step _ _ _ _ _ _ _ seg seg' d x1 req Hl Hw) as (l1 & -> & L1); [by rewrite Hhop|done|]. cbn [res_bind].
  destruct (up_step _ _ _ _ _ _ _ _ _ _ _ _ _ _ L1 R1 (route_calm _ _ _)) as (l2 & -> & L2). cbn [res_bind].
  destruct (down_step _ _ _ _ _ _ _ _ _ _ _ L2 F2) as (l3 & -> & L3). cbn [res_bind app] in *.
  destruct (read_step _ _ _ _ _ _ _ _ _ _ x2 L3 R2) as (l4 & -> & L4). cbn [res_bind]. rewrite F3 in L4. cbn [map app] in L4.
  destruct (up_step _ _ _ _ _ _ _ _ _ _ _ _ (drained y1) n L4 ex_datagram0) as (l5 & -> & L5).
  { apply (route_up _ _ _ out1 e); [lia|by rewrite Edst|done|by rewrite Edst]. }
  eexists l5, _, _. by split.
Qed.

(** [e] is the entry by which the second router passes the datagram to its host. *)
Lemma internet_link_delivers l1 l2 a1 x1 n1 t1 b1 y1 a2 x2 y2 t2 b2 d req e :
  looks l1 a1 [] [] x1 n1 t1 b1 [] -> looks l2 a2 [] [] x2 y2 t2 b2 [] -> Forall (eq []) b1 -> Forall (eq []) b2 ->
  blank y1 -> blank y2 -> datagram_ok d -> 1 < ttl (IPv4Datagram.header d) ->
  send_datagram y1 d (_ip_address y2) = Ok n1 -> frames_out n1 = [req] ->
  find_route (IPv4Header.dst (IPv4Datagram.header d)) t2 false default_entry = (true, e) -> _interface_num e = host_side ->
  exists out, carries d out /\
  forall n, send_datagram x2 (decrement_ttl out) (default (IPv4Header.dst (IPv4Datagram.header d)) (Router._next_hop e)) = Ok n ->
  exists l1' l2' y1' y2', internet_link l1 l2 = Ok (l1', l2') /\
    looks l1' a1 [] [] x1 y1' t1 [] [] /\ looks l2' a2 [] [] n y2' t2 [] [].
Proof.
  intros L1 L2 B1 B2 Y1 Y2 Hd Ht Hs Hq Hf He.
  destruct (exchange_exists y1 y2 d Y1 Y2 Hd) as (m1 & y3 & m2 & req' & rep & dat & out & []).
  destruct ex_send0 as [S1 F1], ex_request0 as [R1 F2], ex_answer0 as [R2 F3].
  rewrite Hs in S1. injection S1 as <-. rewrite Hq in F1. injection F1 as <-.
  exists out. split; [done|]. intros n Hn. unfold internet_link.
  assert (Eh : IPv4Header.dst (IPv4Datagram.header out) = IPv4Header.dst (IPv4Datagram.header d) /\
               ttl (IPv4Datagram.header out) = ttl (IPv4Datagram.header d)) by (destruct ex_carries0 as (c & _ & -> & _); done).
  destruct Eh as [Edst Ettl].
  destruct (out_step _ _ _ _ _ _ _ _ _ _ _ L1 Hq) as (l1a & -> & L1a). cbn [res_bind].
  destruct (bounce_step _ _ _ _ _ _ _ _ _ _ _ _ _ _ _ _ _ _ _ L1a L2 B1) as [L1b L2b]. destruct (bounced l1a l2) as [l1b l2b]. cbn [fst snd app] in *.
  destruct (in_step _ _ _ _ _ _ _ _ _ _ _ _ _ _ L2b R1 (route_calm _ _ _)) as (l2c & -> & L2c). cbn [res_bind].
  destruct (out_step _ _ _ _ _ _ _ _ _ _ _ L2c F2) as (l2d & -> & L2d). cbn [res_bind].
  destruct (bounce_step _ _ _ _ _ _ _ _ _ _ _ _ _ _ _ _ _ _ _ L2d L1b B2) as [L2e L1e]. destruct (bounced l2d l1b) as [l2e l1e]. cbn [fst snd app] in *.
  destruct (in_step _ _ _ _ _ _ _ _ _ _ _ _ _ _ L1e R2 (route_calm _ _ _)) as (l1f & -> & L1f). cbn [res_bind].
  destruct (out_step _ _ _ _ _ _ _ _ _ _ _ L1f F3) as (l1g & -> & L1g). cbn [res_bind].
  destruct (bounce_step _ _ _ _ _ _ _ _ _ [] _ _ _ _ _ _ _ _ _ L1g L2e (Forall_nil_2 _)) as [L1h L2h]. destruct (bounced l1g l2e) as [l1h l2h]. cbn [fst snd app] in *.
  destruct (in_step _ _ _ _ _ _ _ _ _ _ _ _ n (drained y3) L2h ex_datagram0) as (l2i & -> & L2i).
  { apply (route_down _ _ _ out e); [lia|by rewrite Edst|done|by rewrite Edst]. }
  eexists l1h, l2i, _, _. by split.
Qed.

Lemma router_link_delivers l a x n y table out inn d req :
  looks l a [] [] n y table out inn -> blank x -> blank (lab7_interface a) -> datagram_ok d ->
  send_datagram x d (_ip_address (lab7_interface a)) = Ok n -> frames_out n = [req] ->
  exists out, carries d out /\ (exists q, IPv4Datagram.payload out = [q]) /\
  forall b seg, unwrap_tcp_in_ip (lab7_base a) out = Ok (b, Some seg) -> exists l', router_link l = Ok (l', Some seg).
Proof.
  intros L X A Hd Hs Hq.
  destruct (exchange_exists x (lab7_interface a) d X A Hd) as (m1 & y3 & m2 & req' & rep & dat & out1 & []).
  destruct ex_send0 as [S1 F1], ex_request0 as [R1 F2], ex_answer0 as [R2 F3].
  rewrite Hs in S1. injection S1 as <-. rewrite Hq in F1. injection F1 as <-.
  exists out1. split; [done|]. split; [done|]. intros b seg Hu. unfold router_link.
  destruct (down_step _ _ _ _ _ _ _ _ _ _ _ L Hq) as (l1 & -> & L1). cbn [res_bind app] in *.
  destruct (read_step _ _ _ _ _ _ _ _ _ _ _ L1 R1) as (l2 & -> & L2). cbn [res_bind]. rewrite F2 in L2. cbn [map app] in L2.
  destruct (up_step _ _ _ _ _ _ _ _ _ _ _ _ _ _ L2 R2 (route_calm _ _ _)) as (l3 & -> & L3). cbn [res_bind].
  destruct (down_step _ _ _ _ _ _ _ _ _ _ _ L3 F3) as (l4 & -> & L4). cbn [res_bind app] in *.
  exact (read_segment _ _ _ _ _ _ _ _ _ _ _ _ _ L4 ex_datagram0 Hu).
Qed.

(** ** The two sides *)

Definition host_ip (is_client : bool) : Z := if is_client then ip 192 168 0 50 else ip 172 16 0 100.
Definition gateway (is_client : bool) : Z := if is_client then ip 192 168 0 1 else ip 172 16 0 1.
Definition outside (is_client : bool) : Z := if is_client then ip 10 0 0 192 else ip 10 0 0 172.

(** The base of the adapter as [connect] or [listen_and_accept] has set it up *)
Definition with_base (l : Lab7) (b : FdAdapterBase) : Lab7 := l <| adapter := (adapter l) <| lab7_base := b |> |>.

Definition six (draws : nat -> list Z) : Prop := forall i, length (draws i) = 6%nat.

Lemma router_mac_ok l : length l = 6%nat -> address_ok (random_router_ethernet_address l).
Proof. intros H. do 7 (destruct l as [|? l]; try discriminate). reflexivity. Qed.

Lemma host_mac_ok l : length l = 6%nat -> address_ok (random_host_ethernet_address l).
Proof. intros H. do 7 (destruct l as [|? l]; try discriminate). reflexivity. Qed.

Lemma blank_new mac a : address_ok mac -> 0 <= a < 4294967296 -> blank (NetworkInterface.new mac a).
Proof. intros. by split. Qed.

Lemma new_lab7_looks is_client draws frame internet b :
  six draws ->
  exists a x y, looks (with_base (new_lab7 is_client draws frame internet) b) a [] [] x y (_routing_table (new_router is_client draws)) [[]; []; []] [] /\
    blank (lab7_interface a) /\ blank x /\ blank y /\ lab7_base a = b /\
    ipv4_numeric (lab7_next_hop a) = gateway is_client /\ _ip_address (lab7_interface a) = host_ip is_client /\
    _ip_address x = gateway is_client /\ _ip_address y = outside is_client.
Proof.
  intros Hs. exists (mkAdapter b (NetworkInterface.new (random_host_ethernet_address (draws 2%nat)) (host_ip is_client)) (mkAddress (gateway is_client) 0)),
    (NetworkInterface.new (random_router_ethernet_address (draws 0%nat)) (gateway is_client)),
    (NetworkInterface.new (random_router_ethernet_address (draws 1%nat)) (outside is_client)).
  split; [by destruct is_client; split|].
  split; [apply blank_new; [by apply host_mac_ok|by destruct is_client]|].
  do 2 (split; [apply blank_new; [by apply router_mac_ok|by destruct is_client]|]). done.
Qed.

(** The way to the other host: first to the other router, then down to the host. *)
Lemma routes_found is_client draws :
  exists e, find_route (host_ip (negb is_client)) (_routing_table (new_router is_client draws)) false default_entry = (true, e) /\
    _interface_num e = internet_side /\ Router._next_hop e = Some (outside (negb is_client)).
Proof. destruct is_client; eexists; (split; [vm_compute; reflexivity|by split]). Qed.

Lemma own_route_found is_client draws :
  exists e, find_route (host_ip is_client) (_routing_table (new_router is_client draws)) false default_entry = (true, e) /\
    _interface_num e = host_side /\ Router._next_hop e = None.
Proof. destruct is_client; eexists; (split; [vm_compute; reflexivity|by split]). Qed.

Lemma carries_flow d out : carries d out -> same_flow (IPv4Datagram.header d) (IPv4Datagram.header out).
Proof. intros (c & _ & H & _). by eapply same_flow_cksum. Qed.

Lemma decrement_flow d : same_flow (IPv4Datagram.header d) (IPv4Datagram.header (decrement_ttl d)).
Proof. done. Qed.

Lemma wrapped_ttl b seg seg' d : wrap_tcp_in_ip b seg = Ok (seg', d) -> ttl (IPv4Datagram.header d) = 128.
Proof. unfold wrap_tcp_in_ip. by intros (bl & _ & [= _ <-])%res_bind_ok. Qed.

(** A blank interface asks for the address of its neighbour. *)
Lemma blank_asks x y d : blank x -> blank y -> datagram_ok d -> exists n req, send_datagram x d (_ip_address y) = Ok n /\ frames_out n = [req].
Proof. intros X Y Hd. destruct (exchange_exists x y d X Y Hd) as (x1 & y1 & x2 & req & rep & dat & out & []). by exists x1, req. Qed.

Lemma carries_dst_ttl d out :
  carries d out -> IPv4Header.dst (IPv4Datagram.header out) = IPv4Header.dst (IPv4Datagram.header d) /\
    ttl (IPv4Datagram.header out) = ttl (IPv4Datagram.header d).
Proof. by intros (c & _ & -> & _). Qed.

(** One router further: the datagram that goes on is well formed and of the same flow. *)
Record passed_on (d d' : IPv4Datagram) (hops : Z) : Prop := {
  po_ok : datagram_ok d';
  po_flow : same_flow (IPv4Datagram.header d) (IPv4Datagram.header d');
  po_dst : IPv4Header.dst (IPv4Datagram.header d') = IPv4Header.dst (IPv4Datagram.header d);
  po_ttl : ttl (IPv4Datagram.header d') = ttl (IPv4Datagram.header d) - hops;
  po_payload : concatenate (IPv4Datagram.payload d') = concatenate (IPv4Datagram.payload d);
}.

Lemma passed_start d : datagram_ok d -> passed_on d d 0.
Proof. intros. split; try done. lia. Qed.

Lemma passed_carries d d' out hops : passed_on d d' hops -> carries d' out -> passed_on d out hops.
Proof.
  intros [] Hc. destruct (carries_dst_ttl _ _ Hc) as [E1 E2]. split; [by eapply carries_ok| |congruence|congruence|].
  - eapply same_flow_trans; [done|by apply carries_flow].
  - destruct Hc as (c & _ & _ & _ & ->). done.
Qed.

Lemma passed_ttl d d' hops :
  passed_on d d' hops -> 1 < ttl (IPv4Datagram.header d') < 256 -> passed_on d (decrement_ttl d') (hops + 1).
Proof.
  intros [] Ht. split; [apply decrement_ttl_ok; [lia|done]| |done| |done].
  - eapply same_flow_trans; [done|apply decrement_flow].
  - cbn. rewrite u8_small; lia.
Qed.

(** C15: the two sides of lab 7, just started and with nothing resolved: the first
    segment that one host writes for the other is read there, in its connection or as
    the one that opens it, with the same header but for ports and checksum and the same
    payload.  It crosses the socket pair, two routers and the Internet between them, and
    three address resolutions on its way; the direction, the Ethernet addresses drawn
    and the descriptors do not matter. *)
Theorem lab7_delivers is_client draws1 draws2 frame1 frame2 internet1 internet2 bs br br' seg :
  six draws1 -> six draws2 -> base_ok bs -> sendable seg ->
  ipv4_numeric (destination (config bs)) = host_ip (negb is_client) -> hears bs br seg br' ->
  exists l1 l2 c out,
    first_segment (with_base (new_lab7 is_client draws1 frame1 internet1) bs)
      (with_base (new_lab7 (negb is_client) draws2 frame2 internet2) br) seg = Ok (l1, l2, Some out) /\
    TCPSegment.header out = TCPSegment.header (set_ports bs seg) <| TCPHeader.cksum := c |> /\
    str (TCPSegment.payload out) = str (TCPSegment.payload seg).
Proof.
  intros S1 S2 Hb Hs Hdst Hh.
  destruct (new_lab7_looks is_client draws1 frame1 internet1 bs S1) as (a1 & x1 & y1 & L1 & A1 & X1 & Y1 & B1 & Hop1 & _ & Xi1 & Yi1).
  destruct (new_lab7_looks (negb is_client) draws2 frame2 internet2 br S2) as (a2 & x2 & y2 & L2 & A2 & X2 & Y2 & B2 & _ & Ai2 & _ & Yi2).
  destruct (routes_found is_client draws1) as (e1 & R1 & I1 & H1), (own_route_found (negb is_client) draws2) as (e2 & R2 & I2 & H2).
  destruct (wrapped_ok bs seg Hb Hs) as (d & Hw & Hd & _ & Hdd & _). pose proof (wrapped_ttl _ _ _ _ Hw) as Ht.
  rewrite Hdst in Hdd.
  destruct (host_link_delivers _ _ _ _ _ _ _ seg (set_ports bs seg) d e1 L1 A1 X1)
    as (o1 & C1 & K1); [congruence|by rewrite B1|done|lia|by rewrite Hdd|done|].
  pose proof (passed_ttl _ _ _ (passed_carries _ _ _ _ (passed_start d Hd) C1)) as P1. rewrite (proj2 (carries_dst_ttl _ _ C1)) in P1.
  specialize (P1 ltac:(lia)). set (d1 := decrement_ttl o1) in *.
  destruct (blank_asks y1 y2 d1 Y1 Y2 (po_ok _ _ _ P1)) as (n1 & q1 & N1 & F1).
  destruct (K1 n1) as (l1 & a1' & x1' & HL1 & L1'); [rewrite H1; cbn; by rewrite <- Yi2|].
  destruct (internet_link_delivers _ _ _ _ _ _ _ y1 _ _ y2 _ _ d1 q1 e2 L1' L2) as (o2 & C2 & K2);
    [by repeat constructor|by repeat constructor|done|done|apply P1|rewrite (po_ttl _ _ _ P1); lia|done|done|
     by rewrite (po_dst _ _ _ P1), Hdd|done|].
  pose proof (passed_carries _ _ _ _ P1 C2) as P2. apply passed_ttl in P2; [|rewrite (po_ttl _ _ _ P2); lia]. set (d2 := decrement_ttl o2) in *.
  destruct (blank_asks x2 (lab7_interface a2) d2 X2 A2 (po_ok _ _ _ P2)) as (n2 & q2 & N2 & F2).
  destruct (K2 n2) as (l1' & l2' & y1' & y2' & HL2 & _ & L2'); [rewrite H2; cbn [from_option id]; by rewrite (po_dst _ _ _ P1), Hdd, <- Ai2|].
  destruct (router_link_delivers _ _ x2 _ _ _ _ _ d2 q2 L2' X2 A2 (po_ok _ _ _ P2) N2 F2) as (o3 & C3 & (q & Hq) & K3).
  pose proof (passed_carries _ _ _ _ P2 C3) as [(_ & Wf & _) Fl _ _ Hcat]. rewrite Hq in Wf. apply Forall_inv in Wf.
  rewrite Hq, concatenate_one in Hcat.
  destruct (unwrap_wrapped _ _ _ _ _ _ _ Hb Hs Hh Hw Fl Hq Wf Hcat) as (c & out & Hu & Hout).
  rewrite <- B2 in Hu. destruct (K3 _ _ Hu) as (l2'' & HL3). exists l1', l2'', c, out. split; [|done].
  unfold first_segment. rewrite HL1. cbn [res_bind]. rewrite HL2. cbn [res_bind]. by rewrite HL3.
Qed.

Definition opened (fd : Z) : FDWrapper := mkFDWrapper fd false false 0 0.
Definition draw_six (i : nat) : list Z := [Z.of_nat i; 1; 2; 3; 4; 5].

(** The client connects to port 1234 of the server. *)
Definition client_base : FdAdapterBase :=
  mkFdAdapterBase (mkFdAdapterConfig (mkAddress (host_ip true) 20000) (mkAddress (host_ip false) 1234) 0 0) false.
Definition server_base : FdAdapterBase :=
  mkFdAdapterBase (mkFdAdapterConfig (mkAddress 0 1234) (mkAddress 0 0) 0 0) true.

Lemma lab7_delivers_witness :
  exists l1 l2 out,
    first_segment (with_base (new_lab7 true draw_six (opened 3) (opened 4)) client_base)
      (with_base (new_lab7 false draw_six (opened 5) (opened 6)) server_base) opening = Ok (l1, l2, Some out) /\
    str (TCPSegment.payload out) = [].
Proof.
  destruct (lab7_delivers true draw_six draw_six (opened 3) (opened 5) (opened 4) (opened 6) client_base server_base
    (mkFdAdapterBase (mkFdAdapterConfig (mkAddress (host_ip false) 1234) (mkAddress (host_ip true) 20000) 0 0) false) opening)
    as (l1 & l2 & c & out & H & _ & Hp).
  - intros i. reflexivity.
  - intros i. reflexivity.
  - vm_compute. repeat split; congruence.
  - exact opening_sendable.
  - reflexivity.
  - right. repeat split.
  - exists l1, l2, out. split; [exact H|exact Hp].
Defined.
