(* ===== verification/Programs.v ===== *)
(** * The main functions

    The main functions of apps/tcp_ipv4.cc, tcp_udp.cc, tcp_ip_ethernet.cc,
    tcp_native.cc, webget.cc and lab7.cc, and of the helpers they call.  A program is a
    sequence of calls into the library, each of which returns or throws; the calls made
    so far are recorded, and what a call does is a parameter that may depend on them.
    The texts written to the standard error and the destructors at the end of a scope
    are left out. *)

From Stdlib Require Import Strings.String.
From stdpp Require Import base numbers option list.
From Stdlib Require Import ZArith Lia Strings.Byte.
From S2P Require Import Prelude.
From S2P Require Import Text.
From S2P Require Import TCPConfig.
From S2P Require Import Address.
From S2P Require Import CommandLine.
From S2P Require Import Bouncer.
#[local] Open Scope Z_scope.

Inductive act :=
| OpenTun (dev : bytes)
| OpenTap (dev : bytes)
| NewSpongeSocket
| NewUDPSocket
| NewTCPSocket
| SetReuseaddr
| Bind (a : Address)
| ListenTCP
| Accept
| ConnectTo (a : Address)
| ConnectWith (c : TCPConfig) (f : FilterConfig)
| ListenWith (c : TCPConfig) (f : FilterConfig)
| Send (a : Address) (d : bytes)
| Write (d : bytes)
| PrintAll
| StreamCopy
| Close
| Shutdown
| JoinTCP
| StartNetwork
| SetExitFlag
| JoinNetwork.

Definition EXIT_SUCCESS : Z := 0.
Definition EXIT_FAILURE : Z := 1.

Section Programs.

(** What a call does after the calls before it *)
Context (does : list act -> act -> res unit).

Definition prog (A : Type) : Type := list act -> list act * res A.
Definition pret {A} (a : A) : prog A := fun h => (h, Ok a).
Definition pbind {A B} (p : prog A) (f : A -> prog B) : prog B := fun h =>
  match p h with
  | (h, Ok a) => f a h
  | (h, Throw e) => (h, Throw e)
  end.
Definition call (a : act) : prog unit := fun h => (h ++ [a], does h a).
Definition lift {A} (r : res A) : prog A := fun h => (h, r).

#[local] Notation "x <- p ;; q" := (pbind p (fun x => q)) (at level 100, p at next level, right associativity).
#[local] Notation "p ;;; q" := (pbind p (fun _ => q)) (at level 100, right associativity).

(** [try { p } catch (const exception &e) { ... return EXIT_FAILURE; }]: the calls and
    the exit status *)
Definition try_main (p : prog Z) : list act * Z :=
  match p [] with
  | (h, Ok status) => (h, status)
  | (h, Throw _) => (h, EXIT_FAILURE)
  end.

(** [wait_until_closed()] *)
Definition wait_until_closed : prog unit := call Shutdown ;;; call JoinTCP.

(** [exit(code)], or what follows *)
Definition unless_exits {A} (o : outcome A) (f : A -> prog Z) : prog Z :=
  match o with
  | Exits code _ => pret code
  | Done a => f a
  end.

(** Connects or listens, copies the streams and waits *)
Definition serve_socket (open : prog unit) : prog Z :=
  open ;;; call StreamCopy ;;; wait_until_closed ;;; pret EXIT_SUCCESS.

Context (getaddrinfo : bytes -> bytes -> addrinfo -> Z * option (bytes * Z)).
Context (getnameinfo : bytes -> Z -> Z -> Z * bytes * bytes).
Context (loss_of : bytes -> Z).

Definition TUN_DFLT : bytes := txt "tun144".

Definition tcp_ipv4_main (draw : Z) (argv : list bytes) : list act * Z := try_main (
  if (length argv <? 3)%nat then pret EXIT_FAILURE
  else
    config <- lift (ipv4_get_config getaddrinfo getnameinfo loss_of draw argv) ;;
    unless_exits config (fun '(c_fsm, c_filt, listen, tun_dev_name) =>
      call (OpenTun (default TUN_DFLT tun_dev_name)) ;;;
      call NewSpongeSocket ;;;
      serve_socket (if listen : bool then call (ListenWith c_fsm c_filt) else call (ConnectWith c_fsm c_filt)))).

Definition tcp_udp_main (argv : list bytes) : list act * Z := try_main (
  if (length argv <? 3)%nat then pret 1
  else
    config <- lift (udp_get_config getaddrinfo loss_of argv) ;;
    unless_exits config (fun '(c_fsm, c_filt, listen) =>
      call NewUDPSocket ;;;
      (if listen : bool then call (Bind (source c_filt)) else pret tt) ;;;
      call NewSpongeSocket ;;;
      serve_socket (if listen : bool then call (ListenWith c_fsm c_filt) else call (ConnectWith c_fsm c_filt)))).

Definition tcp_ip_ethernet_main (draw : Z) (argv : list bytes) : list act * Z := try_main (
  if (length argv <? 3)%nat then pret EXIT_FAILURE
  else
    config <- lift (ethernet_get_config getaddrinfo draw argv) ;;
    unless_exits config (fun '(c_fsm, c_filt, next_hop, tap_dev_name) =>
      call (OpenTap tap_dev_name) ;;;
      call NewSpongeSocket ;;;
      serve_socket (call (ConnectWith c_fsm c_filt)))).

(** The lambda of [main] in tcp_native: one connection, accepted or made *)
Definition native_socket (server_mode : bool) (a : Address) : prog unit :=
  if server_mode then call NewTCPSocket ;;; call SetReuseaddr ;;; call (Bind a) ;;; call ListenTCP ;;; call Accept
  else call NewTCPSocket ;;; call (ConnectTo a).

Definition tcp_native_main (argv : list bytes) : list act * Z := try_main (
  mode <- lift (native_mode argv) ;;
  match mode with
  | None => pret EXIT_FAILURE
  | Some server_mode =>
      hp <- lift (native_address argv server_mode) ;;
      a <- lift (of_host getaddrinfo hp.1 hp.2) ;;
      native_socket server_mode a ;;;
      call StreamCopy ;;;
      pret EXIT_SUCCESS
  end).

(** ** webget *)

Fixpoint write_all (ds : list bytes) : prog unit :=
  match ds with
  | [] => pret tt
  | d :: ds => call (Write d) ;;; write_all ds
  end.

Definition get_URL (host path : bytes) : prog unit :=
  dest <- lift (of_host getaddrinfo host (txt "http")) ;;
  call NewSpongeSocket ;;;
  call (ConnectTo dest) ;;;
  write_all (http_request host path) ;;;
  call PrintAll ;;;
  call Close ;;;
  wait_until_closed.

Definition webget_main (argv : list bytes) : list act * Z := try_main (
  if negb (length argv =? 3)%nat then pret EXIT_FAILURE
  else
    host <- lift (arg argv 1) ;;
    path <- lift (arg argv 2) ;;
    get_URL host path ;;;
    pret EXIT_SUCCESS).

(** ** lab7 *)

(** The inner [try]: an exception of the socket is printed. *)
Definition catch (p : prog unit) : prog unit := fun h =>
  match p h with
  | (h, Ok _) => (h, Ok tt)
  | (h, Throw _) => (h, Ok tt)
  end.

(** The main thread once the network thread runs, *)
Definition use_socket (is_client : bool) : prog unit :=
  catch (
    server <- lift (of_ip getaddrinfo (txt "172.16.0.100") 1234) ;;
    (if is_client then call (ConnectTo server) else call (Bind server) ;;; call ListenTCP) ;;;
    call StreamCopy ;;;
    wait_until_closed) ;;;
  call SetExitFlag ;;;
  call JoinNetwork.

(** and all of [program_body] *)
Definition program_body (is_client : bool) (bounce_host bounce_port : bytes) : prog unit :=
  call NewUDPSocket ;;;
  bounce_address <- lift (of_host getaddrinfo bounce_host bounce_port) ;;
  call (Send bounce_address []) ;;;
  call (Send bounce_address []) ;;;
  call (Send bounce_address []) ;;;
  call NewSpongeSocket ;;;
  call StartNetwork ;;;
  use_socket is_client.

Definition lab7_main (argv : list bytes) : list act * Z := try_main (
  if negb (length argv =? 4)%nat && negb (length argv =? 5)%nat then pret EXIT_FAILURE
  else
    side <- lift (arg argv 1) ;;
    if bool_decide (side <> txt "client") && bool_decide (side <> txt "server") then pret EXIT_FAILURE
    else
      host <- lift (arg argv 2) ;;
      port <- lift (arg argv 3) ;;
      program_body (bool_decide (side = txt "client")) host port ;;;
      pret EXIT_SUCCESS).

(** ** Properties *)

Lemma pbind_ok {A B} (p : prog A) (f : A -> prog B) h h' b :
  pbind p f h = (h', Ok b) -> exists h1 a, p h = (h1, Ok a) /\ f a h1 = (h', Ok b).
Proof. unfold pbind. destruct (p h) as [h1 [a|e]]; [|done]. by exists h1, a. Qed.

Lemma called_ok a h h' u : call a h = (h', Ok u) -> h' = h ++ [a] /\ does h a = Ok tt.
Proof. unfold call. intros [= <- ->]. by destruct u. Qed.

Lemma lift_ok {A} (r : res A) h h' a : lift r h = (h', Ok a) -> h' = h /\ r = Ok a.
Proof. unfold lift. by intros [= <- ->]. Qed.

Lemma try_ok p h : try_main p = (h, EXIT_SUCCESS) -> p [] = (h, Ok EXIT_SUCCESS).
Proof. unfold try_main. destruct (p []) as [h' [n|e]]; [by intros [= <- ->]|done]. Qed.

Lemma wait_ok h h' u : wait_until_closed h = (h', Ok u) -> h' = h ++ [Shutdown; JoinTCP].
Proof.
  intros (h1 & a & [-> _]%called_ok & [-> _]%called_ok)%pbind_ok. by rewrite <- app_assoc.
Qed.

Lemma serve_ok open h h' n :
  serve_socket open h = (h', Ok n) -> n = EXIT_SUCCESS /\ exists h1 u, open h = (h1, Ok u) /\ h' = h1 ++ [StreamCopy; Shutdown; JoinTCP].
Proof.
  intros (h1 & u & Ho & (h2 & ? & [-> _]%called_ok & (h3 & ? & Hw%wait_ok & [= <- <-])%pbind_ok)%pbind_ok)%pbind_ok.
  split; [done|]. exists h1, u. split; [done|]. rewrite Hw, <- app_assoc. done.
Qed.

(** tcp_ipv4 reports success only when it was asked for help, or when it opened the
    device of the configuration, connected or listened with that configuration as the
    options say, copied the streams and waited for the connection to end, in this
    order. *)
Theorem tcp_ipv4_status draw argv h :
  tcp_ipv4_main draw argv = (h, EXIT_SUCCESS) ->
  (exists msg, ipv4_get_config getaddrinfo getnameinfo loss_of draw argv = Ok (Exits EXIT_SUCCESS msg) /\ h = []) \/
  exists c f listen dev, ipv4_get_config getaddrinfo getnameinfo loss_of draw argv = Ok (Done (c, f, listen, dev)) /\
    h = [OpenTun (default TUN_DFLT dev); NewSpongeSocket; if listen : bool then ListenWith c f else ConnectWith c f;
         StreamCopy; Shutdown; JoinTCP].
Proof.
  intros H%try_ok. revert H. destruct (length argv <? 3)%nat; [done|].
  intros (h1 & o & [-> E]%lift_ok & H)%pbind_ok. destruct o as [[[[c f] listen] dev]|code msg]; cbn [unless_exits] in H.
  - right. exists c, f, listen, dev. split; [done|].
    apply pbind_ok in H as (h1 & ? & [-> _]%called_ok & (h2 & ? & [-> _]%called_ok & (_ & h3 & u & Ho & ->)%serve_ok)%pbind_ok).
    by destruct listen; apply called_ok in Ho as [-> _].
  - left. exists msg. injection H as <- ->. done.
Qed.

(** A program only adds to the calls. *)
Definition records {A} (p : prog A) : Prop := forall h, exists h', (p h).1 = h ++ h'.

Lemma records_call a : records (call a).
Proof. intros h. by exists [a]. Qed.

Lemma records_lift {A} (r : res A) : records (lift r).
Proof. intros h. exists []. by rewrite app_nil_r. Qed.

Lemma records_bind {A B} (p : prog A) (f : A -> prog B) : records p -> (forall a, records (f a)) -> records (pbind p f).
Proof.
  intros Hp Hf h. unfold pbind. destruct (Hp h) as [h' E]. destruct (p h) as [h1 [a|e]]; cbn in E; subst h1; [|by exists h'].
  destruct (Hf a (h ++ h')) as [h'' ->]. exists (h' ++ h''). by rewrite app_assoc.
Qed.

Lemma records_wait : records wait_until_closed.
Proof. apply records_bind; auto using records_call. Qed.

(** Whatever happens to the connection of lab7, also when it throws, the network thread
    is told to end and joined. *)
Theorem lab7_joins_network is_client h :
  (forall h, does h SetExitFlag = Ok tt) ->
  exists h' r, use_socket is_client h = (h ++ h' ++ [SetExitFlag; JoinNetwork], r).
Proof.
  intros Hf. unfold use_socket. match goal with |- context [pbind (catch ?p) _ h] => assert (R : records p); [|set (q := p) in *] end.
  { repeat (apply records_bind; [|intros ?]); auto using records_call, records_lift, records_wait.
    destruct is_client; auto using records_call, records_bind. }
  destruct (R h) as [h' E]. exists h'. unfold pbind at 1, catch. destruct (q h) as [h1 [a|e]]; cbn in E; subst h1;
    unfold pbind, call; rewrite Hf; rewrite <- !app_assoc; cbn [app]; by eexists.
Qed.

(** As shutdown(2) documents: a descriptor that is closed is not a valid one. *)
Definition shutdown_after_close : Prop := forall h, In Close h -> exists e, does h Shutdown = Throw e.

(** webget closes its socket before it waits for the connection: the [shutdown] on
    the closed descriptor throws, so that webget reports failure even when everything
    was fetched and printed. *)
Theorem webget_reports_failure argv : shutdown_after_close -> (webget_main argv).2 = EXIT_FAILURE.
Proof.
  intros Hk. unfold webget_main, try_main. destruct (negb _); [done|].
  destruct (pbind _ _ []) as [h [n|e]] eqn:H; [|done]. exfalso.
  apply pbind_ok in H as (h1 & host & _ & (h2 & path & _ & (h3 & u & H & _)%pbind_ok)%pbind_ok).
  apply pbind_ok in H as (h4 & dest & _ & (h5 & ? & _ & (h6 & ? & _ & (h7 & ? & _ & (h8 & ? & _ & H)%pbind_ok)%pbind_ok)%pbind_ok)%pbind_ok).
  apply pbind_ok in H as (h9 & ? & [-> _]%called_ok & (h10 & ? & [_ Hs]%called_ok & _)%pbind_ok).
  destruct (Hk (h8 ++ [Close])) as [e He]; [apply in_or_app; right; by left|]. congruence.
Qed.

End Programs.
