(* ===== verification/Doctests.v ===== *)
(** * The examples of the documentation

    The programs under src/doctests, whose bodies are the code samples of the
    documentation: the parser example, the addresses and the three socket examples.
    The system calls are a parameter [Kernel] that acts on a state of its own; the
    destructors at the end of a scope are left out. *)

From Stdlib Require Import Strings.String.
From stdpp Require Import base list numbers option.
From Stdlib Require Import ZArith Lia Strings.Byte.
From S2P Require Import Prelude.
From S2P Require Import Text.
From S2P Require Import Buffer.
From S2P Require Import Parser.
From S2P Require Import FileDescriptor.
From S2P Require Import Address.
From S2P Require Import Socket.
From S2P Require Import Programs.
#[local] Open Scope Z_scope.

(** [try { ... } catch (...) { return EXIT_FAILURE; } return EXIT_SUCCESS;] *)
Definition exit_status {A} (r : res A) : Z :=
  match r with
  | Ok _ => EXIT_SUCCESS
  | Throw _ => EXIT_FAILURE
  end.

(** ** The parser *)

Definition example_bytes (val1 val2 val3 val4 : Z) : bytes :=
  let buffer := [x32] in
  let buffer := unparse_u32 buffer val1 in
  let buffer := unparse_u16 buffer val2 in
  let buffer := unparse_u8 buffer val3 in
  unparse_u32 buffer val4.

Definition example_values (buffer : bytes) : res (Z * Z * Z * Z * Z) :=
  let p := parser_of (of_string buffer) in
  let* (out0, p) := parse_u8 p in
  let* (out1, p) := parse_u32 p in
  let* (out2, p) := parse_u16 p in
  let* (out3, p) := parse_u8 p in
  let* (out4, _) := parse_u32 p in
  Ok (out0, out1, out2, out3, out4).

(** parser_example.cc, for any values *)
Definition parser_example (val1 val2 val3 val4 : Z) : res unit :=
  let* (out0, out1, out2, out3, out4) := example_values (example_bytes val1 val2 val3 val4) in
  if negb (out0 =? 50) || negb (out1 =? val1) || negb (out2 =? val2) || negb (out3 =? val3) || negb (out4 =? val4)
  then Throw runtime_error else Ok tt.

Definition parser_dt_main : Z := exit_status (parser_example 0xdeadbeef 0xc0c0 0xff 0x0c05fefe).

(** ** Addresses *)

Section Addresses.

Context (getaddrinfo : bytes -> bytes -> addrinfo -> Z * option (bytes * Z)).
Context (getnameinfo : bytes -> Z -> Z -> Z * bytes * bytes).

Definition google_webserver : res Address := of_host getaddrinfo (txt "www.google.com") (txt "https").
Definition a_dns_server : res Address := of_ip getaddrinfo (txt "18.71.0.151") 53.
Definition a_dns_server_numeric (a_dns_server : Address) : res Z := ipv4_numeric a_dns_server.

Definition address_dt_main : Z := exit_status (
  let* google_webserver := google_webserver in
  let* a_dns_server := a_dns_server in
  let* a_dns_server_numeric := a_dns_server_numeric a_dns_server in
  let* p := port getnameinfo google_webserver in
  if negb (p =? 443) || negb (a_dns_server_numeric =? 0x12470097) then Throw runtime_error else Ok tt).

End Addresses.

(** ** Sockets *)

(** The system calls of the socket examples: what they answer, what they write into
    memory, and the kernel afterwards.  An address is given as its raw bytes. *)
Record Kernel (K : Type) := mkKernel {
  sys_socket : K -> Z -> Z -> answer * K;
  sys_socketpair : K -> answer * (Z * Z) * K;
  sys_getsockopt : K -> Z -> option_answers;
  sys_bind : K -> Z -> Address -> answer * K;
  sys_listen : K -> Z -> Z -> answer * K;
  sys_connect : K -> Z -> Address -> answer * K;
  sys_accept : K -> Z -> answer * K;
  sys_sendmsg : K -> Z -> option Address -> list (bytes * Z) -> answer * K;
  sys_recvfrom : K -> Z -> Z -> answer * bytes * (bytes * Z) * K;
  sys_read : K -> Z -> Z -> answer * bytes * K;
  sys_writev : K -> Z -> list (bytes * Z) -> Z * Z * K;
  sys_close : K -> Z -> answer * K;
  sys_shutdown : K -> Z -> Z -> answer * K;
}.
Arguments sys_socket {K}. Arguments sys_socketpair {K}. Arguments sys_getsockopt {K}. Arguments sys_bind {K}.
Arguments sys_listen {K}. Arguments sys_connect {K}. Arguments sys_accept {K}. Arguments sys_sendmsg {K}.
Arguments sys_recvfrom {K}. Arguments sys_read {K}. Arguments sys_writev {K}. Arguments sys_close {K}. Arguments sys_shutdown {K}.

Section Sockets.

Context {K : Type} (kernel : Kernel K) (getaddrinfo : bytes -> bytes -> addrinfo -> Z * option (bytes * Z)).

(** The operations of the library with their system calls *)
Definition open_socket (k : K) (type : Z) : res (FDWrapper * K) :=
  let '(a, k) := sys_socket kernel k AF_INET type in
  let* s := new_socket a in Ok (s, k).

Definition bind_to (k : K) (s : FDWrapper) (a : Address) : res K :=
  let '(r, k) := sys_bind kernel k (fd_num s) a in
  let* _ := bind r in Ok k.

Definition listen_on (k : K) (s : FDWrapper) (backlog : Z) : res K :=
  let '(r, k) := sys_listen kernel k (fd_num s) backlog in
  let* _ := listen r in Ok k.

Definition connect_to (k : K) (s : FDWrapper) (a : Address) : res K :=
  let '(r, k) := sys_connect kernel k (fd_num s) a in
  let* _ := connect r in Ok k.

Definition accept_from (k : K) (s : FDWrapper) : res (FDWrapper * FDWrapper * K) :=
  let '(r, k) := sys_accept kernel k (fd_num s) in
  let o := sys_getsockopt kernel k (ret r) in
  let* (s, s') := accept s r (domain_answer o) (actual_domain o) (domain_len o) (type_answer o) (actual_type o) (type_len o) in
  Ok (s, s', k).

Definition send_to (k : K) (s : FDWrapper) (a : Address) (payload : bytes) : res (FDWrapper * K) :=
  let* s' := sendto s (fun iov => fst (sys_sendmsg kernel k (fd_num s) (Some a) iov)) (view_of_string payload) in
  Ok (s', snd (sys_sendmsg kernel k (fd_num s) (Some a) (as_iovecs (view_of_string payload)))).

Definition send_connected (k : K) (s : FDWrapper) (payload : bytes) : res (FDWrapper * K) :=
  let* s' := send s (fun iov => fst (sys_sendmsg kernel k (fd_num s) None iov)) (view_of_string payload) in
  Ok (s', snd (sys_sendmsg kernel k (fd_num s) None (as_iovecs (view_of_string payload)))).

(** [recv()], with the default [mtu] *)
Definition recv_default (k : K) (s : FDWrapper) : res (FDWrapper * received_datagram * K) :=
  let '(a, filled, (from, fromlen), k) := sys_recvfrom kernel k (fd_num s) 65536 in
  let* (s, d) := recv s 65536 a filled from fromlen in Ok (s, d, k).

(** [read()], with the default limit *)
Definition read_default (k : K) (s : FDWrapper) : res (FDWrapper * bytes * K) :=
  let '(a, filled, k) := sys_read kernel k (fd_num s) BUFFER_SIZE in
  let* (s, d) := read s 18446744073709551615 (ret a) (errno a) filled in Ok (s, d, k).

Definition write_default (k : K) (s : FDWrapper) (d : bytes) : res (FDWrapper * K) :=
  let* (s, k, _) := write (sys_writev kernel) s k (view_of_string d) true in Ok (s, k).

Definition close_socket (k : K) (s : FDWrapper) : res (FDWrapper * K) :=
  let '(a, k) := sys_close kernel k (fd_num s) in
  let* s := close s (ret a) (errno a) in Ok (s, k).

Definition shutdown_socket (k : K) (s : FDWrapper) (how : Z) : res (FDWrapper * K) :=
  let '(a, k) := sys_shutdown kernel k (fd_num s) how in
  let* s := shutdown s how a in Ok (s, k).

(** [((std::random_device()()) % 50000) + 1025] *)
Definition random_port (random : Z) : Z := u16 (random mod 50000 + 1025).

Definition hi_there : bytes := txt "hi there".
Definition hi_yourself : bytes := txt "hi yourself".

(** The test at the end of each example *)
Definition as_expected (recvd recvd2 : bytes) (k : K) : res K :=
  if negb (bool_decide (recvd = hi_there)) || negb (bool_decide (recvd2 = hi_yourself)) then Throw runtime_error else Ok k.

Definition socket_example_1 (random : Z) (k : K) : res K :=
  let portnum := random_port random in
  let* (sock1, k) := open_socket k SOCK_DGRAM in
  let* a := of_ip getaddrinfo (txt "127.0.0.1") portnum in
  let* k := bind_to k sock1 a in
  let* (sock2, k) := open_socket k SOCK_DGRAM in
  let* a := of_ip getaddrinfo (txt "127.0.0.1") portnum in
  let* (sock2, k) := send_to k sock2 a hi_there in
  let* (sock1, recvd, k) := recv_default k sock1 in
  let* k := connect_to k sock1 (source_address recvd) in
  let* (sock1, k) := send_connected k sock1 hi_yourself in
  let* (sock2, recvd2, k) := recv_default k sock2 in
  as_expected (payload recvd) (payload recvd2) k.

Definition socket_example_2 (random : Z) (k : K) : res K :=
  let portnum := random_port random in
  let* (sock1, k) := open_socket k SOCK_STREAM in
  let* a := of_ip getaddrinfo (txt "127.0.0.1") portnum in
  let* k := bind_to k sock1 a in
  let* k := listen_on k sock1 1 in
  let* (sock2, k) := open_socket k SOCK_STREAM in
  let* a := of_ip getaddrinfo (txt "127.0.0.1") portnum in
  let* k := connect_to k sock2 a in
  let* (sock1, sock3, k) := accept_from k sock1 in
  let* (sock3, k) := write_default k sock3 hi_there in
  let* (sock2, recvd, k) := read_default k sock2 in
  let* (sock2, k) := write_default k sock2 hi_yourself in
  let* (sock3, recvd2, k) := read_default k sock3 in
  let* (sock1, k) := close_socket k sock1 in
  let* (sock2, k) := close_socket k sock2 in
  let* (sock3, k) := shutdown_socket k sock3 SHUT_RDWR in
  as_expected recvd recvd2 k.

Definition socket_example_3 (k : K) : res K :=
  let '(a, (fd0, fd1), k) := sys_socketpair kernel k in
  let* _ := Socket.call a in
  let* w := FileDescriptor.new fd0 in
  let* pipe1 := local_stream_socket w (sys_getsockopt kernel k fd0) in
  let* w := FileDescriptor.new fd1 in
  let* pipe2 := local_stream_socket w (sys_getsockopt kernel k fd1) in
  let* (pipe1, k) := write_default k pipe1 hi_there in
  let* (pipe2, recvd, k) := read_default k pipe2 in
  let* (pipe2, k) := write_default k pipe2 hi_yourself in
  let* (pipe1, recvd2, k) := read_default k pipe1 in
  as_expected recvd recvd2 k.

Definition socket_dt_main (random1 random2 : Z) (k : K) : Z := exit_status (
  let* k := socket_example_1 random1 k in
  let* k := socket_example_2 random2 k in
  socket_example_3 k).

End Sockets.

(** ** What the examples rely on *)

(** Connected stream sockets on one machine that take what they are given at once:
    [inbox k fd] is what has been written to [fd] and not read yet. *)
Class StreamPair {K : Type} (kernel : Kernel K) (joined : K -> Z -> Z -> Prop) (inbox : K -> Z -> bytes) : Prop := {
  pair_opens k : exists e f g k', sys_socketpair kernel k = (mkAnswer 0 e, (f, g), k') /\ 0 <= f /\ 0 <= g /\
    joined k' f g /\ inbox k' f = [] /\ inbox k' g = [];
  pair_sym k f g : joined k f g -> joined k g f;
  pair_type k f g : joined k f g -> exists e e', sys_getsockopt kernel k f = mkOptions (mkAnswer 0 e) AF_UNIX 4 (mkAnswer 0 e') SOCK_STREAM 4;
  pair_writes k f g vs : joined k f g -> len (concat vs) < 4096 ->
    exists e k', sys_writev kernel k f (as_iovecs vs) = (len (concat vs), e, k') /\ joined k' f g /\
      inbox k' g = inbox k g ++ concat vs /\ inbox k' f = inbox k f;
  pair_reads k f g n : joined k f g -> inbox k f <> [] -> len (inbox k f) <= n ->
    exists e k', sys_read kernel k f n = (mkAnswer (len (inbox k f)) e, inbox k f, k') /\ joined k' f g /\
      inbox k' f = [] /\ inbox k' g = inbox k g;
}.

Section Pair.

Context {K : Type} (kernel : Kernel K) (joined : K -> Z -> Z -> Prop) (inbox : K -> Z -> bytes) {P : StreamPair kernel joined inbox}.

Lemma pair_socket k f g w : joined k f g -> local_stream_socket w (sys_getsockopt kernel k f) = Ok w.
Proof. intros J. destruct (pair_type k f g J) as (e & e' & ->). done. Qed.

Lemma pair_write k w g d :
  joined k (fd_num w) g -> 0 < len d < 4096 ->
  exists w' k', write_default kernel k w d = Ok (w', k') /\ fd_num w' = fd_num w /\ joined k' (fd_num w) g /\
    inbox k' g = inbox k g ++ d /\ inbox k' (fd_num w) = inbox k (fd_num w).
Proof.
  intros J Hd. assert (C : concat (view_of_string d) = d) by apply app_nil_r.
  destruct (pair_writes k _ g (view_of_string d) J) as (e & k' & W & J' & I1 & I2); rewrite ?C in *; [lia|].
  exists (register_write w), k'. split; [|done]. unfold write_default, write.
  assert (E : write_once (sys_writev kernel) w k (view_of_string d) = Ok (register_write w, k', [], len d)).
  { unfold write_once. rewrite W. unfold SystemCall. rewrite (proj2 (Z.leb_le 0 (len d))), view_size_ok, C by (rewrite ?C; lia). cbn [orb res_bind].
    rewrite Z.ltb_irrefl, (proj2 (Z.eqb_neq (len d) 0)) by lia. cbn [andb view_remove_prefix view_of_string].
    by rewrite (proj2 (Z.ltb_lt 0 (len d))), Z.ltb_irrefl, Z.sub_diag by lia. }
  destruct (Z.to_nat _); cbn [write_loop]; by rewrite E.
Qed.

Lemma pair_read k w g :
  joined k (fd_num w) g -> 0 < len (inbox k (fd_num w)) < 4096 ->
  exists w' k', read_default kernel k w = Ok (w', inbox k (fd_num w), k') /\ fd_num w' = fd_num w /\ joined k' (fd_num w) g /\
    inbox k' (fd_num w) = [] /\ inbox k' g = inbox k g.
Proof.
  intros J Hl. assert (Hn : inbox k (fd_num w) <> []) by (intros E; rewrite E in Hl; by destruct Hl).
  destruct (pair_reads k _ g BUFFER_SIZE J Hn) as (e & k' & R & J' & I1 & I2); [unfold BUFFER_SIZE; lia|].
  exists (register_read w), k'. split; [|done]. unfold read_default. rewrite R. unfold read, SystemCall, BUFFER_SIZE. cbn [ret errno].
  rewrite (proj2 (Z.leb_le 0 _)) by lia. cbn [orb res_bind]. rewrite (proj2 (Z.eqb_neq _ 0)), andb_false_r, (proj2 (Z.ltb_ge _ _)) by lia.
  cbn [res_bind]. unfold prefix_str. by rewrite take_ge by (unfold len; lia).
Qed.

End Pair.

(** ** Properties *)

(** The parser example reads back what it wrote, for all values of the four fields. *)
Theorem parser_example_reads val1 val2 val3 val4 :
  0 <= val1 < 4294967296 -> 0 <= val2 < 65536 -> 0 <= val3 < 256 -> 0 <= val4 < 4294967296 ->
  parser_example val1 val2 val3 val4 = Ok tt.
Proof.
  intros H1 H2 H3 H4. unfold parser_example, example_values, example_bytes, unparse_u32, unparse_u16, unparse_u8.
  rewrite !_unparse_int_be, <- !app_assoc. set (l := [x32] ++ _).
  assert (P0 : parses (parser_of (of_string l)) (be_bytes 1 50 ++ be_bytes 4 val1 ++ be_bytes 2 val2 ++ be_bytes 1 val3 ++ be_bytes 4 val4 ++ [])).
  { rewrite app_nil_r. apply (parses_of_string l). unfold l. by rewrite !len_app, !len_be_bytes. }
  unfold parse_u8, parse_u32, parse_u16.
  destruct (parse_unparsed 1 _ 50 _ P0 ltac:(done)) as (p1 & -> & P1). cbn [res_bind].
  destruct (parse_unparsed 4 _ val1 _ P1 H1) as (p2 & -> & P2). cbn [res_bind].
  destruct (parse_unparsed 2 _ val2 _ P2 H2) as (p3 & -> & P3). cbn [res_bind].
  destruct (parse_unparsed 1 _ val3 _ P3 H3) as (p4 & -> & P4). cbn [res_bind].
  destruct (parse_unparsed 4 _ val4 _ P4 H4) as (p5 & -> & _). cbn [res_bind]. by rewrite !Z.eqb_refl.
Qed.

(** With a resolver that knows numbers and the service https, the address example
    succeeds whatever address the name has. *)
Theorem address_dt_succeeds getaddrinfo getnameinfo a :
  resolves_numbers getaddrinfo -> names_numbers getnameinfo -> 0 <= a < 4294967296 ->
  getaddrinfo (txt "www.google.com") (txt "https") (make_hints AI_ALL AF_INET) = (0, Some (sockaddr_in 443 a, sockaddr_in_size)) ->
  address_dt_main getaddrinfo getnameinfo = EXIT_SUCCESS.
Proof.
  intros Hr Hn Ha Hg. unfold address_dt_main, google_webserver, of_host, of_name at 1. rewrite Hg. cbn [negb Z.eqb]. rewrite of_sockaddr_in. cbn [res_bind].
  unfold a_dns_server, a_dns_server_numeric, of_ip, of_name. change (txt "18.71.0.151") with (dotted 0x12470097). rewrite Hr by done. cbn [negb Z.eqb]. rewrite of_sockaddr_in. cbn [res_bind].
  rewrite inet_numeric by done. cbn [res_bind]. unfold port, ip_port, inet_address. cbn [_address _size]. rewrite Hn by done. cbn [negb Z.eqb].
  by rewrite stoi_to_string by done.
Qed.

(** Over any kernel whose socket pairs take and give small messages whole, both ends
    of the third example read what the other wrote. *)
Theorem socket_example_3_succeeds {K} (kernel : Kernel K) joined inbox k :
  StreamPair kernel joined inbox -> exists k', socket_example_3 kernel k = Ok k'.
Proof.
  intros P. unfold socket_example_3. destruct (pair_opens k) as (e & f & g & k0 & -> & Hf & Hg & J & I1 & I2). cbn [Socket.call SystemCall ret errno Z.leb orb res_bind].
  unfold FileDescriptor.new. rewrite (proj2 (Z.ltb_ge f 0)), (proj2 (Z.ltb_ge g 0)) by done. cbn [res_bind].
  set (w1 := mkFDWrapper f _ _ _ _). set (w2 := mkFDWrapper g _ _ _ _).
  rewrite (pair_socket kernel joined inbox k0 f g) by done. cbn [res_bind].
  rewrite (pair_socket kernel joined inbox k0 g f) by (by apply pair_sym). cbn [res_bind].
  destruct (pair_write kernel joined inbox k0 w1 g hi_there J ltac:(done)) as (w3 & k1 & -> & F3 & J1 & I3 & I4). cbn [res_bind].
  rewrite I2 in I3. apply pair_sym in J1. destruct (pair_read kernel joined inbox k1 w2 f J1) as (w4 & k2 & -> & F4 & J2 & I5 & I6); [change (fd_num w2) with g; by rewrite I3|].
  change (fd_num w1) with f in *. change (fd_num w2) with g in *. cbn [res_bind]. rewrite I3. rewrite <- F4 in J2.
  destruct (pair_write kernel joined inbox k2 w4 f hi_yourself J2 ltac:(done)) as (w5 & k3 & -> & F5 & J3 & I7 & I8). cbn [res_bind].
  rewrite I6, I4, I1 in I7. rewrite F4 in J3. apply pair_sym in J3. rewrite <- F3 in J3, I7.
  destruct (pair_read kernel joined inbox k3 w3 g J3) as (w6 & k4 & -> & _); [by rewrite I7|]. cbn [res_bind]. rewrite I7. by eexists.
Qed.

(** ** A machine with sockets on its own loopback device *)

Record entry := mkEntry {
  domain : Z;
  type : Z;
  name : bytes;
  peer : option nat;
  stream : bytes;
  datagrams : list (bytes * bytes);
  backlog : list nat;
}.
#[local] Instance entry_eta : RecordEta entry := fun e =>
  mkEntry (domain e) (type e) (name e) (peer e) (stream e) (datagrams e) (backlog e).

(** The sockets by descriptor *)
#[local] Notation machine := (list entry).

Definition EBADF : answer := mkAnswer (-1) 9.
Definition ECONNREFUSED : answer := mkAnswer (-1) 111.
Definition done0 : answer := mkAnswer 0 0.
Definition raw (a : Address) : bytes := take (Z.to_nat (_size a)) (_address a).

Definition fresh (m : machine) (domain type : Z) (peer : option nat) : entry :=
  mkEntry domain type (sockaddr_in (60000 + len m) 0x7f000001) peer [] [] [].

Definition on (m : machine) (fd : Z) (f : entry -> entry) : machine := alter f (Z.to_nat fd) m.

(** The socket of a type with a name *)
Definition named (m : machine) (t : Z) (n : bytes) : option nat :=
  fst <$> list_find (fun e => type e = t /\ name e = n) m.

Definition m_connect (m : machine) (fd : Z) (a : Address) : answer * machine :=
  match m !! Z.to_nat fd with
  | None => (EBADF, m)
  | Some e =>
      match named m (type e) (raw a) with
      | None => (ECONNREFUSED, m)
      | Some i =>
          if type e =? SOCK_DGRAM then (done0, on m fd (fun e => e <| peer := Some i |>))
          else
            let new := fresh m (domain e) (type e) (Some (Z.to_nat fd)) in
            let m := on m fd (fun e => e <| peer := Some (length m) |>) in
            let m := alter (fun l => l <| backlog := backlog l ++ [length m] |>) i m in
            (done0, m ++ [new])
      end
  end.

Definition m_accept (m : machine) (fd : Z) : answer * machine :=
  match backlog <$> m !! Z.to_nat fd with
  | Some (i :: rest) => (mkAnswer (Z.of_nat i) 0, on m fd (fun e => e <| backlog := rest |>))
  | _ => (EBADF, m)
  end.

Definition m_sendmsg (m : machine) (fd : Z) (to : option Address) (iov : list (bytes * Z)) : answer * machine :=
  match m !! Z.to_nat fd with
  | None => (EBADF, m)
  | Some e =>
      match match to with Some a => named m (type e) (raw a) | None => peer e end with
      | None => (ECONNREFUSED, m)
      | Some i =>
          let d := concat (map fst iov) in
          (mkAnswer (len d) 0, alter (fun r => r <| datagrams := datagrams r ++ [(name e, d)] |>) i m)
      end
  end.

Definition m_recvfrom (m : machine) (fd mtu : Z) : answer * bytes * (bytes * Z) * machine :=
  match datagrams <$> m !! Z.to_nat fd with
  | Some ((from, d) :: rest) =>
      (mkAnswer (len d) 0, take (Z.to_nat mtu) d, (from, len from), on m fd (fun e => e <| datagrams := rest |>))
  | _ => (EBADF, [], ([], 0), m)
  end.

Definition m_read (m : machine) (fd n : Z) : answer * bytes * machine :=
  match m !! Z.to_nat fd with
  | None => (EBADF, [], m)
  | Some e =>
      let d := take (Z.to_nat n) (stream e) in
      (mkAnswer (len d) 0, d, on m fd (fun e => e <| stream := drop (Z.to_nat n) (stream e) |>))
  end.

Definition m_writev (m : machine) (fd : Z) (iov : list (bytes * Z)) : Z * Z * machine :=
  match m !! Z.to_nat fd ≫= peer with
  | None => (-1, 32, m)
  | Some i =>
      let d := concat (map fst iov) in
      (len d, 0, alter (fun e => e <| stream := stream e ++ d |>) i m)
  end.

Definition machine_kernel : Kernel machine := mkKernel machine
  (fun m domain type => (mkAnswer (len m) 0, m ++ [fresh m domain type None]))
  (fun m => (done0, (len m, len m + 1),
    m ++ [fresh m AF_UNIX SOCK_STREAM (Some (S (length m))); fresh m AF_UNIX SOCK_STREAM (Some (length m))]))
  (fun m fd =>
    match m !! Z.to_nat fd with
    | Some e => mkOptions done0 (domain e) 4 done0 (type e) 4
    | None => mkOptions EBADF 0 0 EBADF 0 0
    end)
  (fun m fd a => (done0, on m fd (fun e => e <| name := raw a |>)))
  (fun m fd n => (done0, m))
  m_connect m_accept m_sendmsg m_recvfrom m_read m_writev
  (fun m fd => (done0, m))
  (fun m fd how => (done0, m)).

(** All three programs succeed. *)
Example doctests_succeed :
  parser_dt_main = EXIT_SUCCESS /\ socket_dt_main machine_kernel numeric_getaddrinfo 123456789 987654321 [] = EXIT_SUCCESS.
Proof. split; vm_compute; reflexivity. Qed.

Definition m_joined (m : machine) (f g : Z) : Prop :=
  0 <= f /\ 0 <= g /\ f <> g /\ exists e e', m !! Z.to_nat f = Some e /\ m !! Z.to_nat g = Some e' /\
    domain e = AF_UNIX /\ type e = SOCK_STREAM /\ peer e = Some (Z.to_nat g) /\
    domain e' = AF_UNIX /\ type e' = SOCK_STREAM /\ peer e' = Some (Z.to_nat f).

Definition m_inbox (m : machine) (f : Z) : bytes := from_option stream [] (m !! Z.to_nat f).

(** A change of the bytes waiting at one end keeps the pair. *)
Lemma m_joined_alter m f g i h :
  m_joined m f g -> m_joined (alter (fun e => e <| stream := h (stream e) |>) i m) f g.
Proof.
  assert (K : forall j e, m !! j = Some e -> exists e', alter (fun e => e <| stream := h (stream e) |>) i m !! j = Some e' /\
    domain e' = domain e /\ type e' = type e /\ peer e' = peer e).
  { intros j e Hj. destruct (decide (i = j)) as [->|Hn].
    - rewrite list_lookup_alter_eq, Hj. by eexists.
    - rewrite list_lookup_alter_ne by done. by exists e. }
  intros (Hf & Hg & Hn & e & e' & (e1 & A1 & A2 & A3 & A4)%K & (e2 & B1 & B2 & B3 & B4)%K & J).
  split; [done|]. split; [done|]. split; [done|]. exists e1, e2. by rewrite A2, A3, A4, B2, B3, B4.
Qed.

Lemma m_inbox_alter m f g h :
  0 <= f -> 0 <= g -> f <> g ->
  m_inbox (alter (fun e => e <| stream := h (stream e) |>) (Z.to_nat g) m) f = m_inbox m f.
Proof. intros. unfold m_inbox. by rewrite list_lookup_alter_ne by lia. Qed.

Lemma m_inbox_alter_same m g h e :
  m !! Z.to_nat g = Some e -> m_inbox (alter (fun e => e <| stream := h (stream e) |>) (Z.to_nat g) m) g = h (stream e).
Proof. intros E. unfold m_inbox. by rewrite list_lookup_alter_eq, E. Qed.

#[local] Instance machine_pairs : StreamPair machine_kernel m_joined m_inbox.
Proof.
  split.
  - intros m. exists 0, (len m), (len m + 1). eexists. split; [reflexivity|]. unfold m_joined, m_inbox, len.
    replace (Z.to_nat (Z.of_nat (length m) + 1)) with (length m + 1)%nat by lia. rewrite Nat2Z.id.
    rewrite !(lookup_app_r m) by lia. rewrite Nat.sub_diag, Nat.add_comm, Nat.add_sub.
    cbn. split_and!; try lia; try done. eexists _, _. done.
  - intros m f g (Hf & Hg & Hn & e & e' & J1 & J2 & J3 & J4 & J5 & J6 & J7 & J8). split; [done|]. split; [done|]. split; [done|]. by exists e', e.
  - intros m f g (_ & _ & _ & e & e' & J1 & _ & J3 & J4 & _). exists 0, 0. cbn. by rewrite J1, J3, J4.
  - intros m f g vs J Hl. pose proof J as (Hf & Hg & Hn & e & e' & J1 & J2 & _ & _ & J5 & _). exists 0. eexists.
    cbn [sys_writev machine_kernel]. unfold m_writev. rewrite J1. cbn [mbind option_bind]. rewrite J5, as_iovecs_fst.
    split; [reflexivity|]. split; [by apply (m_joined_alter _ _ _ _ (fun s => s ++ concat vs))|]. split; [|by apply (m_inbox_alter _ _ _ (fun s => s ++ concat vs))].
    rewrite (m_inbox_alter_same _ _ (fun s => s ++ concat vs) e' J2). unfold m_inbox. by rewrite J2.
  - intros m f g n J _ Hl. pose proof J as (Hf & Hg & Hn & e & e' & J1 & J2 & _). unfold m_inbox in Hl. rewrite J1 in Hl. cbn in Hl. exists 0. eexists.
    cbn [sys_read machine_kernel]. unfold m_read, m_inbox at 1 2. rewrite J1. cbn [from_option]. rewrite take_ge by (unfold len in Hl; lia).
    split; [reflexivity|]. split; [by apply (m_joined_alter _ _ _ _ (drop (Z.to_nat n)))|]. split; [|by apply (m_inbox_alter _ _ _ (drop (Z.to_nat n)))].
    unfold on. rewrite (m_inbox_alter_same _ _ (drop (Z.to_nat n)) e J1). rewrite drop_ge; [done|]. unfold len in Hl; lia.
Qed.

(** ** Witnesses *)

Lemma parser_example_reads_witness : parser_example 1 2 3 4294967295 = Ok tt.
Proof. apply parser_example_reads; lia. Defined.

(** A resolver that also knows one name. *)
Definition naming_getaddrinfo (node service : bytes) (hints : addrinfo) : Z * option (bytes * Z) :=
  if bool_decide (node = txt "www.google.com") then (0, Some (sockaddr_in 443 0x08080808, sockaddr_in_size))
  else numeric_getaddrinfo node service hints.

Lemma address_dt_succeeds_witness : address_dt_main numeric_getaddrinfo numeric_getnameinfo = EXIT_FAILURE /\
  address_dt_main naming_getaddrinfo numeric_getnameinfo = EXIT_SUCCESS.
Proof.
  split; [vm_compute; reflexivity|]. apply (address_dt_succeeds _ _ 0x08080808); [|exact numeric_names|lia|reflexivity].
  intros a p Ha Hp. unfold naming_getaddrinfo. rewrite bool_decide_eq_false_2; [by apply numeric_resolves|].
  intros E. pose proof (dotted_roundtrip a Ha) as D. rewrite E in D. vm_compute in D. discriminate.
Defined.

Lemma socket_example_3_succeeds_witness : exists k, socket_example_3 machine_kernel [] = Ok k.
Proof. exact (socket_example_3_succeeds machine_kernel m_joined m_inbox [] machine_pairs). Defined.
